(* ===== verification/_CoqProject ===== *)
-Q . S2P
Prelude.v
GoMonad.v
Codec.v
Keys.v
Segments.v
SegmentID.v
Types.v
Tx.v
TxStore.v
Fr.v
StateTypes.v
Concrete.v
State.v
Roles.v
Chunks.v
Orders.v
Challenge.v
Pay.v
Validate.v
Block.v
Scenario.v
Handlers.v
Frame.v
Chain.v
OrderScenario.v
Lift.v
RoleHistory.v
OrderHistory.v
EpochHistory.v
ChunkHistory.v
Income.v
ChainProps.v
Restart.v
Propose.v
Divergence.v
StateApi.v
StateSaved.v
HotStuff.v
HotStuffSafety.v
HotStuffLive.v
HotStuffFork.v
HotStuffRuns.v
RoleMgr.v
SyncPool.v
SyncPoolProps.v
SyncPoolLive.v
PushPool.v
PushPoolProps.v
InPool.v
InPoolProps.v
KeeperNode.v
PoolRuns.v
Restrict.v
ProOrder.v
ProOrderProps.v
ProNode.v
ProRestart.v
ProRuns.v
UserOrder.v
UserSend.v
UserProps.v
UserChain.v
UserRuns.v
Coder.v
CoderProps.v
CoderRuns.v
UserJobs.v
UserJobsProps.v
UserJobsRuns.v
Aes.v
Lfs.v
LfsProps.v
LfsData.v
LfsRead.v
LfsWrite.v
LfsChunks.v
LfsRefine.v
LfsRuns.v
