(* ===== verification/Prelude.v ===== *)
(** * A verification development of go-mefs-v2

    go-mefs-v2 is a node of a decentralised storage system.  Users buy storage
    from providers by signed orders; keepers agree on blocks of messages that
    record the orders, the data added to them, the challenge proofs of the
    providers and the incomes they earn.  Every node applies the same blocks to
    the same state machine.  The development models that state machine, the data
    it is about, the pools and the store that feed it, the consensus that makes
    the blocks, the service with which a provider takes orders, and on the side of
    the user the erasure code, the file system and the service that places orders
    and sends the data, and proves what makes each of them correct.

    ** Parts and files

    Foundations
    - [Prelude]: machine integers with their wrap-around, byte strings,
      big-endian encoding, generic lemmas.
    - [GoMonad]: state passing with Go's outcomes (value, error, panic); the
      tactics [go_inv] and [keeps]; [Keeps], [Preserves], [wpx] and [runs], the
      four ways the theorems speak of a computation; [zoom] for embedded structs.
    - [Codec], [Keys]: the serialisation libraries as an interface, and
      [lib/types/store/key.go].

    Data ([lib/types], [lib/tx], [lib/segment], [lib/crypto])
    - [Segments]: the three run-length queues of [lib/types/segment.go].
    - [SegmentID]: [lib/segment].  [Types], [Tx]: orders, signatures, incomes,
      messages and blocks.  [Fr]: field elements and the challenge accumulator.
    - [TxStore]: [lib/tx/store.go], behind the interface [Store].

    The state machine ([submodule/state])
    - [StateTypes]: [StateEnv], the libraries the state uses, and the records of
      [common.go] and [state.go].  The applied fields and their [validate...]
      twins are two values of one record [view]; [side] says which is meant.
    - [State], [Roles], [Chunks], [Orders], [Challenge], [Pay]: one definition
      per handler and loader of [mrole.go], [muser.go], [net.go], [mseg.go],
      [morder.go], [challenge.go], [pay.go], [epoch.go], [fsmeta.go], each with
      its [can...] twin.  [Validate], [Block]: [validate.go] and [state.go].
    - [Handlers], [Frame], [Chain], [Lift]: what handlers, messages and blocks
      leave alone, and how a fact about messages becomes one about chains.
    - [ChainProps], [Restart], [RoleHistory], [OrderHistory], [ChunkHistory],
      [EpochHistory], [Income], [Divergence]: the theorems about the state.
    - [StateApi]: [state_api.go], the getters the services of a node call;
      [StateSaved]: the store they read agrees with the caches of the handlers.

    Pools ([submodule/txPool], [submodule/role])
    - [Propose]: the part of [process.go] that runs on the state.
    - [RoleMgr]: accounts and signatures, an instance of the interface [IRole].
    - [SyncPool], [PushPool], [InPool]: [sync.go], [push.go], [process.go];
      [SyncPoolProps], [SyncPoolLive], [PushPoolProps], [InPoolProps].

    Consensus ([submodule/consensus])
    - [HotStuff]: the manager, against the interfaces [ConsensusApp] and
      [IRole]; [HotStuffSafety], [HotStuffLive], [HotStuffFork].
    - [KeeperNode]: the pool as the application of the consensus.

    Provider ([service/provider], [submodule/control])
    - [Restrict]: the access list of [access.go] and the key-value wrapper it
      is stored in.
    - [ProOrder]: [service/provider/order]: the state of one user ([proOrder])
      and of the manager ([OrderMgr]), one definition per handler, check, save
      and load; the interfaces [DataVerifierOps], [IDataService], [IChainState]
      and [ISettle] are what it asks of the rest of the node.
    - [ProNode]: [service/provider/handler.go], the answers to the network.
    - [ProOrderProps], [ProRestart]: the theorems about them.

    User ([service/user], [lib/code], [lib/crypto/aes])
    - [Coder]: [lib/code]: the coder of a bucket with every method, over the
      interfaces [ReedSolomon] and [CoderKeys]; [CoderProps].
    - [Aes]: [lib/crypto/aes].
    - [Lfs]: [service/user/lfs], [meta.go], [bucket.go], [object.go], [lfs.go]: super block,
      buckets, objects, operation records and their replay.  [LfsData]:
      [process.go], [object_put.go], [object_get.go].  [LfsChunks]: what the
      end of a sequence does to the chunks ([replaceSegWithLoc] of [order/inst.go]) and the places
      of [service/data/service.go] and [ghost.go].  [LfsProps], [LfsRead], [LfsWrite],
      [LfsRefine]: the theorems about them.
    - [UserOrder]: [service/user/order/check.go]: one provider of a user ([proInst]),
      its scheduler and every handler.  [UserSend]: [sendChunk] of [data.go] and the
      interleaving of the two goroutines.  [UserJobs]: the rest of [data.go], which
      chunks of a job are handed out, sent and confirmed.  [UserProps],
      [UserChain], [UserJobsProps]: the theorems about them.

    Runs
    - [Concrete] instantiates every library; [Scenario], [OrderScenario],
      [HotStuffRuns], [PoolRuns], [ProRuns], [UserRuns], [UserJobsRuns], [CoderRuns],
      [LfsRuns] run the definitions on it.  They are the
      witnesses of the theorems, and the theorems that are a concrete run.

    ** How the parts interact

    A message enters [PushPool] (own) or [SyncPool] (from the network) and waits
    in [InPool].  The consensus of the leader asks [InPool] for a header and for
    messages ([Propose]), that of the others for a verdict ([OnPropose]); both
    run the validating side of the state.  A finished block goes to [SyncPool],
    as does a block from the network, and from there to [ApplyBlock], the only
    way the applied side changes; the pools are then told of its messages.

    A user sends a provider an order and the pieces of its sequences
    ([ProNode]); the provider signs the order, then each sequence whose pieces
    it holds ([ProOrder]), and the user submits what was signed as messages,
    which [Orders] checks with the same price and size.

    On the user's side [PutObject] cuts the data into stripes, encrypts ([Aes]) and
    encodes them ([Coder]), stores the chunks and makes a job of every part
    ([LfsData]); the job manager hands its chunks to the providers of the bucket
    ([UserJobs]), which are sent and gathered in sequences of orders ([UserSend],
    [UserOrder]).  What the user pushes to the chain is what [Orders] takes
    ([UserProps], [UserChain]); what the chain confirms goes back to [UserJobs], and
    the state of an object is counted from there ([Lfs]).  A confirmed sequence also takes
    its chunks out of the local store: from then on a download asks their provider
    ([LfsChunks]).

    ** What the theorems show

    - Blocks: the state root of an applied block is the hash chain over its
      messages, nothing is replayed along a chain, an error leaves the database
      alone, accepted blocks of a height share a quorum of signers, a restart recovers
      the position ([ChainProps], [Restart]).  The theorems about roots and the
      database are for versions below [SMTVersion] ([plain]), where the store is the
      plain one and a block is one transaction.
    - Histories: along any chain roles are permanent, orders move by the steps
      of a state machine and satisfy its invariant, chunks of a stripe are on
      different providers, epochs follow one another ([RoleHistory],
      [OrderHistory], [ChunkHistory], [EpochHistory]); incomes are added once
      and for the overlap with the epoch ([Income]); the read API answers along any chain
      what the handlers check against ([StateSaved]).
    - Proposals: what an honest leader proposes is accepted by every keeper in
      the same state, and a verdict fixes the root ([Propose]).
    - Pools: what is applied is a chain whatever arrives, a pool with the blocks
      catches up, no used message waits, nonces are handed out in order
      ([SyncPoolProps], [SyncPoolLive], [InPoolProps], [PushPoolProps]); blocks
      are stored by content ([TxStore]); quorums of good signatures verify
      ([RoleMgr]).
    - Consensus: a keeper signs one block per slot and phase, two honest keepers
      do not hand over different blocks of a slot they do not lead, a view with
      valid messages completes ([HotStuffSafety], [HotStuffLive]).  What a commit
      vote is not bound to is in [HotStuffFork].
    - Provider: the books of every order a provider works on add up and price
      the data by the order ([ProOrderProps.orders_priced]); what it signs is
      what it was asked for and within its limits ([create_signs],
      [finish_signs]), the chain's handlers accept the sums of what it finished
      ([finished_seq_accepted]), a restart finds the state that was saved
      ([ProRestart]), and only signed requests are answered with a signature or
      change anything ([ProNode]); the access list survives a restart
      ([Restrict]).
    - User orders: what is pushed for a provider is a path of the order machine, but for
      answers that end a sequence the user has not signed, and what the chain applies
      are steps of the same machine ([UserProps], [UserChain]).  Jobs: a confirmed chunk
      stays confirmed across restarts, which however leave older jobs behind
      ([UserJobsProps]).
    - Coding: any [DataCount] chunks of a stripe give the data, and the whole stripe,
      back ([CoderProps]).
    - File system: a bucket in use is a map from names to contents, for any sequence
      of puts, gets and deletes, also while the chunks move to the providers and up to
      parity many of a stripe are lost ([LfsRefine.bucket_refines_map]); the contents
      are what an upload keeps of its data ([LfsRefine.kept_data]), which is all of it unless
      it ends with a full stripe; what is put reads back ([LfsRefine.put_get]), also
      from the chunks that are left ([LfsRead.download_reads]).
    - Data: the queues keep their sets, encodings round-trip ([Segments],
      [SegmentID]).
    - Where the code does not do what it means to, a theorem exhibits it:
      [Divergence], [HotStuffRuns], [HotStuffFork.commit_equivocates],
      [PoolRuns.strangers_stop_node], [ProRuns.signs_missing_segments],
      [ProOrderProps.finish_without_order_panics],
      [PushPoolProps.foreign_message_deadlocks], [KeeperNode.PoA_never_mines],
      [RoleMgr.other_group_panics], [UserRuns.stop_redoes_finished],
      [UserJobsProps.earlier_jobs_forgotten], [CoderProps.checksums_never_decode],
      [LfsRefine.put_loses_tail] and others.

    ** Conventions

    - A Go integer is a [Z] and every operation that can leave its width wraps
      ([u64], [u32], [i64]); a [*big.Int] is an [option Z].
    - A method is a function from the state to an outcome and the state it
      leaves, errors and panics included; the text of an error names the message
      of the source.  A nil pointer result is [None]; elements of queues and
      arguments that the callers never pass as nil are not optional.
    - The key-value store is a map whose writes do not fail; a transaction is a
      copy that is kept or dropped.  Maps that the code makes on start-up are
      empty maps, also before the first [reset].
    - Code outside [src/] is a class: [Hashes], [Signatures], [FrOps], [PDP],
      [SMTStore], [BitSetOps], [GoSort], [Codec], [Base58], [Cache], [Wallet], [SegBits],
      [ReedSolomon], [CoderKeys], [AesEnv], [NameTree], [LfsLibs];
      what the theorems rely on is in the [...Laws] class next to it, and
      the files of runs have an instance of each.
    - The clock, the order in which a map is iterated and the answers of the
      network are arguments.  A loop that waits for a ticker is modelled by its
      tick; goroutines are steps that interleave between ticks and calls.  A
      handler of a provider holds the lock of its user's entry and is one step;
      what it starts with [go] is a list of tasks that run later.  Sending a chunk
      is two steps, with the network in between.  A bucket of the file system is
      locked while it is worked on, and its operations are steps; the chunks of a
      stripe are asked for one after the other, which gives the outcome of asking
      for them in parallel.
    - Objects that are shared by pointer are positions of a heap.  A chunk that is
      missing is the empty string.
    - Log lines, metrics and sleeping are left out, except where a log line
      dereferences a pointer.
    - Recursion is structural, over the list or the number of turns the loop
      has; the search for the outcome of a message has fuel: one more read than the
      store has entries is enough, more change nothing ([TxStore.GetTxMsgState_fuel]).  The loops of an
      upload and a download have as many rounds as the data has bytes, and one
      more: every round but the last takes a byte ([LfsWrite.upload_loop_run],
      [LfsRead.download_run]).

    ** Not modelled

    Network transport, RPC, commands and gateways (input and output);
    settlement-contract bindings and generated codecs; the pairings of the proof
    scheme and the arithmetic of the Reed-Solomon code (third-party mathematics
    behind [PDP], [CoderKeys] and [ReedSolomon]); the sparse Merkle tree (a third-party
    library behind [SMTStore]).  Of the user: objects of other users and objects by
    digest (the rest of [ghost.go], [getObjectByEtag]), the listing of objects, the tree of digests
    ([lib/etag]), meta messages of objects and recovery from the chain
    (MEFS_META_UPLOAD of [PutObject], MEFS_RECOVERY_MODE), [Recontruct], eviction from the cache
    of digests, repairs at boot and payments of the order service.  Of providers: the
    challenge service, their read-only API ([order_api.go]) and the serving of
    segments; the race of two requests that both load an entry no request has
    loaded yet.  Of the data service: requests to the network and the memory cache of
    what came from there. *)

From Stdlib Require Export ZArith Lia Ascii.
From stdpp Require Export base gmap list strings pretty sets fin_maps.

Open Scope Z_scope.

(** ** Machine integers

    A Go integer is a [Z]; every arithmetic operation of the source whose
    result can leave the width of its type is written with the wrap-around of
    that type. *)

Definition u8 (x : Z) : Z := x mod 2 ^ 8.
Definition u32 (x : Z) : Z := x mod 2 ^ 32.
Definition u64 (x : Z) : Z := x mod 2 ^ 64.

(** Two's complement reading of the low 64 bits: Go's [int64(x)]. *)
Definition i64 (x : Z) : Z := (x + 2 ^ 63) mod 2 ^ 64 - 2 ^ 63.

(** [math.MaxUint64] *)
Definition MaxUint64 : Z := 2 ^ 64 - 1.
Definition is_u64 (x : Z) : Prop := 0 <= x < 2 ^ 64.
Definition is_u32 (x : Z) : Prop := 0 <= x < 2 ^ 32.

Lemma u64_id x : is_u64 x -> u64 x = x.
Proof. unfold is_u64, u64; intros; apply Z.mod_small; lia. Qed.

Lemma u32_id x : is_u32 x -> u32 x = x.
Proof. unfold is_u32, u32; intros; apply Z.mod_small; lia. Qed.

Lemma u64_range x : is_u64 (u64 x).
Proof. unfold is_u64, u64; apply Z.mod_pos_bound; lia. Qed.

Lemma u64_add_l a b : u64 (u64 a + b) = u64 (a + b).
Proof. unfold u64. by rewrite Zplus_mod_idemp_l. Qed.
Lemma u64_add_r a b : u64 (a + u64 b) = u64 (a + b).
Proof. unfold u64. by rewrite Zplus_mod_idemp_r. Qed.
Lemma u32_range x : is_u32 (u32 x).
Proof. unfold is_u32, u32; apply Z.mod_pos_bound; lia. Qed.

Lemma i64_id x : - 2 ^ 63 <= x < 2 ^ 63 -> i64 x = x.
Proof. unfold i64; intros; rewrite Z.mod_small; lia. Qed.

Lemma i64_range x : - 2 ^ 63 <= i64 x < 2 ^ 63.
Proof. unfold i64. pose proof (Z.mod_pos_bound (x + 2 ^ 63) (2 ^ 64)); lia. Qed.

(** The loop [for i := start; i < end; i++] over an unsigned counter whose
    bound [end] has been computed already (and may have wrapped): the values
    [i] takes, in order.  The counter never wraps, since [i < end]. *)
Definition u64_range_list (start stop : Z) : list Z := seqZ start (stop - start).

Lemma elem_of_u64_range_list start stop i :
  i ∈ u64_range_list start stop <-> start <= i < stop.
Proof. unfold u64_range_list. rewrite elem_of_seqZ. lia. Qed.

Lemma u64_range_list_nil start stop : stop <= start -> u64_range_list start stop = [].
Proof. intros. unfold u64_range_list. by rewrite seqZ_nil by lia. Qed.

Lemma u64_range_list_cons start stop :
  start < stop -> u64_range_list start stop = start :: u64_range_list (start + 1) stop.
Proof.
  intros. unfold u64_range_list. rewrite seqZ_cons by lia.
  repeat f_equal; lia.
Qed.

(** ** Byte strings *)

Abbreviation bytes := (list ascii) (only parsing).

Definition byte_of_Z (z : Z) : ascii := ascii_of_N (Z.to_N (z mod 256)).
Definition Z_of_byte (b : ascii) : Z := Z.of_N (N_of_ascii b).

(** The bytes of a string literal: Go's [[]byte("...")]. *)
Fixpoint bytes_of_string (s : string) : bytes :=
  match s with
  | EmptyString => []
  | String c s => c :: bytes_of_string s
  end.

Lemma bytes_of_string_app s t :
  bytes_of_string (s +:+ t) = bytes_of_string s ++ bytes_of_string t.
Proof.
  induction s as [|c s IH]; [done|].
  change (c :: bytes_of_string (s +:+ t) = c :: (bytes_of_string s ++ bytes_of_string t)).
  by rewrite IH.
Qed.

#[export] Instance bytes_of_string_inj : Inj (=) (=) bytes_of_string.
Proof.
  intros s. induction s as [|c s IH]; intros [|d t]; simpl; intros H; try done.
  injection H as -> H. f_equal. by apply IH.
Qed.

Lemma Z_of_byte_range b : 0 <= Z_of_byte b < 256.
Proof. unfold Z_of_byte. pose proof (N_ascii_bounded b). lia. Qed.

Lemma Z_of_byte_of_Z z : Z_of_byte (byte_of_Z z) = z mod 256.
Proof.
  unfold Z_of_byte, byte_of_Z.
  pose proof (Z.mod_pos_bound z 256).
  rewrite N_ascii_embedding by lia. lia.
Qed.

Lemma byte_of_Z_of_byte b : byte_of_Z (Z_of_byte b) = b.
Proof.
  unfold byte_of_Z. pose proof (Z_of_byte_range b).
  rewrite Z.mod_small by done. unfold Z_of_byte.
  by rewrite N2Z.id, ascii_N_embedding.
Qed.

(** [binary.BigEndian.PutUintN] and [binary.BigEndian.UintN], for [n] bytes. *)
Fixpoint put_be (n : nat) (v : Z) : bytes :=
  match n with
  | O => []
  | S n => put_be n (v / 256) ++ [byte_of_Z v]
  end.

Definition get_be (b : bytes) : Z :=
  foldl (fun acc c => acc * 256 + Z_of_byte c) 0 b.

Lemma length_put_be n v : length (put_be n v) = n.
Proof. revert v. induction n as [|n IH]; intros v; csimpl; [done|]. rewrite length_app, IH. simpl. lia. Qed.

Lemma get_be_snoc b c : get_be (b ++ [c]) = get_be b * 256 + Z_of_byte c.
Proof. unfold get_be. by rewrite foldl_app. Qed.

Lemma get_put_be n v : get_be (put_be n v) = v mod 256 ^ Z.of_nat n.
Proof.
  revert v. induction n as [|n IH]; intros v.
  - cbn. by rewrite Z.mod_1_r.
  - cbn [put_be]. rewrite get_be_snoc, IH, Z_of_byte_of_Z.
    rewrite Nat2Z.inj_succ, Z.pow_succ_r by lia.
    rewrite (Z.rem_mul_r v 256 (256 ^ Z.of_nat n)) by lia. lia.
Qed.

Lemma get_be_range b : 0 <= get_be b < 256 ^ Z.of_nat (length b).
Proof.
  induction b as [|c b IH] using rev_ind; [cbn; lia|].
  rewrite get_be_snoc, length_app. pose proof (Z_of_byte_range c).
  rewrite Nat2Z.inj_add, Z.pow_add_r by lia. simpl length.
  replace (256 ^ Z.of_nat 1) with 256 by done. nia.
Qed.

Lemma put_get_be b : put_be (length b) (get_be b) = b.
Proof.
  induction b as [|c b IH] using rev_ind; [done|].
  rewrite length_app, Nat.add_comm. cbn [length Nat.add put_be].
  rewrite get_be_snoc. pose proof (Z_of_byte_range c).
  rewrite Z.div_add_l, (Z.div_small _ 256), Z.add_0_r by lia.
  rewrite IH. do 2 f_equal.
  rewrite <-(byte_of_Z_of_byte c) at 2. unfold byte_of_Z. f_equal. f_equal.
  rewrite Z.add_comm, Z_mod_plus_full. done.
Qed.

Lemma get_put_be8 v : is_u64 v -> get_be (put_be 8 v) = v.
Proof. intros. rewrite get_put_be. apply Z.mod_small. unfold is_u64 in *. simpl. lia. Qed.

Lemma get_put_be4 v : is_u32 v -> get_be (put_be 4 v) = v.
Proof. intros. rewrite get_put_be. apply Z.mod_small. unfold is_u32 in *. simpl. lia. Qed.

Lemma put_be_inj n v w :
  0 <= v < 256 ^ Z.of_nat n -> 0 <= w < 256 ^ Z.of_nat n ->
  put_be n v = put_be n w -> v = w.
Proof.
  intros Hv Hw E. apply (f_equal get_be) in E.
  rewrite !get_put_be, !Z.mod_small in E by lia. done.
Qed.

#[global] Arguments put_be : simpl never.
#[global] Arguments get_be : simpl never.

(** [b[lo:hi]] for a slice inside its bounds. *)
Definition slice (lo hi : nat) (b : bytes) : bytes := take (hi - lo) (drop lo b).

Lemma length_slice lo hi b :
  (lo <= hi)%nat -> (hi <= length b)%nat -> length (slice lo hi b) = (hi - lo)%nat.
Proof. intros. unfold slice. rewrite length_take, length_drop. lia. Qed.
