(* ===== verification/GoMonad.v ===== *)
(** * GoMonad: explicit state passing with Go's two kinds of failure

    A method that mutates its receiver and returns an [error] is a function
    from the state to an outcome and the state left behind: an error returned
    half way leaves the mutations made so far in place, exactly as in Go.
    A nil dereference or an index out of range is the outcome [Panic].
    Strings carried by [Err] and [Panic] identify the source's message. *)

From S2P Require Import Prelude.

Inductive outcome (A : Type) : Type :=
  | Ok (a : A)
  | Err (e : string)
  | Panic (why : string).
Arguments Ok {A} a.
Arguments Err {A} e.
Arguments Panic {A} why.

Definition is_Ok {A} (o : outcome A) : bool :=
  match o with Ok _ => true | _ => false end.

Definition M (S A : Type) : Type := S -> outcome A * S.

Section Monad.
Context {S : Type}.

Definition ret {A} (a : A) : M S A := fun s => (Ok a, s).
Definition throw {A} (e : string) : M S A := fun s => (Err e, s).
Definition panic {A} (w : string) : M S A := fun s => (Panic w, s).

Definition bind {A B} (m : M S A) (f : A -> M S B) : M S B := fun s =>
  match m s with
  | (Ok a, s') => f a s'
  | (Err e, s') => (Err e, s')
  | (Panic w, s') => (Panic w, s')
  end.

Definition gets {A} (f : S -> A) : M S A := fun s => (Ok (f s), s).
Definition modify (f : S -> S) : M S unit := fun s => (Ok tt, f s).

(** [if !b { return err }] *)
Definition check (b : bool) (e : string) : M S unit := if b then ret tt else throw e.

(** [v, err := f(); if err != nil { return err }] on a pure [f]. *)
Definition of_option {A} (o : option A) (e : string) : M S A :=
  match o with Some a => ret a | None => throw e end.

(** The result of a call that touches no state. *)
Definition of_outcome {A} (o : outcome A) : M S A := fun s => (o, s).

(** Use of a pointer that may be nil. *)
Definition deref {A} (o : option A) : M S A :=
  match o with Some a => ret a | None => panic "nil pointer dereference" end.

(** A call whose error the caller inspects instead of returning it; a panic
    still propagates. *)
Definition try_err {A} (m : M S A) : M S (option A) := fun s =>
  match m s with
  | (Ok a, s') => (Ok (Some a), s')
  | (Err _, s') => (Ok None, s')
  | (Panic w, s') => (Panic w, s')
  end.

(** [for _, x := range l { ... }] whose body may return from the function. *)
Fixpoint for_each {A} (l : list A) (f : A -> M S unit) : M S unit :=
  match l with
  | [] => ret tt
  | x :: l => bind (f x) (fun _ => for_each l f)
  end.

(** A loop that threads local variables. *)
Fixpoint for_fold {A B} (l : list A) (acc : B) (f : B -> A -> M S B) : M S B :=
  match l with
  | [] => ret acc
  | x :: l => bind (f acc x) (fun acc => for_fold l acc f)
  end.
End Monad.

Declare Scope go_scope.
Delimit Scope go_scope with go.
Open Scope go_scope.
Notation "'let!' x := m 'in' k" := (bind m (fun x => k))
  (at level 10, x pattern, m at level 100, k at level 200) : go_scope.
Notation "'do!' m ; k" := (bind m (fun _ => k))
  (at level 10, m at level 100, k at level 200) : go_scope.

(** ** Running a computation *)

Section Run.
Context {S : Type}.
Implicit Types (s : S).

Lemma bind_Ok {A B} (m : M S A) (f : A -> M S B) s b s' :
  bind m f s = (Ok b, s') <->
  exists a s1, m s = (Ok a, s1) /\ f a s1 = (Ok b, s').
Proof.
  unfold bind. split.
  - destruct (m s) as [[a|e|w] s1]; intros; try done. eauto.
  - intros (a & s1 & -> & ?). done.
Qed.

Lemma bind_run {A B} (m : M S A) (f : A -> M S B) s a s1 :
  m s = (Ok a, s1) -> bind m f s = f a s1.
Proof. unfold bind. by intros ->. Qed.

Lemma bind_eq {A B} (m : M S A) (f : A -> M S B) s s' : m s = m s' -> bind m f s = bind m f s'.
Proof. unfold bind. by intros ->. Qed.

Lemma bind_ret_l {A B} (a : A) (f : A -> M S B) s : bind (ret a) f s = f a s.
Proof. done. Qed.

Lemma bind_assoc {A B C} (m : M S A) (f : A -> M S B) (g : B -> M S C) s :
  bind (bind m f) g s = bind m (fun a => bind (f a) g) s.
Proof. unfold bind. by destruct (m s) as [[?|?|?] ?]. Qed.

Lemma ret_Ok {A} (a b : A) s s' : ret a s = (Ok b, s') <-> b = a /\ s' = s.
Proof. unfold ret. split; [by intros [= -> ->]|by intros [-> ->]]. Qed.

Lemma gets_Ok {A} (f : S -> A) b s s' : gets f s = (Ok b, s') <-> b = f s /\ s' = s.
Proof. unfold gets. split; [by intros [= <- ->]|by intros [-> ->]]. Qed.

Lemma modify_Ok (f : S -> S) u s s' : modify f s = (Ok u, s') <-> s' = f s.
Proof. unfold modify. destruct u. split; [by intros [= ->]|by intros ->]. Qed.

Lemma check_Ok b e u s s' : check b e s = (Ok u, s') <-> b = true /\ s' = s.
Proof.
  unfold check, ret, throw. destruct u, b; split; try done.
  - by intros [= ->].
  - by intros [_ ->].
  - by intros [? _].
Qed.

Lemma of_option_Ok {A} (o : option A) e a s s' :
  of_option o e s = (Ok a, s') <-> o = Some a /\ s' = s.
Proof.
  unfold of_option, ret, throw. destruct o; split; try done.
  - by intros [= -> ->].
  - by intros [[= ->] ->].
  - by intros [? _].
Qed.

Lemma deref_Ok {A} (o : option A) a s s' :
  deref o s = (Ok a, s') <-> o = Some a /\ s' = s.
Proof.
  unfold deref, ret, panic. destruct o; split; try done.
  - by intros [= -> ->].
  - by intros [[= ->] ->].
  - by intros [? _].
Qed.

Lemma of_outcome_Ok {A} (o : outcome A) a s s' :
  of_outcome o s = (Ok a, s') <-> o = Ok a /\ s' = s.
Proof. unfold of_outcome. split; [by intros [= -> ->]|by intros [-> ->]]. Qed.

Lemma throw_Ok {A} e (a : A) s s' : throw e s = (Ok a, s') <-> False.
Proof. done. Qed.

Lemma panic_Ok {A} e (a : A) s s' : panic e s = (Ok a, s') <-> False.
Proof. done. Qed.

Lemma try_err_Ok {A} (m : M S A) o s s' :
  try_err m s = (Ok o, s') <->
  (exists a, o = Some a /\ m s = (Ok a, s')) \/
  (o = None /\ exists e, m s = (Err e, s')).
Proof.
  unfold try_err. destruct (m s) as [[a|e|w] s1]; split; try naive_solver.
Qed.

Lemma for_each_nil {A} (f : A -> M S unit) s : for_each [] f s = (Ok tt, s).
Proof. done. Qed.

Lemma for_each_cons {A} x (l : list A) (f : A -> M S unit) s :
  for_each (x :: l) f s = bind (f x) (fun _ => for_each l f) s.
Proof. done. Qed.

Lemma for_fold_cons {A B} x (l : list A) (acc : B) (f : B -> A -> M S B) s :
  for_fold (x :: l) acc f s = bind (f acc x) (fun acc => for_fold l acc f) s.
Proof. done. Qed.
End Run.

(** [go_inv] takes apart every hypothesis [m s = (Ok a, s')] about a successful
    run, one bind at a time, down to the primitive steps. *)
Ltac go_inv_step :=
  match goal with
  | H : bind _ _ _ = (Ok _, _) |- _ =>
      apply bind_Ok in H; destruct H as (? & ? & ? & H)
  | H : ret _ _ = (Ok _, _) |- _ => apply ret_Ok in H; destruct H as [? ?]; subst
  | H : gets _ _ = (Ok _, _) |- _ => apply gets_Ok in H; destruct H as [? ?]; subst
  | H : modify _ _ = (Ok _, _) |- _ => apply modify_Ok in H; subst
  | H : check _ _ _ = (Ok _, _) |- _ => apply check_Ok in H; destruct H as [? ?]; subst
  | H : of_option _ _ _ = (Ok _, _) |- _ => apply of_option_Ok in H; destruct H as [? ?]; subst
  | H : deref _ _ = (Ok _, _) |- _ => apply deref_Ok in H; destruct H as [? ?]; subst
  | H : of_outcome _ _ = (Ok _, _) |- _ => apply of_outcome_Ok in H; destruct H as [? ?]; subst
  | H : throw _ _ = (Ok _, _) |- _ => discriminate H
  | H : panic _ _ = (Ok _, _) |- _ => discriminate H
  end.
Ltac go_inv := repeat go_inv_step.

(** ** Frame reasoning

    [Keeps R m]: whatever the outcome of [m], error and panic included, the
    state it leaves behind is related by [R] to the state it started in.  For a
    reflexive and transitive [R] the property is compositional, so it is proved
    for a whole handler by proof search over its text. *)

Definition Keeps {S A} (R : S -> S -> Prop) (m : M S A) : Prop :=
  forall s, R s (snd (m s)).

Lemma keeps_Ok {S A} (R : S -> S -> Prop) (m : M S A) s a t : Keeps R m -> m s = (Ok a, t) -> R s t.
Proof. intros K E. specialize (K s). by rewrite E in K. Qed.

Section Keeps.
Context {S : Type} (R : S -> S -> Prop) `{!PreOrder R}.

Lemma keeps_ret {A} (a : A) : Keeps R (ret a).
Proof. intros s. simpl. reflexivity. Qed.
Lemma keeps_throw {A} e : Keeps R (throw (A:=A) e).
Proof. intros s. simpl. reflexivity. Qed.
Lemma keeps_panic {A} e : Keeps R (panic (A:=A) e).
Proof. intros s. simpl. reflexivity. Qed.
Lemma keeps_gets {A} (f : S -> A) : Keeps R (gets f).
Proof. intros s. simpl. reflexivity. Qed.
Lemma keeps_check b e : Keeps R (check b e).
Proof. destruct b; [apply keeps_ret|apply keeps_throw]. Qed.
Lemma keeps_of_option {A} (o : option A) e : Keeps R (of_option o e).
Proof. destruct o; [apply keeps_ret|apply keeps_throw]. Qed.
Lemma keeps_deref {A} (o : option A) : Keeps R (deref o).
Proof. destruct o; [apply keeps_ret|apply keeps_panic]. Qed.

Lemma keeps_of_outcome {A} (o : outcome A) : Keeps R (of_outcome o).
Proof. intros s. simpl. reflexivity. Qed.

Lemma keeps_modify f : (forall s, R s (f s)) -> Keeps R (modify f).
Proof. intros H s. apply H. Qed.

Lemma keeps_bind {A B} (m : M S A) (f : A -> M S B) :
  Keeps R m -> (forall a, Keeps R (f a)) -> Keeps R (bind m f).
Proof.
  intros Hm Hf s. unfold bind. specialize (Hm s).
  destruct (m s) as [[a|e|w] s1]; simpl in *; [|done..].
  etransitivity; [exact Hm|]. apply Hf.
Qed.

Lemma keeps_try_err {A} (m : M S A) : Keeps R m -> Keeps R (try_err m).
Proof.
  intros Hm s. unfold try_err. specialize (Hm s). by destruct (m s) as [[?|?|?] ?].
Qed.

Lemma keeps_for_each {A} (l : list A) f :
  (forall x, Keeps R (f x)) -> Keeps R (for_each l f).
Proof.
  intros Hf. induction l as [|x l IH]; simpl; [apply keeps_ret|].
  apply keeps_bind; [done|by intros].
Qed.

Lemma keeps_for_fold {A B} (l : list A) (acc : B) f :
  (forall acc x, Keeps R (f acc x)) -> Keeps R (for_fold l acc f).
Proof.
  intros Hf. revert acc. induction l as [|x l IH]; intros acc; simpl; [apply keeps_ret|].
  apply keeps_bind; [done|by intros].
Qed.
End Keeps.

Create HintDb keeps.
#[export] Hint Resolve keeps_ret keeps_throw keeps_panic keeps_gets keeps_check
  keeps_of_option keeps_deref keeps_of_outcome keeps_try_err : keeps.

(** [keeps] walks the text of a computation; what it leaves are the goals about
    the primitive writes that the hint database does not settle. *)
Ltac keeps_step :=
  match goal with
  | |- forall _, _ => intro
  | |- Keeps _ (bind _ _) => apply keeps_bind; [typeclasses eauto| |]
  | |- Keeps _ (try_err _) => apply keeps_try_err
  | |- Keeps _ (let _ := _ in _) => cbv zeta
  | |- Keeps _ (for_each _ _) => apply keeps_for_each; [typeclasses eauto|]
  | |- Keeps _ (for_fold _ _ _) => apply keeps_for_fold; [typeclasses eauto|]
  | |- Keeps _ (match ?x with _ => _ end) => destruct x
  | |- Keeps _ _ => solve [eauto 3 with keeps typeclass_instances]
  end.
Ltac keeps := repeat keeps_step.

(** ** Invariants of successful runs

    [Preserves I m]: a run of [m] that ends well from a state in [I] ends in
    [I].  Unlike [Keeps] it says nothing about errors, whose states the source
    throws away or does not. *)

Definition Preserves {S A} (I : S -> Prop) (m : M S A) : Prop :=
  forall s a s', I s -> m s = (Ok a, s') -> I s'.

Section Preserves.
Context {S : Type} (I : S -> Prop).

Lemma preserves_keeps {A} (R : S -> S -> Prop) (m : M S A) :
  (forall s s', R s s' -> I s -> I s') -> Keeps R m -> Preserves I m.
Proof. intros HR Hm s a s' Hi E. specialize (Hm s). rewrite E in Hm. eauto. Qed.

Lemma preserves_bind {A B} (m : M S A) (f : A -> M S B) :
  Preserves I m -> (forall a, Preserves I (f a)) -> Preserves I (bind m f).
Proof. intros Hm Hf s b s' Hi (a & s1 & E1 & E2)%bind_Ok. eapply Hf; [|done]. by eapply Hm. Qed.

Lemma preserves_modify (f : S -> S) : (forall s, I s -> I (f s)) -> Preserves I (modify f).
Proof. intros Hf s a s' Hi ->%modify_Ok. auto. Qed.

Lemma preserves_pure {A} (m : M S A) : Keeps eq m -> Preserves I m.
Proof. apply preserves_keeps. by intros s s' <-. Qed.

Lemma preserves_for_each {A} (l : list A) f :
  (forall x, Preserves I (f x)) -> Preserves I (for_each l f).
Proof.
  intros Hf. induction l as [|x l IH]; simpl; [by intros s a s' Hi [_ ->]%ret_Ok|].
  by apply preserves_bind.
Qed.
End Preserves.

(** ** Weakest preconditions

    [wpx I P m Q s]: run from [s], [m] ends well in a state and value of [Q], or
    returns an error in a state of [I], or panics in one of [P].  An error leaves
    the mutations made so far, so an invariant has to hold at every exit and not
    only at the last one; [wp] asks for it after a panic too. *)

Definition wpx {S A} (I P : S -> Prop) (m : M S A) (Q : A -> S -> Prop) : S -> Prop := fun s =>
  match m s with
  | (Ok a, s') => Q a s'
  | (Err _, s') => I s'
  | (Panic _, s') => P s'
  end.
Abbreviation wp I := (wpx I I).
(** A panic ends the program. *)
Abbreviation wp_live I := (wpx I (fun _ => True)).

Section WP.
Context {S : Type} (I P : S -> Prop).
Local Abbreviation WP := (wpx I P).

Lemma wp_mono {A} (m : M S A) (Q Q' : A -> S -> Prop) s :
  WP m Q s -> (forall a s, Q a s -> Q' a s) -> WP m Q' s.
Proof. unfold wpx. destruct (m s) as [[?|?|?] ?]; eauto. Qed.

Lemma wp_bind {A B} (m : M S A) (f : A -> M S B) Q s :
  WP m (fun a => WP (f a) Q) s -> WP (bind m f) Q s.
Proof. unfold wpx, bind. by destruct (m s) as [[?|?|?] ?]. Qed.

Lemma wp_ret {A} (a : A) (Q : A -> S -> Prop) s : Q a s -> WP (ret a) Q s.
Proof. done. Qed.

Lemma wp_gets {A} (f : S -> A) (Q : A -> S -> Prop) s : Q (f s) s -> WP (gets f) Q s.
Proof. done. Qed.

Lemma wp_modify f (Q : unit -> S -> Prop) s : Q tt (f s) -> WP (modify f) Q s.
Proof. done. Qed.

Lemma wp_throw {A} e (Q : A -> S -> Prop) s : I s -> WP (throw e) Q s.
Proof. done. Qed.

Lemma wp_panic {A} w (Q : A -> S -> Prop) s : P s -> WP (panic w) Q s.
Proof. done. Qed.

Lemma wp_check b e (Q : unit -> S -> Prop) s : I s -> (b = true -> Q tt s) -> WP (check b e) Q s.
Proof. destruct b; unfold wpx, check; simpl; auto. Qed.

Lemma wp_of_option {A} (o : option A) e (Q : A -> S -> Prop) s :
  I s -> (forall a, o = Some a -> Q a s) -> WP (of_option o e) Q s.
Proof. intros Hs HQ. unfold wpx, of_option. destruct o; simpl; auto. Qed.

Lemma wp_deref {A} (o : option A) (Q : A -> S -> Prop) s :
  P s -> (forall a, o = Some a -> Q a s) -> WP (deref o) Q s.
Proof. intros Hs HQ. unfold wpx, deref. destruct o; simpl; auto. Qed.

Lemma wp_try_err {A} (m : M S A) (Q : option A -> S -> Prop) s :
  WP m (fun a => Q (Some a)) s -> (forall s, I s -> Q None s) -> WP (try_err m) Q s.
Proof. unfold wpx, try_err. destruct (m s) as [[?|?|?] ?]; eauto. Qed.

Lemma wp_for_each {A} (J : S -> Prop) (l : list A) f s :
  (forall x s, J s -> WP (f x) (fun _ => J) s) -> J s -> WP (for_each l f) (fun _ => J) s.
Proof.
  intros Hf. revert s. induction l as [|x l IH]; intros s Hs; simpl; [by apply wp_ret|].
  apply wp_bind. eapply wp_mono; [by apply Hf|]. intros ? s'. apply IH.
Qed.

Lemma wp_for_fold {A B} (J : S -> Prop) (l : list A) f (acc : B) s :
  (forall acc x s, J s -> WP (f acc x) (fun _ => J) s) -> J s -> WP (for_fold l acc f) (fun _ => J) s.
Proof.
  intros Hf. revert acc s. induction l as [|x l IH]; intros acc s Hs; simpl; [by apply wp_ret|].
  apply wp_bind. eapply wp_mono; [by apply Hf|]. intros acc' s'. apply IH.
Qed.

Lemma wp_Ok {A} (m : M S A) Q s a s' : WP m Q s -> m s = (Ok a, s') -> Q a s'.
Proof. unfold wpx. intros H E. by rewrite E in H. Qed.
End WP.

Section WP1.
Context {S : Type} (I : S -> Prop).

Lemma wp_of_outcome {A} (o : outcome A) (Q : A -> S -> Prop) s :
  I s -> (forall a, o = Ok a -> Q a s) -> wp I (of_outcome o) Q s.
Proof. unfold wpx, of_outcome. destruct o; auto. Qed.

Lemma wp_try_outcome {A} (o : outcome A) (Q : option A -> S -> Prop) s :
  I s -> (forall r, Q r s) -> wp I (try_err (of_outcome o)) Q s.
Proof. unfold wpx, try_err, of_outcome. destruct o; auto. Qed.

Lemma wp_final {A} (m : M S A) s : wp I m (fun _ => I) s -> I (m s).2.
Proof. unfold wpx. by destruct (m s) as [[?|?|?] ?]. Qed.
End WP1.

(** [runs m Q s]: from [s], [m] ends well, in [Q]. *)
Definition runs {S A} (m : M S A) (Q : A -> S -> Prop) (s : S) : Prop :=
  exists a s', m s = (Ok a, s') /\ Q a s'.

Section Runs.
Context {S : Type}.

Lemma runs_bind {A B} (m : M S A) (f : A -> M S B) Q s :
  runs m (fun a => runs (f a) Q) s -> runs (bind m f) Q s.
Proof. intros (a & s1 & H1 & b & s2 & H2 & HQ). exists b, s2. split; [|done]. apply bind_Ok. eauto. Qed.

Lemma runs_ret {A} (a : A) (Q : A -> S -> Prop) s : Q a s -> runs (ret a) Q s.
Proof. intros. by exists a, s. Qed.

Lemma runs_gets {A} (f : S -> A) (Q : A -> S -> Prop) s : Q (f s) s -> runs (gets f) Q s.
Proof. intros. by exists (f s), s. Qed.

Lemma runs_modify f (Q : unit -> S -> Prop) s : Q tt (f s) -> runs (modify f) Q s.
Proof. intros. by exists tt, (f s). Qed.

Lemma runs_check (b : bool) e (Q : unit -> S -> Prop) s : b = true -> Q tt s -> runs (check b e) Q s.
Proof. intros -> ?. by exists tt, s. Qed.

Lemma runs_try_outcome {A} (o : outcome A) (Q : option A -> S -> Prop) s :
  (forall w, o <> Panic w) -> (forall r, Q r s) -> runs (try_err (of_outcome o)) Q s.
Proof. intros Hp HQ. destruct o as [a|e|w]; [by exists (Some a), s|by exists None, s|by destruct (Hp w)]. Qed.

Lemma runs_mono {A} (m : M S A) (P Q : A -> S -> Prop) s :
  runs m P s -> (forall a s, P a s -> Q a s) -> runs m Q s.
Proof. intros (a & s' & E & HP) H. exists a, s'. auto. Qed.
End Runs.

(** ** Methods of an embedded struct *)

Definition zoom {S X A} (get : S -> X) (set : X -> S -> S) (m : M X A) : M S A := fun s =>
  let '(r, x) := m (get s) in (r, set x s).

Lemma zoom_Ok {S X A} (get : S -> X) set (m : M X A) s a s' :
  zoom get set m s = (Ok a, s') <-> exists x, m (get s) = (Ok a, x) /\ s' = set x s.
Proof.
  unfold zoom. destruct (m (get s)) as [r x]. split; [intros [= -> <-]; eauto|].
  intros (? & [= -> ->] & ->). done.
Qed.

Lemma keeps_zoom {S X A} (R : S -> S -> Prop) (get : S -> X) set (m : M X A) :
  (forall s x, R s (set x s)) -> Keeps R (zoom get set m).
Proof. intros HR s. unfold zoom. destruct (m (get s)). apply HR. Qed.

(** A method that only reads its part. *)
Lemma keeps_zoom_eq {S X A} (R : S -> S -> Prop) `{!PreOrder R} (get : S -> X) set (m : M X A) :
  (forall s, set (get s) s = s) -> Keeps eq m -> Keeps R (zoom get set m).
Proof.
  intros Hset Hm s. unfold zoom. specialize (Hm (get s)). destruct (m (get s)) as [r x].
  simpl in *. subst x. rewrite Hset. reflexivity.
Qed.

Lemma wpx_weaken {S A} (I J P : S -> Prop) (m : M S A) Q s :
  (forall s, I s -> J s) -> wpx I P m Q s -> wpx J P m Q s.
Proof. unfold wpx. intros HI. destruct (m s) as [[?|?|?] ?]; auto. Qed.

(** What [m] keeps fixed does not disturb an invariant that depends on nothing else. *)
Lemma wpx_keeps {S A} (R : S -> S -> Prop) (I P : S -> Prop) (m : M S A) s :
  Keeps R m -> (forall s', R s s' -> I s') -> (forall s', R s s' -> P s') -> wpx I P m (fun _ => I) s.
Proof. intros Hm HI HP. specialize (Hm s). unfold wpx. destruct (m s) as [[?|?|?] ?]; auto. Qed.

(** A call whose outcome is ignored. *)
Lemma wp_try_then {S A B} (I : S -> Prop) (m : M S A) (f : option A -> M S B) Q s :
  (forall o s, wp_live I (f o) Q s) -> wp_live I (bind (try_err m) f) Q s.
Proof. intros Hf. apply wp_bind. unfold wpx at 1, try_err. destruct (m s) as [[?|?|?] ?]; [apply Hf..|done]. Qed.

(** A call that never returns an error. *)
Lemma wp_try_never {S A} (I P : S -> Prop) (m : M S A) (Q : option A -> S -> Prop) s :
  wpx (fun _ => False) P m (fun a => Q (Some a)) s -> wpx I P (try_err m) Q s.
Proof. unfold wpx, try_err. by destruct (m s) as [[?|?|?] ?]. Qed.
