(* ===== verification/Codec.v ===== *)
(** * Codec: the interface of the serialisation libraries

    Every message, and every value of the state store, is turned into bytes by
    [cbor.Marshal] or [proto.Marshal] and back by the matching [Unmarshal];
    both libraries are outside [src/].  [Codec A] is what the program uses of
    them at the type [A]; [CodecLaws A] is the documented round trip, stated for
    the destination [y] being any earlier value of the type, because the source
    decodes into structs that are already filled in.

    [Wire] is a concrete self-delimiting encoding with which the witnesses of
    the development instantiate the interface. *)

From S2P Require Import Prelude.

Class Codec (A : Type) := {
  (** the zero value, what [new(T)] points to *)
  zero_val : A;
  marshal : A -> option bytes;
  (** [unmarshal y b] is the destination after decoding [b] into it, and
      whether the decoder returned no error *)
  unmarshal : A -> bytes -> A * bool;
}.

Class CodecLaws (A : Type) `{!Codec A} :=
  unmarshal_marshal (x y : A) (b : bytes) :
    marshal x = Some b -> unmarshal y b = (x, true).

(** Encoders of structs of integers and byte strings do not fail. *)
Class CodecTotal (A : Type) `{!Codec A} :=
  marshal_total (x : A) : exists b, marshal x = Some b.

(** Encoders of structs never return an empty string. *)
Class CodecNonempty (A : Type) `{!Codec A} :=
  marshal_nonempty (x : A) (b : bytes) : marshal x = Some b -> b <> [].

(** [x := new(T); err := x.Deserialize(b)] when an error is returned at once. *)
Definition decode {A} `{!Codec A} (b : bytes) : option A :=
  match unmarshal zero_val b with
  | (x, true) => Some x
  | (_, false) => None
  end.

Lemma decode_marshal {A} `{!Codec A, !CodecLaws A} (x : A) (b : bytes) :
  marshal x = Some b -> decode b = Some x.
Proof. intros E. unfold decode. by rewrite (unmarshal_marshal x zero_val b E). Qed.

Lemma marshal_inj {A} `{!Codec A, !CodecLaws A} (x y : A) (b : bytes) :
  marshal x = Some b -> marshal y = Some b -> x = y.
Proof.
  intros Ex%decode_marshal Ey%decode_marshal. congruence.
Qed.

(** ** A concrete encoding *)

Class Wire (A : Type) := {
  wire_zero : A;
  enc : A -> bytes;
  dec : bytes -> option (A * bytes);
  dec_enc (a : A) (r : bytes) : dec (enc a ++ r) = Some (a, r);
}.

#[export] Instance codec_of_wire {A} `{!Wire A} : Codec A | 100 := {
  zero_val := wire_zero;
  marshal a := Some (enc a);
  unmarshal y b := match dec b with Some (a, []) => (a, true) | _ => (y, false) end;
}.

#[export] Instance codec_of_wire_laws {A} `{!Wire A} : CodecLaws A.
Proof.
  intros x y b [= <-]. simpl. rewrite <-(app_nil_r (enc x)). by rewrite dec_enc.
Qed.

#[export] Instance codec_of_wire_total {A} `{!Wire A} : CodecTotal A.
Proof. intros x. by exists (enc x). Qed.

Section Wire.
#[export, refine] Instance wire_unit : Wire () := {
  wire_zero := (); enc _ := []; dec b := Some ((), b) }.
Proof. by intros []. Defined.

#[export, refine] Instance wire_ascii : Wire ascii := {
  wire_zero := "000"%char;
  enc c := [c];
  dec b := match b with c :: b => Some (c, b) | [] => None end }.
Proof. done. Defined.

#[export, refine] Instance wire_bool : Wire bool := {
  wire_zero := false;
  enc c := [if c then "1"%char else "0"%char];
  dec b := match b with c :: b => Some (bool_decide (c = "1"%char), b) | [] => None end }.
Proof. by intros []. Defined.

Fixpoint enc_pos (p : positive) : bytes :=
  match p with
  | xH => ["."%char]
  | xO p => "0"%char :: enc_pos p
  | xI p => "1"%char :: enc_pos p
  end.
Fixpoint dec_pos (b : bytes) : option (positive * bytes) :=
  match b with
  | [] => None
  | c :: b =>
      if bool_decide (c = "."%char) then Some (xH, b)
      else match dec_pos b with
           | Some (p, r) => Some (if bool_decide (c = "0"%char) then xO p else xI p, r)
           | None => None
           end
  end.
#[export, refine] Instance wire_pos : Wire positive := {
  wire_zero := 1%positive; enc := enc_pos; dec := dec_pos }.
Proof. induction a as [p IH|p IH|]; intros r; simpl; by rewrite ?IH. Defined.

Context {A B : Type} `{!Wire A, !Wire B}.

#[export, refine] Instance wire_option : Wire (option A) := {
  wire_zero := None;
  enc o := match o with Some a => "s"%char :: enc a | None => ["n"%char] end;
  dec b := match b with
           | [] => None
           | c :: b => if bool_decide (c = "n"%char) then Some (None, b)
                       else match dec b with Some (a, r) => Some (Some a, r) | None => None end
           end }.
Proof. intros [a|] r; simpl; by rewrite ?dec_enc. Defined.

#[export, refine] Instance wire_prod : Wire (A * B) := {
  wire_zero := (wire_zero, wire_zero);
  enc p := enc p.1 ++ enc p.2;
  dec b := match dec b with
           | Some (a, r) => match dec r with Some (b, r) => Some ((a, b), r) | None => None end
           | None => None
           end }.
Proof. intros [a b] r; simpl. by rewrite <-app_assoc, !dec_enc. Defined.

Fixpoint enc_list (l : list A) : bytes :=
  match l with
  | [] => ["]"%char]
  | a :: l => ","%char :: enc a ++ enc_list l
  end.
Fixpoint dec_list (fuel : nat) (b : bytes) : option (list A * bytes) :=
  match fuel, b with
  | S fuel, c :: b =>
      if bool_decide (c = "]"%char) then Some ([], b)
      else match dec b with
           | Some (a, r) =>
               match dec_list fuel r with Some (l, r) => Some (a :: l, r) | None => None end
           | None => None
           end
  | _, _ => None
  end.
Lemma dec_enc_list (l : list A) r fuel :
  (length (enc_list l) <= fuel)%nat -> dec_list fuel (enc_list l ++ r) = Some (l, r).
Proof.
  revert r fuel. induction l as [|a l IH]; intros r [|fuel] Hf; simpl in *; try done; try lia.
  rewrite <-app_assoc, dec_enc, IH; [done|]. rewrite length_app in Hf. lia.
Qed.
#[export, refine] Instance wire_list : Wire (list A) := {
  wire_zero := []; enc := enc_list; dec b := dec_list (length b) b }.
Proof. intros l r. apply dec_enc_list. rewrite length_app. lia. Defined.
End Wire.

(** A record is encoded through the tuple of its fields. *)
Definition wire_iso {A B} `{!Wire B} (f : A -> B) (g : B -> A)
    (gf : forall a, g (f a) = a) : Wire A.
Proof.
  refine {| wire_zero := g wire_zero; enc a := enc (f a);
            dec b := match dec b with Some (x, r) => Some (g x, r) | None => None end |}.
  intros a r. by rewrite dec_enc, gf.
Defined.

Definition Z_code (z : Z) : option (bool * positive) :=
  match z with Z0 => None | Zpos p => Some (true, p) | Zneg p => Some (false, p) end.
Definition Z_decode (o : option (bool * positive)) : Z :=
  match o with
  | None => 0
  | Some (true, p) => Zpos p
  | Some (false, p) => Zneg p
  end.
#[export] Instance wire_Z : Wire Z.
Proof. refine (wire_iso Z_code Z_decode _). by intros []. Defined.

Definition string_of_bytes : bytes -> string := foldr String EmptyString.
Lemma string_of_bytes_of_string s : string_of_bytes (bytes_of_string s) = s.
Proof. induction s as [|c s IH]; [done|]. simpl. by rewrite IH. Qed.
#[export] Instance wire_string : Wire string :=
  wire_iso bytes_of_string string_of_bytes string_of_bytes_of_string.

Example wire_computes :
  dec (A := Z * list Z) (enc (7, [1; -3])) = Some ((7, [1; -3]), []).
Proof. vm_compute. reflexivity. Qed.
