(* ===== verification/Keys.v ===== *)
(** * Keys: the textual keys of the key-value store

    [lib/types/store/key.go] builds every key of the program by printing its
    parts and separating them with a slash.  This file models [NewKey] part by
    part (the kinds it knows and the ones it skips), the [pb.MetaType] tags the
    state module uses, and proves that numeric keys are injective, which is what
    lets a write under one key leave all the others alone. *)

From S2P Require Import Prelude.

(** An argument of [NewKey], by the [reflect.Kind] the switch looks at. *)
Inductive key_part : Type :=
  | KSlice (b : bytes)
  | KString (s : string)
  | KInt (z : Z)
  | KMetaType (z : Z)   (** kind Int32, type pb.MetaType *)
  | KInt32 (z : Z)
  | KInt64 (z : Z)
  | KUint (z : Z)
  | KUint32 (z : Z)
  | KUint64 (z : Z)
  | KOther.             (** any other kind: the loop continues *)

Definition KeyDelimiter : ascii := "/"%char.

(** [strconv.FormatInt(z, 10)] and [strconv.FormatUint(z, 10)]. *)
Definition format10 (z : Z) : bytes := bytes_of_string (pretty z).

Definition key_part_bytes (p : key_part) : option bytes :=
  match p with
  | KSlice b => Some b
  | KString s => Some (bytes_of_string s)
  | KInt z | KMetaType z | KInt32 z | KInt64 z | KUint z | KUint32 z | KUint64 z =>
      Some (format10 z)
  | KOther => None
  end.

Fixpoint NewKey (vs : list key_part) : bytes :=
  match vs with
  | [] => []
  | v :: rest =>
      match key_part_bytes v with
      | None => NewKey rest
      | Some b =>
          match rest with
          | [] => b
          | _ => b ++ KeyDelimiter :: NewKey rest
          end
      end
  end.

(** The [pb.MetaType] constants the modelled parts use. *)
Module pb.
Definition MetaType_ST_RootKey := 20.
Definition MetaType_ST_BlockHeightKey := 21.
Definition MetaType_ST_ChalEpochKey := 22.
Definition MetaType_ST_KeepersKey := 25.
Definition MetaType_ST_UsersKey := 26.
Definition MetaType_ST_ProsKey := 27.
Definition MetaType_ST_PDPVerifyKey := 29.
Definition MetaType_ST_RoleBaseKey := 30.
Definition MetaType_ST_RoleValueKey := 31.
Definition MetaType_ST_PDPPublicKey := 32.
Definition MetaType_ST_NetKey := 33.
Definition MetaType_ST_BucketOptKey := 35.
Definition MetaType_ST_SegLocKey := 36.
Definition MetaType_ST_SegMapKey := 37.
Definition MetaType_ST_OrderStateKey := 39.
Definition MetaType_ST_OrderBaseKey := 40.
Definition MetaType_ST_OrderSeqKey := 41.
Definition MetaType_ST_OrderDurationKey := 42.
Definition MetaType_ST_SegProofKey := 45.
Definition MetaType_ST_SegPayKey := 46.
Definition MetaType_ST_SegPayComfirmKey := 47.
Definition MetaType_ST_BucMetaKey := 48.
Definition MetaType_ST_ObjMetaKey := 49.
Definition MetaType_OrderNonceKey := 50.
Definition MetaType_OrderBaseKey := 51.
Definition MetaType_OrderSeqNumKey := 52.
Definition MetaType_OrderSeqKey := 53.
Definition MetaType_OrderProsKey := 54.
Definition MetaType_OrderProsDeleteKey := 56.
Definition MetaType_OrderSeqJobKey := 57.
Definition MetaType_OrderPayInfoKey := 58.
Definition MetaType_RoleInfoKey := 1.
Definition MetaType_LFS_OpJobsKey := 15.
Definition MetaType_LFS_OpStateKey := 16.
Definition MetaType_LFS_OpCountKey := 17.
Definition MetaType_TX_BlockKey := 61.
Definition MetaType_Tx_BlockHeightKey := 62.
Definition MetaType_TX_MessageKey := 64.
Definition MetaType_Tx_MessageStateKey := 65.
End pb.

(** ** Decimal numerals contain no delimiter *)

Definition is_digit (c : ascii) : Prop := c ∈ bytes_of_string "0123456789".

Lemma pretty_N_char_digit x : is_digit (pretty_N_char x).
Proof.
  unfold is_digit. unfold pretty_N_char. repeat case_match; simpl; set_solver.
Qed.

Lemma pretty_N_go_digits x s :
  Forall is_digit (bytes_of_string s) -> Forall is_digit (bytes_of_string (pretty_N_go x s)).
Proof.
  revert s. induction (N.lt_wf_0 x) as [x _ IH]; intros s Hs.
  destruct (decide (x = 0)%N) as [->|Hx]; [by rewrite pretty_N_go_0|].
  rewrite pretty_N_go_step by lia. apply IH; [by apply N.div_lt; lia|].
  simpl. constructor; [apply pretty_N_char_digit|done].
Qed.

Lemma format10_no_delim z : KeyDelimiter ∉ format10 z.
Proof.
  assert (forall n : N, Forall is_digit (bytes_of_string (pretty n))) as Hn.
  { intros n. unfold pretty, pretty_N. case_decide.
    - apply Forall_singleton. unfold is_digit. simpl. set_solver.
    - apply pretty_N_go_digits. constructor. }
  assert (forall l, Forall is_digit l -> KeyDelimiter ∉ l) as Hd.
  { intros l HF Hin. rewrite Forall_forall in HF. specialize (HF _ Hin).
    unfold is_digit, KeyDelimiter in HF. simpl in HF. set_solver. }
  unfold format10. destruct z as [|p|p]; unfold pretty, pretty_Z.
  - apply Hd. apply (Hn 0%N).
  - apply Hd. apply Hn.
  - rewrite bytes_of_string_app. simpl. rewrite not_elem_of_cons. split; [done|].
    apply Hd. apply Hn.
Qed.

#[export] Instance format10_inj : Inj (=) (=) format10.
Proof. intros x y H. unfold format10 in H. by apply bytes_of_string_inj, (inj pretty) in H. Qed.

(** A delimiter-free prefix is determined by the text up to the first slash. *)
Lemma split_at_delim (a b x y : bytes) :
  KeyDelimiter ∉ a -> KeyDelimiter ∉ b ->
  a ++ KeyDelimiter :: x = b ++ KeyDelimiter :: y -> a = b /\ x = y.
Proof.
  revert b. induction a as [|c a IH]; intros [|d b] Ha Hb E; simpl in *.
  - by injection E.
  - injection E as <- _. set_solver.
  - injection E as -> _. set_solver.
  - injection E as -> E. apply IH in E as [-> ->]; [done|set_solver..].
Qed.

Lemma delim_in_app (a x : bytes) : KeyDelimiter ∈ a ++ KeyDelimiter :: x.
Proof. set_solver. Qed.

(** ** Numeric keys *)

(** The keys of the program's own tables: a tag followed by numbers. *)
Definition num_part (p : key_part) : option Z :=
  match p with
  | KInt z | KMetaType z | KInt32 z | KInt64 z | KUint z | KUint32 z | KUint64 z => Some z
  | _ => None
  end.

Definition all_num (vs : list key_part) : Prop := Forall (fun p => is_Some (num_part p)) vs.

Lemma num_part_bytes p z : num_part p = Some z -> key_part_bytes p = Some (format10 z).
Proof. by destruct p; intros [= ->]. Qed.

Lemma NewKey_cons_num p z q vs :
  num_part p = Some z -> all_num (q :: vs) ->
  NewKey (p :: q :: vs) = format10 z ++ KeyDelimiter :: NewKey (q :: vs).
Proof. intros Hp _. cbn [NewKey]. by rewrite (num_part_bytes _ _ Hp). Qed.

Lemma NewKey_one_num p z : num_part p = Some z -> NewKey [p] = format10 z.
Proof. intros Hp. cbn [NewKey]. by rewrite (num_part_bytes _ _ Hp). Qed.

(** Keys made of numbers are equal only when they list the same numbers. *)
Lemma NewKey_num_inj vs ws :
  all_num vs -> all_num ws -> vs <> [] -> ws <> [] ->
  NewKey vs = NewKey ws -> map num_part vs = map num_part ws.
Proof.
  intros Hv. revert ws. induction Hv as [|p vs [z Hp] Hv IH]; intros ws Hw Hne1 Hne2 E; [done|].
  destruct Hw as [|q ws [w Hq] Hw]; [done|].
  destruct vs as [|p' vs], ws as [|q' ws].
  - rewrite (NewKey_one_num _ _ Hp), (NewKey_one_num _ _ Hq) in E.
    apply (inj format10) in E. simpl. congruence.
  - exfalso. rewrite (NewKey_one_num _ _ Hp), (NewKey_cons_num _ _ _ _ Hq Hw) in E.
    apply (format10_no_delim z). rewrite E. apply delim_in_app.
  - exfalso. rewrite (NewKey_cons_num _ _ _ _ Hp Hv), (NewKey_one_num _ _ Hq) in E.
    apply (format10_no_delim w). rewrite <-E. apply delim_in_app.
  - rewrite (NewKey_cons_num _ _ _ _ Hp Hv), (NewKey_cons_num _ _ _ _ Hq Hw) in E.
    apply split_at_delim in E as [E1 E2]; [|apply format10_no_delim..].
    apply (inj format10) in E1 as ->. apply IH in E2; [|done..].
    change (num_part p :: map num_part (p' :: vs) = num_part q :: map num_part (q' :: ws)).
    congruence.
Qed.

(** ** The tag of a key *)

(** The text before the first delimiter. *)
Fixpoint key_tag (k : bytes) : bytes :=
  match k with
  | [] => []
  | c :: k => if bool_decide (c = KeyDelimiter) then [] else c :: key_tag k
  end.

Lemma key_tag_app a x : KeyDelimiter ∉ a -> key_tag (a ++ KeyDelimiter :: x) = a.
Proof.
  induction a as [|c a IH]; intros Ha; simpl.
  - done.
  - rewrite bool_decide_false by set_solver. f_equal. apply IH. set_solver.
Qed.

Lemma key_tag_self a : KeyDelimiter ∉ a -> key_tag a = a.
Proof.
  induction a as [|c a IH]; intros Ha; simpl; [done|].
  rewrite bool_decide_false by set_solver. f_equal. apply IH. set_solver.
Qed.

(** Whatever follows the tag, raw bytes included, two keys with different tags
    differ. *)
Lemma key_tag_NewKey t vs : key_tag (NewKey (KMetaType t :: vs)) = format10 t.
Proof.
  cbn [NewKey key_part_bytes]. destruct vs.
  - apply key_tag_self, format10_no_delim.
  - apply key_tag_app, format10_no_delim.
Qed.

Lemma NewKey_tag_ne t u vs ws : t <> u -> NewKey (KMetaType t :: vs) <> NewKey (KMetaType u :: ws).
Proof.
  intros Hne E. apply (f_equal key_tag) in E. rewrite !key_tag_NewKey in E. by apply (inj format10) in E.
Qed.

(** A tag and one string. *)
Lemma NewKey_string_inj t x y : NewKey [KMetaType t; KString x] = NewKey [KMetaType t; KString y] -> x = y.
Proof.
  cbn [NewKey key_part_bytes]. intros [_ E]%split_at_delim; [|apply format10_no_delim..].
  by apply (inj bytes_of_string) in E.
Qed.

Definition has_tag (ts : list Z) (k : bytes) : Prop := Exists (fun t => key_tag k = format10 t) ts.

Lemma has_tag_NewKey ts t vs : has_tag ts (NewKey (KMetaType t :: vs)) <-> t ∈ ts.
Proof.
  unfold has_tag. rewrite Exists_exists. split.
  - intros (u & Hu & E). rewrite key_tag_NewKey in E. by apply (inj format10) in E as ->.
  - intros Ht. exists t. by rewrite key_tag_NewKey.
Qed.

Lemma has_tag_ne ts k t vs :
  has_tag ts k -> bool_decide (t ∈ ts) = false -> NewKey (KMetaType t :: vs) <> k.
Proof.
  intros Hk Ht <-. apply has_tag_NewKey in Hk. by apply bool_decide_eq_false in Ht.
Qed.

(** Comparing tags by computation. *)
Ltac tag_compute := vm_compute; reflexivity.
