(* ===== verification/Segments.v ===== *)
(** * Segments: the run-length queues of [lib/types/segment.go]

    [SegJobsQueue], [AggSegsQueue] and [StripeQueue] are three copies of one
    structure: a slice of runs [Start, Start+Length) tagged with a group
    (bucket and job, bucket, or chunk), with [Push] that grows the last run when
    the new one continues it, [Merge] that sorts and coalesces, and [Has] that
    looks a stripe up with early exits.  The class [Run] states what the three
    element types share; [Push] and [Merge] are written once against it and
    instantiated at the three types, [Has] and [Equal] are written per type as
    the source writes them.

    The elements of a queue are distinct non-nil pointers; the in-place updates
    of the source are the updates of the list below. *)

From S2P Require Import Prelude.
From Stdlib Require Import Sorting.Sorted Sorting.Permutation.

(** [sort.Sort] of the Go standard library: any function that returns a
    permutation of its input that is ordered by [Less] (the library promises no
    more: the order of equal elements is unspecified). *)
Class GoSort := {
  go_sort {A} (less : A -> A -> bool) : list A -> list A;
  go_sort_perm {A} (less : A -> A -> bool) l : Permutation (go_sort less l) l;
  go_sort_sorted {A} (less : A -> A -> bool) l :
    (forall x y, less x y = true -> less y x = false) ->
    (forall x y z, less y x = false -> less z y = false -> less z x = false) ->
    StronglySorted (fun x y => less y x = false) (go_sort less l);
}.

Class Run (A : Type) := {
  run_less : A -> A -> bool;         (** the queue's [Less] *)
  run_same : A -> A -> bool;         (** the group test of [Push] and [Merge] *)
  run_start : A -> Z;
  run_length : A -> Z;
  run_set_length : Z -> A -> A;
}.

(** ** The element types *)

Record SegJob := mkSegJob {
  sj_JobID : Z; sj_BucketID : Z; sj_Start : Z; sj_Length : Z; sj_ChunkID : Z }.

Record AggSegs := mkAggSegs {
  as_BucketID : Z; as_Start : Z; as_Length : Z; as_ChunkID : Z }.

Record AggStripe := mkAggStripe {
  ast_Order : Z; ast_ProID : Z; ast_Start : Z; ast_Length : Z }.

Record Stripe := mkStripe { st_ChunkID : Z; st_Start : Z; st_Length : Z }.

#[export] Instance SegJob_eq_dec : EqDecision SegJob.
Proof. solve_decision. Defined.
#[export] Instance AggSegs_eq_dec : EqDecision AggSegs.
Proof. solve_decision. Defined.
#[export] Instance AggStripe_eq_dec : EqDecision AggStripe.
Proof. solve_decision. Defined.
#[export] Instance Stripe_eq_dec : EqDecision Stripe.
Proof. solve_decision. Defined.

Definition SegJobsQueue_Less (x y : SegJob) : bool :=
  if negb (sj_BucketID x =? sj_BucketID y) then sj_BucketID x <? sj_BucketID y
  else if negb (sj_JobID x =? sj_JobID y) then sj_JobID x <? sj_JobID y
  else sj_Start x <? sj_Start y.

Definition AggSegsQueue_Less (x y : AggSegs) : bool :=
  if negb (as_BucketID x =? as_BucketID y) then as_BucketID x <? as_BucketID y
  else as_Start x <? as_Start y.

Definition StripeQueue_Less (x y : Stripe) : bool := st_Start x <? st_Start y.

#[export] Instance run_SegJob : Run SegJob := {
  run_less := SegJobsQueue_Less;
  run_same x y := (sj_BucketID x =? sj_BucketID y) && (sj_JobID x =? sj_JobID y);
  run_start := sj_Start;
  run_length := sj_Length;
  run_set_length n x := mkSegJob (sj_JobID x) (sj_BucketID x) (sj_Start x) n (sj_ChunkID x);
}.

#[export] Instance run_AggSegs : Run AggSegs := {
  run_less := AggSegsQueue_Less;
  run_same x y := as_BucketID x =? as_BucketID y;
  run_start := as_Start;
  run_length := as_Length;
  run_set_length n x := mkAggSegs (as_BucketID x) (as_Start x) n (as_ChunkID x);
}.

#[export] Instance run_Stripe : Run Stripe := {
  run_less := StripeQueue_Less;
  run_same x y := st_ChunkID x =? st_ChunkID y;
  run_start := st_Start;
  run_length := st_Length;
  run_set_length n x := mkStripe (st_ChunkID x) (st_Start x) n;
}.

(** ** [Push] and [Merge] *)

Section Queue.
Context {A : Type} `{!Run A}.

(** [x.Start+x.Length], in uint64 *)
Definition run_end (x : A) : Z := u64 (run_start x + run_length x).

(** [y] continues [x]: same group and [x.Start+x.Length == y.Start] *)
Definition continues (x y : A) : bool := run_same x y && (run_end x =? run_start y).

(** [x.Length += y.Length] *)
Definition grow (x y : A) : A := run_set_length (u64 (run_length x + run_length y)) x.

Fixpoint Push (q : list A) (s : A) : list A :=
  match q with
  | [] => [s]
  | [last] => if continues last s then [grow last s] else [last; s]
  | x :: q => x :: Push q s
  end.

(** The first loop of [Merge], from index [i] holding [x] on: the run at [i]
    absorbs the ones that continue it, whose length becomes zero. *)
Fixpoint coalesce (x : A) (l : list A) : list A :=
  match l with
  | [] => [x]
  | y :: l =>
      if continues x y then
        match coalesce (grow x y) l with
        | x' :: r => x' :: run_set_length 0 y :: r
        | [] => []
        end
      else x :: coalesce y l
  end.

(** The second loop: compact the slice, dropping empty runs. *)
Definition compact (l : list A) : list A := filter (fun x => run_length x <> 0) l.

Definition Merge `{!GoSort} (q : list A) : list A :=
  compact (match go_sort run_less q with [] => [] | x :: l => coalesce x l end).

(** [Size] of the queue, as a Go [int] *)
Definition Size (q : list A) : Z := foldl (fun acc x => i64 (acc + run_length x)) 0 q.
End Queue.

(** ** Lookups *)

(** [SegJobsQueue.Has] *)
Fixpoint SegJobsQueue_Has (q : list SegJob) (bucketID jobID stripeID chunkID : Z) : bool :=
  match q with
  | [] => false
  | a :: q =>
      if sj_BucketID a <? bucketID then SegJobsQueue_Has q bucketID jobID stripeID chunkID
      else if sj_BucketID a >? bucketID then false
      else if sj_JobID a <? jobID then SegJobsQueue_Has q bucketID jobID stripeID chunkID
      else if sj_JobID a >? jobID then false
      else if sj_Start a >? stripeID then false
      else if (sj_Start a <=? stripeID) && (run_end a >? stripeID) && (sj_ChunkID a =? chunkID)
      then true
      else SegJobsQueue_Has q bucketID jobID stripeID chunkID
  end.

(** [AggSegsQueue.Has] *)
Fixpoint AggSegsQueue_Has (q : list AggSegs) (bucketID stripeID chunkID : Z) : bool :=
  match q with
  | [] => false
  | a :: q =>
      if as_BucketID a >? bucketID then false
      else if as_BucketID a =? bucketID then
        if as_Start a >? stripeID then false
        else if (as_Start a <=? stripeID) && (run_end a >? stripeID) && (as_ChunkID a =? chunkID)
        then true
        else AggSegsQueue_Has q bucketID stripeID chunkID
      else AggSegsQueue_Has q bucketID stripeID chunkID
  end.

(** [StripeQueue.Has] *)
Fixpoint StripeQueue_Has (q : list Stripe) (stripeID chunkID : Z) : bool :=
  match q with
  | [] => false
  | a :: q =>
      if st_Start a >? stripeID then false
      else if (st_Start a <=? stripeID) && (run_end a >? stripeID) && (st_ChunkID a =? chunkID)
      then true
      else StripeQueue_Has q stripeID chunkID
  end.

(** [StripeQueue.GetChunkID]: [None] is the error "not found" *)
Fixpoint StripeQueue_GetChunkID (q : list Stripe) (stripeID : Z) : option Z :=
  match q with
  | [] => None
  | a :: q =>
      if st_Start a >? stripeID then None
      else if (st_Start a <=? stripeID) && (run_end a >? stripeID)
      then Some (st_ChunkID a)
      else StripeQueue_GetChunkID q stripeID
  end.

(** [Equal]: same length, and the listed fields agree at every index. *)
Definition queue_equal {A} (eqb : A -> A -> bool) (q old : list A) : bool :=
  (length q =? length old)%nat && forallb (fun p => eqb p.1 p.2) (zip q old).

Definition SegJobsQueue_Equal : list SegJob -> list SegJob -> bool :=
  queue_equal (fun x y => (sj_BucketID x =? sj_BucketID y) && (sj_JobID x =? sj_JobID y)
                          && (sj_Start x =? sj_Start y) && (sj_Length x =? sj_Length y)).
Definition AggSegsQueue_Equal : list AggSegs -> list AggSegs -> bool :=
  queue_equal (fun x y => (as_BucketID x =? as_BucketID y)
                          && (as_Start x =? as_Start y) && (as_Length x =? as_Length y)).
Definition StripeQueue_Equal : list Stripe -> list Stripe -> bool :=
  queue_equal (fun x y => (st_ChunkID x =? st_ChunkID y)
                          && (st_Start x =? st_Start y) && (st_Length x =? st_Length y)).

(** ** What the queues promise *)

(** The stripes a queue holds for the group of [g]. *)
Definition in_run {A} `{!Run A} (x : A) (s : Z) : Prop :=
  run_start x <= s < run_start x + run_length x.
Definition Covered {A} `{!Run A} (q : list A) (g : A) (s : Z) : Prop :=
  exists x, x ∈ q /\ run_same g x = true /\ in_run x s.

(** A run inside the range of uint64. *)
Definition run_wf {A} `{!Run A} (x : A) : Prop :=
  0 <= run_start x /\ 0 <= run_length x /\ run_start x + run_length x < 2 ^ 64.

Class RunLaws (A : Type) `{!Run A} := {
  run_same_refl (x : A) : run_same x x = true;
  run_same_sym (x y : A) : run_same x y = run_same y x;
  run_same_trans (x y z : A) : run_same x y = true -> run_same x z = run_same y z;
  run_same_set n (x y : A) : run_same x (run_set_length n y) = run_same x y;
  run_start_set n (x : A) : run_start (run_set_length n x) = run_start x;
  run_length_set n (x : A) : run_length (run_set_length n x) = n;
  run_less_asym (x y : A) : run_less x y = true -> run_less y x = false;
  run_less_negtrans (x y z : A) :
    run_less y x = false -> run_less z y = false -> run_less z x = false;
}.

(** The three orders, as propositions. *)
Lemma SegJobsQueue_Less_spec x y :
  SegJobsQueue_Less x y = true <->
  sj_BucketID x < sj_BucketID y \/
  (sj_BucketID x = sj_BucketID y /\
   (sj_JobID x < sj_JobID y \/ (sj_JobID x = sj_JobID y /\ sj_Start x < sj_Start y))).
Proof.
  unfold SegJobsQueue_Less.
  destruct (Z.eqb_spec (sj_BucketID x) (sj_BucketID y)); simpl; [|rewrite Z.ltb_lt; lia].
  destruct (Z.eqb_spec (sj_JobID x) (sj_JobID y)); simpl; rewrite Z.ltb_lt; lia.
Qed.

Lemma AggSegsQueue_Less_spec x y :
  AggSegsQueue_Less x y = true <->
  as_BucketID x < as_BucketID y \/ (as_BucketID x = as_BucketID y /\ as_Start x < as_Start y).
Proof.
  unfold AggSegsQueue_Less.
  destruct (Z.eqb_spec (as_BucketID x) (as_BucketID y)); simpl; rewrite Z.ltb_lt; lia.
Qed.

Lemma StripeQueue_Less_spec x y : StripeQueue_Less x y = true <-> st_Start x < st_Start y.
Proof. apply Z.ltb_lt. Qed.

Ltac run_laws spec :=
  split; intros; simpl in *; rewrite <-?not_true_iff_false in *; rewrite ?spec in *;
  rewrite ?andb_true_iff, ?Z.eqb_eq in *; try done; try lia;
  apply eq_true_iff_eq; rewrite ?andb_true_iff, ?Z.eqb_eq; lia.

#[export] Instance run_laws_SegJob : RunLaws SegJob.
Proof. run_laws SegJobsQueue_Less_spec. Qed.
#[export] Instance run_laws_AggSegs : RunLaws AggSegs.
Proof. run_laws AggSegsQueue_Less_spec. Qed.
#[export] Instance run_laws_Stripe : RunLaws Stripe.
Proof. run_laws StripeQueue_Less_spec. Qed.

Section QueueFacts.
Context {A : Type} `{!Run A, !RunLaws A}.
Implicit Types (x y g : A) (q l : list A).

Lemma run_end_wf x : run_wf x -> run_end x = run_start x + run_length x.
Proof. intros (?&?&?). apply u64_id. unfold is_u64. lia. Qed.

Lemma Covered_nil g s : Covered [] g s <-> False.
Proof. split; [|done]. intros (x & Hx & _). by apply not_elem_of_nil in Hx. Qed.

Lemma Covered_cons x q g s :
  Covered (x :: q) g s <-> (run_same g x = true /\ in_run x s) \/ Covered q g s.
Proof.
  unfold Covered. split.
  - intros (y & [->|Hy]%elem_of_cons & ?); [by left|right; eauto].
  - intros [[? ?]|(y & ? & ?)]; [exists x|exists y]; rewrite elem_of_cons; auto.
Qed.

Lemma Covered_perm q q' g s : Permutation q q' -> Covered q g s <-> Covered q' g s.
Proof.
  intros HP. unfold Covered. by setoid_rewrite HP.
Qed.

(** The run that absorbs another covers exactly the two. *)
Lemma grow_wf x y :
  run_wf x -> run_wf y -> continues x y = true -> run_wf (grow x y).
Proof.
  intros Hx Hy [_ E%Z.eqb_eq]%andb_true_iff. rewrite run_end_wf in E by done.
  unfold run_wf, grow in *. rewrite run_start_set, run_length_set.
  rewrite u64_id by (unfold is_u64; lia). lia.
Qed.

Lemma grow_in_run x y s :
  run_wf x -> run_wf y -> continues x y = true ->
  in_run (grow x y) s <-> in_run x s \/ in_run y s.
Proof.
  intros Hx Hy [_ E%Z.eqb_eq]%andb_true_iff. rewrite run_end_wf in E by done.
  unfold run_wf, in_run, grow in *. rewrite run_start_set, run_length_set.
  rewrite u64_id by (unfold is_u64; lia). lia.
Qed.

Lemma grow_same x y g : run_same g (grow x y) = run_same g x.
Proof. apply run_same_set. Qed.

Lemma continues_same x y g : continues x y = true -> run_same g y = run_same g x.
Proof.
  intros [E _]%andb_true_iff. rewrite !(run_same_sym g).
  symmetry. by apply run_same_trans.
Qed.

Lemma Covered_grow x y l g s :
  run_wf x -> run_wf y -> continues x y = true ->
  Covered (grow x y :: l) g s <-> Covered (x :: y :: l) g s.
Proof.
  intros Hx Hy HC. rewrite !Covered_cons, grow_same, grow_in_run by done.
  rewrite (continues_same x y g HC). tauto.
Qed.

Lemma Push_Covered q x g s :
  Forall run_wf q -> run_wf x ->
  Covered (Push q x) g s <-> Covered q g s \/ (run_same g x = true /\ in_run x s).
Proof.
  intros Hq Hx. induction Hq as [|y q Hy Hq IH].
  - simpl. rewrite Covered_cons, Covered_nil. tauto.
  - destruct q as [|z q].
    + simpl. destruct (continues y x) eqn:HC.
      * rewrite Covered_grow by done. rewrite !Covered_cons, Covered_nil. tauto.
      * rewrite !Covered_cons, Covered_nil. tauto.
    + change (Push (y :: z :: q) x) with (y :: Push (z :: q) x).
      rewrite Covered_cons, IH, (Covered_cons y). tauto.
Qed.

Lemma Push_wf q x : Forall run_wf q -> run_wf x -> Forall run_wf (Push q x).
Proof.
  intros Hq Hx. induction Hq as [|y q Hy Hq IH]; [by constructor|].
  destruct q as [|z q]; [|by constructor].
  simpl. destruct (continues y x) eqn:HC.
  - apply Forall_singleton. by apply grow_wf.
  - by repeat (apply Forall_cons; split; [done|]).
Qed.

(** The head of a coalesced list keeps its group and start. *)
Lemma coalesce_head x l :
  exists x' r, coalesce x l = x' :: r /\ run_start x' = run_start x /\
    (forall g, run_same g x' = run_same g x).
Proof.
  revert x. induction l as [|y l IH]; intros x; simpl; [by eauto|].
  destruct (continues x y); [|by eauto].
  destruct (IH (grow x y)) as (x' & r & -> & Hs & Hg).
  exists x', (run_set_length 0 y :: r). split_and!; [done| |].
  - rewrite Hs. apply run_start_set.
  - intros g. by rewrite Hg, grow_same.
Qed.

Lemma Covered_zero y l g s : Covered (run_set_length 0 y :: l) g s <-> Covered l g s.
Proof.
  rewrite Covered_cons. split; [|tauto]. intros [[_ Hin]|?]; [|done].
  unfold in_run in Hin. rewrite run_length_set, run_start_set in Hin. lia.
Qed.

Lemma coalesce_Covered x l g s :
  run_wf x -> Forall run_wf l ->
  Covered (coalesce x l) g s <-> Covered (x :: l) g s.
Proof.
  intros Hx Hl. revert x Hx. induction Hl as [|y l Hy Hl IH]; intros x Hx; [done|].
  simpl. destruct (continues x y) eqn:HC.
  - rewrite <-Covered_grow, <-IH by auto using grow_wf.
    destruct (coalesce_head (grow x y) l) as (x' & r & -> & _ & _).
    by rewrite !(Covered_cons x'), Covered_zero.
  - rewrite Covered_cons, IH, (Covered_cons x) by done. done.
Qed.

Lemma compact_Covered l g s : Covered (compact l) g s <-> Covered l g s.
Proof.
  unfold Covered, compact. setoid_rewrite list_elem_of_filter. split.
  - intros (x & [_ ?] & ?). eauto.
  - intros (x & ? & ? & Hin). exists x. unfold in_run in *. split_and!; auto; lia.
Qed.

(** Total length, without the [int] conversion of [Size]. *)
Definition total (q : list A) : Z := foldr (fun x acc => run_length x + acc) 0 q.

Lemma total_compact l : total (compact l) = total l.
Proof.
  unfold compact. induction l as [|x l IH]; [done|]. rewrite filter_cons.
  case_decide as E; simpl; rewrite IH; [done|]. destruct (Z.eq_dec (run_length x) 0); lia.
Qed.

Lemma total_perm l l' : Permutation l l' -> total l = total l'.
Proof. induction 1; simpl; lia. Qed.

Lemma coalesce_total x l :
  run_wf x -> Forall run_wf l -> total (coalesce x l) = total (x :: l).
Proof.
  intros Hx Hl. revert x Hx. induction Hl as [|y l Hy Hl IH]; intros x Hx; [done|].
  simpl. destruct (continues x y) eqn:HC.
  - pose proof (grow_wf x y Hx Hy HC) as Hg. pose proof (IH (grow x y) Hg) as E.
    destruct (coalesce_head (grow x y) l) as (x' & r & Er & _ & _). rewrite Er in *.
    simpl in *. rewrite run_length_set.
    unfold grow in E. rewrite run_length_set in E.
    apply andb_true_iff in HC as [_ HC%Z.eqb_eq]. rewrite run_end_wf in HC by done.
    rewrite u64_id in E by (unfold is_u64, run_wf in *; lia). lia.
  - simpl. rewrite IH by done. simpl. lia.
Qed.

(** Modulo 2^64 the total is kept whatever the runs are. *)
Lemma coalesce_total_mod x l : u64 (total (coalesce x l)) = u64 (total (x :: l)).
Proof.
  revert x. induction l as [|y l IH]; intros x; [done|]. simpl. destruct (continues x y).
  - pose proof (IH (grow x y)) as E. destruct (coalesce_head (grow x y) l) as (x' & r & Er & _ & _). rewrite Er in *.
    simpl in *. rewrite run_length_set, Z.add_0_l, E. unfold grow. rewrite run_length_set, u64_add_l. f_equal. lia.
  - simpl. rewrite <-u64_add_r, IH, u64_add_r. done.
Qed.

Lemma Push_total_mod q x : u64 (total (Push q x)) = u64 (total q + run_length x).
Proof.
  induction q as [|y q IH]; [by rewrite Z.add_comm|]. destruct q as [|z q].
  - simpl. destruct (continues y x); simpl; [|f_equal; lia].
    unfold grow. rewrite run_length_set, Z.add_0_r, u64_id by apply u64_range. f_equal. lia.
  - change (Push (y :: z :: q) x) with (y :: Push (z :: q) x). cbn [total foldr].
    change (foldr _ 0 (Push (z :: q) x)) with (total (Push (z :: q) x)).
    rewrite <-u64_add_r, IH, u64_add_r. f_equal. cbn [total foldr]. lia.
Qed.

Lemma Merge_total_mod `{!GoSort} q : u64 (total (Merge q)) = u64 (total q).
Proof.
  unfold Merge. rewrite total_compact. pose proof (go_sort_perm run_less q) as Hp.
  destruct (go_sort run_less q) as [|x l].
  - apply Permutation_nil in Hp as ->. done.
  - rewrite coalesce_total_mod. f_equal. by apply total_perm.
Qed.

(** After coalescing positive runs no neighbour continues another. *)
Definition canonical (q : list A) : Prop := Sorted (fun x y => continues x y = false) q.

Lemma grow_pos x y :
  run_wf x -> run_wf y -> continues x y = true -> 0 < run_length x -> 0 < run_length (grow x y).
Proof.
  intros Hx Hy [_ E%Z.eqb_eq]%andb_true_iff Hp. rewrite run_end_wf in E by done.
  unfold grow, run_wf in *. rewrite run_length_set, u64_id; unfold is_u64; lia.
Qed.

Lemma coalesce_canonical x l :
  run_wf x -> Forall run_wf l -> 0 < run_length x -> Forall (fun y => 0 < run_length y) l ->
  canonical (compact (coalesce x l)) /\
  exists x' r, compact (coalesce x l) = x' :: r /\ run_start x' = run_start x /\
    (forall g, run_same g x' = run_same g x).
Proof.
  intros Hx Hl Hxp Hlp. revert x Hx Hxp.
  induction l as [|y l IH]; intros x Hx Hxp.
  { simpl. unfold compact. rewrite filter_cons_True by lia. rewrite filter_nil.
    split; [repeat constructor|]. eauto. }
  apply Forall_cons in Hl as [Hy Hl], Hlp as [Hyp Hlp].
  specialize (IH Hl Hlp). simpl. destruct (continues x y) eqn:HC.
  - destruct (IH (grow x y)) as [HS (x' & r & E & Hs & Hg)];
      [by apply grow_wf|by apply grow_pos|].
    destruct (coalesce_head (grow x y) l) as (x'' & r' & Er & _ & _). rewrite Er in *.
    assert (compact (x'' :: run_set_length 0 y :: r') = compact (x'' :: r')) as ->.
    { unfold compact. rewrite !filter_cons, run_length_set. by case_decide. }
    split; [done|]. exists x', r. rewrite E, Hs. split_and!; [done|apply run_start_set|].
    intros g. by rewrite Hg, grow_same.
  - destruct (IH y) as [HS (y' & r & E & Hs & Hg)]; [done..|].
    unfold compact in *. rewrite filter_cons_True by lia. split; [|by eauto].
    constructor; [done|]. rewrite E. constructor.
    unfold continues in *. by rewrite Hs, Hg.
Qed.
End QueueFacts.

(** ** Insertion sort: a concrete [sort.Sort] *)

Section InsertionSort.
Context {A : Type} (less : A -> A -> bool).

Fixpoint sort_insert (x : A) (l : list A) : list A :=
  match l with
  | [] => [x]
  | y :: l => if less x y then x :: y :: l else y :: sort_insert x l
  end.
Definition insertion_sort (l : list A) : list A := foldr sort_insert [] l.

Lemma sort_insert_perm x l : Permutation (sort_insert x l) (x :: l).
Proof.
  induction l as [|y l IH]; simpl; [done|]. destruct (less x y); [done|].
  rewrite IH. apply Permutation_swap.
Qed.

Lemma insertion_sort_perm l : Permutation (insertion_sort l) l.
Proof. induction l as [|x l IH]; simpl; [done|]. by rewrite sort_insert_perm, IH. Qed.

Context (asym : forall x y, less x y = true -> less y x = false).
Context (negtrans : forall x y z, less y x = false -> less z y = false -> less z x = false).

Lemma sort_insert_sorted x l :
  StronglySorted (fun x y => less y x = false) l ->
  StronglySorted (fun x y => less y x = false) (sort_insert x l).
Proof using asym negtrans.
  induction 1 as [|y l Hl IH HF]; simpl; [by repeat constructor|].
  destruct (less x y) eqn:E.
  - constructor; [by constructor|]. constructor; [by apply asym|].
    eapply Forall_impl; [exact HF|]. intros z Hz. simpl in *.
    eapply negtrans; [|exact Hz]. by apply asym.
  - constructor; [done|]. rewrite sort_insert_perm. by constructor.
Qed.

Lemma insertion_sort_sorted l : StronglySorted (fun x y => less y x = false) (insertion_sort l).
Proof using asym negtrans.
  induction l as [|x l IH]; simpl; [constructor|]. by apply sort_insert_sorted.
Qed.
End InsertionSort.

#[export] Instance go_insertion_sort : GoSort | 100 := {
  go_sort A := @insertion_sort A;
  go_sort_perm A := @insertion_sort_perm A;
  go_sort_sorted A less l asym negtrans := insertion_sort_sorted less asym negtrans l;
}.

(** ** Merge *)

Section MergeCorrect.
Context {A : Type} `{!Run A, !RunLaws A, !GoSort}.
Implicit Types (g : A) (q : list A).

Lemma Merge_unfold q :
  (q = [] /\ Merge q = []) \/
  exists x l, Permutation (x :: l) q /\ Merge q = compact (coalesce x l).
Proof.
  unfold Merge. pose proof (go_sort_perm run_less q) as HP.
  destruct (go_sort run_less q) as [|x l]; [left|right; eauto].
  apply Permutation_nil in HP as ->. done.
Qed.

(** [Merge] rearranges a queue without changing what it holds: for every
    group and stripe the merged queue covers the stripe exactly when the
    original did, the total length is the same, and when no run was empty no
    two neighbours of the result can be merged further. *)
Theorem Merge_correct q :
  Forall run_wf q ->
  (forall g s, Covered (Merge q) g s <-> Covered q g s) /\
  total (Merge q) = total q /\
  (Forall (fun x => 0 < run_length x) q -> canonical (Merge q)).
Proof.
  intros Hq. destruct (Merge_unfold q) as [[-> ->]|(x & l & HP & ->)].
  { split_and!; [done|done|constructor]. }
  pose proof Hq as Hxl. rewrite <-HP in Hxl. apply Forall_cons in Hxl as [Hx Hl].
  split_and!.
  - intros g s. rewrite compact_Covered, coalesce_Covered by done. by apply Covered_perm.
  - rewrite total_compact, coalesce_total by done. by apply total_perm.
  - intros Hp. rewrite <-HP in Hp. apply Forall_cons in Hp as [Hxp Hlp].
    by apply coalesce_canonical.
Qed.
End MergeCorrect.

Example Merge_computes :
  Merge [mkAggSegs 1 4 2 0; mkAggSegs 0 9 1 0; mkAggSegs 1 0 4 0]
  = [mkAggSegs 0 9 1 0; mkAggSegs 1 0 6 0].
Proof. reflexivity. Qed.

Lemma Merge_correct_witness :
  total (Merge [mkAggSegs 1 4 2 0; mkAggSegs 1 0 4 0]) = 6.
Proof.
  assert (Forall run_wf [mkAggSegs 1 4 2 0; mkAggSegs 1 0 4 0]) as Hwf
    by (repeat constructor; simpl; lia).
  exact (proj1 (proj2 (Merge_correct _ Hwf))).
Defined.

(** ** Has *)

Section HasCorrect.
Lemma run_end_gtb {A} `{!Run A} (x : A) s :
  run_wf x -> (run_end x >? s) = true <-> s < run_start x + run_length x.
Proof.
  intros (?&?&?). unfold run_end. rewrite Z.gtb_lt, u64_id; [done|].
  unfold is_u64. lia.
Qed.

(** What [AggSegsQueue.Has] looks for. *)
Definition holds_chunk (q : list AggSegs) (bucketID stripeID chunkID : Z) : Prop :=
  exists a, a ∈ q /\ as_BucketID a = bucketID /\ as_ChunkID a = chunkID /\ in_run a stripeID.

(** On a queue sorted by [Less], the early exits of [AggSegsQueue.Has]
    lose nothing: it returns true exactly when some run of the bucket holds
    the stripe under that chunk number. *)
Theorem AggSegsQueue_Has_correct q b s c :
  Forall run_wf q ->
  StronglySorted (fun x y => AggSegsQueue_Less y x = false) q ->
  AggSegsQueue_Has q b s c = true <-> holds_chunk q b s c.
Proof.
  intros Hwf HS. unfold holds_chunk. induction HS as [|a q HS IH HF].
  { split; [done|]. intros (a & Ha & _). by apply not_elem_of_nil in Ha. }
  apply Forall_cons in Hwf as [Ha Hwf]. specialize (IH Hwf). rewrite Forall_forall in HF.
  assert (forall P : AggSegs -> Prop, (exists x, x ∈ a :: q /\ P x) <-> P a \/ exists x, x ∈ q /\ P x)
    as Hcons by (intros P; setoid_rewrite elem_of_cons; naive_solver).
  rewrite Hcons, <-IH. clear Hcons. unfold in_run. simpl.
  pose proof (run_end_gtb a s Ha) as Hend. simpl in Hend.
  assert (as_BucketID a > b \/ (as_BucketID a = b /\ as_Start a > s) ->
          AggSegsQueue_Has q b s c = true -> False) as Hlate.
  { intros Hl Hq. apply IH in Hq as (x & Hx & Hb & _ & Hr).
    apply HF, not_true_iff_false in Hx. rewrite AggSegsQueue_Less_spec in Hx.
    unfold in_run in *. simpl in *. lia. }
  rewrite !Z.gtb_ltb in *.
  destruct (Z.ltb_spec b (as_BucketID a)); [split; [done|]; intros [?|?]; [lia|exfalso; auto with lia]|].
  destruct (Z.eqb_spec (as_BucketID a) b) as [Eb|Eb]; [|split; [auto|]; intros [?|?]; [lia|done]].
  destruct (Z.ltb_spec s (as_Start a)).
  { split; [done|]. intros [?|?]; [lia|exfalso; auto with lia]. }
  destruct (Z.leb_spec (as_Start a) s); [|lia]. simpl.
  destruct (s <? run_end a); destruct (Z.eqb_spec (as_ChunkID a) c); simpl;
    intuition (try congruence; try lia).
Qed.
End HasCorrect.

Lemma AggSegsQueue_Has_correct_witness :
  holds_chunk [mkAggSegs 0 0 4 1; mkAggSegs 2 5 3 0] 2 7 0.
Proof.
  assert (Forall run_wf [mkAggSegs 0 0 4 1; mkAggSegs 2 5 3 0]) as Hwf
    by (repeat constructor; simpl; lia).
  apply (AggSegsQueue_Has_correct _ 2 7 0 Hwf); [|reflexivity].
  repeat constructor.
Defined.

(** [AggSegsQueue.Merge] tests the bucket but not the chunk number, so
      merging can move a stripe from one chunk to another: there is a queue that
      holds stripe 1 of bucket 0 under chunk 1 and that, however the standard
      library sorts it, holds the stripe under chunk 0 instead after [Merge]. *)
Theorem AggSegsQueue_Merge_forgets_chunk :
  exists q, AggSegsQueue_Has q 0 1 1 = true /\ AggSegsQueue_Has q 0 1 0 = false /\
    forall sorter : GoSort,
      AggSegsQueue_Has (Merge q) 0 1 1 = false /\ AggSegsQueue_Has (Merge q) 0 1 0 = true.
Proof.
  set (x := mkAggSegs 0 0 1 0). set (y := mkAggSegs 0 1 1 1).
  exists [x; y]. split_and!; [done|done|]. intros sorter.
  pose proof (go_sort_perm run_less [x; y]) as HP.
  pose proof (go_sort_sorted run_less [x; y] run_less_asym run_less_negtrans) as HS.
  unfold Merge. apply symmetry, Permutation_length_2_inv in HP as [E|E]; rewrite E in HS |- *;
    [split; reflexivity|].
  apply StronglySorted_inv in HS as [_ HF]. inversion HF. done.
Qed.
