(* ===== verification/SegmentID.v ===== *)
(** * SegmentID: identifiers and layout of stored segments

    [lib/segment]: a segment identifier is 40 bytes, the file system's 20-byte
    identifier followed by bucket, stripe and chunk numbers in big endian; a
    stored segment is a 24-byte prefix, the raw segment and its tags. *)

From S2P Require Import Prelude GoMonad.

Definition SEGMENTID_LEN : nat := 40.
Definition FSID_LEN : nat := 20.
Definition DefaultPrefixLen : nat := 24.

(** [copy(dst[:n], src)] into a fresh buffer of [n] zero bytes. *)
Definition copy_into (n : nat) (src : bytes) : bytes :=
  take n src ++ replicate (n - length src) (byte_of_Z 0).

Lemma length_copy_into n src : length (copy_into n src) = n.
Proof. unfold copy_into. rewrite length_app, length_take, length_replicate. lia. Qed.

Lemma copy_into_exact n src : length src = n -> copy_into n src = src.
Proof. intros <-. unfold copy_into. by rewrite firstn_all, Nat.sub_diag, app_nil_r. Qed.

(** ** Identifiers ([lib/segment/id.go]) *)

Definition CreateSegmentID (fid : bytes) (bid sid cid : Z) : bytes :=
  copy_into FSID_LEN fid ++ put_be 8 bid ++ put_be 8 sid ++ put_be 4 cid.

(** [NewSegmentID] refuses a file-system identifier of another length. *)
Definition NewSegmentID (fid : bytes) (bid sid cid : Z) : option bytes :=
  if negb (length fid =? FSID_LEN)%nat then None
  else Some (CreateSegmentID fid bid sid cid).

Definition SegmentID_FromBytes (b : bytes) : option bytes :=
  if negb (length b =? SEGMENTID_LEN)%nat then None else Some b.

Definition GetFsID (buf : bytes) : bytes := slice 0 FSID_LEN buf.
Definition GetBucketID (buf : bytes) : Z := get_be (slice FSID_LEN (FSID_LEN + 8) buf).
Definition GetStripeID (buf : bytes) : Z := get_be (slice (FSID_LEN + 8) (FSID_LEN + 16) buf).
Definition GetChunkID (buf : bytes) : Z := get_be (slice (FSID_LEN + 16) SEGMENTID_LEN buf).

(** [binary.BigEndian.PutUintN(buf[lo:hi], v)] *)
Definition put_at (lo n : nat) (v : Z) (buf : bytes) : bytes :=
  take lo buf ++ put_be n v ++ drop (lo + n) buf.
Definition SetBucketID (bid : Z) (buf : bytes) : bytes := put_at FSID_LEN 8 bid buf.
Definition SetStripeID (sid : Z) (buf : bytes) : bytes := put_at (FSID_LEN + 8) 8 sid buf.
Definition SetChunkID (cid : Z) (buf : bytes) : bytes := put_at (FSID_LEN + 16) 4 cid buf.

(** ** Layout ([lib/segment/content.go]) *)

Record Prefix := mkPrefix {
  p_Version : Z; p_Policy : Z; p_DataCount : Z; p_ParityCount : Z;
  p_TagFlag : Z; p_SegSize : Z }.

Definition Prefix_Serialize (p : Prefix) : bytes :=
  put_be 4 (p_Version p) ++ put_be 4 (p_Policy p) ++ put_be 4 (p_DataCount p)
  ++ put_be 4 (p_ParityCount p) ++ put_be 4 (p_TagFlag p) ++ put_be 4 (p_SegSize p).

Definition DeserializePrefix (data : bytes) : option (Prefix * nat) :=
  if (length data <? DefaultPrefixLen)%nat then None
  else
    let f k := get_be (slice (4 * k) (4 * k + 4) data) in
    Some (mkPrefix (f 0) (f 1) (f 2) (f 3) (f 4) (f 5), DefaultPrefixLen)%nat.

(** pdpcommon.TagMap; an absent code gives the zero value. *)
Definition TagMap (code : Z) : Z :=
  if code =? 1 then 4 else if code =? 2 then 32
  else if (code =? 3) || (code =? 4) || (code =? 5) then 48 else 0.

Record BaseSegment := mkBaseSegment { bs_segID : bytes; bs_data : bytes }.

Definition tag_count (pre : Prefix) : Z := 2 + (p_ParityCount pre - 1) / p_DataCount pre.

Definition BaseSegment_Content (bs : BaseSegment) : option bytes :=
  match DeserializePrefix (bs_data bs) with
  | None => None
  | Some (pre, preLen) =>
      if (length (bs_data bs) <? preLen + Z.to_nat (p_SegSize pre))%nat then None
      else Some (slice preLen (preLen + Z.to_nat (p_SegSize pre)) (bs_data bs))
  end.

Definition BaseSegment_Tags (bs : BaseSegment) : option (list bytes) :=
  match DeserializePrefix (bs_data bs) with
  | None => None
  | Some (pre, preLen) =>
      if (p_DataCount pre <? 1) || (p_ParityCount pre <? 1) then None
      else
        let tagLen := TagMap (p_TagFlag pre) in
        let tagCount := tag_count pre in
        if negb (Z.of_nat preLen + p_SegSize pre + tagCount * tagLen
                 =? Z.of_nat (length (bs_data bs))) then None
        else
          let base := (Z.to_nat (p_SegSize pre) + preLen)%nat in
          let tl := Z.to_nat tagLen in
          Some (map (fun i => slice (base + i * tl) (base + (i + 1) * tl) (bs_data bs))
                    (seq 0 (Z.to_nat tagCount)))
  end.

Definition BaseSegment_Serialize (bs : BaseSegment) : bytes :=
  copy_into 40 (bs_segID bs) ++ bs_data bs.

(** The receiver after [Deserialize]; [None] is an error. *)
Definition BaseSegment_Deserialize (b : bytes) : option BaseSegment :=
  if (length b <? 40)%nat then None
  else
    match SegmentID_FromBytes (take 40 b) with
    | None => None
    | Some segID =>
        match DeserializePrefix (drop 40 b) with
        | None => None
        | Some (pre, preSize) =>
            if (p_DataCount pre <? 1) || (p_ParityCount pre <? 1) then None
            else if negb (40 + Z.of_nat preSize + p_SegSize pre
                          + tag_count pre * TagMap (p_TagFlag pre) =? Z.of_nat (length b))
            then None
            else Some (mkBaseSegment segID (drop 40 b))
        end
    end.

Definition BaseSegment_IsValid (bs : BaseSegment) (size : Z) : bool :=
  match DeserializePrefix (bs_data bs) with
  | None => false
  | Some (pre, preSize) =>
      if negb (size =? p_SegSize pre) then false
      else if (p_DataCount pre <? 1) || (p_ParityCount pre <? 1) then false
      else Z.of_nat preSize + p_SegSize pre + tag_count pre * TagMap (p_TagFlag pre)
           =? Z.of_nat (length (bs_data bs))
  end.

(** ** Slices of concatenations *)

Lemma slice_app_skip (a b : bytes) lo hi :
  (length a <= lo)%nat -> slice lo hi (a ++ b) = slice (lo - length a) (hi - length a) b.
Proof.
  intros. unfold slice. rewrite drop_app_ge by done.
  replace (hi - length a - (lo - length a))%nat with (hi - lo)%nat by lia. done.
Qed.

Lemma slice_app_here (a b : bytes) hi : length a = hi -> slice 0 hi (a ++ b) = a.
Proof. intros <-. unfold slice. by rewrite drop_0, Nat.sub_0_r, take_app_length. Qed.

Ltac slices :=
  repeat (match goal with
          | |- context [slice ?lo ?hi (?a ++ ?b)] =>
              rewrite (slice_app_skip a b lo hi)
                by (rewrite ?length_put_be, ?length_copy_into; unfold FSID_LEN; lia)
          end; rewrite ?length_put_be, ?length_copy_into; simpl Nat.sub).

Section Ids.
Context (fid : bytes) (bid sid cid : Z).
Context (Hb : is_u64 bid) (Hs : is_u64 sid) (Hc : is_u32 cid).

Lemma length_CreateSegmentID : length (CreateSegmentID fid bid sid cid) = SEGMENTID_LEN.
Proof. unfold CreateSegmentID. by rewrite !length_app, length_copy_into, !length_put_be. Qed.

Lemma Create_GetFsID : GetFsID (CreateSegmentID fid bid sid cid) = copy_into FSID_LEN fid.
Proof. unfold GetFsID, CreateSegmentID. apply slice_app_here, length_copy_into. Qed.

Lemma Create_GetBucketID : GetBucketID (CreateSegmentID fid bid sid cid) = bid.
Proof using Hb.
  unfold GetBucketID, CreateSegmentID. slices.
  rewrite slice_app_here by apply length_put_be. by apply get_put_be8.
Qed.

Lemma Create_GetStripeID : GetStripeID (CreateSegmentID fid bid sid cid) = sid.
Proof using Hs.
  unfold GetStripeID, CreateSegmentID. slices.
  rewrite slice_app_here by apply length_put_be. by apply get_put_be8.
Qed.

Lemma Create_GetChunkID : GetChunkID (CreateSegmentID fid bid sid cid) = cid.
Proof using Hc.
  unfold GetChunkID, CreateSegmentID. slices.
  rewrite <-(app_nil_r (put_be 4 cid)).
  rewrite slice_app_here by apply length_put_be. by apply get_put_be4.
Qed.
End Ids.

(** A segment identifier determines its four parts: [CreateSegmentID] is
    injective on 20-byte file-system identifiers and in-range numbers, and the
    getters read back what was put in. *)
Theorem CreateSegmentID_roundtrip fid bid sid cid :
  length fid = FSID_LEN -> is_u64 bid -> is_u64 sid -> is_u32 cid ->
  let id := CreateSegmentID fid bid sid cid in
  SegmentID_FromBytes id = Some id /\ NewSegmentID fid bid sid cid = Some id /\
  GetFsID id = fid /\ GetBucketID id = bid /\ GetStripeID id = sid /\ GetChunkID id = cid.
Proof.
  intros Hf Hb Hs Hc id. unfold id.
  unfold SegmentID_FromBytes, NewSegmentID.
  rewrite length_CreateSegmentID, Hf, !Nat.eqb_refl.
  rewrite Create_GetFsID, copy_into_exact by done.
  rewrite Create_GetBucketID, Create_GetStripeID, Create_GetChunkID by done. done.
Qed.

Lemma CreateSegmentID_roundtrip_witness :
  GetStripeID (CreateSegmentID (replicate 20 "a"%char) 3 77 2) = 77.
Proof.
  assert (length (replicate 20 "a"%char) = FSID_LEN) as Hf by reflexivity.
  assert (is_u64 3 /\ is_u64 77 /\ is_u32 2) as (H3 & H77 & H2)
    by (unfold is_u64, is_u32; lia).
  apply (CreateSegmentID_roundtrip _ 3 77 2 Hf H3 H77 H2).
Defined.

(** ** Round trips of the layout *)

Definition prefix_wf (p : Prefix) : Prop :=
  is_u32 (p_Version p) /\ is_u32 (p_Policy p) /\ is_u32 (p_DataCount p) /\
  is_u32 (p_ParityCount p) /\ is_u32 (p_TagFlag p) /\ is_u32 (p_SegSize p).

Lemma length_Prefix_Serialize p : length (Prefix_Serialize p) = DefaultPrefixLen.
Proof. unfold Prefix_Serialize. by rewrite !length_app, !length_put_be. Qed.

Lemma DeserializePrefix_Serialize p rest :
  prefix_wf p -> DeserializePrefix (Prefix_Serialize p ++ rest) = Some (p, DefaultPrefixLen).
Proof.
  intros (?&?&?&?&?&?). unfold DeserializePrefix.
  rewrite length_app, length_Prefix_Serialize.
  destruct (Nat.ltb_spec (DefaultPrefixLen + length rest) DefaultPrefixLen); [lia|].
  unfold Prefix_Serialize. rewrite <-!app_assoc. do 2 f_equal.
  simpl Nat.mul. simpl Nat.add. slices.
  rewrite !slice_app_here by apply length_put_be.
  rewrite !get_put_be4 by done. by destruct p.
Qed.

(** A well-formed stored segment: identifier, supported policy, sizes that add
    up. *)
Definition segment_wf (id raw tags : bytes) (p : Prefix) : Prop :=
  length id = SEGMENTID_LEN /\ prefix_wf p /\ 1 <= p_DataCount p /\ 1 <= p_ParityCount p /\
  Z.of_nat (length raw) = p_SegSize p /\
  Z.of_nat (length tags) = tag_count p * TagMap (p_TagFlag p).

(** A stored segment survives the wire: what [Serialize] writes for a
    well-formed segment, [Deserialize] reads back unchanged, [IsValid] accepts
    it for its size, and [Content] returns exactly the raw segment. *)
Theorem BaseSegment_roundtrip id raw tags p :
  segment_wf id raw tags p ->
  let bs := mkBaseSegment id (Prefix_Serialize p ++ raw ++ tags) in
  BaseSegment_Deserialize (BaseSegment_Serialize bs) = Some bs /\
  BaseSegment_IsValid bs (p_SegSize p) = true /\
  BaseSegment_Content bs = Some raw.
Proof.
  intros (Hid & Hp & Hd & Hc & Hraw & Htag) bs.
  assert (DeserializePrefix (bs_data bs) = Some (p, DefaultPrefixLen)) as HD
    by exact (DeserializePrefix_Serialize p (raw ++ tags) Hp).
  assert ((p_DataCount p <? 1) || (p_ParityCount p <? 1) = false) as Hsup.
  { apply orb_false_iff. rewrite !Z.ltb_ge. lia. }
  assert (Z.of_nat (length (bs_data bs))
          = 24 + p_SegSize p + tag_count p * TagMap (p_TagFlag p)) as Hlen.
  { unfold bs. cbn [bs_data]. rewrite !length_app, length_Prefix_Serialize.
    unfold DefaultPrefixLen. lia. }
  split_and!.
  - unfold BaseSegment_Deserialize, BaseSegment_Serialize.
    rewrite copy_into_exact by done. simpl bs_segID.
    rewrite length_app, Hid. destruct (Nat.ltb_spec (SEGMENTID_LEN + length (bs_data bs)) 40);
      [unfold SEGMENTID_LEN in *; lia|].
    rewrite take_app_length', drop_app_length' by done.
    unfold SegmentID_FromBytes. rewrite Hid, Nat.eqb_refl. cbn [negb].
    rewrite HD, Hsup.
    rewrite Nat2Z.inj_add, Hlen. destruct (Z.eqb_spec
      (40 + Z.of_nat DefaultPrefixLen + p_SegSize p + tag_count p * TagMap (p_TagFlag p))
      (Z.of_nat SEGMENTID_LEN + (24 + p_SegSize p + tag_count p * TagMap (p_TagFlag p))));
      [done|unfold SEGMENTID_LEN, DefaultPrefixLen in *; lia].
  - unfold BaseSegment_IsValid. rewrite HD, Z.eqb_refl, Hsup, Hlen. cbn [negb].
    apply Z.eqb_eq. done.
  - unfold BaseSegment_Content. rewrite HD. cbn [bs bs_data].
    rewrite <-Hraw, Nat2Z.id, !length_app, length_Prefix_Serialize.
    destruct (Nat.ltb_spec (DefaultPrefixLen + (length raw + length tags))
      (DefaultPrefixLen + length raw)); [lia|].
    rewrite slice_app_skip by (rewrite length_Prefix_Serialize; done).
    rewrite length_Prefix_Serialize, Nat.sub_diag, Nat.add_comm, Nat.add_sub.
    by rewrite slice_app_here.
Qed.

Lemma BaseSegment_roundtrip_witness :
  BaseSegment_Content
    (mkBaseSegment (replicate 40 "i"%char)
       (Prefix_Serialize (mkPrefix 1 2 1 1 1 3) ++ bytes_of_string "abc"
        ++ bytes_of_string "tag1tag2")) = Some (bytes_of_string "abc").
Proof.
  assert (segment_wf (replicate 40 "i"%char) (bytes_of_string "abc")
            (bytes_of_string "tag1tag2") (mkPrefix 1 2 1 1 1 3)) as H.
  { unfold segment_wf, prefix_wf, is_u32. simpl. repeat split; try reflexivity; lia. }
  exact (proj2 (proj2 (BaseSegment_roundtrip _ _ _ _ H))).
Defined.
