(* ===== verification/Types.v ===== *)
(** * Types: the data types of [lib/types] and [lib/tx]

    Records for the structs, with the hashes they are signed under.  A
    [*big.Int] is an [option Z], [None] being nil.  The hash functions, the
    signature primitives and the codecs are outside [src/] (or, for the
    signature dispatch, in a component of their own): the class [Libs] lists
    what this code uses of them. *)

From S2P Require Import Prelude GoMonad Codec Segments.

(** ** Libraries *)

Class Hashes := {
  mh_sum : bytes -> option bytes;          (** mh.Sum(data, 0x4c, 20): prefix and digest *)
  mh_Decode_Code : bytes -> option Z;      (** mh.Decode(b): the code of the decoded hash *)
  blake3_Sum256 : bytes -> bytes;
  keccak256 : bytes -> bytes;
}.

Class Signatures := {
  (** [signature.Verify(pubkey, msg, sig)]: [None] is an error *)
  signature_Verify : bytes -> bytes -> bytes -> option bool;
  (** [bls.AggregateSignature(a, b)] *)
  bls_AggregateSignature : bytes -> bytes -> option bytes;
}.

(** ** lib/types/msg.go *)

(** [MsgID] wraps a string of bytes; [MsgIDUndef] is the empty one. *)
Abbreviation MsgID := (list ascii) (only parsing).
Definition MsgIDUndef : MsgID := [].
Definition MsgLen : nat := 22.
Definition MsgIDHashCode := 76.   (** 0x4c *)

Definition NewMsgID `{!Hashes} (data : bytes) : MsgID :=
  match mh_sum data with Some res => res | None => MsgIDUndef end.

(** [types.FromBytes] *)
Definition MsgID_FromBytes `{!Hashes} (b : bytes) : option MsgID :=
  match mh_Decode_Code b with
  | None => None
  | Some code => if negb (code =? MsgIDHashCode) then None else Some b
  end.

(** The documented behaviour of the multihash library: a sum with this code and
    length succeeds, is two bytes of prefix and twenty of digest, and decodes. *)
Class HashesLaws `{!Hashes} := {
  mh_sum_total data : exists res, mh_sum data = Some res /\ length res = MsgLen
                        /\ mh_Decode_Code res = Some MsgIDHashCode;
}.

Lemma NewMsgID_spec `{!Hashes, !HashesLaws} data :
  length (NewMsgID data) = MsgLen /\ MsgID_FromBytes (NewMsgID data) = Some (NewMsgID data).
Proof.
  destruct (mh_sum_total data) as (res & E & Hl & Hc).
  unfold NewMsgID, MsgID_FromBytes. rewrite E, Hc. by split.
Qed.

Definition MsgID_Equal (m old : MsgID) : bool := bool_decide (m = old).

(** ** lib/types/signature.go *)

Definition SigUnkown := 0.
Definition SigSecp256k1 := 1.
Definition SigBLS := 2.

Record Signature := mkSignature { sig_Type : Z; sig_Data : bytes }.
#[export] Instance Signature_eq_dec : EqDecision Signature.
Proof. solve_decision. Defined.

Definition Signature_Equal (s b : Signature) : bool :=
  (sig_Type s =? sig_Type b) && bool_decide (sig_Data s = sig_Data b).

Record MultiSignature := mkMultiSignature {
  ms_Type : Z; ms_Signer : list Z; ms_Data : bytes }.

Definition NewMultiSignature (typ : Z) : MultiSignature := mkMultiSignature typ [] [].

(** [Add]: the receiver after the call, or the error (which leaves it alone). *)
Definition MultiSignature_Add `{!Signatures} (ms : MultiSignature) (id : Z) (sig : Signature)
    : outcome MultiSignature :=
  if negb (sig_Type sig =? ms_Type ms) then Err "type not equal"
  else if existsb (fun sid => sid =? id) (ms_Signer ms) then Err "signer exist"
  else if ms_Type ms =? SigBLS then
    match ms_Data ms with
    | [] => Ok (mkMultiSignature (ms_Type ms) (ms_Signer ms ++ [id]) (sig_Data sig))
    | _ =>
        match bls_AggregateSignature (ms_Data ms) (sig_Data sig) with
        | None => Err "aggregate"
        | Some asig => Ok (mkMultiSignature (ms_Type ms) (ms_Signer ms ++ [id]) asig)
        end
    end
  else Ok (mkMultiSignature (ms_Type ms) (ms_Signer ms ++ [id]) (ms_Data ms ++ sig_Data sig)).

(** The loop of [SanityCheck] over the signers, with the set seen so far. *)
Fixpoint sanity_loop (seen : gset Z) (l : list Z) : bool :=
  match l with
  | [] => true
  | sid :: l => if bool_decide (sid ∈ seen) then false else sanity_loop ({[ sid ]} ∪ seen) l
  end.
Definition MultiSignature_SanityCheck (ms : MultiSignature) : bool :=
  sanity_loop ∅ (ms_Signer ms).

Definition MultiSignature_Len (ms : MultiSignature) : Z := Z.of_nat (length (ms_Signer ms)).

(** ** build *)

Definition DefaultSegSize := 248 * 1024.
Definition SlotDuration := 30.
Definition OrderMin := 100 * 86400.
Definition OrderMax := 1000 * 86400.
Definition Day := 86400.
(** time.Date(2021, December, 1, 0, 0, 0, 0, UTC).Unix() *)
Definition BaseTime := 1638316800.
Definition UpdateHeight1 := 2880.
Definition UpdateHeight2 := 2880 * 7.
Definition UpdateHeight3 := 103000.
Definition ChalDuration0 := 120.
Definition ChalDuration1 := 960.
Definition ChalDuration2 := 2880.
Definition ChalDuration3 := 2880 * 7.

(** The package variables, which the configuration changes once at start-up. *)
Class Build := {
  ContractVersion : Z;
  SMTVersion : Z;
  UpdateMap : gmap Z Z;
  ChalDurMap : gmap Z Z;
}.

Definition build_init : Build := {|
  ContractVersion := 0;
  SMTVersion := 2 ^ 32 - 1;
  UpdateMap := {[ 1 := UpdateHeight1; 2 := UpdateHeight2; 3 := UpdateHeight3 ]};
  ChalDurMap := {[ 0 := ChalDuration0; 1 := ChalDuration1; 2 := ChalDuration2; 3 := ChalDuration3 ]};
|}.

(** The part of the node builder that reads the genesis and contract sections
    of the configuration. *)
Definition build_configure (smtVersion smtHeight contractVersion : Z) (b : Build) : Build :=
  let b := if (0 <? smtVersion) && (0 <? smtHeight)
           then {| ContractVersion := @ContractVersion b;
                   SMTVersion := smtVersion;
                   UpdateMap := <[smtVersion := smtHeight]> (@UpdateMap b);
                   ChalDurMap := <[smtVersion := ChalDuration2]> (@ChalDurMap b) |}
           else b in
  if 0 <? contractVersion
  then {| ContractVersion := contractVersion; SMTVersion := 0;
          UpdateMap := @UpdateMap b; ChalDurMap := @ChalDurMap b |}
  else b.

(** ** lib/utils *)

(** [Bytes] of a big integer: the absolute value, big-endian, with no leading zero. *)
Definition big_Bytes (z : Z) : bytes :=
  match Z.abs z with
  | Z0 => []
  | a => put_be (Z.to_nat (Z.log2 a / 8 + 1)) a
  end.

Definition LeftPadBytes (b : bytes) (l : nat) : bytes :=
  if (l <=? length b)%nat then b else replicate (l - length b) (byte_of_Z 0) ++ b.

(** ** lib/types/order.go *)

Record NonceSeq := mkNonceSeq { ns_Nonce : Z; ns_SeqNum : Z; ns_SubNonce : Z }.

Record OrderBase := mkOrderBase {
  ob_UserID : Z; ob_ProID : Z; ob_Nonce : Z; ob_Start : Z; ob_End : Z;
  ob_TokenIndex : Z; ob_SegPrice : option Z; ob_PiecePrice : option Z }.

Record SignedOrder := mkSignedOrder {
  so_OrderBase : OrderBase; so_Size : Z; so_Price : option Z;
  so_Usign : Signature; so_Psign : Signature }.

Record OrderSeq := mkOrderSeq {
  os_UserID : Z; os_ProID : Z; os_Nonce : Z; os_SeqNum : Z; os_Size : Z;
  os_Price : option Z; os_Segments : list AggSegs }.

Record SignedOrderSeq := mkSignedOrderSeq {
  sos_OrderSeq : OrderSeq; sos_UserDataSig : Signature; sos_ProDataSig : Signature;
  sos_UserSig : Signature; sos_ProSig : Signature }.

Record OrderDelPart := mkOrderDelPart { dp_AccFr : bytes; dp_Size : Z; dp_Price : option Z }.

Record OrderFull := mkOrderFull {
  of_SignedOrder : SignedOrder; of_SeqNum : Z; of_AccFr : bytes; of_DelPart : OrderDelPart }.

Record SeqFull := mkSeqFull {
  sf_OrderSeq : OrderSeq; sf_AccFr : bytes; sf_DelPart : OrderDelPart;
  sf_DelSegs : list AggSegs }.

(** What [SignedOrder.Hash] writes to the digest, in order; [None] is the panic
    on a nil price.  [ContractVersion] chooses the width of the token index. *)
Definition SignedOrder_preimage `{!Build} (so : SignedOrder) : option bytes :=
  match so_Price so with
  | None => None
  | Some price =>
      let b := so_OrderBase so in
      Some (put_be 8 (ob_UserID b) ++ put_be 8 (ob_ProID b) ++ put_be 8 (ob_Nonce b)
            ++ put_be 8 (u64 (ob_Start b)) ++ put_be 8 (u64 (ob_End b))
            ++ put_be 8 (so_Size so)
            ++ (if ContractVersion =? 0 then put_be 4 (ob_TokenIndex b)
                else [byte_of_Z (ob_TokenIndex b)])
            ++ LeftPadBytes (big_Bytes price) 32)
  end.

Definition SignedOrder_Hash `{!Hashes, !Build} (so : SignedOrder) : option bytes :=
  keccak256 <$> SignedOrder_preimage so.

(** For the data chain: the sequence is hashed through its encoding. *)
Definition SignedOrderSeq_Hash `{!Hashes, !Codec OrderSeq} (os : SignedOrderSeq) : MsgID :=
  match marshal (sos_OrderSeq os) with
  | None => MsgIDUndef
  | Some buf => NewMsgID buf
  end.

Record OrderDuration := mkOrderDuration { od_Start : list Z; od_End : list Z }.

Definition OrderDuration_Add (od : OrderDuration) (start stop : Z) : outcome OrderDuration :=
  if start >=? stop then Err "start is later than end"
  else
    let ok := Ok (mkOrderDuration (od_Start od ++ [start]) (od_End od ++ [stop])) in
    match last (od_Start od) with
    | None => ok
    | Some lstart =>
        if lstart >? start then Err "start is later than previous"
        else match od_End od !! (length (od_Start od) - 1)%nat with
             | None => Panic "index out of range"
             | Some lend => if lend >? stop then Err "end is early than previous" else ok
             end
    end.

(** ** lib/types/chalPay.go *)

Record ChalEpoch := mkChalEpoch { ce_Epoch : Z; ce_Slot : Z; ce_Seed : MsgID }.

Record PostIncome := mkPostIncome {
  pi_UserID : Z; pi_ProID : Z; pi_TokenIndex : Z;
  pi_Value : option Z; pi_Penalty : option Z }.

Record AccPostIncome := mkAccPostIncome {
  api_ProID : Z; api_TokenIndex : Z; api_Value : option Z; api_Penalty : option Z }.

Record SignedAccPostIncome := mkSignedAccPostIncome {
  sapi_AccPostIncome : AccPostIncome; sapi_Sig : MultiSignature }.

Definition AccPostIncome_preimage `{!Build} (a : AccPostIncome) : option bytes :=
  match api_Value a, api_Penalty a with
  | Some v, Some p =>
      Some (put_be 8 (api_ProID a)
            ++ (if ContractVersion =? 0 then put_be 4 (api_TokenIndex a)
                else [byte_of_Z (api_TokenIndex a)])
            ++ LeftPadBytes (big_Bytes v) 32 ++ LeftPadBytes (big_Bytes p) 32)
  | _, _ => None
  end.

Definition AccPostIncome_Hash `{!Hashes, !Build} (a : AccPostIncome) : option bytes :=
  keccak256 <$> AccPostIncome_preimage a.

(** ** lib/common.go *)

Definition CheckOrder (or : OrderBase) : outcome unit :=
  match ob_SegPrice or, ob_PiecePrice or with
  | None, _ => Err "empty seg price"
  | _, None => Err "empty piece price"
  | Some _, Some _ =>
      if (ob_Start or <=? BaseTime) || (ob_End or <=? BaseTime)
      then Err "order start/end should greater than base time"
      else if i64 (ob_End or - ob_Start or) >? OrderMax then Err "order duration is too long"
      else if negb (Z.rem (ob_End or) Day =? 0) then Err "order end is not aligned"
      else Ok tt
  end.
