(* ===== verification/Tx.v ===== *)
(** * Tx: transactions and blocks of the data chain

    [lib/tx]: the message, its method numbers, the parameter records decoded
    from [Params] according to the method, and the block.  [pb.RoleInfo] and
    [pb.BucketOption] are the protobuf structs the parameters carry. *)

From S2P Require Import Prelude GoMonad Codec Segments Types.

(** ** lib/tx/message.go *)

Definition DataTxErr := 0.
Definition AddRole := 1.
Definition UpdateNet := 2.
Definition UpdateChalEpoch := 11.
Definition ConfirmPostIncome := 12.
Definition ConfirmDataOrder := 13.
Definition CreateFs := 21.
Definition CreateBucket := 22.
Definition PreDataOrder := 23.
Definition AddDataOrder := 24.
Definition CommitDataOrder := 25.
Definition AddBucMeta := 26.
Definition AddObjMeta := 27.
Definition SegmentProof := 31.
Definition SegmentFault := 32.
Definition SubDataOrder := 33.

Record Message := mkMessage {
  m_Version : Z; m_From : Z; m_To : Z; m_Nonce : Z; m_Value : option Z;
  m_GasLimit : Z; m_GasPrice : option Z; m_Method : Z; m_Params : bytes }.

Record SignedMessage := mkSignedMessage { sm_Message : Message; sm_Signature : Signature }.

(** ** lib/tx/receipt.go *)

Record Receipt := mkReceipt { r_Err : Z; r_Extra : bytes }.

(** ** lib/tx/block.go *)

Record RawHeader := mkRawHeader {
  rh_Version : Z; rh_GroupID : Z; rh_Height : Z; rh_Slot : Z; rh_MinerID : Z;
  rh_PrevID : MsgID }.

Record MsgSet := mkMsgSet {
  mset_Msgs : list SignedMessage; mset_Receipts : list Receipt;
  mset_ParentRoot : MsgID; mset_Root : MsgID }.

Record RawBlock := mkRawBlock { rb_RawHeader : RawHeader; rb_MsgSet : MsgSet }.

Record SignedBlock := mkSignedBlock {
  sb_RawBlock : RawBlock; sb_MultiSignature : MultiSignature }.

Definition sb_header (b : SignedBlock) : RawHeader := rb_RawHeader (sb_RawBlock b).
Definition sb_set (b : SignedBlock) : MsgSet := rb_MsgSet (sb_RawBlock b).

(** [blk.Hash()]: the hash of the raw block, or [MsgIDUndef] when it cannot be
    encoded. *)
Definition RawBlock_Hash `{!Hashes, !Codec RawBlock} (bh : RawBlock) : MsgID :=
  match marshal bh with
  | None => MsgIDUndef
  | Some res => NewMsgID res
  end.

(** ** lib/tx/params.go *)

Record BucketOption := mkBucketOption {
  bo_Version : Z; bo_Policy : Z; bo_DataCount : Z; bo_ParityCount : Z;
  bo_TagFlag : Z; bo_SegSize : Z }.

Record BucketParams := mkBucketParams { bp_BucketOption : BucketOption; bp_BucketID : Z }.

Record SignedEpochParams := mkSignedEpochParams {
  sep_Epoch : Z; sep_Prev : MsgID; sep_Sig : MultiSignature }.

Record SegChalParams := mkSegChalParams {
  scp_UserID : Z; scp_ProID : Z; scp_Epoch : Z; scp_OrderStart : Z; scp_OrderEnd : Z;
  scp_Size : Z; scp_Price : option Z; scp_Proof : bytes }.

Record PostIncomeParams := mkPostIncomeParams {
  pip_Epoch : Z; pip_Income : AccPostIncome; pip_Sig : Signature }.

Record SegRemoveParas := mkSegRemoveParas {
  srp_UserID : Z; srp_ProID : Z; srp_Nonce : Z; srp_SeqNum : Z; srp_Segments : list AggSegs }.

Record OrderCommitParas := mkOrderCommitParas {
  ocp_UserID : Z; ocp_ProID : Z; ocp_Nonce : Z; ocp_SeqNum : Z }.

Record OrderSubParas := mkOrderSubParas { osp_UserID : Z; osp_ProID : Z; osp_Nonce : Z }.

Record BucMetaParas := mkBucMetaParas {
  bmp_BucketID : Z; bmp_Name : string; bmp_NEncrypt : string }.

Record ObjMetaKey := mkObjMetaKey { omk_UserID : Z; omk_BucketID : Z; omk_ObjectID : Z }.

Record ObjMetaValue := mkObjMetaValue {
  omv_Offset : Z; omv_Length : Z; omv_ETag : bytes; omv_Encrypt : string;
  omv_Name : string; omv_NEncrypt : string; omv_Extra : bytes }.

Record ObjMetaParas := mkObjMetaParas {
  omp_ObjMetaValue : ObjMetaValue; omp_BucketID : Z; omp_ObjectID : Z }.

(** ** pb.RoleInfo *)

Definition RoleInfo_Unknown := 0.
Definition RoleInfo_User := 1.
Definition RoleInfo_Provider := 2.
Definition RoleInfo_Keeper := 3.

Record RoleInfo := mkRoleInfo {
  ri_Type : Z; ri_RoleID : Z; ri_GroupID : Z; ri_ChainVerifyKey : bytes;
  ri_BlsVerifyKey : bytes; ri_Extra : bytes; ri_Desc : bytes; ri_State : string }.
