(* ===== verification/TxStore.v ===== *)
(** * TxStore: the store of messages and blocks

    [lib/tx/store.go]: messages and blocks by id, blocks by height, and the
    outcome of messages, in a key-value store behind three caches.  The caches
    are [golang-lru]'s: a cache may forget any entry when another is added.
    The interface [Store] of the source is the class the pools are written
    against; [TxStoreImpl] is its instance.  As elsewhere the key-value store
    itself does not fail. *)

From S2P Require Import Prelude GoMonad Codec Keys Segments Types Tx.

(** ** lib/tx/message.go, lib/tx/state.go *)

Definition MsgMaxLen : Z := Z.shiftl 1 19.

(** [Serialize] of a message and of a signed one *)
Definition Message_Serialize `{!Codec Message} (m : Message) : option bytes :=
  match marshal m with
  | Some res => if Z.of_nat (length res) >? MsgMaxLen then None else Some res
  | None => None
  end.
Definition SignedMessage_Serialize `{!Codec SignedMessage} (sm : SignedMessage) : option bytes :=
  match marshal sm with
  | Some res => if Z.of_nat (length res) >? MsgMaxLen then None else Some res
  | None => None
  end.
Definition Message_Hash `{!Hashes, !Codec Message} (m : Message) : MsgID :=
  match Message_Serialize m with
  | None => MsgIDUndef
  | Some res => NewMsgID res
  end.

Record MsgState := mkMsgState { mst_BlockID : MsgID; mst_Height : Z; mst_Status : Receipt }.


(** ** Libraries *)

(** [base58.Encode] *)
Class Base58 := { base58_Encode : bytes -> string }.
Class Base58Laws `{!Base58} := { base58_inj :: Inj (=) (=) base58_Encode }.

(** [lru.ARCCache] and [lru.TwoQueueCache]: [c_look] is what [Contains] and
    [Get] see, [c_touch] what [Get] does to the cache. *)
Class Cache (K V : Type) := {
  cache : Type;
  c_new : cache;
  c_look : K -> cache -> option V;
  c_touch : K -> cache -> cache;
  c_add : K -> V -> cache -> cache;
  c_remove : K -> cache -> cache;
}.
Arguments cache K V {_}.

Class CacheLaws (K V : Type) `{!Cache K V} := {
  c_look_new k : c_look k c_new = None;
  c_look_touch k k' c : c_look k (c_touch k' c) = c_look k c;
  c_look_add k v c : c_look k (c_add k v c) = Some v;
  (** other entries stay or are evicted *)
  c_look_add_ne k k' v c x : k <> k' -> c_look k (c_add k' v c) = Some x -> c_look k c = Some x;
  c_look_remove k c : c_look k (c_remove k c) = None;
  c_look_remove_ne k k' c x : c_look k (c_remove k' c) = Some x -> c_look k c = Some x;
}.

(** ** The interface [tx.Store] *)

Class Store (T : Type) := {
  GetTxMsg : MsgID -> M T SignedMessage;
  PutTxMsg : SignedMessage -> bool -> M T unit;
  HasTxMsg : MsgID -> M T bool;
  GetTxMsgState : nat -> MsgID -> M T MsgState;   (** with fuel *)
  PutTxMsgState : MsgID -> MsgState -> M T unit;
  GetTxBlock : MsgID -> M T SignedBlock;
  PutTxBlock : SignedBlock -> M T Z;
  DeleteTxBlock : MsgID -> M T unit;
  HasTxBlock : MsgID -> M T bool;
  GetTxBlockByHeight : Z -> M T MsgID;
  DeleteTxBlockHeight : Z -> M T unit;
  PutTxBlockHeight : Z -> MsgID -> M T unit;
}.

(** What the sync pool needs of a store: a block it holds is found under its id,
    also after reads and after outcomes were stored. *)
Class StoreLaws (T : Type) `{!Store T} := {
  holds : T -> MsgID -> SignedBlock -> Prop;
  GetTxBlock_holds t bid tb : holds t bid tb -> exists t', GetTxBlock bid t = (Ok tb, t') /\
    forall bid' tb', holds t bid' tb' -> holds t' bid' tb';
  PutTxMsgState_holds t mid ms : (exists o t', PutTxMsgState mid ms t = (o, t') /\ (forall w, o <> Panic w) /\
    forall bid tb, holds t bid tb -> holds t' bid tb);
}.

(** ** The implementation *)

Section TxStoreImpl.
Context `{!Hashes, !Base58, !Codec Message, !Codec SignedMessage, !Codec RawBlock, !Codec SignedBlock,
  !Codec MsgState, !Cache MsgID SignedMessage, !Cache MsgID SignedBlock, !Cache Z MsgID}.

Record TxStoreImpl := mkTxStoreImpl {
  ts_ds : gmap bytes bytes;
  msgCache : cache MsgID SignedMessage;
  blkCache : cache MsgID SignedBlock;
  htCache : cache Z MsgID }.
Implicit Types (s : TxStoreImpl).

Definition NewTxStore (ds : gmap bytes bytes) : TxStoreImpl := mkTxStoreImpl ds c_new c_new c_new.

Definition set_ts_ds (f : gmap bytes bytes -> gmap bytes bytes) s := mkTxStoreImpl (f (ts_ds s)) (msgCache s) (blkCache s) (htCache s).
Definition set_msgCache f s := mkTxStoreImpl (ts_ds s) (f (msgCache s)) (blkCache s) (htCache s).
Definition set_blkCache f s := mkTxStoreImpl (ts_ds s) (msgCache s) (f (blkCache s)) (htCache s).
Definition set_htCache f s := mkTxStoreImpl (ts_ds s) (msgCache s) (blkCache s) (f (htCache s)).

Definition MessageKey (mid : MsgID) := NewKey [KMetaType pb.MetaType_TX_MessageKey; KString (base58_Encode mid)].
Definition BlockKey (bid : MsgID) := NewKey [KMetaType pb.MetaType_TX_BlockKey; KString (base58_Encode bid)].
Definition HeightKey (ht : Z) := NewKey [KMetaType pb.MetaType_Tx_BlockHeightKey; KUint64 ht].
Definition MessageStateKey (mid : MsgID) := NewKey [KMetaType pb.MetaType_Tx_MessageStateKey; KString (base58_Encode mid)].

Definition ts_Get (key : bytes) : M TxStoreImpl bytes :=
  let! ds := gets ts_ds in of_option (ds !! key) "not found".
Definition ts_Has (key : bytes) : M TxStoreImpl bool :=
  gets (fun s => bool_decide (is_Some (ts_ds s !! key))).
Definition ts_Put (key v : bytes) : M TxStoreImpl unit := modify (set_ts_ds <[key := v]>).

Definition impl_HasTxMsg (mid : MsgID) : M TxStoreImpl bool :=
  let! c := gets msgCache in
  match c_look mid c with Some _ => ret true | None => ts_Has (MessageKey mid) end.

Definition impl_GetTxMsg (mid : MsgID) : M TxStoreImpl SignedMessage :=
  let! c := gets msgCache in
  match c_look mid c with
  | Some sm => do! modify (set_msgCache (c_touch mid)); ret sm
  | None =>
      let! res := ts_Get (MessageKey mid) in
      let! sm := of_option (decode res) "deserialize" in
      do! modify (set_msgCache (c_add mid sm));
      ret sm
  end.

Definition impl_PutTxMsg (sm : SignedMessage) (persist : bool) : M TxStoreImpl unit :=
  let mid := Message_Hash (sm_Message sm) in
  let! c := gets msgCache in
  match c_look mid c with
  | Some _ => ret tt
  | None =>
      do! modify (set_msgCache (c_add mid sm));
      if persist then
        let! b := of_option (SignedMessage_Serialize sm) "serialize" in ts_Put (MessageKey mid) b
      else ret tt
  end.

Definition impl_HasTxBlock (bid : MsgID) : M TxStoreImpl bool :=
  let! c := gets blkCache in
  match c_look bid c with Some _ => ret true | None => ts_Has (BlockKey bid) end.

Definition impl_DeleteTxBlock (bid : MsgID) : M TxStoreImpl unit :=
  do! modify (set_blkCache (fun c => match c_look bid c with Some _ => c_remove bid c | None => c end));
  modify (set_ts_ds (delete (BlockKey bid))).

Definition impl_GetTxBlock (bid : MsgID) : M TxStoreImpl SignedBlock :=
  let! c := gets blkCache in
  match c_look bid c with
  | Some tb => do! modify (set_blkCache (c_touch bid)); ret tb
  | None =>
      let! res := ts_Get (BlockKey bid) in
      let! tb := of_option (decode res) "deserialize" in
      do! modify (set_blkCache (c_add bid tb));
      ret tb
  end.

Definition impl_PutTxBlockHeight (ht : Z) (bid : MsgID) : M TxStoreImpl unit :=
  do! ts_Put (HeightKey ht) bid;
  modify (set_htCache (c_add ht bid)).

Definition impl_PutTxBlock (tb : SignedBlock) : M TxStoreImpl Z :=
  let bid := RawBlock_Hash (sb_RawBlock tb) in
  let! c := gets blkCache in
  match c_look bid c with
  | Some _ => ret 0
  | None =>
      do! modify (set_blkCache (c_add bid tb));
      let! b := of_option (marshal tb) "serialize" in
      do! ts_Put (BlockKey bid) b;
      do! impl_PutTxBlockHeight (rh_Height (sb_header tb)) bid;
      do! impl_PutTxBlockHeight (u64 (rh_Height (sb_header tb) - 1)) (rh_PrevID (sb_header tb));
      ret (Z.of_nat (length b))
  end.

Definition impl_GetTxBlockByHeight (ht : Z) : M TxStoreImpl MsgID :=
  let! c := gets htCache in
  match c_look ht c with
  | Some bid => do! modify (set_htCache (c_touch ht)); ret bid
  | None =>
      let! res := ts_Get (HeightKey ht) in
      let! bid := of_option (MsgID_FromBytes res) "message id" in
      do! modify (set_htCache (c_add ht bid));
      ret bid
  end.

Definition impl_DeleteTxBlockHeight (ht : Z) : M TxStoreImpl unit :=
  do! modify (set_htCache (fun c => match c_look ht c with Some _ => c_remove ht c | None => c end));
  modify (set_ts_ds (delete (HeightKey ht))).

Definition impl_PutTxMsgState (mid : MsgID) (ms : MsgState) : M TxStoreImpl unit :=
  let! b := of_option (marshal ms) "serialize" in ts_Put (MessageStateKey mid) b.

(** A replaced message points to the one that replaced it. *)
Fixpoint impl_GetTxMsgState (fuel : nat) (mid : MsgID) : M TxStoreImpl MsgState :=
  match fuel with
  | O => panic "out of fuel"
  | S fuel =>
      let! val := ts_Get (MessageStateKey mid) in
      let! tms := of_option (decode val) "deserialize" in
      if mst_Height tms =? MaxUint64 then impl_GetTxMsgState fuel (mst_BlockID tms) else ret tms
  end.

#[export] Instance TxStoreImpl_Store : Store TxStoreImpl := {
  GetTxMsg := impl_GetTxMsg;
  PutTxMsg := impl_PutTxMsg;
  HasTxMsg := impl_HasTxMsg;
  GetTxMsgState := impl_GetTxMsgState;
  PutTxMsgState := impl_PutTxMsgState;
  GetTxBlock := impl_GetTxBlock;
  PutTxBlock := impl_PutTxBlock;
  DeleteTxBlock := impl_DeleteTxBlock;
  HasTxBlock := impl_HasTxBlock;
  GetTxBlockByHeight := impl_GetTxBlockByHeight;
  DeleteTxBlockHeight := impl_DeleteTxBlockHeight;
  PutTxBlockHeight := impl_PutTxBlockHeight }.
End TxStoreImpl.

(** ** Theorems *)

Section TxStoreProps.
Context `{!Hashes, !HashesLaws, !Base58, !Base58Laws, !Codec Message, !Codec SignedMessage, !Codec RawBlock,
  !Codec SignedBlock, !CodecLaws SignedBlock, !Codec MsgState,
  !Cache MsgID SignedMessage, !Cache MsgID SignedBlock, !CacheLaws MsgID SignedBlock, !Cache Z MsgID, !CacheLaws Z MsgID}.
Implicit Types (s : TxStoreImpl) (tb : SignedBlock).

Definition block_id tb : MsgID := RawBlock_Hash (sb_RawBlock tb).

(** Blocks are found under their own id, in the cache and in the store, and the
    cached heights are the stored ones. *)
Record store_ok s : Prop := {
  so_cache bid tb : c_look bid (blkCache s) = Some tb -> block_id tb = bid;
  so_ds bid data : ts_ds s !! BlockKey bid = Some data -> exists tb, decode data = Some tb /\ block_id tb = bid;
  so_ht ht bid : c_look ht (htCache s) = Some bid -> ts_ds s !! HeightKey ht = Some bid;
}.

Lemma BlockKey_inj x y : BlockKey x = BlockKey y -> x = y.
Proof. intros E%NewKey_string_inj. by apply base58_inj. Qed.
Lemma HeightKey_inj x y : HeightKey x = HeightKey y -> x = y.
Proof.
  intros E. apply NewKey_num_inj in E; try done; [by injection E|repeat constructor; by eexists..].
Qed.

Lemma ok_new ds : (forall k, ds !! BlockKey k = None) -> store_ok (NewTxStore ds).
Proof.
  intros Hd. split; simpl.
  - intros bid tb. by rewrite c_look_new.
  - intros bid data. by rewrite Hd.
  - intros ht bid. by rewrite c_look_new.
Qed.

Lemma ok_restart s : store_ok s -> store_ok (NewTxStore (ts_ds s)).
Proof.
  intros []. split; simpl; [|done|].
  - intros bid tb. by rewrite c_look_new.
  - intros ht bid. by rewrite c_look_new.
Qed.

Lemma ok_msgCache f s : store_ok s -> store_ok (set_msgCache f s).
Proof. by intros []. Qed.

Lemma ok_blk_add tb s : store_ok s -> store_ok (set_blkCache (c_add (block_id tb) tb) s).
Proof.
  intros []. split; simpl; [|done..]. intros bid tb' Hl.
  destruct (decide (bid = block_id tb)) as [->|Hne].
  - rewrite c_look_add in Hl. by injection Hl as <-.
  - apply c_look_add_ne in Hl; auto.
Qed.

Lemma ok_blk_touch bid s : store_ok s -> store_ok (set_blkCache (c_touch bid) s).
Proof. intros []. split; simpl; [|done..]. intros ??. rewrite c_look_touch. auto. Qed.

Lemma ok_blk_remove bid s :
  store_ok s -> store_ok (set_blkCache (fun c => match c_look bid c with Some _ => c_remove bid c | None => c end) s).
Proof. intros []. split; simpl; [|done..]. intros ?? Hl. case_match; eauto using c_look_remove_ne. Qed.

Lemma ok_put_block tb b s : store_ok s -> marshal tb = Some b -> store_ok (set_ts_ds <[BlockKey (block_id tb) := b]> s).
Proof.
  intros [] Hb. split; simpl; [done| |].
  - intros bid data [[<-%BlockKey_inj <-]|[_ Hl]]%lookup_insert_Some; [|auto].
    exists tb. split; [by apply decode_marshal|done].
  - intros ht bid Hl. rewrite lookup_insert_ne; [auto|]. by apply NewKey_tag_ne.
Qed.

(** A key of another table. *)
Lemma ok_put_other t vs b s : t <> pb.MetaType_TX_BlockKey -> t <> pb.MetaType_Tx_BlockHeightKey ->
  store_ok s -> store_ok (set_ts_ds <[NewKey (KMetaType t :: vs) := b]> s).
Proof.
  intros Ht1 Ht2 []. split; simpl; [done| |].
  - intros bid data. rewrite lookup_insert_ne; [auto|by apply NewKey_tag_ne].
  - intros ht bid Hl. rewrite lookup_insert_ne; [auto|by apply NewKey_tag_ne].
Qed.

Lemma ok_del_block bid s : store_ok s -> store_ok (set_ts_ds (delete (BlockKey bid)) s).
Proof.
  intros []. split; simpl; [done| |].
  - intros ?? [_ Hl]%lookup_delete_Some. auto.
  - intros ht bid' Hl. rewrite lookup_delete_ne; [auto|by apply NewKey_tag_ne].
Qed.

Lemma ok_put_height ht bid s :
  store_ok s -> store_ok (set_htCache (c_add ht bid) (set_ts_ds <[HeightKey ht := bid]> s)).
Proof.
  intros []. split; simpl; [done| |].
  - intros ? data. rewrite lookup_insert_ne; [auto|by apply NewKey_tag_ne].
  - intros ht' bid' Hl. destruct (decide (ht' = ht)) as [->|Hne].
    + rewrite c_look_add in Hl. rewrite lookup_insert_eq. by injection Hl as ->.
    + apply c_look_add_ne in Hl; [|done]. rewrite lookup_insert_ne; [auto|]. by intros ?%HeightKey_inj.
Qed.

Lemma ok_ht_add ht bid s : ts_ds s !! HeightKey ht = Some bid -> store_ok s -> store_ok (set_htCache (c_add ht bid) s).
Proof.
  intros Hd []. split; simpl; [done..|]. intros ht' bid' Hl. destruct (decide (ht' = ht)) as [->|Hne].
  - rewrite c_look_add in Hl. by injection Hl as <-.
  - apply c_look_add_ne in Hl; auto.
Qed.

Lemma ok_ht_touch ht s : store_ok s -> store_ok (set_htCache (c_touch ht) s).
Proof. intros []. split; simpl; [done..|]. intros ??. rewrite c_look_touch. auto. Qed.

Lemma ok_del_height ht s :
  store_ok s -> store_ok (set_ts_ds (delete (HeightKey ht))
    (set_htCache (fun c => match c_look ht c with Some _ => c_remove ht c | None => c end) s)).
Proof.
  intros []. split; simpl; [done| |].
  - intros ?? [_ Hl]%lookup_delete_Some. auto.
  - intros ht' bid Hl. destruct (decide (ht' = ht)) as [->|Hne].
    + case_match eqn:E; [by rewrite c_look_remove in Hl|congruence].
    + rewrite lookup_delete_ne by (by intros ?%HeightKey_inj). case_match; eauto using c_look_remove_ne.
Qed.

(** *** Any operations, restarts included *)

Inductive store_op :=
  | OGetTxMsg (mid : MsgID) | OPutTxMsg (sm : SignedMessage) (persist : bool)
  | OPutTxMsgState (mid : MsgID) (ms : MsgState) | OGetTxBlock (bid : MsgID) | OPutTxBlock (tb : SignedBlock)
  | ODeleteTxBlock (bid : MsgID) | OGetTxBlockByHeight (ht : Z) | ODeleteTxBlockHeight (ht : Z)
  | OPutTxBlockHeight (ht : Z) (bid : MsgID) | ORestart.

Definition run_op (o : store_op) s : TxStoreImpl :=
  match o with
  | OGetTxMsg mid => (GetTxMsg mid s).2
  | OPutTxMsg sm p => (PutTxMsg sm p s).2
  | OPutTxMsgState mid ms => (PutTxMsgState mid ms s).2
  | OGetTxBlock bid => (GetTxBlock bid s).2
  | OPutTxBlock tb => (PutTxBlock tb s).2
  | ODeleteTxBlock bid => (DeleteTxBlock bid s).2
  | OGetTxBlockByHeight ht => (GetTxBlockByHeight ht s).2
  | ODeleteTxBlockHeight ht => (DeleteTxBlockHeight ht s).2
  | OPutTxBlockHeight ht bid => (PutTxBlockHeight ht bid s).2
  | ORestart => NewTxStore (ts_ds s)
  end.
Definition run_ops (l : list store_op) s : TxStoreImpl := foldl (fun s o => run_op o s) s l.

Lemma ts_Get_run key v s : ts_ds s !! key = Some v -> ts_Get key s = (Ok v, s).
Proof. unfold ts_Get, bind, gets. by intros ->. Qed.
Lemma wp_ts_Get key (Q : bytes -> TxStoreImpl -> Prop) s :
  store_ok s -> (forall v, ts_ds s !! key = Some v -> Q v s) -> wp store_ok (ts_Get key) Q s.
Proof.
  intros Hs HQ. apply wp_bind, wp_gets. unfold wpx, of_option. destruct (ts_ds s !! key); simpl; auto.
Qed.
Lemma GetTxBlock_wp bid s :
  store_ok s -> wp store_ok (GetTxBlock bid) (fun tb s' => store_ok s' /\ block_id tb = bid) s.
Proof.
  intros Hs. apply wp_bind, wp_gets. destruct (c_look bid (blkCache s)) as [tb|] eqn:E.
  - apply wp_bind, wp_modify, wp_ret. split; [by apply ok_blk_touch|by eapply so_cache].
  - apply wp_bind, wp_ts_Get; [done|]. intros data Hd. apply wp_bind, wp_of_option; [done|]. intros tb Htb.
    destruct (so_ds _ Hs _ _ Hd) as (tb' & Htb' & <-). rewrite Htb in Htb'. injection Htb' as <-.
    apply wp_bind, wp_modify, wp_ret. split; [by apply ok_blk_add|done].
Qed.

Lemma PutTxBlock_wp tb s : store_ok s -> wp store_ok (PutTxBlock tb) (fun _ => store_ok) s.
Proof.
  intros Hs. apply wp_bind, wp_gets. destruct (c_look _ _); [by apply wp_ret|].
  apply wp_bind, wp_modify, wp_bind, wp_of_option; [by apply ok_blk_add|]. intros b Hb.
  apply wp_bind, wp_modify, wp_bind, wp_bind, wp_modify, wp_modify, wp_bind, wp_bind, wp_modify, wp_modify, wp_ret.
  apply ok_put_height, ok_put_height, ok_put_block; [by apply ok_blk_add|done].
Qed.

Lemma run_op_ok o s : store_ok s -> store_ok (run_op o s).
Proof.
  intros Hs. destruct o; simpl; [| | | | | | | | |by apply ok_restart].
  - eapply wp_final, wp_mono; [|intros ?? Hp; exact Hp]. apply wp_bind, wp_gets. destruct (c_look _ _).
    + by apply wp_bind, wp_modify, wp_ret, ok_msgCache.
    + apply wp_bind, wp_ts_Get; [done|]. intros v _. apply wp_bind, wp_of_option; [done|]. intros sm _.
      by apply wp_bind, wp_modify, wp_ret, ok_msgCache.
  - apply wp_final, wp_bind, wp_gets. destruct (c_look _ _); [by apply wp_ret|]. apply wp_bind, wp_modify.
    destruct persist; [|by apply wp_ret, ok_msgCache]. apply wp_bind, wp_of_option; [by apply ok_msgCache|].
    intros b _. by apply wp_modify, ok_put_other, ok_msgCache.
  - apply wp_final, wp_bind, wp_of_option; [done|]. intros b _. by apply wp_modify, ok_put_other.
  - eapply wp_final, wp_mono; [by apply GetTxBlock_wp|by intros ? ? []].
  - by apply wp_final, PutTxBlock_wp.
  - by apply ok_del_block, ok_blk_remove.
  - apply wp_final, wp_bind, wp_gets. destruct (c_look _ _).
    + by apply wp_bind, wp_modify, wp_ret, ok_ht_touch.
    + apply wp_bind, wp_ts_Get; [done|]. intros v Hv. apply wp_bind, wp_of_option; [done|]. intros bid Hb.
      apply wp_bind, wp_modify, wp_ret, ok_ht_add; [|done]. unfold MsgID_FromBytes in Hb. repeat case_match; congruence.
  - by apply ok_del_height.
  - by apply ok_put_height.
Qed.

Lemma run_ops_ok l s : store_ok s -> store_ok (run_ops l s).
Proof. revert s. unfold run_ops. induction l as [|o l IH]; intros s Hs; [done|]. by apply IH, run_op_ok. Qed.

(** What is written when the block was not cached. *)
Lemma PutTxBlock_run tb s n s' :
  PutTxBlock tb s = (Ok n, s') -> c_look (block_id tb) (blkCache s) = None ->
  exists b, marshal tb = Some b /\
    ts_ds s' = <[HeightKey (u64 (rh_Height (sb_header tb) - 1)) := rh_PrevID (sb_header tb)]>
                 (<[HeightKey (rh_Height (sb_header tb)) := block_id tb]> (<[BlockKey (block_id tb) := b]> (ts_ds s))) /\
    c_look (block_id tb) (blkCache s') = Some tb.
Proof.
  intros Hr Hc. cbn [PutTxBlock TxStoreImpl_Store] in Hr. unfold impl_PutTxBlock in Hr.
  rewrite (bind_run _ _ _ _ _ (eq_refl : gets _ _ = _)) in Hr. fold (block_id tb) in Hr. rewrite Hc in Hr.
  apply bind_Ok in Hr as ([] & s1 & ->%modify_Ok & Hr). apply bind_Ok in Hr as (b & ? & [Hb ->]%of_option_Ok & Hr).
  unfold impl_PutTxBlockHeight, ts_Put in Hr. go_inv. exists b. split; [done|]. split; [done|]. apply c_look_add.
Qed.

Lemma GetTxBlock_stored tb b s :
  marshal tb = Some b -> ts_ds s !! BlockKey (block_id tb) = Some b ->
  (forall tb', c_look (block_id tb) (blkCache s) = Some tb' -> tb' = tb) ->
  (GetTxBlock (block_id tb) s).1 = Ok tb.
Proof.
  intros Hb Hd Hc. cbn [GetTxBlock TxStoreImpl_Store]. unfold impl_GetTxBlock.
  rewrite (bind_run _ _ _ _ _ (eq_refl : gets _ _ = _)). destruct (c_look _ _) as [tb'|].
  { cbn. by rewrite (Hc tb' eq_refl). }
  rewrite (bind_run _ _ s b s) by by apply ts_Get_run.
  by rewrite (decode_marshal _ _ Hb).
Qed.

Lemma GetTxBlockByHeight_stored ht bid s :
  store_ok s -> ts_ds s !! HeightKey ht = Some bid -> MsgID_FromBytes bid = Some bid ->
  (GetTxBlockByHeight ht s).1 = Ok bid.
Proof.
  intros Hs Hd Hb. cbn [GetTxBlockByHeight TxStoreImpl_Store]. unfold impl_GetTxBlockByHeight.
  rewrite (bind_run _ _ _ _ _ (eq_refl : gets _ _ = _)). destruct (c_look _ _) as [bid'|] eqn:E.
  { apply (so_ht _ Hs) in E. cbn. congruence. }
  rewrite (bind_run _ _ s bid s) by by apply ts_Get_run. by rewrite Hb.
Qed.

(** C30. The block store is addressed by content: whatever was put, read, deleted
    or evicted and however often the node was restarted, a block read by an id
    has that id; and a block that is put in and was not cached is read back
    unchanged, by its id and by its height, also after a restart. *)
Theorem block_store ops tb n s' (s := run_ops ops (NewTxStore ∅)) :
  (forall bid b s1, GetTxBlock bid s = (Ok b, s1) -> block_id b = bid) /\
  (PutTxBlock tb s = (Ok n, s') -> c_look (block_id tb) (blkCache s) = None -> is_Some (marshal (sb_RawBlock tb)) ->
   is_u64 (rh_Height (sb_header tb)) ->
   forall s2, s2 = s' \/ s2 = NewTxStore (ts_ds s') ->
     (GetTxBlock (block_id tb) s2).1 = Ok tb /\
     (GetTxBlockByHeight (rh_Height (sb_header tb)) s2).1 = Ok (block_id tb)).
Proof.
  assert (Hs : store_ok s) by by apply run_ops_ok, ok_new.
  split; [intros bid b s1 Hr; by destruct (wp_Ok _ _ _ _ _ _ _ (GetTxBlock_wp bid s Hs) Hr)|].
  intros Hr Hc [raw Hraw] Hh s2 Hs2.
  pose proof (wp_Ok _ _ _ _ _ _ _ (PutTxBlock_wp tb s Hs) Hr) as Hs'.
  destruct (PutTxBlock_run tb s n s' Hr Hc) as (b & Hb & Hds & Hl).
  assert (Hok2 : store_ok s2) by (destruct Hs2 as [->| ->]; [done|by apply ok_restart]).
  assert (Hds2 : ts_ds s2 = ts_ds s') by by destruct Hs2 as [->| ->].
  split.
  - apply (GetTxBlock_stored tb b); [done| |].
    + rewrite Hds2, Hds, !lookup_insert_ne by by apply NewKey_tag_ne. apply lookup_insert_eq.
    + intros tb'. destruct Hs2 as [->| ->]; simpl; [rewrite Hl; congruence|by rewrite c_look_new].
  - apply GetTxBlockByHeight_stored; [done| |].
    + rewrite Hds2, Hds, lookup_insert_ne; [apply lookup_insert_eq|].
      intros E%HeightKey_inj. unfold u64, is_u64 in *. destruct (decide (rh_Height (sb_header tb) = 0)); [|rewrite Z.mod_small in E; lia].
      rewrite e in E. by vm_compute in E.
    + unfold block_id, RawBlock_Hash. rewrite Hraw. apply NewMsgID_spec.
Qed.

(** A block whose serialisation is stored, not shadowed by another cached one. *)
Definition impl_holds s (bid : MsgID) tb : Prop :=
  (exists b, marshal tb = Some b /\ ts_ds s !! BlockKey bid = Some b) /\
  (forall tb', c_look bid (blkCache s) = Some tb' -> tb' = tb).

#[export] Instance TxStoreImpl_StoreLaws : StoreLaws TxStoreImpl.
Proof.
  refine {| holds := impl_holds |}.
  - intros s bid tb [(b & Hb & Hd) Hc]. cbn [GetTxBlock TxStoreImpl_Store]. unfold impl_GetTxBlock.
    rewrite (bind_run _ _ _ _ _ (eq_refl : gets _ _ = _)). destruct (c_look _ _) as [tb'|] eqn:E.
    + rewrite (Hc tb' eq_refl). eexists. split; [reflexivity|]. intros bid' tb2 [? Hc2]. split; [done|].
      intros tb3. simpl. rewrite c_look_touch. apply Hc2.
    + rewrite (bind_run _ _ s b s) by by apply ts_Get_run. rewrite (decode_marshal _ _ Hb).
      eexists. split; [reflexivity|]. intros bid' tb2 [(b2 & Hb2 & Hd2) Hc2]. split; [by exists b2|].
      intros tb3 Hl. simpl in Hl. destruct (decide (bid' = bid)) as [->|Hne].
      * rewrite c_look_add in Hl. injection Hl as <-. apply decode_marshal in Hb, Hb2. congruence.
      * apply c_look_add_ne in Hl; auto.
  - intros s mid ms. cbn [PutTxMsgState TxStoreImpl_Store]. unfold impl_PutTxMsgState, bind, of_option.
    destruct (marshal ms) as [b|]; [|by eexists _, s].
    eexists _, _. split; [reflexivity|]. split; [done|]. intros bid tb [(b2 & Hb2 & Hd2) Hc2].
    split; [|done]. exists b2. split; [done|]. simpl. by rewrite lookup_insert_ne by by apply NewKey_tag_ne.
Defined.

(** ** The search for the outcome of a message *)

(** The message that replaced this one. *)
Definition replacement s (mid : MsgID) : option MsgID :=
  data ← ts_ds s !! MessageStateKey mid; ms ← decode (A := MsgState) data;
  if mst_Height ms =? MaxUint64 then Some (mst_BlockID ms) else None.
Fixpoint replaced_by s (n : nat) (mid : MsgID) : option MsgID :=
  match n with O => Some mid | S n => replacement s mid ≫= replaced_by s n end.

Lemma replaced_by_add s i j mid : replaced_by s (i + j) mid = replaced_by s i mid ≫= replaced_by s j.
Proof. revert mid. induction i as [|i IH]; intros mid; [done|]. simpl. destruct (replacement s mid); [apply IH|done]. Qed.
Lemma search_step s fuel mid :
  impl_GetTxMsgState (S fuel) mid s = match replacement s mid with Some m2 => impl_GetTxMsgState fuel m2 s | None => impl_GetTxMsgState 1 mid s end.
Proof.
  unfold replacement. cbn [impl_GetTxMsgState]. unfold bind, ts_Get, bind, gets, of_option.
  destruct (ts_ds s !! MessageStateKey mid) as [data|]; [|done]. cbn. destruct (decode data) as [ms|]; [|done]. cbn. by destruct (_ =? _).
Qed.

(** Replacements that do not come to an end go round in a circle. *)
Lemma replaced_by_bound s mid : is_Some (replaced_by s (S (size (ts_ds s))) mid) -> forall n, is_Some (replaced_by s n mid).
Proof.
  intros Hlong n. destruct (replaced_by s n mid) as [m|] eqn:En; [by eexists|]. exfalso.
  assert (Hleast : exists N, replaced_by s N mid = None /\ forall i, (i < N)%nat -> is_Some (replaced_by s i mid)).
  { induction n as [n IH] using lt_wf_ind. destruct (decide (Exists (fun i => replaced_by s i mid = None) (seq 0 n))) as [Hex|Hno].
    - apply Exists_exists in Hex as (i & Hi & E). apply elem_of_seq in Hi. apply (IH i); [lia|done].
    - exists n. split; [done|]. intros i Hi. destruct (replaced_by s i mid) eqn:E; [by eexists|]. exfalso. apply Hno, Exists_exists. exists i.
      split; [apply elem_of_seq; lia|done]. }
  destruct Hleast as (N & HN & Hbefore). destruct N as [|N]; [done|].
  assert (Hat : forall i, (i <= N)%nat -> exists m, replaced_by s i mid = Some m) by (intros i Hi; apply Hbefore; lia).
  set (keys := map (fun i => MessageStateKey (default mid (replaced_by s i mid))) (seq 0 N)).
  assert (Hdup : NoDup keys).
  { apply NoDup_fmap_2_strong; [|apply NoDup_seq]. intros i j Hi Hj E. apply elem_of_seq in Hi, Hj. apply NewKey_string_inj, (inj base58_Encode) in E.
    destruct (Hat i) as [mi Ei]; [lia|]. destruct (Hat j) as [mj Ej]; [lia|]. rewrite Ei, Ej in E. cbn in E. subst mj.
    assert (Hgap : forall a b, (a < b <= N)%nat -> replaced_by s a mid = Some mi -> replaced_by s b mid = Some mi -> False).
    { intros a b Hab Ea Eb. assert (E1 : replaced_by s (a + (S N - b)) mid = None).
      { rewrite replaced_by_add, Ea. cbn. rewrite <-HN. replace (S N) with (b + (S N - b))%nat at 2 by lia. by rewrite replaced_by_add, Eb. }
      destruct (Hbefore (a + (S N - b))%nat ltac:(lia)) as [x Ex]. congruence. }
    destruct (Nat.lt_trichotomy i j) as [Hlt|[->|Hlt]]; [exfalso; apply (Hgap i j); (lia || done)|done|exfalso; apply (Hgap j i); (lia || done)]. }
  assert (Hsub : forall k, k ∈ keys -> k ∈ dom (ts_ds s)).
  { intros k (i & -> & Hi)%list_elem_of_fmap. apply elem_of_seq in Hi. destruct (Hat i) as [m Em]; [lia|]. rewrite Em. cbn. apply elem_of_dom.
    destruct (Hat (S i)) as [m2 Em2]; [lia|]. replace (S i) with (i + 1)%nat in Em2 by lia. rewrite replaced_by_add, Em in Em2.
    change (replaced_by s 1 m = Some m2) in Em2. cbn [replaced_by] in Em2. destruct (replacement s m) as [m3|] eqn:Er; [|done]. unfold replacement in Er.
    destruct (ts_ds s !! MessageStateKey m) eqn:Ek; [by eexists|done]. }
  assert (Hsize : (N <= size (ts_ds s))%nat).
  { assert (El : length keys = N) by (unfold keys; by rewrite length_map, length_seq). rewrite <-El, <-size_dom, <-(size_list_to_set (C := gset bytes)) by done. apply subseteq_size. intros k Hk%elem_of_list_to_set. by apply Hsub. }
  destruct Hlong as [x Hx]. replace (S (size (ts_ds s))) with (S N + (size (ts_ds s) - N))%nat in Hx by lia. by rewrite replaced_by_add, HN in Hx.
Qed.

(** The search needs no more reads than the store has entries, and one: with more fuel the
    outcome is the same.  (If messages replace each other in a circle, the search does
    not end, in the code neither.) *)
Lemma GetTxMsgState_fuel s mid fuel : (size (ts_ds s) < fuel)%nat -> GetTxMsgState fuel mid s = GetTxMsgState (S (size (ts_ds s))) mid s.
Proof.
  cbn [GetTxMsgState TxStoreImpl_Store].
  assert (Hend : forall n m f, replaced_by s n m = None -> (n <= f)%nat -> impl_GetTxMsgState f m s = impl_GetTxMsgState n m s).
  { induction n as [|n IH]; intros m f Hn Hf; [done|]. destruct f as [|f]; [lia|]. rewrite (search_step s f), (search_step s n). cbn in Hn.
    destruct (replacement s m) as [m2|]; [|done]. apply IH; [done|lia]. }
  assert (Hout : forall f m, is_Some (replaced_by s f m) -> impl_GetTxMsgState f m s = (Panic "out of fuel", s)).
  { induction f as [|f IH]; intros m Hm; [done|]. rewrite search_step. cbn in Hm. destruct (replacement s m) as [m2|]; [by apply IH|by destruct Hm]. }
  intros Hf. destruct (replaced_by s (S (size (ts_ds s))) mid) as [m|] eqn:E.
  - assert (Hall : forall n, is_Some (replaced_by s n mid)) by (apply replaced_by_bound; by eexists). by rewrite !Hout.
  - apply Hend; [done|lia].
Qed.
End TxStoreProps.
