(* ===== verification/Fr.v ===== *)
(** * Fr: the scalar field and the challenge accumulator

    [lib/crypto/bls12_381] wraps a third-party field; the class [FrOps] is what
    it uses of it.  The conversions around the field ([FrFromBytes],
    [FrToBytes], [SubFr]) and the public input a challenge accumulates
    ([pdpv2.Challenge]) are the program's own. *)

From S2P Require Import Prelude Types SegmentID.

Class FrOps := {
  Fr : Type;
  fr_zero : Fr;
  fr_add : Fr -> Fr -> Fr;
  fr_sub : Fr -> Fr -> Fr;
  red_from_bytes : bytes -> Fr;    (** big-endian, reduced *)
  red_to_bytes : Fr -> bytes;      (** 32 bytes, big-endian *)
}.

(** The documented algebra of the field. *)
Class FrLaws `{!FrOps} := {
  fr_add_comm (x y : Fr) : fr_add x y = fr_add y x;
  fr_add_assoc (x y z : Fr) : fr_add x (fr_add y z) = fr_add (fr_add x y) z;
  fr_add_0_l (x : Fr) : fr_add fr_zero x = x;
  fr_sub_add (x y : Fr) : fr_add (fr_sub x y) y = x;
  fr_add_sub (x y : Fr) : fr_sub (fr_add x y) y = x;
  red_length (x : Fr) : length (red_to_bytes x) = 32%nat;
  red_from_to (x : Fr) : red_from_bytes (red_to_bytes x) = x;
}.

Section Fr.
Context `{!FrOps}.

(** [FrFromBytes(dst, v)]: the destination afterwards; a longer [v] is an
    error that leaves it alone. *)
Definition FrFromBytes (dst : Fr) (v : bytes) : Fr :=
  if (32 <? length v)%nat then dst else red_from_bytes (rev (copy_into 32 v)).

Definition FrToBytes (src : Fr) : bytes := rev (red_to_bytes src).

(** [bls.SubFr(a, b)], conversion errors ignored *)
Definition SubFr (a b : bytes) : bytes :=
  FrToBytes (fr_sub (FrFromBytes fr_zero a) (FrFromBytes fr_zero b)).

Lemma FrFromBytes_ToBytes `{!FrLaws} dst x : FrFromBytes dst (FrToBytes x) = x.
Proof.
  unfold FrFromBytes, FrToBytes. rewrite length_rev, red_length. simpl Nat.ltb. cbv iota.
  rewrite copy_into_exact by (rewrite length_rev; apply red_length).
  rewrite rev_involutive. apply red_from_to.
Qed.

(** ** pdpv2.Challenge *)

Record Challenge := mkChallenge { ch_r : bytes; ch_pubInput : Fr }.

Definition pdpv2_NewChallenge (r : bytes) : Challenge := mkChallenge r fr_zero.

(** [Add]: an input that is not 32 bytes long is hashed first, so the
    conversion cannot fail when the digest is 32 bytes. *)
Definition Challenge_Add `{!Hashes} (chal : Challenge) (b : bytes) : Challenge :=
  let b := if negb (length b =? 32)%nat then blake3_Sum256 b else b in
  if (32 <? length b)%nat then chal
  else mkChallenge (ch_r chal) (fr_add (ch_pubInput chal) (FrFromBytes fr_zero b)).
End Fr.
