(* ===== verification/StateTypes.v ===== *)
(** * StateTypes: the data of the state machine

    [submodule/state]: the libraries the state manager calls ([StateEnv]), the
    in-memory structures of [common.go] and the manager's own fields of
    [state.go].  The manager keeps the same eight fields twice, once for the
    applied chain and once (the [validate...] fields) for the block being
    validated; both are a [view], and [side] selects one. *)

From S2P Require Import Prelude GoMonad Codec Segments SegmentID Types Tx Fr.

(** ** Libraries *)

(** [lib/crypto/pdp]: the operations of the proof system, over pairings. *)
Class PDP `{!FrOps} := {
  PublicKey : Type;
  VerifyKey : Type;
  Proof : Type;
  pdp_DeserializePublicKey : bytes -> option PublicKey;
  pdp_DeserializeVerifyKey : bytes -> option VerifyKey;
  pdp_DeserializeProof : bytes -> option Proof;
  pk_VerifyKey : PublicKey -> VerifyKey;
  pk_Serialize : PublicKey -> bytes;
  vk_Serialize : VerifyKey -> bytes;
  vk_Hash : VerifyKey -> bytes;
  vk_Version : VerifyKey -> Z;
  (** [vk.VerifyProof(chal, prf)]: [None] is an error *)
  vk_VerifyProof : VerifyKey -> Challenge -> Proof -> option bool;
}.

Definition PDPV2 := 5.

(** [pdp.NewChallenge(vk, r)] *)
Definition pdp_NewChallenge `{!FrOps, !PDP} (vk : VerifyKey) (r : bytes) : option Challenge :=
  if vk_Version vk =? PDPV2 then Some (pdpv2_NewChallenge r) else None.

(** The sparse Merkle tree behind [store.SMTStore]. *)
Class SMTStore := {
  smt_t : Type;
  smt_get : smt_t -> bytes -> option bytes;
  (** the answer of [Has] and whether its error is nil *)
  smt_has : smt_t -> bytes -> bool * bool;
  smt_put : smt_t -> bytes -> bytes -> option smt_t;
  smt_root : smt_t -> bytes;
  smt_set_root : bytes -> smt_t -> smt_t;
}.

(** What is read back after a write; an empty value reads as a missing key. *)
Class SMTLaws `{!SMTStore} := {
  smt_get_put t k v t' k' : smt_put t k v = Some t' ->
    smt_get t' k' = if bool_decide (k = k')
                    then (match v with [] => None | _ => Some v end) else smt_get t k';
  smt_get_commit t k : smt_get (smt_set_root (smt_root t) t) k = smt_get t k;
}.

(** [github.com/bits-and-blooms/bitset] *)
Class BitSetOps := {
  bitset : Type;
  bs_new : bitset;                    (** bitset.New(1024) *)
  bs_test : bitset -> Z -> bool;
  bs_set : Z -> bitset -> bitset;
  bs_bytes : bitset -> list Z;        (** the words *)
  bs_from : list Z -> bitset;
}.

(** Its documented behaviour, for indexes in range. *)
Class BitSetLaws `{!BitSetOps} := {
  bs_test_new i : is_u64 i -> bs_test bs_new i = false;
  bs_test_set i j b : is_u64 i -> is_u64 j -> bs_test (bs_set i b) j = (i =? j) || bs_test b j;
  bs_test_from_bytes b i : is_u64 i -> bs_test (bs_from (bs_bytes b)) i = bs_test b i;
}.

(** ** Stored values of [common.go] *)

Record roleValue := mkRoleValue { rv_Nonce : Z; rv_Value : option Z }.
Record bitsetStored := mkBitsetStored { bss_Val : list Z }.

(** Everything outside the module: hashes, signatures, field, proofs, tree,
    bit sets, the standard library's sort, and a codec per serialised type. *)
Class StateEnv := {
  env_build :: Build;
  env_hashes :: Hashes;
  env_sigs :: Signatures;
  env_fr :: FrOps;
  env_pdp :: PDP;
  env_smt :: SMTStore;
  env_bitset :: BitSetOps;
  env_sort :: GoSort;
  c_roleValue :: Codec roleValue;
  c_RoleInfo :: Codec RoleInfo;
  c_NonceSeq :: Codec NonceSeq;
  c_SignedOrder :: Codec SignedOrder;
  c_OrderSeq :: Codec OrderSeq;
  c_SignedOrderSeq :: Codec SignedOrderSeq;
  c_OrderFull :: Codec OrderFull;
  c_SeqFull :: Codec SeqFull;
  c_AggStripe :: Codec AggStripe;
  c_bitsetStored :: Codec bitsetStored;
  c_BucketOption :: Codec BucketOption;
  c_ChalEpoch :: Codec ChalEpoch;
  c_PostIncome :: Codec PostIncome;
  c_AccPostIncome :: Codec AccPostIncome;
  c_SignedAccPostIncome :: Codec SignedAccPostIncome;
  c_BucketParams :: Codec BucketParams;
  c_SignedEpochParams :: Codec SignedEpochParams;
  c_SegChalParams :: Codec SegChalParams;
  c_PostIncomeParams :: Codec PostIncomeParams;
  c_SegRemoveParas :: Codec SegRemoveParas;
  c_OrderCommitParas :: Codec OrderCommitParas;
  c_OrderSubParas :: Codec OrderSubParas;
  c_BucMetaParas :: Codec BucMetaParas;
  c_ObjMetaKey :: Codec ObjMetaKey;
  c_ObjMetaValue :: Codec ObjMetaValue;
  c_ObjMetaParas :: Codec ObjMetaParas;
  c_RawHeader :: Codec RawHeader;
  c_RawBlock :: Codec RawBlock;
}.

(** ** In-memory structures

    The maps of the source hold pointers; an entry has no other owner, so
    updating through the pointer is writing the entry back. *)

Section StateTypes.
Context `{!StateEnv}.

Record roleInfo := mkRoleEntry {
  r_base : option RoleInfo;
  r_val : roleValue }.
Definition set_r_base (f : option RoleInfo -> option RoleInfo) (r : roleInfo) : roleInfo :=
  mkRoleEntry (f (r_base r)) (r_val r).
Definition set_r_val (f : roleValue -> roleValue) (r : roleInfo) : roleInfo :=
  mkRoleEntry (r_base r) (f (r_val r)).

Record orderInfo := mkOrderInfo {
  o_prove : Z;
  o_income : PostIncome;
  o_ns : NonceSeq;
  o_accFr : Fr;
  o_base : option SignedOrder;
  o_preStart : Z;
  o_preEnd : Z }.
Definition set_o_prove (f : Z -> Z) (r : orderInfo) : orderInfo :=
  mkOrderInfo (f (o_prove r)) (o_income r) (o_ns r) (o_accFr r) (o_base r) (o_preStart r) (o_preEnd r).
Definition set_o_income (f : PostIncome -> PostIncome) (r : orderInfo) : orderInfo :=
  mkOrderInfo (o_prove r) (f (o_income r)) (o_ns r) (o_accFr r) (o_base r) (o_preStart r) (o_preEnd r).
Definition set_o_ns (f : NonceSeq -> NonceSeq) (r : orderInfo) : orderInfo :=
  mkOrderInfo (o_prove r) (o_income r) (f (o_ns r)) (o_accFr r) (o_base r) (o_preStart r) (o_preEnd r).
Definition set_o_accFr (f : Fr -> Fr) (r : orderInfo) : orderInfo :=
  mkOrderInfo (o_prove r) (o_income r) (o_ns r) (f (o_accFr r)) (o_base r) (o_preStart r) (o_preEnd r).
Definition set_o_base (f : option SignedOrder -> option SignedOrder) (r : orderInfo) : orderInfo :=
  mkOrderInfo (o_prove r) (o_income r) (o_ns r) (o_accFr r) (f (o_base r)) (o_preStart r) (o_preEnd r).
Definition set_o_preStart (f : Z -> Z) (r : orderInfo) : orderInfo :=
  mkOrderInfo (o_prove r) (o_income r) (o_ns r) (o_accFr r) (o_base r) (f (o_preStart r)) (o_preEnd r).
Definition set_o_preEnd (f : Z -> Z) (r : orderInfo) : orderInfo :=
  mkOrderInfo (o_prove r) (o_income r) (o_ns r) (o_accFr r) (o_base r) (o_preStart r) (f (o_preEnd r)).

Record bucketManage := mkBucketManage {
  bm_chunks : list (option AggStripe);
  bm_stripes : gmap Z bitset }.
Definition set_bm_chunks (f : list (option AggStripe) -> list (option AggStripe)) (r : bucketManage) : bucketManage :=
  mkBucketManage (f (bm_chunks r)) (bm_stripes r).
Definition set_bm_stripes (f : gmap Z bitset -> gmap Z bitset) (r : bucketManage) : bucketManage :=
  mkBucketManage (bm_chunks r) (f (bm_stripes r)).

Record segPerUser := mkSegPerUser {
  su_userID : Z;
  su_fsID : bytes;
  su_verifyKey : VerifyKey;
  su_nextBucket : Z;
  su_buckets : gmap Z bucketManage }.
Definition set_su_userID (f : Z -> Z) (r : segPerUser) : segPerUser :=
  mkSegPerUser (f (su_userID r)) (su_fsID r) (su_verifyKey r) (su_nextBucket r) (su_buckets r).
Definition set_su_fsID (f : bytes -> bytes) (r : segPerUser) : segPerUser :=
  mkSegPerUser (su_userID r) (f (su_fsID r)) (su_verifyKey r) (su_nextBucket r) (su_buckets r).
Definition set_su_verifyKey (f : VerifyKey -> VerifyKey) (r : segPerUser) : segPerUser :=
  mkSegPerUser (su_userID r) (su_fsID r) (f (su_verifyKey r)) (su_nextBucket r) (su_buckets r).
Definition set_su_nextBucket (f : Z -> Z) (r : segPerUser) : segPerUser :=
  mkSegPerUser (su_userID r) (su_fsID r) (su_verifyKey r) (f (su_nextBucket r)) (su_buckets r).
Definition set_su_buckets (f : gmap Z bucketManage -> gmap Z bucketManage) (r : segPerUser) : segPerUser :=
  mkSegPerUser (su_userID r) (su_fsID r) (su_verifyKey r) (su_nextBucket r) (f (su_buckets r)).

Record chalEpochInfo := mkChalEpochInfo {
  ci_epoch : Z;
  ci_current : ChalEpoch;
  ci_previous : ChalEpoch }.
Definition set_ci_epoch (f : Z -> Z) (r : chalEpochInfo) : chalEpochInfo :=
  mkChalEpochInfo (f (ci_epoch r)) (ci_current r) (ci_previous r).
Definition set_ci_current (f : ChalEpoch -> ChalEpoch) (r : chalEpochInfo) : chalEpochInfo :=
  mkChalEpochInfo (ci_epoch r) (f (ci_current r)) (ci_previous r).
Definition set_ci_previous (f : ChalEpoch -> ChalEpoch) (r : chalEpochInfo) : chalEpochInfo :=
  mkChalEpochInfo (ci_epoch r) (ci_current r) (f (ci_previous r)).

(** The eight fields kept per side: [version] ... [rInfo] and
    [validateVersion] ... [validateRInfo]. *)
Record view := mkView {
  v_version : Z;
  v_height : Z;
  v_slot : Z;
  v_ceInfo : chalEpochInfo;
  v_root : MsgID;
  v_oInfo : gmap (Z * Z) orderInfo;
  v_sInfo : gmap Z segPerUser;
  v_rInfo : gmap Z roleInfo }.
Definition set_v_version (f : Z -> Z) (r : view) : view :=
  mkView (f (v_version r)) (v_height r) (v_slot r) (v_ceInfo r) (v_root r) (v_oInfo r) (v_sInfo r) (v_rInfo r).
Definition set_v_height (f : Z -> Z) (r : view) : view :=
  mkView (v_version r) (f (v_height r)) (v_slot r) (v_ceInfo r) (v_root r) (v_oInfo r) (v_sInfo r) (v_rInfo r).
Definition set_v_slot (f : Z -> Z) (r : view) : view :=
  mkView (v_version r) (v_height r) (f (v_slot r)) (v_ceInfo r) (v_root r) (v_oInfo r) (v_sInfo r) (v_rInfo r).
Definition set_v_ceInfo (f : chalEpochInfo -> chalEpochInfo) (r : view) : view :=
  mkView (v_version r) (v_height r) (v_slot r) (f (v_ceInfo r)) (v_root r) (v_oInfo r) (v_sInfo r) (v_rInfo r).
Definition set_v_root (f : MsgID -> MsgID) (r : view) : view :=
  mkView (v_version r) (v_height r) (v_slot r) (v_ceInfo r) (f (v_root r)) (v_oInfo r) (v_sInfo r) (v_rInfo r).
Definition set_v_oInfo (f : gmap (Z * Z) orderInfo -> gmap (Z * Z) orderInfo) (r : view) : view :=
  mkView (v_version r) (v_height r) (v_slot r) (v_ceInfo r) (v_root r) (f (v_oInfo r)) (v_sInfo r) (v_rInfo r).
Definition set_v_sInfo (f : gmap Z segPerUser -> gmap Z segPerUser) (r : view) : view :=
  mkView (v_version r) (v_height r) (v_slot r) (v_ceInfo r) (v_root r) (v_oInfo r) (f (v_sInfo r)) (v_rInfo r).
Definition set_v_rInfo (f : gmap Z roleInfo -> gmap Z roleInfo) (r : view) : view :=
  mkView (v_version r) (v_height r) (v_slot r) (v_ceInfo r) (v_root r) (v_oInfo r) (v_sInfo r) (f (v_rInfo r)).

(** [StateMgr]; the lock and the role API it embeds are not part of the model. *)
Record StateMgr := mkStateMgr {
  ds : gmap bytes bytes;
  tds : option (gmap bytes bytes);
  smt : smt_t;
  genesisBlockID : MsgID;
  keepers : list Z;
  pros : list Z;
  users : list Z;
  threshold : Z;
  blkID : MsgID;
  cur : view;
  vld : view }.
Definition set_ds (f : gmap bytes bytes -> gmap bytes bytes) (r : StateMgr) : StateMgr :=
  mkStateMgr (f (ds r)) (tds r) (smt r) (genesisBlockID r) (keepers r) (pros r) (users r) (threshold r) (blkID r) (cur r) (vld r).
Definition set_tds (f : option (gmap bytes bytes) -> option (gmap bytes bytes)) (r : StateMgr) : StateMgr :=
  mkStateMgr (ds r) (f (tds r)) (smt r) (genesisBlockID r) (keepers r) (pros r) (users r) (threshold r) (blkID r) (cur r) (vld r).
Definition set_smt (f : smt_t -> smt_t) (r : StateMgr) : StateMgr :=
  mkStateMgr (ds r) (tds r) (f (smt r)) (genesisBlockID r) (keepers r) (pros r) (users r) (threshold r) (blkID r) (cur r) (vld r).
Definition set_genesisBlockID (f : MsgID -> MsgID) (r : StateMgr) : StateMgr :=
  mkStateMgr (ds r) (tds r) (smt r) (f (genesisBlockID r)) (keepers r) (pros r) (users r) (threshold r) (blkID r) (cur r) (vld r).
Definition set_keepers (f : list Z -> list Z) (r : StateMgr) : StateMgr :=
  mkStateMgr (ds r) (tds r) (smt r) (genesisBlockID r) (f (keepers r)) (pros r) (users r) (threshold r) (blkID r) (cur r) (vld r).
Definition set_pros (f : list Z -> list Z) (r : StateMgr) : StateMgr :=
  mkStateMgr (ds r) (tds r) (smt r) (genesisBlockID r) (keepers r) (f (pros r)) (users r) (threshold r) (blkID r) (cur r) (vld r).
Definition set_users (f : list Z -> list Z) (r : StateMgr) : StateMgr :=
  mkStateMgr (ds r) (tds r) (smt r) (genesisBlockID r) (keepers r) (pros r) (f (users r)) (threshold r) (blkID r) (cur r) (vld r).
Definition set_threshold (f : Z -> Z) (r : StateMgr) : StateMgr :=
  mkStateMgr (ds r) (tds r) (smt r) (genesisBlockID r) (keepers r) (pros r) (users r) (f (threshold r)) (blkID r) (cur r) (vld r).
Definition set_blkID (f : MsgID -> MsgID) (r : StateMgr) : StateMgr :=
  mkStateMgr (ds r) (tds r) (smt r) (genesisBlockID r) (keepers r) (pros r) (users r) (threshold r) (f (blkID r)) (cur r) (vld r).
Definition set_cur (f : view -> view) (r : StateMgr) : StateMgr :=
  mkStateMgr (ds r) (tds r) (smt r) (genesisBlockID r) (keepers r) (pros r) (users r) (threshold r) (blkID r) (f (cur r)) (vld r).
Definition set_vld (f : view -> view) (r : StateMgr) : StateMgr :=
  mkStateMgr (ds r) (tds r) (smt r) (genesisBlockID r) (keepers r) (pros r) (users r) (threshold r) (blkID r) (cur r) (f (vld r)).

Inductive side := Applied | Validating.

Definition view_of (w : side) (s : StateMgr) : view :=
  match w with Applied => cur s | Validating => vld s end.
Definition set_view (w : side) (f : view -> view) (s : StateMgr) : StateMgr :=
  match w with Applied => set_cur f s | Validating => set_vld f s end.

(** Writing one entry of a side's maps. *)
Definition put_role (w : side) (id : Z) (ri : roleInfo) : StateMgr -> StateMgr :=
  set_view w (set_v_rInfo <[id := ri]>).
Definition put_order (w : side) (k : Z * Z) (oi : orderInfo) : StateMgr -> StateMgr :=
  set_view w (set_v_oInfo <[k := oi]>).
Definition put_user (w : side) (id : Z) (u : segPerUser) : StateMgr -> StateMgr :=
  set_view w (set_v_sInfo <[id := u]>).

(** newChalEpoch *)
Definition newChalEpoch (seed : MsgID) : ChalEpoch := mkChalEpoch 0 0 seed.
End StateTypes.
