(* ===== verification/Concrete.v ===== *)
(** * Concrete: an instance of the libraries

    A computable [StateEnv] that satisfies the documented laws the theorems
    assume of the libraries: the wire encoding of [Codec], toy hashes and
    signatures, arithmetic modulo a prime for the field, a bit set as an
    integer and a tree that holds what is put into it.  It instantiates the
    theorems in their witnesses; nothing else depends on it. *)

From S2P Require Import Prelude GoMonad Codec Keys Segments SegmentID Types Tx Fr StateTypes.

(** ** Codecs *)

#[export] Instance wire_AggSegs : Wire AggSegs.
Proof.
  refine (wire_iso (fun r => (as_BucketID r, as_Start r, as_Length r, as_ChunkID r))
    (fun '(a0, a1, a2, a3) => mkAggSegs a0 a1 a2 a3) _).
  by intros [].
Defined.
#[export] Instance wire_AggStripe : Wire AggStripe.
Proof.
  refine (wire_iso (fun r => (ast_Order r, ast_ProID r, ast_Start r, ast_Length r))
    (fun '(a0, a1, a2, a3) => mkAggStripe a0 a1 a2 a3) _).
  by intros [].
Defined.
#[export] Instance wire_Signature : Wire Signature.
Proof.
  refine (wire_iso (fun r => (sig_Type r, sig_Data r))
    (fun '(a0, a1) => mkSignature a0 a1) _).
  by intros [].
Defined.
#[export] Instance wire_MultiSignature : Wire MultiSignature.
Proof.
  refine (wire_iso (fun r => (ms_Type r, ms_Signer r, ms_Data r))
    (fun '(a0, a1, a2) => mkMultiSignature a0 a1 a2) _).
  by intros [].
Defined.
#[export] Instance wire_NonceSeq : Wire NonceSeq.
Proof.
  refine (wire_iso (fun r => (ns_Nonce r, ns_SeqNum r, ns_SubNonce r))
    (fun '(a0, a1, a2) => mkNonceSeq a0 a1 a2) _).
  by intros [].
Defined.
#[export] Instance wire_OrderBase : Wire OrderBase.
Proof.
  refine (wire_iso (fun r => (ob_UserID r, ob_ProID r, ob_Nonce r, ob_Start r, ob_End r, ob_TokenIndex r, ob_SegPrice r, ob_PiecePrice r))
    (fun '(a0, a1, a2, a3, a4, a5, a6, a7) => mkOrderBase a0 a1 a2 a3 a4 a5 a6 a7) _).
  by intros [].
Defined.
#[export] Instance wire_SignedOrder : Wire SignedOrder.
Proof.
  refine (wire_iso (fun r => (so_OrderBase r, so_Size r, so_Price r, so_Usign r, so_Psign r))
    (fun '(a0, a1, a2, a3, a4) => mkSignedOrder a0 a1 a2 a3 a4) _).
  by intros [].
Defined.
#[export] Instance wire_OrderSeq : Wire OrderSeq.
Proof.
  refine (wire_iso (fun r => (os_UserID r, os_ProID r, os_Nonce r, os_SeqNum r, os_Size r, os_Price r, os_Segments r))
    (fun '(a0, a1, a2, a3, a4, a5, a6) => mkOrderSeq a0 a1 a2 a3 a4 a5 a6) _).
  by intros [].
Defined.
#[export] Instance wire_SignedOrderSeq : Wire SignedOrderSeq.
Proof.
  refine (wire_iso (fun r => (sos_OrderSeq r, sos_UserDataSig r, sos_ProDataSig r, sos_UserSig r, sos_ProSig r))
    (fun '(a0, a1, a2, a3, a4) => mkSignedOrderSeq a0 a1 a2 a3 a4) _).
  by intros [].
Defined.
#[export] Instance wire_OrderDelPart : Wire OrderDelPart.
Proof.
  refine (wire_iso (fun r => (dp_AccFr r, dp_Size r, dp_Price r))
    (fun '(a0, a1, a2) => mkOrderDelPart a0 a1 a2) _).
  by intros [].
Defined.
#[export] Instance wire_OrderFull : Wire OrderFull.
Proof.
  refine (wire_iso (fun r => (of_SignedOrder r, of_SeqNum r, of_AccFr r, of_DelPart r))
    (fun '(a0, a1, a2, a3) => mkOrderFull a0 a1 a2 a3) _).
  by intros [].
Defined.
#[export] Instance wire_SeqFull : Wire SeqFull.
Proof.
  refine (wire_iso (fun r => (sf_OrderSeq r, sf_AccFr r, sf_DelPart r, sf_DelSegs r))
    (fun '(a0, a1, a2, a3) => mkSeqFull a0 a1 a2 a3) _).
  by intros [].
Defined.
#[export] Instance wire_ChalEpoch : Wire ChalEpoch.
Proof.
  refine (wire_iso (fun r => (ce_Epoch r, ce_Slot r, ce_Seed r))
    (fun '(a0, a1, a2) => mkChalEpoch a0 a1 a2) _).
  by intros [].
Defined.
#[export] Instance wire_PostIncome : Wire PostIncome.
Proof.
  refine (wire_iso (fun r => (pi_UserID r, pi_ProID r, pi_TokenIndex r, pi_Value r, pi_Penalty r))
    (fun '(a0, a1, a2, a3, a4) => mkPostIncome a0 a1 a2 a3 a4) _).
  by intros [].
Defined.
#[export] Instance wire_AccPostIncome : Wire AccPostIncome.
Proof.
  refine (wire_iso (fun r => (api_ProID r, api_TokenIndex r, api_Value r, api_Penalty r))
    (fun '(a0, a1, a2, a3) => mkAccPostIncome a0 a1 a2 a3) _).
  by intros [].
Defined.
#[export] Instance wire_SignedAccPostIncome : Wire SignedAccPostIncome.
Proof.
  refine (wire_iso (fun r => (sapi_AccPostIncome r, sapi_Sig r))
    (fun '(a0, a1) => mkSignedAccPostIncome a0 a1) _).
  by intros [].
Defined.
#[export] Instance wire_Message : Wire Message.
Proof.
  refine (wire_iso (fun r => (m_Version r, m_From r, m_To r, m_Nonce r, m_Value r, m_GasLimit r, m_GasPrice r, m_Method r, m_Params r))
    (fun '(a0, a1, a2, a3, a4, a5, a6, a7, a8) => mkMessage a0 a1 a2 a3 a4 a5 a6 a7 a8) _).
  by intros [].
Defined.
#[export] Instance wire_SignedMessage : Wire SignedMessage.
Proof.
  refine (wire_iso (fun r => (sm_Message r, sm_Signature r))
    (fun '(a0, a1) => mkSignedMessage a0 a1) _).
  by intros [].
Defined.
#[export] Instance wire_Receipt : Wire Receipt.
Proof.
  refine (wire_iso (fun r => (r_Err r, r_Extra r))
    (fun '(a0, a1) => mkReceipt a0 a1) _).
  by intros [].
Defined.
#[export] Instance wire_RawHeader : Wire RawHeader.
Proof.
  refine (wire_iso (fun r => (rh_Version r, rh_GroupID r, rh_Height r, rh_Slot r, rh_MinerID r, rh_PrevID r))
    (fun '(a0, a1, a2, a3, a4, a5) => mkRawHeader a0 a1 a2 a3 a4 a5) _).
  by intros [].
Defined.
#[export] Instance wire_MsgSet : Wire MsgSet.
Proof.
  refine (wire_iso (fun r => (mset_Msgs r, mset_Receipts r, mset_ParentRoot r, mset_Root r))
    (fun '(a0, a1, a2, a3) => mkMsgSet a0 a1 a2 a3) _).
  by intros [].
Defined.
#[export] Instance wire_RawBlock : Wire RawBlock.
Proof.
  refine (wire_iso (fun r => (rb_RawHeader r, rb_MsgSet r))
    (fun '(a0, a1) => mkRawBlock a0 a1) _).
  by intros [].
Defined.
#[export] Instance wire_BucketOption : Wire BucketOption.
Proof.
  refine (wire_iso (fun r => (bo_Version r, bo_Policy r, bo_DataCount r, bo_ParityCount r, bo_TagFlag r, bo_SegSize r))
    (fun '(a0, a1, a2, a3, a4, a5) => mkBucketOption a0 a1 a2 a3 a4 a5) _).
  by intros [].
Defined.
#[export] Instance wire_BucketParams : Wire BucketParams.
Proof.
  refine (wire_iso (fun r => (bp_BucketOption r, bp_BucketID r))
    (fun '(a0, a1) => mkBucketParams a0 a1) _).
  by intros [].
Defined.
#[export] Instance wire_SignedEpochParams : Wire SignedEpochParams.
Proof.
  refine (wire_iso (fun r => (sep_Epoch r, sep_Prev r, sep_Sig r))
    (fun '(a0, a1, a2) => mkSignedEpochParams a0 a1 a2) _).
  by intros [].
Defined.
#[export] Instance wire_SegChalParams : Wire SegChalParams.
Proof.
  refine (wire_iso (fun r => (scp_UserID r, scp_ProID r, scp_Epoch r, scp_OrderStart r, scp_OrderEnd r, scp_Size r, scp_Price r, scp_Proof r))
    (fun '(a0, a1, a2, a3, a4, a5, a6, a7) => mkSegChalParams a0 a1 a2 a3 a4 a5 a6 a7) _).
  by intros [].
Defined.
#[export] Instance wire_PostIncomeParams : Wire PostIncomeParams.
Proof.
  refine (wire_iso (fun r => (pip_Epoch r, pip_Income r, pip_Sig r))
    (fun '(a0, a1, a2) => mkPostIncomeParams a0 a1 a2) _).
  by intros [].
Defined.
#[export] Instance wire_SegRemoveParas : Wire SegRemoveParas.
Proof.
  refine (wire_iso (fun r => (srp_UserID r, srp_ProID r, srp_Nonce r, srp_SeqNum r, srp_Segments r))
    (fun '(a0, a1, a2, a3, a4) => mkSegRemoveParas a0 a1 a2 a3 a4) _).
  by intros [].
Defined.
#[export] Instance wire_OrderCommitParas : Wire OrderCommitParas.
Proof.
  refine (wire_iso (fun r => (ocp_UserID r, ocp_ProID r, ocp_Nonce r, ocp_SeqNum r))
    (fun '(a0, a1, a2, a3) => mkOrderCommitParas a0 a1 a2 a3) _).
  by intros [].
Defined.
#[export] Instance wire_OrderSubParas : Wire OrderSubParas.
Proof.
  refine (wire_iso (fun r => (osp_UserID r, osp_ProID r, osp_Nonce r))
    (fun '(a0, a1, a2) => mkOrderSubParas a0 a1 a2) _).
  by intros [].
Defined.
#[export] Instance wire_BucMetaParas : Wire BucMetaParas.
Proof.
  refine (wire_iso (fun r => (bmp_BucketID r, bmp_Name r, bmp_NEncrypt r))
    (fun '(a0, a1, a2) => mkBucMetaParas a0 a1 a2) _).
  by intros [].
Defined.
#[export] Instance wire_ObjMetaKey : Wire ObjMetaKey.
Proof.
  refine (wire_iso (fun r => (omk_UserID r, omk_BucketID r, omk_ObjectID r))
    (fun '(a0, a1, a2) => mkObjMetaKey a0 a1 a2) _).
  by intros [].
Defined.
#[export] Instance wire_ObjMetaValue : Wire ObjMetaValue.
Proof.
  refine (wire_iso (fun r => (omv_Offset r, omv_Length r, omv_ETag r, omv_Encrypt r, omv_Name r, omv_NEncrypt r, omv_Extra r))
    (fun '(a0, a1, a2, a3, a4, a5, a6) => mkObjMetaValue a0 a1 a2 a3 a4 a5 a6) _).
  by intros [].
Defined.
#[export] Instance wire_ObjMetaParas : Wire ObjMetaParas.
Proof.
  refine (wire_iso (fun r => (omp_ObjMetaValue r, omp_BucketID r, omp_ObjectID r))
    (fun '(a0, a1, a2) => mkObjMetaParas a0 a1 a2) _).
  by intros [].
Defined.
#[export] Instance wire_RoleInfo : Wire RoleInfo.
Proof.
  refine (wire_iso (fun r => (ri_Type r, ri_RoleID r, ri_GroupID r, ri_ChainVerifyKey r, ri_BlsVerifyKey r, ri_Extra r, ri_Desc r, ri_State r))
    (fun '(a0, a1, a2, a3, a4, a5, a6, a7) => mkRoleInfo a0 a1 a2 a3 a4 a5 a6 a7) _).
  by intros [].
Defined.
#[export] Instance wire_roleValue : Wire roleValue.
Proof.
  refine (wire_iso (fun r => (rv_Nonce r, rv_Value r))
    (fun '(a0, a1) => mkRoleValue a0 a1) _).
  by intros [].
Defined.
#[export] Instance wire_bitsetStored : Wire bitsetStored.
Proof.
  refine (wire_iso (fun r => bss_Val r)
    (fun a => mkBitsetStored a) _).
  by intros [].
Defined.

(** ** Libraries *)

(** Toy digests: the length and a weighted sum of the bytes. *)
Definition toy_sum (b : bytes) : Z :=
  foldl (fun acc c => (acc * 257 + Z_of_byte c + 1) mod (2 ^ 61 - 1)) 7 b.
Definition toy_digest (n : nat) (b : bytes) : bytes := put_be n (toy_sum b).

Definition toy_mh_Decode (b : bytes) : option Z :=
  match b with c :: d :: _ => if Z_of_byte d =? 20 then Some (Z_of_byte c) else None | _ => None end.

#[local] Instance toy_hashes : Hashes := {
  mh_sum b := Some (byte_of_Z 76 :: byte_of_Z 20 :: toy_digest 20 b);
  mh_Decode_Code := toy_mh_Decode;
  blake3_Sum256 := toy_digest 32;
  keccak256 := toy_digest 32;
}.
#[local] Instance toy_hashes_laws : HashesLaws.
Proof.
  constructor. intros data. eexists. split; [reflexivity|]. split; [|done].
  cbn [length]. unfold toy_digest. by rewrite length_put_be.
Qed.

(** A signature is the key followed by the message. *)
#[local] Instance toy_sigs : Signatures := {
  signature_Verify pk m sg := Some (bool_decide (sg = pk ++ m));
  bls_AggregateSignature a b := Some (a ++ b);
}.

Definition toy_order : Z := 2 ^ 255 - 19.
Definition toy_from_bytes (b : bytes) : Z := get_be b mod toy_order.

(** Elements below the order. *)
Definition toy_Fr : Type := { x : Z | bool_decide (0 <= x < toy_order) }.
Lemma toy_mod_ok x : bool_decide (0 <= x mod toy_order < toy_order).
Proof. apply bool_decide_spec. apply Z.mod_pos_bound. done. Qed.
Definition toy_fr (x : Z) : toy_Fr := exist _ (x mod toy_order) (toy_mod_ok x).
Lemma toy_fr_eq (x y : toy_Fr) : `x = `y -> x = y.
Proof. destruct x, y. simpl. intros ->. f_equal. apply proof_irrel. Qed.
Lemma toy_fr_proj (x : toy_Fr) : `x mod toy_order = `x.
Proof. destruct x as [x Hx]. simpl. apply bool_decide_unpack in Hx. by apply Z.mod_small. Qed.

#[local] Instance toy_frops : FrOps := {
  Fr := toy_Fr;
  fr_zero := toy_fr 0;
  fr_add x y := toy_fr (`x + `y);
  fr_sub x y := toy_fr (`x - `y);
  red_from_bytes b := toy_fr (get_be b);
  red_to_bytes x := put_be 32 (`x);
}.
#[local] Instance toy_frlaws : FrLaws.
Proof.
  constructor; simpl; intros; try apply toy_fr_eq; simpl.
  - by rewrite Z.add_comm.
  - by rewrite Zplus_mod_idemp_r, Zplus_mod_idemp_l, Z.add_assoc.
  - rewrite Zmod_0_l, Z.add_0_l. apply toy_fr_proj.
  - rewrite Zplus_mod_idemp_l. replace (`x - `y + `y) with (`x) by lia. apply toy_fr_proj.
  - rewrite Zminus_mod_idemp_l. replace (`x + `y - `y) with (`x) by lia. apply toy_fr_proj.
  - first [done|apply length_put_be].
  - rewrite get_put_be. destruct x as [x Hx]. simpl. apply bool_decide_unpack in Hx.
    unfold toy_order in *. rewrite (Z.mod_small x (256 ^ _)) by (simpl; lia). apply Z.mod_small. lia.
Qed.

(** Keys and proofs are bytes; every proof that is not empty is accepted. *)
#[local] Instance toy_pdp : PDP := {
  PublicKey := bytes; VerifyKey := bytes; Proof := bytes;
  pdp_DeserializePublicKey b := match b with [] => None | _ => Some b end;
  pdp_DeserializeVerifyKey b := match b with [] => None | _ => Some b end;
  pdp_DeserializeProof := Some;
  pk_VerifyKey pk := pk;
  pk_Serialize pk := pk;
  vk_Serialize vk := vk;
  vk_Hash vk := toy_digest 20 vk;
  vk_Version _ := PDPV2;
  vk_VerifyProof _ _ prf := Some (0 <? length prf)%nat;
}.

Definition toy_get (t : gmap bytes bytes) (k : bytes) : option bytes :=
  match t !! k with Some [] => None | o => o end.
#[local] Instance toy_smt : SMTStore := {
  smt_t := gmap bytes bytes;
  smt_get := toy_get;
  smt_has t k := (bool_decide (is_Some (toy_get t k)), false);
  smt_put t k v := Some (<[k := v]> t);
  smt_root t := toy_digest 32 [];
  smt_set_root _ t := t;
}.
#[local] Instance toy_smt_laws : SMTLaws.
Proof.
  constructor; simpl; [|done]. intros t k v t' k' [= <-]. unfold toy_get. case_bool_decide as E.
  - subst. rewrite lookup_insert_eq. by destruct v.
  - by rewrite lookup_insert_ne.
Qed.

(** The words of the bit set are kept as one number. *)
#[local] Instance toy_bitset : BitSetOps := {
  bitset := Z;
  bs_new := 0;
  bs_test := Z.testbit;
  bs_set i b := Z.setbit b i;
  bs_bytes b := [b];
  bs_from l := match l with b :: _ => b | [] => 0 end;
}.
#[local] Instance toy_bitset_laws : BitSetLaws.
Proof.
  constructor; simpl; unfold is_u64; intros.
  - apply Z.bits_0.
  - by rewrite Z.setbit_eqb by lia.
  - done.
Qed.

Definition toy_env_with (b : Build) : StateEnv := {| env_build := b |}.
#[export] Instance toy_env : StateEnv | 1000 := toy_env_with build_init.

(** The laws, stated of the instance as a whole. *)
#[export] Instance toy_env_hashes_laws : HashesLaws := toy_hashes_laws.
#[export] Instance toy_env_smt_laws : SMTLaws := toy_smt_laws.
#[export] Instance toy_env_frlaws : FrLaws := toy_frlaws.
#[export] Instance toy_env_bitset_laws : BitSetLaws := toy_bitset_laws.

#[export] Instance toy_roleValue_nonempty : CodecNonempty roleValue.
Proof. intros [n v] b [= <-]. simpl. by destruct n as [|p|p]. Qed.
#[export] Instance toy_SignedAccPostIncome_nonempty : CodecNonempty SignedAccPostIncome.
Proof. intros [[p t v q] sg] b [= <-]. simpl. by destruct p as [|p|p]. Qed.
