(* ===== verification/State.v ===== *)
(** * State: the state manager's store, root and caches

    [submodule/state/state.go], [common.go] and the loaders of [mrole.go]: the
    three stores behind [get]/[has]/[put], the running state root, the quorum
    threshold, the start-up [load], and the read-through caches of role
    entries.  The handlers of the messages are in the files that follow. *)

From S2P Require Import Prelude GoMonad Codec Keys Segments SegmentID Types Tx Fr StateTypes.

Section State.
Context `{!StateEnv}.
Implicit Types (s : StateMgr) (key b : bytes) (id : Z) (w : side).

(** ** The stores

    [ds] is the database, [tds] the transaction of the block being applied
    (nil between blocks), [smt] the tree.  A transaction reads through to the
    database, so it is the map of what it would see. *)

Definition tds_get s key : option bytes :=
  match tds s with Some t => t !! key | None => ds s !! key end.

Definition read s key : option bytes :=
  match smt_get (smt s) key with
  | Some val => Some val
  | None => tds_get s key
  end.

Definition get key : M StateMgr (option bytes) := gets (fun s => read s key).

(** The answer, and whether the error is nil: a transaction reports a missing
    key as an error, the database does not. *)
Definition has key : M StateMgr (bool * bool) := gets (fun s =>
  let '(h, noerr) := smt_has (smt s) key in
  if noerr || h then (h, true)
  else match tds s with
       | Some t => let found := bool_decide (is_Some (t !! key)) in (found, found)
       | None => (bool_decide (is_Some (ds s !! key)), true)
       end).

(** ok, err := s.has(key); err == nil && ok *)
Definition has_ok key : M StateMgr bool :=
  let! h := has key in ret (h.2 && h.1).

(** [s.tds.Get] and [s.tds.Put]; [tds] is a nil interface between blocks. *)
Definition tds_Get key : M StateMgr (option bytes) :=
  let! t := gets tds in
  let! t := deref t in
  ret (t !! key).
Definition tds_Put key value : M StateMgr unit :=
  let! t := gets tds in
  let! t := deref t in
  modify (set_tds (fun _ => Some (<[key := value]> t))).

Definition smt_Put key value : M StateMgr unit :=
  let! t := gets smt in
  let! t := of_option (smt_put t key value) "smt put" in
  modify (set_smt (fun _ => t)).

Definition put key value : M StateMgr unit :=
  let! v := gets cur in
  if v_version v <? SMTVersion then tds_Put key value else smt_Put key value.

(** ** The state root *)

(** h.Write(root); h.Write(b): the root after absorbing [b] *)
Definition next_root (root : MsgID) (b : bytes) : MsgID := NewMsgID (blake3_Sum256 (root ++ b)).

Definition RootKey : bytes := NewKey [KMetaType pb.MetaType_ST_RootKey].

Definition newRoot b : M StateMgr unit :=
  let! v := gets cur in
  if v_version v <? SMTVersion then
    do! modify (set_cur (set_v_root (fun root => next_root root b)));
    let! v := gets cur in
    tds_Put RootKey (v_root v)
  else
    let! _ := try_err (put RootKey b) in
    ret tt.

Definition saveRoot : M StateMgr unit :=
  let! v := gets cur in
  if v_version v >=? SMTVersion then
    let! t := gets smt in
    do! modify (set_cur (set_v_root (fun _ => NewMsgID (smt_root t))));
    do! tds_Put RootKey (smt_root t);
    tds_Put (NewKey [KMetaType pb.MetaType_ST_RootKey; KUint64 (v_height v)]) (smt_root t)
  else ret tt.

Definition getThreshold s : Z :=
  let thres := 2 * (Z.of_nat (length (keepers s)) + 1) / 3 in
  if thres >? threshold s then thres else threshold s.

(** ** common.go: verify

    [ri] may be nil: a role that has not been added yet has no base. *)
Definition verify_with (pubkey msg : bytes) (sig : Signature) : M StateMgr unit :=
  let! ok := of_option (signature_Verify pubkey msg (sig_Data sig)) "signature" in
  check ok "sign is wrong".

Definition verify (ri : option RoleInfo) (msg : bytes) (sig : Signature) : M StateMgr unit :=
  if sig_Type sig =? SigSecp256k1 then
    let! ri := deref ri in verify_with (ri_ChainVerifyKey ri) msg sig
  else if sig_Type sig =? SigBLS then
    let! ri := deref ri in verify_with (ri_BlsVerifyKey ri) msg sig
  else throw "sign type is not supported".

(** ** Role entries *)

Definition RoleValueKey id := NewKey [KMetaType pb.MetaType_ST_RoleValueKey; KUint64 id].
Definition RoleBaseKey id := NewKey [KMetaType pb.MetaType_ST_RoleBaseKey; KUint64 id].

Definition loadVal id : M StateMgr roleValue :=
  let rb := mkRoleValue 0 (Some 0) in
  let! data := get (RoleValueKey id) in
  match data with
  | None => ret rb
  | Some data => ret (unmarshal rb data).1
  end.

Definition saveVal id (rv : roleValue) : M StateMgr unit :=
  let! data := of_option (marshal rv) "serialize" in
  put (RoleValueKey id) data.

Definition loadRole id : M StateMgr roleInfo :=
  let! val := loadVal id in
  let! data := get (RoleBaseKey id) in
  match data with
  | Some data =>
      if (0 <? length data)%nat then ret (mkRoleEntry (decode data) val)
      else ret (mkRoleEntry None val)
  | None => ret (mkRoleEntry None val)
  end.

(** ri, ok := s.rInfo[id]; if !ok { ri = s.loadRole(id); s.rInfo[id] = ri } *)
Definition roleOf w id : M StateMgr roleInfo :=
  let! v := gets (view_of w) in
  match v_rInfo v !! id with
  | Some ri => ret ri
  | None =>
      let! ri := loadRole id in
      do! modify (put_role w id ri);
      ret ri
  end.
End State.
