(* ===== verification/Roles.v ===== *)
(** * Roles: roles, users and network addresses

    [submodule/state/mrole.go], [muser.go] and [net.go]: the messages AddRole,
    CreateFs and UpdateNet.  Each handler has the validating twin that
    [ValidateMsg] calls. *)

From S2P Require Import Prelude GoMonad Codec Keys Segments SegmentID Types Tx Fr StateTypes State.

Section Roles.
Context `{!StateEnv}.
Implicit Types (s : StateMgr) (key b : bytes) (id : Z) (w : side) (msg : Message).

(** ** AddRole *)

(** Decoding and the checks both twins start with: the role and its key. *)
Definition addRole_pre msg : M StateMgr RoleInfo :=
  let! pri := of_option (decode (m_Params msg)) "unmarshal" in
  do! check (ri_RoleID pri =? m_From msg) "wrong roleinfo";
  let! ok := has_ok (RoleBaseKey (ri_RoleID pri)) in
  do! check (negb ok) "local already has role";
  ret pri.

(** The in-memory entry: of [rInfo] in [addRole], of [validateRInfo] in [canAddRole]. *)
Definition addRole_entry w (pri : RoleInfo) : M StateMgr unit :=
  let! v := gets (view_of w) in
  match v_rInfo v !! ri_RoleID pri with
  | Some ri =>
      do! check (bool_decide (r_base ri = None)) "already has role";
      modify (put_role w (ri_RoleID pri) (mkRoleEntry (Some pri) (r_val ri)))
  | None =>
      let! val := loadVal (ri_RoleID pri) in
      modify (put_role w (ri_RoleID pri) (mkRoleEntry (Some pri) val))
  end.

(** Appending an id to the list stored under [key]. *)
Definition append_id key id : M StateMgr unit :=
  let! val := tds_Get key in
  tds_Put key (default [] val ++ put_be 8 id).

Definition KeepersKey := NewKey [KMetaType pb.MetaType_ST_KeepersKey].
Definition ProsKey := NewKey [KMetaType pb.MetaType_ST_ProsKey].
Definition UsersKey := NewKey [KMetaType pb.MetaType_ST_UsersKey].

Definition addRole_lists msg (pri : RoleInfo) : M StateMgr unit :=
  if ri_Type pri =? RoleInfo_Keeper then
    do! modify (set_keepers (fun l => l ++ [m_From msg]));
    append_id KeepersKey (m_From msg)
  else if ri_Type pri =? RoleInfo_Provider then
    do! modify (set_pros (fun l => l ++ [m_From msg]));
    append_id ProsKey (m_From msg)
  else if ri_Type pri =? RoleInfo_User then
    do! modify (set_users (fun l => l ++ [m_From msg]));
    append_id UsersKey (m_From msg)
  else ret tt.

Definition addRole msg : M StateMgr unit :=
  let! pri := addRole_pre msg in
  do! addRole_entry Applied pri;
  do! put (RoleBaseKey (ri_RoleID pri)) (m_Params msg);
  addRole_lists msg pri.

Definition canAddRole msg : M StateMgr unit :=
  let! pri := addRole_pre msg in
  addRole_entry Validating pri.

(** ** Users *)

Definition PDPVerifyKey id := NewKey [KMetaType pb.MetaType_ST_PDPVerifyKey; KUint64 id].
Definition PDPPublicKey id := NewKey [KMetaType pb.MetaType_ST_PDPPublicKey; KUint64 id].
Definition BucketOptKey id := NewKey [KMetaType pb.MetaType_ST_BucketOptKey; KUint64 id].

(** The verify key, from its own entry or, for an old database, from the
    public key, in which case the entry is added. *)
Definition loadUser_vk id : M StateMgr VerifyKey :=
  let! data := get (PDPVerifyKey id) in
  match data with
  | None =>
      let! data := get (PDPPublicKey id) in
      let! data := of_option data "not found" in
      let! pk := of_option (pdp_DeserializePublicKey data) "deserialize" in
      do! put (PDPVerifyKey id) (vk_Serialize (pk_VerifyKey pk));
      ret (pk_VerifyKey pk)
  | Some data => of_option (pdp_DeserializeVerifyKey data) "deserialize"
  end.

Definition loadUser id : M StateMgr segPerUser :=
  let! vk := loadUser_vk id in
  let! data := get (BucketOptKey id) in
  let next := match data with
              | Some data => if (8 <=? length data)%nat then get_be (take 8 data) else 0
              | None => 0
              end in
  ret (mkSegPerUser id (vk_Hash vk) vk next ∅).

(** The checks of addUser and canAddUser on the role of the sender. *)
Definition addUser_check w msg (pk : PublicKey) : M StateMgr unit :=
  let! ri := roleOf w (m_From msg) in
  let! base := deref (r_base ri) in
  do! check (ri_Type base =? RoleInfo_User) "roletype is not user";
  let! vk := of_option (pdp_DeserializeVerifyKey (ri_Extra base)) "deserialize" in
  check (bool_decide (vk_Hash vk = vk_Hash (pk_VerifyKey pk))) "publickey does not match verifykey".

Definition newUser id (pk : PublicKey) : segPerUser :=
  mkSegPerUser id (vk_Hash (pk_VerifyKey pk)) (pk_VerifyKey pk) 0 ∅.

Definition addUser msg : M StateMgr unit :=
  let! pk := of_option (pdp_DeserializePublicKey (m_Params msg)) "deserialize" in
  let! v := gets cur in
  match v_sInfo v !! m_From msg with
  | Some _ => ret tt
  | None =>
      do! addUser_check Applied msg pk;
      do! modify (put_user Applied (m_From msg) (newUser (m_From msg) pk));
      do! put (PDPPublicKey (m_From msg)) (pk_Serialize pk);
      put (PDPVerifyKey (m_From msg)) (vk_Serialize (pk_VerifyKey pk))
  end.

Definition canAddUser msg : M StateMgr unit :=
  let! pk := of_option (pdp_DeserializePublicKey (m_Params msg)) "deserialize" in
  let! v := gets vld in
  do! check (bool_decide (v_sInfo v !! m_From msg = None)) "has create fs already";
  let! found := has_ok (PDPPublicKey (m_From msg)) in
  do! check (negb found) "has create fs already";
  do! addUser_check Validating msg pk;
  modify (put_user Validating (m_From msg) (newUser (m_From msg) pk)).

(** ** UpdateNet *)

Definition NetKey id := NewKey [KMetaType pb.MetaType_ST_NetKey; KUint64 id].

Definition updateNetAddr msg : M StateMgr unit := put (NetKey (m_From msg)) (m_Params msg).
Definition canUpdateNetAddr msg : M StateMgr unit := ret tt.
End Roles.
