(* ===== verification/Chunks.v ===== *)
(** * Chunks: buckets and the placement of chunks

    [submodule/state/mseg.go] and [loadUser]'s cache: per user and bucket, the
    latest stripe of every chunk and, per provider, the set of stripes the
    provider stores.  [addChunk] records one run of stripes; it is called by
    [addSeq] for every segment run of an order sequence. *)

From S2P Require Import Prelude GoMonad Codec Keys Segments SegmentID Types Tx Fr StateTypes State Roles.

Section Chunks.
Context `{!StateEnv}.
Implicit Types (s : StateMgr) (id bid pro : Z) (w : side) (msg : Message).

(** uinfo, ok := s.sInfo[id]; if !ok { load it and keep it } *)
Definition userOf w id : M StateMgr segPerUser :=
  let! v := gets (view_of w) in
  match v_sInfo v !! id with
  | Some u => ret u
  | None =>
      let! u := loadUser id in
      do! modify (put_user w id u);
      ret u
  end.

(** Updating the entry of user [id] through its pointer. *)
Definition upd_user w id (f : segPerUser -> segPerUser) : StateMgr -> StateMgr :=
  set_view w (set_v_sInfo (alter f id)).
Definition put_bucket w id bid (bm : bucketManage) : StateMgr -> StateMgr :=
  upd_user w id (set_su_buckets <[bid := bm]>).

Definition BucketOptKey2 id bid := NewKey [KMetaType pb.MetaType_ST_BucketOptKey; KUint64 id; KUint64 bid].
Definition SegLocKey id bid chunkID :=
  NewKey [KMetaType pb.MetaType_ST_SegLocKey; KUint64 id; KUint64 bid; KUint32 chunkID].
Definition SegLocKey4 id bid chunkID stripeID :=
  NewKey [KMetaType pb.MetaType_ST_SegLocKey; KUint64 id; KUint64 bid; KUint32 chunkID; KUint64 stripeID].
Definition SegMapKey id bid pro :=
  NewKey [KMetaType pb.MetaType_ST_SegMapKey; KUint64 id; KUint64 bid; KUint64 pro].
Definition SegMapKey4 id bid pro epoch :=
  NewKey [KMetaType pb.MetaType_ST_SegMapKey; KUint64 id; KUint64 bid; KUint64 pro; KUint64 epoch].

(** One turn of the loop of getBucketManage: the latest stripe of a chunk. *)
Definition loadChunk id bid (i : Z) : M StateMgr (option AggStripe) :=
  let! data := get (SegLocKey id bid i) in
  match data with
  | None => ret None
  | Some data =>
      if (length data <? 8)%nat then ret None
      else
        let! data := get (SegLocKey4 id bid i (get_be (take 8 data))) in
        match data with
        | None => ret None
        | Some data => ret (decode data)
        end
  end.

Definition bucket_chunk_count (pbo : BucketOption) : Z :=
  u32 (bo_DataCount pbo + bo_ParityCount pbo).

Definition loadBucket id bid : M StateMgr bucketManage :=
  let! data := get (BucketOptKey2 id bid) in
  match data with
  | None => ret (mkBucketManage [] ∅)
  | Some data =>
      match decode (A := BucketOption) data with
      | None => ret (mkBucketManage [] ∅)
      | Some pbo =>
          let! chunks := for_fold (u64_range_list 0 (bucket_chunk_count pbo)) []
            (fun acc i => let! c := loadChunk id bid i in ret (acc ++ [c])) in
          ret (mkBucketManage chunks ∅)
      end
  end.

(** [id] is the key of [spu] in the side's map; the key names use its field. *)
Definition getBucketManage w id (spu : segPerUser) bid : M StateMgr bucketManage :=
  match su_buckets spu !! bid with
  | Some bm => ret bm
  | None =>
      let! bm := loadBucket (su_userID spu) bid in
      do! modify (put_bucket w id bid bm);
      ret bm
  end.

(** The bit map a provider's entry starts from. *)
Definition loadStripeBitMap id bid pro : M StateMgr bitset :=
  let! data := get (SegMapKey id bid pro) in
  match data with
  | None => ret bs_new
  | Some data =>
      match decode (A := bitsetStored) data with
      | None => ret bs_new
      | Some bs => ret (bs_from (bss_Val bs))
      end
  end.

(** The bucket after the call, and the bit map. *)
Definition getStripeBitMap w (bm : bucketManage) id bid pro : M StateMgr (bucketManage * bitset) :=
  match bm_stripes bm !! pro with
  | Some cm => ret (bm, cm)
  | None =>
      let! cm := loadStripeBitMap id bid pro in
      let bm := set_bm_stripes <[pro := cm]> bm in
      do! modify (put_bucket w id bid bm);
      ret (bm, cm)
  end.

(** ** CreateBucket *)

Definition newBucket (n : Z) : bucketManage := mkBucketManage (replicate (Z.to_nat n) None) ∅.

(** What addBucket and canAddBucket share: the decoded parameters and the
    next bucket number, after the update of the user's entry. *)
Definition addBucket_mem w msg : M StateMgr (BucketParams * Z) :=
  let! tbp := of_option (decode (m_Params msg)) "deserialize" in
  let! uinfo := userOf w (m_From msg) in
  do! check (su_nextBucket uinfo =? bp_BucketID tbp) "add bucket err";
  let bm := newBucket (bucket_chunk_count (bp_BucketOption tbp)) in
  do! modify (put_bucket w (m_From msg) (bp_BucketID tbp) bm);
  let next := u64 (su_nextBucket uinfo + 1) in
  do! modify (upd_user w (m_From msg) (set_su_nextBucket (fun _ => next)));
  ret (tbp, next).

Definition addBucket msg : M StateMgr unit :=
  let! p := addBucket_mem Applied msg in
  let tbp := p.1 in
  let! data := of_option (marshal (bp_BucketOption tbp)) "marshal" in
  do! put (BucketOptKey2 (m_From msg) (bp_BucketID tbp)) data;
  put (BucketOptKey (m_From msg)) (put_be 8 p.2).

Definition canAddBucket msg : M StateMgr unit :=
  let! _ := addBucket_mem Validating msg in ret tt.

(** ** addChunk *)

Definition stripe_range (start len : Z) : list Z := u64_range_list start (u64 (start + len)).

(** Whether the latest stripe of the chunk is extended, and the entry after. *)
Definition next_stripe (cinfo : option AggStripe) (pro nonce start len : Z) : AggStripe :=
  let fresh := mkAggStripe nonce pro start len in
  match cinfo with
  | None => fresh
  | Some c =>
      if (ast_ProID c =? pro) && (ast_Order c =? nonce)
         && (u64 (ast_Start c + ast_Length c) =? start)
      then mkAggStripe (ast_Order c) (ast_ProID c) (ast_Start c) (u64 (ast_Length c + len))
      else fresh
  end.

(** What addChunk and canAddChunk share. *)
Definition addChunk_mem w (userID bucketID stripeStart stripeLength proID nonce chunkID : Z)
    : M StateMgr (AggStripe * bitset) :=
  let! uinfo := userOf w userID in
  do! check (negb (su_nextBucket uinfo <=? bucketID)) "add chunk bucket too large";
  let! binfo := getBucketManage w userID uinfo bucketID in
  do! check (negb (Z.of_nat (length (bm_chunks binfo)) <=? chunkID)) "add chunk too large";
  let! bc := getStripeBitMap w binfo userID bucketID proID in
  let binfo := bc.1 in let cm := bc.2 in
  let range := stripe_range stripeStart stripeLength in
  do! check (forallb (fun i => negb (bs_test cm i)) range) "add duplicated chunk";
  let n := Z.to_nat chunkID in
  let cinfo := next_stripe (mjoin (bm_chunks binfo !! n)) proID nonce stripeStart stripeLength in
  let cm := foldl (fun cm i => bs_set i cm) cm range in
  do! modify (put_bucket w userID bucketID
                (mkBucketManage (<[n := Some cinfo]> (bm_chunks binfo))
                                (<[proID := cm]> (bm_stripes binfo))));
  ret (cinfo, cm).

Definition addChunk (userID bucketID stripeStart stripeLength proID nonce chunkID : Z)
    : M StateMgr unit :=
  let! r := addChunk_mem Applied userID bucketID stripeStart stripeLength proID nonce chunkID in
  let cinfo := r.1 in let cm := r.2 in
  let! data := of_option (marshal (mkBitsetStored (bs_bytes cm))) "serialize" in
  do! put (SegMapKey userID bucketID proID) data;
  let! v := gets cur in
  do! put (SegMapKey4 userID bucketID proID (ci_epoch (v_ceInfo v))) data;
  let! data := of_option (marshal cinfo) "serialize" in
  do! put (SegLocKey4 userID bucketID chunkID stripeStart) data;
  put (SegLocKey userID bucketID chunkID) (put_be 8 stripeStart).

Definition canAddChunk (userID bucketID stripeStart stripeLength proID nonce chunkID : Z)
    : M StateMgr unit :=
  let! _ := addChunk_mem Validating userID bucketID stripeStart stripeLength proID nonce chunkID in
  ret tt.
End Chunks.
