(* ===== verification/Orders.v ===== *)
(** * Orders: the life of a data order

    [submodule/state/morder.go], first half: loading an order entry, opening an
    order ([createOrder]), adding a sequence of segments to it ([addSeq]),
    closing it ([commitOrder]) and settling it after it has expired
    ([subOrder]), each with its validating twin. *)

From S2P Require Import Prelude GoMonad Codec Keys Segments SegmentID Types Tx Fr StateTypes State Roles Chunks.

Section Orders.
Context `{!StateEnv}.
Implicit Types (s : StateMgr) (w : side) (msg : Message) (userID proID nonce : Z).

(** ** Keys *)

Definition SegPayKey userID proID :=
  NewKey [KMetaType pb.MetaType_ST_SegPayKey; KUint64 userID; KUint64 proID].
Definition SegProofKey userID proID :=
  NewKey [KMetaType pb.MetaType_ST_SegProofKey; KUint64 userID; KUint64 proID].
Definition OrderStateKey userID proID :=
  NewKey [KMetaType pb.MetaType_ST_OrderStateKey; KUint64 userID; KUint64 proID].
Definition OrderStateKey4 userID proID epoch :=
  NewKey [KMetaType pb.MetaType_ST_OrderStateKey; KUint64 userID; KUint64 proID; KUint64 epoch].
Definition OrderBaseKey userID proID nonce :=
  NewKey [KMetaType pb.MetaType_ST_OrderBaseKey; KUint64 userID; KUint64 proID; KUint64 nonce].
Definition OrderSeqKey userID proID nonce seqNum :=
  NewKey [KMetaType pb.MetaType_ST_OrderSeqKey; KUint64 userID; KUint64 proID; KUint64 nonce; KUint32 seqNum].

(** data, err := s.get(key); x.Deserialize(data) into [x], when both errors
    are returned, and when they leave [x] as it was. *)
Definition get_decode {A} `{!Codec A} (key : bytes) : M StateMgr A :=
  let! data := get key in
  let! data := of_option data "not found" in
  of_option (decode data) "deserialize".
Definition get_into {A} `{!Codec A} (key : bytes) (x : A) : M StateMgr A :=
  let! data := get key in
  match data with
  | None => ret x
  | Some data => ret (unmarshal x data).1
  end.
(** data, err := x.Serialize(); s.put(key, data) *)
Definition put_encode {A} `{!Codec A} (key : bytes) (x : A) : M StateMgr unit :=
  let! data := of_option (marshal x) "serialize" in
  put key data.

(** ** loadOrder *)

Definition income0 userID proID : PostIncome := mkPostIncome userID proID 0 (Some 0) (Some 0).

Definition loadProve userID proID : M StateMgr Z :=
  let! data := get (SegProofKey userID proID) in
  match data with
  | Some data => if (8 <=? length data)%nat then ret (get_be (take 8 data)) else ret 0
  | None => ret 0
  end.

(** The order stored under a nonce, or [None] where the source returns early. *)
Definition loadBase userID proID nonce : M StateMgr (option OrderFull) :=
  let! data := get (OrderBaseKey userID proID nonce) in
  match data with
  | None => ret None
  | Some data => ret (decode data)
  end.

Definition loadOrder userID proID : M StateMgr orderInfo :=
  let! income := get_into (SegPayKey userID proID) (income0 userID proID) in
  let! prove := loadProve userID proID in
  let! ns := get_into (OrderStateKey userID proID) (mkNonceSeq 0 0 0) in
  let! base := loadBase userID proID (ns_Nonce ns) in
  match base with
  | None => ret (mkOrderInfo prove income ns fr_zero None 0 0)
  | Some ofl =>
      let accFr := FrFromBytes fr_zero (of_AccFr ofl) in
      if 0 <? ns_Nonce ns then
        let! pre := loadBase userID proID (u64 (ns_Nonce ns - 1)) in
        match pre with
        | None => ret (mkOrderInfo prove income ns accFr (Some (of_SignedOrder ofl)) 0 0)
        | Some pf =>
            let pb := so_OrderBase (of_SignedOrder pf) in
            ret (mkOrderInfo prove income ns accFr (Some (of_SignedOrder ofl)) (ob_Start pb) (ob_End pb))
        end
      else ret (mkOrderInfo prove income ns accFr (Some (of_SignedOrder ofl)) 0 0)
  end.

(** oinfo, ok := s.oInfo[okey]; if !ok { load it and keep it } *)
Definition orderOf w (userID proID : Z) : M StateMgr orderInfo :=
  let! v := gets (view_of w) in
  match v_oInfo v !! (userID, proID) with
  | Some oi => ret oi
  | None =>
      let! oi := loadOrder userID proID in
      do! modify (put_order w (userID, proID) oi);
      ret oi
  end.

(** Saving the order's nonces, under the current state and for the challenge
    of the running epoch. *)
Definition saveOrderState userID proID (ns : NonceSeq) : M StateMgr unit :=
  let! data := of_option (marshal ns) "serialize" in
  do! put (OrderStateKey userID proID) data;
  let! v := gets cur in
  put (OrderStateKey4 userID proID (ci_epoch (v_ceInfo v))) data.

(** ** PreDataOrder *)

(** The parameter checks of createOrder, which need no state. *)
Definition createOrder_paras msg : M StateMgr SignedOrder :=
  let! or := of_option (decode (m_Params msg)) "deserialize" in
  let! price := of_option (so_Price or) "wrong paras order price" in
  do! check (so_Size or =? 0) "order size should be zero";
  do! check (price =? 0) "order price should be zero";
  let b := so_OrderBase or in
  do! check (negb (i64 (ob_End b - ob_Start b) <? OrderMin)) "order duration is short";
  do! of_outcome (CheckOrder b);
  do! check (m_From msg =? ob_UserID b) "wrong user";
  ret or.

(** Both parties' signatures on a hash, with the roles of the side. *)
Definition verify_order w (or : SignedOrder) : M StateMgr unit :=
  let b := so_OrderBase or in
  let! uri := roleOf w (ob_UserID b) in
  let! h := deref (SignedOrder_Hash or) in
  do! verify (r_base uri) h (so_Usign or);
  let! pri := roleOf w (ob_ProID b) in
  verify (r_base pri) h (so_Psign or).

(** The checks against the entry that both twins make. *)
Definition createOrder_times (b : OrderBase) (oinfo : orderInfo) : M StateMgr unit :=
  do! check (bool_decide (o_base oinfo = None)) "add order base wrong, should be empty";
  do! check (negb (ob_Start b >=? ob_End b)) "start is later than end";
  do! check (negb (o_preStart oinfo >? ob_Start b)) "start is early than previous";
  check (negb (o_preEnd oinfo >? ob_End b)) "end is early than previous".

Definition zeroFr : bytes := FrToBytes fr_zero.

(** Appending an id to the list under a key that goes through [get]/[put]. *)
Definition append_id_put (key : bytes) (id : Z) : M StateMgr unit :=
  let! val := get key in
  put key (default [] val ++ put_be 8 id).

Definition upd_order w (k : Z * Z) (f : orderInfo -> orderInfo) : StateMgr -> StateMgr :=
  set_view w (set_v_oInfo (alter f k)).

Definition createOrder_save (or : SignedOrder) (ns : NonceSeq) : M StateMgr unit :=
  let b := so_OrderBase or in
  do! put_encode (OrderBaseKey (ob_UserID b) (ob_ProID b) (ob_Nonce b))
        (mkOrderFull or (ns_SeqNum ns) zeroFr (mkOrderDelPart zeroFr 0 (Some 0)));
  do! saveOrderState (ob_UserID b) (ob_ProID b) ns;
  if ob_Nonce b =? 0 then
    do! append_id_put (NewKey [KMetaType pb.MetaType_ST_ProsKey; KUint64 (ob_UserID b)]) (ob_ProID b);
    append_id_put (NewKey [KMetaType pb.MetaType_ST_UsersKey; KUint64 (ob_ProID b)]) (ob_UserID b)
  else ret tt.

Definition createOrder msg : M StateMgr unit :=
  let! or := createOrder_paras msg in
  do! verify_order Applied or;
  let b := so_OrderBase or in
  let! oinfo := orderOf Applied (ob_UserID b) (ob_ProID b) in
  do! check (ob_Nonce b =? ns_Nonce (o_ns oinfo)) "add order nonce wrong";
  do! check (ns_SeqNum (o_ns oinfo) =? 0) "add order seq wrong";
  do! createOrder_times b oinfo;
  do! modify (upd_order Applied (ob_UserID b, ob_ProID b) (set_o_base (fun _ => Some or)));
  createOrder_save or (o_ns oinfo).

Definition canCreateOrder msg : M StateMgr unit :=
  let! or := createOrder_paras msg in
  do! verify_order Validating or;
  let b := so_OrderBase or in
  let! oinfo := orderOf Validating (ob_UserID b) (ob_ProID b) in
  do! check (ob_Nonce b =? ns_Nonce (o_ns oinfo)) "add order nonce wrong";
  do! createOrder_times b oinfo;
  modify (upd_order Validating (ob_UserID b, ob_ProID b) (fun oi =>
    mkOrderInfo (o_prove oi) (o_income oi)
      (mkNonceSeq (ns_Nonce (o_ns oi)) 0 (ns_SubNonce (o_ns oi)))
      fr_zero (Some or) (o_preStart oi) (o_preEnd oi))).

(** ** AddDataOrder *)

(** The checks on the sequence up to the order entry; the roles and the entry. *)
Definition addSeq_pre w msg : M StateMgr (SignedOrderSeq * (roleInfo * roleInfo)) :=
  let! sos := of_option (decode (m_Params msg)) "deserialize" in
  let so := sos_OrderSeq sos in
  let! _ := of_option (os_Price so) "wrong paras price" in
  do! check (m_From msg =? os_UserID so) "wrong user";
  let sHash := SignedOrderSeq_Hash sos in
  let! uri := roleOf w (os_UserID so) in
  do! verify (r_base uri) sHash (sos_UserDataSig sos);
  let! pri := roleOf w (os_ProID so) in
  do! verify (r_base pri) sHash (sos_ProDataSig sos);
  ret (sos, (uri, pri)).

Definition addSeq_order w (so : OrderSeq) : M StateMgr (orderInfo * SignedOrder) :=
  let! oinfo := orderOf w (os_UserID so) (os_ProID so) in
  let! base := of_option (o_base oinfo) "add order base empty" in
  do! check (ns_Nonce (o_ns oinfo) =? os_Nonce so) "add seq nonce err";
  do! check (ns_SeqNum (o_ns oinfo) =? os_SeqNum so) "add seq seqnum err";
  ret (oinfo, base).

Definition segs_count (segs : list AggSegs) : Z :=
  foldl (fun acc seg => u64 (acc + as_Length seg)) 0 segs.

(** Size and price of the order after the sequence, and both signatures on it. *)
Definition addSeq_amounts (sos : SignedOrderSeq) (uri pri : roleInfo) (base : SignedOrder)
    : M StateMgr unit :=
  let so := sos_OrderSeq sos in
  let sCnt := segs_count (os_Segments so) in
  let size := u64 (sCnt * DefaultSegSize) in
  do! check (u64 (so_Size base + size) =? os_Size so) "add seq size wrong";
  let! segPrice := deref (ob_SegPrice (so_OrderBase base)) in
  let! basePrice := deref (so_Price base) in
  let! soPrice := deref (os_Price so) in
  let price := segPrice * i64 sCnt + basePrice in
  do! check (price =? soPrice) "add seq price wrong";
  let nso := mkSignedOrder (so_OrderBase base) (os_Size so) (Some price)
               (mkSignature 0 []) (mkSignature 0 []) in
  let! h := deref (SignedOrder_Hash nso) in
  do! verify (r_base uri) h (sos_UserSig sos);
  verify (r_base pri) h (sos_ProSig sos).

(** The order once the sequence is part of it. *)
Definition seq_base (sos : SignedOrderSeq) (base : SignedOrder) : SignedOrder :=
  let so := sos_OrderSeq sos in
  mkSignedOrder (so_OrderBase base) (os_Size so) (os_Price so) (sos_UserSig sos) (sos_ProSig sos).

(** Adding one segment to the accumulator; the second component is the
    reused variable HWi. *)
Definition acc_segment (fsID : bytes) (seg : AggSegs) (a : Fr * Fr) (i : Z) : Fr * Fr :=
  let h := blake3_Sum256 (CreateSegmentID fsID (as_BucketID seg) i (as_ChunkID seg)) in
  let HWi := FrFromBytes a.2 h in
  (fr_add a.1 HWi, HWi).

(** The accumulator over all the segments, and the last HWi. *)
Definition acc_segs (fsID : bytes) (segs : list AggSegs) : Fr * Fr :=
  foldl (fun a seg => foldl (acc_segment fsID seg) a (stripe_range (as_Start seg) (as_Length seg)))
    (fr_zero, fr_zero) segs.

Definition add_seqnum (ns : NonceSeq) : NonceSeq :=
  mkNonceSeq (ns_Nonce ns) (u32 (ns_SeqNum ns + 1)) (ns_SubNonce ns).

Definition addSeq_save (so : OrderSeq) (oinfo : orderInfo) (base : SignedOrder) (accFr : Fr)
    : M StateMgr unit :=
  let key := OrderBaseKey (os_UserID so) (os_ProID so) (ob_Nonce (so_OrderBase base)) in
  let! ofl := get_decode (A := OrderFull) key in
  do! put_encode key (mkOrderFull base (ns_SeqNum (o_ns oinfo)) (FrToBytes (o_accFr oinfo)) (of_DelPart ofl));
  do! put_encode (OrderSeqKey (os_UserID so) (os_ProID so) (os_Nonce so) (os_SeqNum so))
        (mkSeqFull so (FrToBytes accFr) (mkOrderDelPart zeroFr 0 (Some 0)) []);
  saveOrderState (os_UserID so) (os_ProID so) (o_ns oinfo).

Definition addSeq msg : M StateMgr unit :=
  let! p := addSeq_pre Applied msg in
  let sos := p.1 in let so := sos_OrderSeq sos in
  let! ob := addSeq_order Applied so in
  let! uinfo := userOf Applied (os_UserID so) in
  do! addSeq_amounts sos p.2.1 p.2.2 ob.2;
  do! for_each (os_Segments so) (fun seg =>
        addChunk (os_UserID so) (as_BucketID seg) (as_Start seg) (as_Length seg)
                 (os_ProID so) (os_Nonce so) (as_ChunkID seg));
  let accFr := (acc_segs (su_fsID uinfo) (os_Segments so)).1 in
  let base := seq_base sos ob.2 in
  let oinfo := mkOrderInfo (o_prove ob.1) (o_income ob.1) (add_seqnum (o_ns ob.1))
                 (fr_add (o_accFr ob.1) accFr) (Some base) (o_preStart ob.1) (o_preEnd ob.1) in
  do! modify (put_order Applied (os_UserID so, os_ProID so) oinfo);
  addSeq_save so oinfo base accFr.

Definition canAddSeq msg : M StateMgr unit :=
  let! p := addSeq_pre Validating msg in
  let sos := p.1 in let so := sos_OrderSeq sos in
  let! ob := addSeq_order Validating so in
  do! addSeq_amounts sos p.2.1 p.2.2 ob.2;
  do! for_each (os_Segments so) (fun seg =>
        canAddChunk (os_UserID so) (as_BucketID seg) (as_Start seg) (as_Length seg)
                    (os_ProID so) (os_Nonce so) (as_ChunkID seg));
  modify (put_order Validating (os_UserID so, os_ProID so)
    (mkOrderInfo (o_prove ob.1) (o_income ob.1) (add_seqnum (o_ns ob.1))
       (o_accFr ob.1) (Some (seq_base sos ob.2)) (o_preStart ob.1) (o_preEnd ob.1))).

(** ** CommitDataOrder *)

(** What both twins do; the base may be nil, and is used without a test. *)
Definition commitOrder_mem w msg : M StateMgr (OrderCommitParas * NonceSeq) :=
  let! ocp := of_option (decode (m_Params msg)) "deserialize" in
  do! check (m_From msg =? ocp_UserID ocp) "wrong user";
  let! oinfo := orderOf w (ocp_UserID ocp) (ocp_ProID ocp) in
  do! check (ocp_Nonce ocp =? ns_Nonce (o_ns oinfo)) "commit order nonce wrong";
  do! check (ocp_SeqNum ocp =? ns_SeqNum (o_ns oinfo)) "commit order seqnum wrong";
  let! base := deref (o_base oinfo) in
  do! check (negb (so_Size base =? 0)) "commit order size is zero";
  let ns := mkNonceSeq (u64 (ns_Nonce (o_ns oinfo) + 1)) 0 (ns_SubNonce (o_ns oinfo)) in
  do! modify (put_order w (ocp_UserID ocp, ocp_ProID ocp)
        (mkOrderInfo (o_prove oinfo) (o_income oinfo) ns fr_zero None
                     (o_preStart oinfo) (o_preEnd oinfo)));
  ret (ocp, ns).

Definition commitOrder msg : M StateMgr unit :=
  let! p := commitOrder_mem Applied msg in
  saveOrderState (ocp_UserID p.1) (ocp_ProID p.1) p.2.

Definition canCommitOrder msg : M StateMgr unit :=
  let! _ := commitOrder_mem Validating msg in ret tt.

(** ** SubDataOrder *)

(** build.BaseTime + int64(slot*build.SlotDuration) *)
Definition slot_time (slot : Z) : Z := i64 (BaseTime + i64 (u64 (slot * SlotDuration))).

(** Both twins compare with the applied chain's previous challenge epoch. *)
Definition subOrder_mem w msg : M StateMgr (OrderSubParas * NonceSeq) :=
  let! osp := of_option (decode (m_Params msg)) "deserialize" in
  do! check (m_From msg =? osp_ProID osp) "wrong provider";
  let! oinfo := orderOf w (osp_UserID osp) (osp_ProID osp) in
  do! check (osp_Nonce osp =? ns_SubNonce (o_ns oinfo)) "sub order nonce wrong";
  do! check (negb (osp_Nonce osp >? ns_Nonce (o_ns oinfo))) "sub order nonce wrong, expected less";
  let! ofl := get_decode (A := OrderFull) (OrderBaseKey (osp_UserID osp) (osp_ProID osp) (osp_Nonce osp)) in
  let! v := gets cur in
  let stime := slot_time (ce_Slot (ci_previous (v_ceInfo v))) in
  do! check (negb (ob_End (so_OrderBase (of_SignedOrder ofl)) >? stime)) "wrong time";
  let ns := mkNonceSeq (ns_Nonce (o_ns oinfo)) (ns_SeqNum (o_ns oinfo))
              (u64 (ns_SubNonce (o_ns oinfo) + 1)) in
  do! modify (upd_order w (osp_UserID osp, osp_ProID osp) (set_o_ns (fun _ => ns)));
  ret (osp, ns).

Definition subOrder msg : M StateMgr unit :=
  let! p := subOrder_mem Applied msg in
  saveOrderState (osp_UserID p.1) (osp_ProID p.1) p.2.

Definition canSubOrder msg : M StateMgr unit :=
  let! _ := subOrder_mem Validating msg in ret tt.
End Orders.
