(* ===== verification/Challenge.v ===== *)
(** * Challenge: proofs of storage, faults and the income they move

    [submodule/state/challenge.go], [removeSeg] of [morder.go], [pay.go] and
    [epoch.go]: once per challenge epoch a provider proves it still stores what
    its orders cover and earns their price for the time they overlap the epoch;
    a lost segment costs a penalty; keepers countersign the accumulated income;
    and an epoch starts when enough slots have passed. *)

From S2P Require Import Prelude GoMonad Codec Keys Segments SegmentID Types Tx Fr StateTypes State Roles Chunks Orders.

Section Challenge.
Context `{!StateEnv}.
Implicit Types (s : StateMgr) (w : side) (msg : Message) (userID proID nonce : Z).

Definition SegPayKey4 userID proID epoch :=
  NewKey [KMetaType pb.MetaType_ST_SegPayKey; KUint64 userID; KUint64 proID; KUint64 epoch].
Definition SegPayKey1 proID := NewKey [KMetaType pb.MetaType_ST_SegPayKey; KUint64 proID].
Definition SegPayKey0 proID epoch :=
  NewKey [KMetaType pb.MetaType_ST_SegPayKey; KInt 0; KUint64 proID; KUint64 epoch].
Definition SegProofKey4 userID proID epoch :=
  NewKey [KMetaType pb.MetaType_ST_SegProofKey; KUint64 userID; KUint64 proID; KUint64 epoch].

(** x.Add(x, y) on a big integer that may be nil *)
Definition big_add (x : option Z) (y : Z) : M StateMgr (option Z) :=
  let! x := deref x in ret (Some (x + y)).

(** x.Cmp(y) == 0: two nil pointers are equal, one is a panic *)
Definition big_cmp_eq (x y : option Z) : M StateMgr bool :=
  match x, y with
  | Some x, Some y => ret (x =? y)
  | None, None => ret true
  | _, _ => panic "nil pointer dereference"
  end.

Definition add_income_value (d : Z) (pi : PostIncome) : M StateMgr PostIncome :=
  let! v := big_add (pi_Value pi) d in
  ret (mkPostIncome (pi_UserID pi) (pi_ProID pi) (pi_TokenIndex pi) v (pi_Penalty pi)).
Definition add_income_penalty (d : Z) (pi : PostIncome) : M StateMgr PostIncome :=
  let! p := big_add (pi_Penalty pi) d in
  ret (mkPostIncome (pi_UserID pi) (pi_ProID pi) (pi_TokenIndex pi) (pi_Value pi) p).
Definition add_acc_value (d : Z) (pi : AccPostIncome) : M StateMgr AccPostIncome :=
  let! v := big_add (api_Value pi) d in
  ret (mkAccPostIncome (api_ProID pi) (api_TokenIndex pi) v (api_Penalty pi)).
Definition add_acc_penalty (d : Z) (pi : AccPostIncome) : M StateMgr AccPostIncome :=
  let! p := big_add (api_Penalty pi) d in
  ret (mkAccPostIncome (api_ProID pi) (api_TokenIndex pi) (api_Value pi) p).

(** The tail shared by addSegProof and removeSeg: the pair's income at the
    epoch and the provider's accumulated income, each read, increased and
    written; the accumulated one also under the epoch. *)
Definition saveIncomeAt userID proID (epoch : Z)
    (f : PostIncome -> M StateMgr PostIncome) (g : AccPostIncome -> M StateMgr AccPostIncome)
    : M StateMgr unit :=
  let! pi := get_into (SegPayKey4 userID proID epoch) (income0 userID proID) in
  let! pi := f pi in
  do! put_encode (SegPayKey4 userID proID epoch) pi;
  let! spi := get_into (SegPayKey1 proID) (mkAccPostIncome proID 0 (Some 0) (Some 0)) in
  let! spi := g spi in
  let! data := of_option (marshal spi) "serialize" in
  do! put (SegPayKey1 proID) data;
  put (SegPayKey0 proID epoch) data.

(** ** SegmentProof *)

(** The local variables of the two loops. *)
Record chalAcc := mkChalAcc {
  ca_orderDur : Z; ca_totalPrice : Z; ca_totalSize : Z; ca_delSize : Z; ca_chal : Challenge }.

(** The time the order is charged for; no branch may apply, and then the
    variable keeps the value it has. *)
Definition order_dur (chalStart chalEnd : Z) (b : OrderBase) (old : Z) : Z :=
  let chalDur := i64 (chalEnd - chalStart) in
  if (ob_Start b <=? chalStart) && (ob_End b >=? chalEnd) then chalDur
  else if (ob_Start b >=? chalStart) && (ob_End b >=? chalEnd) then i64 (chalEnd - ob_Start b)
  else if (ob_Start b <=? chalStart) && (ob_End b <=? chalEnd) then i64 (ob_End b - chalStart)
  else old.

(** One sequence of the latest order: what was deleted from it is taken off;
    the last sequence carries the order's size and price. *)
Definition chal_seq userID proID (ns : NonceSeq) (a : chalAcc) (i : Z) : M StateMgr chalAcc :=
  let! sf := get_decode (A := SeqFull) (OrderSeqKey userID proID (ns_Nonce ns) i) in
  let! dprice := deref (dp_Price (sf_DelPart sf)) in
  let a := mkChalAcc (ca_orderDur a) (ca_totalPrice a - dprice * ca_orderDur a) (ca_totalSize a)
             (u64 (ca_delSize a + dp_Size (sf_DelPart sf)))
             (Challenge_Add (ca_chal a) (SubFr (sf_AccFr sf) (dp_AccFr (sf_DelPart sf)))) in
  if i =? u32 (ns_SeqNum ns - 1) then
    let! p := deref (os_Price (sf_OrderSeq sf)) in
    ret (mkChalAcc (ca_orderDur a) (ca_totalPrice a + p * ca_orderDur a)
           (u64 (ca_totalSize a + os_Size (sf_OrderSeq sf))) (ca_delSize a) (ca_chal a))
  else ret a.

Definition chal_latest userID proID (ns : NonceSeq) (chalStart chalEnd : Z) (a : chalAcc)
    : M StateMgr chalAcc :=
  if 0 <? ns_SeqNum ns then
    let! ofl := get_decode (A := OrderFull) (OrderBaseKey userID proID (ns_Nonce ns)) in
    let b := so_OrderBase (of_SignedOrder ofl) in
    if ob_Start b <? chalEnd then
      do! check (negb (ob_End b <=? chalStart)) "chal order all expired";
      let dur := order_dur chalStart chalEnd b (ca_orderDur a) in
      let a := mkChalAcc dur (ca_totalPrice a) (ca_totalSize a) (ca_delSize a) (ca_chal a) in
      for_fold (u64_range_list 0 (ns_SeqNum ns)) a (chal_seq userID proID ns)
    else ret a
  else ret a.

(** The part of the second loop both twins share, once the order is in time. *)
Definition chal_add_order (chalStart chalEnd : Z) (ofl : OrderFull) (a : chalAcc) : M StateMgr chalAcc :=
  let b := so_OrderBase (of_SignedOrder ofl) in
  let dur := order_dur chalStart chalEnd b (ca_orderDur a) in
  let! p := deref (so_Price (of_SignedOrder ofl)) in
  let! dprice := deref (dp_Price (of_DelPart ofl)) in
  ret (mkChalAcc dur (ca_totalPrice a + (p - dprice) * dur)
         (u64 (ca_totalSize a + so_Size (of_SignedOrder ofl)))
         (u64 (ca_delSize a + dp_Size (of_DelPart ofl)))
         (Challenge_Add (ca_chal a) (SubFr (of_AccFr ofl) (dp_AccFr (of_DelPart ofl))))).

(** An earlier order: [addSegProof] refuses one that has not started,
    [canAddSegProof] passes over it. *)
Definition chal_order w userID proID (chalStart chalEnd : Z) (a : chalAcc) (i : Z) : M StateMgr chalAcc :=
  let! ofl := get_decode (A := OrderFull) (OrderBaseKey userID proID i) in
  let b := so_OrderBase (of_SignedOrder ofl) in
  match w with
  | Applied =>
      do! check (negb ((ob_Start b >=? chalEnd) || (ob_End b <=? chalStart))) "chal order expired";
      chal_add_order chalStart chalEnd ofl a
  | Validating =>
      if ob_Start b >=? chalEnd then ret a
      else
        do! check (negb (ob_End b <=? chalStart)) "chal order expired";
        chal_add_order chalStart chalEnd ofl a
  end.

(** The verify key: [canAddSegProof] looks in the applied cache before loading. *)
Definition chal_user w userID : M StateMgr segPerUser :=
  match w with
  | Applied => userOf Applied userID
  | Validating =>
      let! s := gets (fun s => s) in
      match v_sInfo (vld s) !! userID, v_sInfo (cur s) !! userID with
      | Some u, _ => ret u
      | None, Some u => ret u
      | None, None => userOf Validating userID
      end
  end.

Definition chal_seed userID (seed : MsgID) : bytes := blake3_Sum256 (put_be 8 userID ++ seed).

(** The parameters and the checks that come before the orders are read. *)
Definition chal_paras w msg : M StateMgr (SegChalParams * Proof) :=
  let! scp := of_option (decode (m_Params msg)) "deserialize" in
  let! prf := of_option (pdp_DeserializeProof (scp_Proof scp)) "deserialize proof" in
  let! _ := of_option (scp_Price scp) "wrong paras price" in
  do! check (m_From msg =? scp_ProID scp) "wrong pro";
  let! v := gets (view_of w) in
  do! check (scp_Epoch scp =? ce_Epoch (ci_current (v_ceInfo v))) "wrong challenge epoch";
  ret (scp, prf).

(** The nonces at the challenged epoch: those saved for it, or the current ones. *)
Definition chal_ns (scp : SegChalParams) (oinfo : orderInfo) : M StateMgr NonceSeq :=
  let! ns := get_into (OrderStateKey4 (scp_UserID scp) (scp_ProID scp) (scp_Epoch scp))
               (mkNonceSeq (ns_Nonce (o_ns oinfo)) (ns_SeqNum (o_ns oinfo)) 0) in
  do! check (negb ((ns_Nonce ns =? 0) && (ns_SeqNum ns =? 0))) "challenge on empty data";
  do! check (negb (scp_OrderStart scp >? scp_OrderEnd scp)) "chal has invalid orders";
  do! check (ns_Nonce ns =? scp_OrderEnd scp) "chal has wrong order end";
  ret ns.

(** Size, price and challenge over the orders, checked against the claim. *)
Definition chal_total w (scp : SegChalParams) (ns : NonceSeq) (chal : Challenge) : M StateMgr chalAcc :=
  let! v := gets (view_of w) in
  let chalStart := slot_time (ce_Slot (ci_previous (v_ceInfo v))) in
  let chalEnd := slot_time (ce_Slot (ci_current (v_ceInfo v))) in
  do! check (negb (i64 (chalEnd - chalStart) <=? 0)) "chal at wrong epoch";
  let! a := chal_latest (scp_UserID scp) (scp_ProID scp) ns chalStart chalEnd
              (mkChalAcc 0 0 0 0 chal) in
  let! a := if 0 <? ns_Nonce ns
            then for_fold (u64_range_list (scp_OrderStart scp) (scp_OrderEnd scp)) a
                   (chal_order w (scp_UserID scp) (scp_ProID scp) chalStart chalEnd)
            else ret a in
  let totalSize := u64 (ca_totalSize a - ca_delSize a) in
  do! check (totalSize =? scp_Size scp) "wrong challenge proof size";
  do! check (bool_decide (scp_Price scp = Some (ca_totalPrice a))) "wrong challenge proof price";
  ret a.

(** Everything up to the accepted proof: the parameters and the total price. *)
Definition chal_verify w msg : M StateMgr (SegChalParams * (orderInfo * Z)) :=
  let! p := chal_paras w msg in
  let scp := p.1 in
  let! oinfo := orderOf w (scp_UserID scp) (scp_ProID scp) in
  do! check (negb (o_prove oinfo >? scp_Epoch scp)) "challenge proof submitted or missed";
  let! v := gets (view_of w) in
  let bh := chal_seed (scp_UserID scp) (ce_Seed (ci_current (v_ceInfo v))) in
  let! uinfo := chal_user w (scp_UserID scp) in
  let! chal := of_option (pdp_NewChallenge (su_verifyKey uinfo) bh) "new challenge" in
  let! ns := chal_ns scp oinfo in
  let! a := chal_total w scp ns chal in
  let! ok := of_option (vk_VerifyProof (su_verifyKey uinfo) (ca_chal a) p.2) "verify proof" in
  do! check ok "wrong challenge proof";
  ret (scp, (oinfo, ca_totalPrice a)).

Definition next_prove (scp : SegChalParams) : Z := u64 (scp_Epoch scp + 1).

Definition addSegProof_save msg (scp : SegChalParams) (oinfo : orderInfo) (totalPrice : Z) : M StateMgr unit :=
  let userID := scp_UserID scp in let proID := scp_ProID scp in
  do! put (SegProofKey4 userID proID (scp_Epoch scp)) (m_Params msg);
  do! put (SegProofKey userID proID) (put_be 8 (o_prove oinfo));
  do! put_encode (SegPayKey userID proID) (o_income oinfo);
  do! saveIncomeAt userID proID (scp_Epoch scp) (add_income_value totalPrice) (add_acc_value totalPrice);
  let! v := gets cur in
  put_encode (OrderStateKey4 userID proID (ci_epoch (v_ceInfo v))) (o_ns oinfo).

Definition addSegProof msg : M StateMgr unit :=
  let! r := chal_verify Applied msg in
  let scp := r.1 in let k := (scp_UserID scp, scp_ProID scp) in
  let oinfo := set_o_prove (fun _ => next_prove scp) r.2.1 in
  do! modify (put_order Applied k oinfo);
  let! income := add_income_value r.2.2 (o_income oinfo) in
  let oinfo := set_o_income (fun _ => income) oinfo in
  do! modify (put_order Applied k oinfo);
  addSegProof_save msg scp oinfo r.2.2.

Definition canAddSegProof msg : M StateMgr unit :=
  let! r := chal_verify Validating msg in
  let scp := r.1 in
  modify (put_order Validating (scp_UserID scp, scp_ProID scp)
            (set_o_prove (fun _ => next_prove scp) r.2.1)).

(** ** SegmentFault *)

(** The time checks both twins make, with the side's challenge epochs; the
    start of the penalty. *)
Definition removeSeg_time w (b : OrderBase) : M StateMgr Z :=
  let! v := gets (view_of w) in
  let stime := slot_time (ce_Slot (ci_previous (v_ceInfo v))) in
  do! check (negb (stime >? ob_End b)) "wrong time expected before";
  let etime := slot_time (ce_Slot (ci_current (v_ceInfo v))) in
  do! check (negb (etime <? ob_Start b)) "wrong time expected after";
  ret stime.

(** The run of stripes of [lseg] is in the sequence. *)
Definition seg_found (sf : SeqFull) (lseg : AggSegs) : bool :=
  forallb (fun i => AggSegsQueue_Has (os_Segments (sf_OrderSeq sf)) (as_BucketID lseg) i (as_ChunkID lseg))
          (stripe_range (as_Start lseg) (as_Length lseg)).

Definition removeSeg_load w (so : SegRemoveParas) : M StateMgr ((OrderFull * SeqFull) * Z) :=
  let! ofl := get_decode (A := OrderFull) (OrderBaseKey (srp_UserID so) (srp_ProID so) (srp_Nonce so)) in
  let! stime := removeSeg_time w (so_OrderBase (of_SignedOrder ofl)) in
  let! sf := get_decode (A := SeqFull)
               (OrderSeqKey (srp_UserID so) (srp_ProID so) (srp_Nonce so) (srp_SeqNum so)) in
  do! for_each (srp_Segments so) (fun lseg => check (seg_found sf lseg) "seg is not found");
  ret ((ofl, sf), stime).

(** bls.FrFromBytes(&HWi, d.AccFr) and the addition of [accFr] to it *)
Definition del_fr (HWi : Fr) (d : OrderDelPart) (accFr : Fr) : Fr :=
  fr_add (FrFromBytes HWi (dp_AccFr d)) accFr.

(** The deleted part, increased; [HWi] is its new accumulator. *)
Definition add_del (d : OrderDelPart) (HWi : Fr) (size price : Z) : M StateMgr OrderDelPart :=
  let! p := big_add (dp_Price d) price in
  ret (mkOrderDelPart (FrToBytes HWi) (u64 (dp_Size d + size)) p).

Definition removeSeg_save (so : SegRemoveParas) (income : PostIncome) (penalty : Z) : M StateMgr unit :=
  let userID := srp_UserID so in let proID := srp_ProID so in
  do! put_encode (SegPayKey userID proID) income;
  let! v := gets cur in
  saveIncomeAt userID proID (ce_Epoch (ci_current (v_ceInfo v)))
    (add_income_penalty penalty) (add_acc_penalty penalty).

Definition removeSeg msg : M StateMgr unit :=
  let! so := of_option (decode (m_Params msg)) "deserialize" in
  do! check (m_From msg =? srp_ProID so) "wrong pro";
  let! oinfo := orderOf Applied (srp_UserID so) (srp_ProID so) in
  let! uinfo := userOf Applied (srp_UserID so) in
  let! l := removeSeg_load Applied so in
  let ofl := l.1.1 in let sf := l.1.2 in let stime := l.2 in
  let b := so_OrderBase (of_SignedOrder ofl) in
  let acc := acc_segs (su_fsID uinfo) (srp_Segments so) in
  let sCnt := segs_count (srp_Segments so) in
  let delsegs := foldl Push (sf_DelSegs sf) (srp_Segments so) in
  let size := u64 (sCnt * DefaultSegSize) in
  let! segPrice := deref (ob_SegPrice b) in
  let price := i64 sCnt * segPrice in
  let penalty := price * i64 (ob_End b - stime) in
  let! income := add_income_penalty penalty (o_income oinfo) in
  do! modify (upd_order Applied (srp_UserID so, srp_ProID so) (set_o_income (fun _ => income)));
  let HWi := del_fr acc.2 (of_DelPart ofl) acc.1 in
  let! odel := add_del (of_DelPart ofl) HWi size price in
  do! put_encode (OrderBaseKey (srp_UserID so) (srp_ProID so) (srp_Nonce so))
        (mkOrderFull (of_SignedOrder ofl) (of_SeqNum ofl) (of_AccFr ofl) odel);
  let HWi := del_fr HWi (sf_DelPart sf) acc.1 in
  let! sdel := add_del (sf_DelPart sf) HWi size price in
  do! put_encode (OrderSeqKey (srp_UserID so) (srp_ProID so) (srp_Nonce so) (srp_SeqNum so))
        (mkSeqFull (sf_OrderSeq sf) (sf_AccFr sf) sdel (Merge delsegs));
  removeSeg_save so income penalty.

Definition canRemoveSeg msg : M StateMgr unit :=
  let! so := of_option (decode (m_Params msg)) "deserialize" in
  do! check (m_From msg =? srp_ProID so) "wrong pro";
  let! _ := removeSeg_load Validating so in
  ret tt.
End Challenge.
