(* ===== verification/Pay.v ===== *)
(** * Pay: countersigned income, challenge epochs and file metadata

    [submodule/state/pay.go], [epoch.go] and [fsmeta.go]: keepers countersign a
    provider's income of the previous epoch, an epoch starts once enough slots
    have passed, and users record names of buckets and objects. *)

From S2P Require Import Prelude GoMonad Codec Keys Segments SegmentID Types Tx Fr StateTypes State Roles Chunks Orders Challenge.

Section Pay.
Context `{!StateEnv}.
Implicit Types (s : StateMgr) (w : side) (msg : Message).

(** ** ConfirmPostIncome *)

Definition SegPayComfirmKey proID epoch :=
  NewKey [KMetaType pb.MetaType_ST_SegPayComfirmKey; KUint64 proID; KUint64 epoch].
Definition SegPayComfirmKey1 proID :=
  NewKey [KMetaType pb.MetaType_ST_SegPayComfirmKey; KUint64 proID].

(** The checks before the stored confirmation is read: the parameters and the
    accumulated income stored for the epoch. *)
Definition addPay_pre w msg : M StateMgr (PostIncomeParams * AccPostIncome) :=
  let! pip := of_option (decode (m_Params msg)) "deserialize" in
  let! v := gets (view_of w) in
  do! check (pip_Epoch pip =? ce_Epoch (ci_previous (v_ceInfo v))) "add post income epoch";
  let! kri := roleOf w (m_From msg) in
  let! base := deref (r_base kri) in
  do! check (ri_Type base =? RoleInfo_Keeper) "add post income role type wrong";
  let inc := pip_Income pip in
  let! spi := get_decode (A := AccPostIncome) (SegPayKey0 (api_ProID inc) (pip_Epoch pip)) in
  let! eqv := big_cmp_eq (api_Value spi) (api_Value inc) in
  do! check eqv "income value not equal";
  let! eqp := big_cmp_eq (api_Penalty spi) (api_Penalty inc) in
  do! check eqp "income penalty not equal";
  let! h := deref (AccPostIncome_Hash inc) in
  do! verify (Some base) h (pip_Sig pip);
  ret (pip, spi).

(** The comparison of the confirmation with the income. *)
Definition addPay_same (sapi : SignedAccPostIncome) (spi : AccPostIncome) : M StateMgr unit :=
  let a := sapi_AccPostIncome sapi in
  do! check (api_ProID a =? api_ProID spi) "proID is not right";
  let! eqv := big_cmp_eq (api_Value a) (api_Value spi) in
  do! check eqv "income value is not right";
  let! eqp := big_cmp_eq (api_Penalty a) (api_Penalty spi) in
  check eqp "income Penalty is not right".

Definition new_sapi (pip : PostIncomeParams) : SignedAccPostIncome :=
  mkSignedAccPostIncome (pip_Income pip) (NewMultiSignature SigSecp256k1).

Definition addPay msg : M StateMgr unit :=
  let! p := addPay_pre Applied msg in
  let pip := p.1 in
  let key := SegPayComfirmKey (api_ProID (pip_Income pip)) (pip_Epoch pip) in
  let! sapi := get_into key (new_sapi pip) in
  do! addPay_same sapi p.2;
  let! sig := of_outcome (MultiSignature_Add (sapi_Sig sapi) (m_From msg) (pip_Sig pip)) in
  let! data := of_option (marshal (mkSignedAccPostIncome (sapi_AccPostIncome sapi) sig)) "serialize" in
  do! put key data;
  put (SegPayComfirmKey1 (api_ProID (pip_Income pip))) data.

(** The stored confirmation is decoded into the income here, not into the
    confirmation. *)
Definition canAddPay msg : M StateMgr unit :=
  let! p := addPay_pre Validating msg in
  let pip := p.1 in
  let sapi := new_sapi pip in
  let key := SegPayComfirmKey (api_ProID (pip_Income pip)) (pip_Epoch pip) in
  let! spi := get_into key p.2 in
  do! addPay_same sapi spi;
  let! _ := of_outcome (MultiSignature_Add (sapi_Sig sapi) (m_From msg) (pip_Sig pip)) in
  ret tt.

(** ** UpdateChalEpoch *)

Definition ChalEpochKey := NewKey [KMetaType pb.MetaType_ST_ChalEpochKey].
Definition ChalEpochKey2 epoch := NewKey [KMetaType pb.MetaType_ST_ChalEpochKey; KUint64 epoch].

(** Both twins: the checks against the side's epochs, then the shift of the
    current epoch to the previous one.  The slot that dates the new epoch is
    the applied chain's in both. *)
Definition updateChalEpoch_mem w msg : M StateMgr unit :=
  let! sep := of_option (decode (m_Params msg)) "deserialize" in
  let! v := gets (view_of w) in
  let ce := v_ceInfo v in
  do! check (sep_Epoch sep =? ci_epoch ce) "add chal epoch err";
  do! check (MsgID_Equal (sep_Prev sep) (ce_Seed (ci_current ce))) "add chal epoch seed err";
  let! dur := of_option (ChalDurMap !! v_version v) "duration is wrong" in
  do! check (negb (u64 (v_slot v - ce_Slot (ci_current ce)) <? dur)) "duration is wrong, expect at least";
  let! c := gets cur in
  modify (set_view w (set_v_ceInfo (fun ce =>
    mkChalEpochInfo (u64 (ci_epoch ce + 1))
      (mkChalEpoch (sep_Epoch sep) (v_slot c) (NewMsgID (m_Params msg)))
      (ci_current ce)))).

Definition updateChalEpoch msg : M StateMgr unit :=
  do! updateChalEpoch_mem Applied msg;
  let! v := gets cur in
  let ce := v_ceInfo v in
  do! put_encode (ChalEpochKey2 (ce_Epoch (ci_current ce))) (ci_current ce);
  put ChalEpochKey (put_be 8 (ci_epoch ce)).

Definition canUpdateChalEpoch msg : M StateMgr unit := updateChalEpoch_mem Validating msg.

(** ** AddBucMeta and AddObjMeta *)

Definition BucMetaKey userID bucketID :=
  NewKey [KMetaType pb.MetaType_ST_BucMetaKey; KUint64 userID; KUint64 bucketID].
Definition ObjMetaKey_obj userID bucketID objectID :=
  NewKey [KMetaType pb.MetaType_ST_ObjMetaKey; KUint64 userID; KUint64 bucketID; KUint64 objectID].
(** The index by content: the entity tag is raw bytes. *)
Definition ObjMetaKey_count etag := NewKey [KMetaType pb.MetaType_ST_ObjMetaKey; KSlice etag; KInt 0].
Definition ObjMetaKey_etag etag cnt :=
  if 0 <? cnt then NewKey [KMetaType pb.MetaType_ST_ObjMetaKey; KSlice etag; KUint64 cnt]
  else NewKey [KMetaType pb.MetaType_ST_ObjMetaKey; KSlice etag].

Definition addBucMeta_check w msg : M StateMgr BucMetaParas :=
  let! bmp := of_option (decode (m_Params msg)) "deserialize" in
  let! uinfo := userOf w (m_From msg) in
  do! check (negb (su_nextBucket uinfo <=? bmp_BucketID bmp)) "add bucket meta err";
  ret bmp.

Definition addBucMeta msg : M StateMgr unit :=
  let! bmp := addBucMeta_check Applied msg in
  put (BucMetaKey (m_From msg) (bmp_BucketID bmp)) (m_Params msg).

Definition canAddBucMeta msg : M StateMgr unit :=
  let! _ := addBucMeta_check Validating msg in ret tt.

Definition addObjMeta_check w msg : M StateMgr (ObjMetaParas * bytes) :=
  let! omp := of_option (decode (m_Params msg)) "deserialize" in
  let! da := of_option (marshal (omp_ObjMetaValue omp)) "serialize" in
  let! uinfo := userOf w (m_From msg) in
  do! check (negb (su_nextBucket uinfo <=? omp_BucketID omp)) "add object meta err";
  ret (omp, da).

Definition addObjMeta msg : M StateMgr unit :=
  let! p := addObjMeta_check Applied msg in
  let omp := p.1 in
  let etag := omv_ETag (omp_ObjMetaValue omp) in
  let! val := get (ObjMetaKey_count etag) in
  let cnt := match val with
             | Some val => if (8 <=? length val)%nat then get_be (take 8 val) else 0
             | None => 0
             end in
  do! put (ObjMetaKey_count etag) (put_be 8 (u64 (cnt + 1)));
  do! put_encode (ObjMetaKey_etag etag cnt)
        (mkObjMetaKey (m_From msg) (omp_BucketID omp) (omp_ObjectID omp));
  put (ObjMetaKey_obj (m_From msg) (omp_BucketID omp) (omp_ObjectID omp)) p.2.

Definition canAddObjMeta msg : M StateMgr unit :=
  let! _ := addObjMeta_check Validating msg in ret tt.
End Pay.
