(* ===== verification/Validate.v ===== *)
(** * Validate: checking a block before it is applied

    [submodule/state/validate.go].  [ValidateBlock] copies the applied side's
    scalars to the validating side and empties its caches; [ValidateMsg] then
    runs, message by message, the [can...] twins against that copy.  Both return
    [s.validateRoot], whatever the error: the root is read off the state. *)

From S2P Require Import Prelude GoMonad Codec Keys Segments SegmentID Types Tx Fr StateTypes State Roles Chunks Orders Challenge Pay.

Section Validate.
Context `{!StateEnv}.
Implicit Types (s : StateMgr) (msg : Message) (b : bytes).

Definition reset : M StateMgr unit := modify (fun s =>
  let c := cur s in
  set_vld (fun _ => mkView (v_version c) (v_height c) (v_slot c)
    (mkChalEpochInfo (ci_epoch (v_ceInfo c)) (ci_current (v_ceInfo c)) (ci_previous (v_ceInfo c)))
    (v_root c) ∅ ∅ ∅) s).

Definition newValidateRoot b : M StateMgr unit :=
  let! v := gets vld in
  let b := if v_version v >=? SMTVersion then blake3_Sum256 b else b in
  modify (set_vld (set_v_root (fun root => next_root root b))).

Definition ValidateBlock (blk : option SignedBlock) : M StateMgr unit :=
  do! reset;
  match blk with
  | None => ret tt
  | Some blk =>
      let h := sb_header blk in
      let! id := gets blkID in
      do! check (MsgID_Equal (rh_PrevID h) id) "validate block prvID is wrong";
      let! v := gets vld in
      do! check (rh_Height h =? v_height v) "validate block height is wrong";
      do! check (negb (rh_Slot h <=? v_slot v)) "validate block epoch is wrong";
      let! b := of_option (marshal h) "serialize" in
      do! modify (set_vld (fun v => set_v_slot (fun _ => rh_Slot h)
                                     (set_v_height (fun x => u64 (x + 1)) v)));
      newValidateRoot b
  end.

(** The entry of the sender: the validating cache, or a copy of the applied
    one (the balance is not copied), or loaded. *)
Definition validate_role (id : Z) : M StateMgr roleInfo :=
  let! s := gets (fun s => s) in
  match v_rInfo (vld s) !! id with
  | Some ri => ret ri
  | None =>
      match v_rInfo (cur s) !! id with
      | Some nri =>
          let ri := mkRoleEntry (r_base nri) (mkRoleValue (rv_Nonce (r_val nri)) None) in
          do! modify (put_role Validating id ri); ret ri
      | None => roleOf Validating id
      end
  end.

Definition inc_nonce (ri : roleInfo) : roleInfo :=
  mkRoleEntry (r_base ri) (mkRoleValue (u64 (rv_Nonce (r_val ri) + 1)) (rv_Value (r_val ri))).

(** The switch over the methods. *)
Definition validate_method msg : M StateMgr unit :=
  let m := m_Method msg in
  if m =? AddRole then canAddRole msg
  else if m =? CreateFs then canAddUser msg
  else if m =? CreateBucket then canAddBucket msg
  else if m =? PreDataOrder then canCreateOrder msg
  else if m =? AddDataOrder then canAddSeq msg
  else if m =? CommitDataOrder then canCommitOrder msg
  else if m =? SubDataOrder then canSubOrder msg
  else if m =? SegmentFault then canRemoveSeg msg
  else if m =? UpdateChalEpoch then canUpdateChalEpoch msg
  else if m =? SegmentProof then canAddSegProof msg
  else if m =? ConfirmPostIncome then canAddPay msg
  else if m =? UpdateNet then canUpdateNetAddr msg
  else if m =? AddBucMeta then canAddBucMeta msg
  else if m =? AddObjMeta then canAddObjMeta msg
  else throw "unsupported method".

Definition ValidateMsg (msg : option Message) : M StateMgr unit :=
  match msg with
  | None => ret tt
  | Some msg =>
      let! ri := validate_role (m_From msg) in
      do! check (m_Nonce msg =? rv_Nonce (r_val ri)) "validate nonce is wrong";
      do! modify (put_role Validating (m_From msg) (inc_nonce ri));
      do! newValidateRoot (m_Params msg);
      validate_method msg
  end.
End Validate.
