(* ===== verification/Block.v ===== *)
(** * Block: applying a block and starting up

    [NewStateMgr], [load], [ApplyBlock] and [applyMsg] of
    [submodule/state/state.go].  [ApplyBlock] opens a transaction, checks the
    signers (or, at height zero, that every message registers a keeper), moves
    the root over the header and every message, runs the handlers, compares the
    root with the block's, and commits.  [ApplyBlock] and [applyMsg] return
    [s.root] next to their error: the root is read off the state. *)

From S2P Require Import Prelude GoMonad Codec Keys Segments SegmentID Types Tx Fr StateTypes State Roles Chunks Orders Challenge Pay Validate.

Section Block.
Context `{!StateEnv}.
Implicit Types (s : StateMgr) (msg : Message) (b : bytes) (blk : SignedBlock).

(** ** applyMsg *)

Definition apply_method msg : M StateMgr unit :=
  let m := m_Method msg in
  if m =? AddRole then addRole msg
  else if m =? CreateFs then addUser msg
  else if m =? CreateBucket then addBucket msg
  else if m =? PreDataOrder then createOrder msg
  else if m =? AddDataOrder then addSeq msg
  else if m =? CommitDataOrder then commitOrder msg
  else if m =? SubDataOrder then subOrder msg
  else if m =? SegmentFault then removeSeg msg
  else if m =? UpdateChalEpoch then updateChalEpoch msg
  else if m =? SegmentProof then addSegProof msg
  else if m =? ConfirmPostIncome then addPay msg
  else if m =? UpdateNet then updateNetAddr msg
  else if m =? AddBucMeta then addBucMeta msg
  else if m =? AddObjMeta then addObjMeta msg
  else throw "unsupported method".

(** The part every message goes through, a failed one included: its nonce is
    consumed and the root absorbs its parameters. *)
Definition applyMsg_nonce msg : M StateMgr unit :=
  let! ri := roleOf Applied (m_From msg) in
  do! check (m_Nonce msg =? rv_Nonce (r_val ri)) "wrong nonce";
  do! modify (put_role Applied (m_From msg) (inc_nonce ri));
  do! saveVal (m_From msg) (r_val (inc_nonce ri));
  let! v := gets cur in
  if v_version v <? SMTVersion then newRoot (m_Params msg) else ret tt.

Definition applyMsg (msg : option Message) (tr : Receipt) : M StateMgr unit :=
  match msg with
  | None => ret tt
  | Some msg =>
      do! applyMsg_nonce msg;
      if negb (r_Err tr =? 0) then ret tt else apply_method msg
  end.

(** ** ApplyBlock *)

(** The database's height is set back for a tree that has to be recovered,
    outside the transaction. *)
Definition height_back (height : Z) : Z :=
  if 1 <? height then u64 (height - 2) else u64 (height - 1).
Definition BlockHeightKey := NewKey [KMetaType pb.MetaType_ST_BlockHeightKey].
Definition BlockHeightKey2 height := NewKey [KMetaType pb.MetaType_ST_BlockHeightKey; KUint64 height].
Definition set_height_back (height : Z) : M StateMgr unit :=
  let! v := gets cur in
  if (0 <? height) && (v_version v >=? SMTVersion)
  then modify (set_ds <[BlockHeightKey := put_be 8 (height_back height)]>)
  else ret tt.

Definition applyBlock_checks blk : M StateMgr unit :=
  let h := sb_header blk in
  let! v := gets cur in
  do! check (rh_Height h =? v_height v) "apply block height is wrong";
  do! check (negb (rh_Slot h <=? v_slot v)) "apply block epoch is wrong";
  let! id := gets blkID in
  do! (if MsgID_Equal (rh_PrevID h) id then ret tt
       else do! set_height_back (rh_Height h); throw "apply wrong block");
  if MsgID_Equal (v_root v) (mset_ParentRoot (sb_set blk)) then ret tt
  else do! set_height_back (rh_Height h); throw "apply wrong block root".

(** The set of signers that are keepers. *)
Definition keeper_signers (signers kps : list Z) : gset Z :=
  foldl (fun sset signer => if existsb (fun kid => signer =? kid) kps then {[ signer ]} ∪ sset else sset)
    ∅ signers.

Definition applyBlock_signers blk : M StateMgr unit :=
  let! s := gets (fun s => s) in
  let thr := getThreshold s in
  do! check (negb (MultiSignature_Len (sb_MultiSignature blk) <? thr)) "apply block not have enough signer";
  let sset := keeper_signers (ms_Signer (sb_MultiSignature blk)) (keepers s) in
  check (negb (Z.of_nat (size sset) <? thr)) "apply block not have enough valid signer".

Definition genesis_msg_ok msg : M StateMgr unit :=
  do! check (m_Method msg =? AddRole) "apply block have invalid message at block zero";
  let! pri := of_option (decode (A := RoleInfo) (m_Params msg)) "unmarshal" in
  check (ri_Type pri =? RoleInfo_Keeper) "apply block have invalid message at block zero".

Definition applyBlock_admission blk : M StateMgr unit :=
  if 0 <? rh_Height (sb_header blk) then applyBlock_signers blk
  else for_each (mset_Msgs (sb_set blk)) (fun m => genesis_msg_ok (sm_Message m)).

(** The loop over the messages; the receipt is found by index. *)
Fixpoint apply_msgs (msgs : list SignedMessage) (rs : list Receipt) : M StateMgr unit :=
  match msgs with
  | [] => ret tt
  | m :: msgs =>
      match rs with
      | [] => panic "index out of range"
      | r :: rs => do! applyMsg (Some (sm_Message m)) r; apply_msgs msgs rs
      end
  end.

(** The new header of the database and of the root, and the messages. *)
Definition applyBlock_body blk (id : MsgID) (b : bytes) : M StateMgr unit :=
  let h := sb_header blk in
  do! tds_Put BlockHeightKey (put_be 8 (rh_Height h));
  do! tds_Put (BlockHeightKey2 (rh_Height h)) (copy_into MsgLen id ++ put_be 8 (rh_Slot h));
  do! newRoot b;
  do! apply_msgs (mset_Msgs (sb_set blk)) (mset_Receipts (sb_set blk));
  let! v := gets cur in
  check (negb ((v_version v <? SMTVersion) && negb (MsgID_Equal (v_root v) (mset_Root (sb_set blk)))))
        "apply has wrong state end".

Definition NewTxn : M StateMgr unit := modify (fun s => set_tds (fun _ => Some (ds s)) s).
(** The deferred Discard and reset, on every way out of the function. *)
Definition with_txn (m : M StateMgr unit) : M StateMgr unit := fun s =>
  let r := m (NewTxn s).2 in (r.1, set_tds (fun _ => None) r.2).
Definition commit : M StateMgr unit :=
  let! t := gets tds in
  let! t := deref t in
  modify (set_ds (fun _ => t)).

(** s.height++, s.slot, s.blkID and then the version *)
Definition next_version (version height : Z) : Z :=
  let nextVer := u32 (version + 1) in
  match UpdateMap !! nextVer with
  | Some ue => if height >=? ue then nextVer else version
  | None => version
  end.
Definition advance blk (id : MsgID) : M StateMgr unit :=
  do! modify (set_cur (set_v_height (fun h => u64 (h + 1))));
  do! modify (set_cur (set_v_slot (fun _ => rh_Slot (sb_header blk))));
  do! modify (set_blkID (fun _ => id));
  modify (set_cur (fun v => set_v_version (fun ver => next_version ver (v_height v)) v)).

Definition ApplyBlock (blk : option SignedBlock) : M StateMgr unit :=
  match blk with
  | None => ret tt
  | Some blk =>
      do! applyBlock_checks blk;
      with_txn (
        do! applyBlock_admission blk;
        let! b := of_option (marshal (sb_header blk)) "serialize" in
        let id := RawBlock_Hash (sb_RawBlock blk) in
        do! applyBlock_body blk id b;
        do! modify (set_smt (fun t => smt_set_root (smt_root t) t));
        do! saveRoot;
        do! commit;
        advance blk id)
  end.

(** ** NewStateMgr and load *)

(** len(val) >= 8 {... val[:8]} and val[8:16], at the lengths the source tests *)
Definition be_at (lo : nat) (val : bytes) : option Z :=
  if (lo + 8 <=? length val)%nat then Some (get_be (slice lo (lo + 8) val)) else None.

Definition load_height : M StateMgr unit := modify (fun s =>
  match ds s !! BlockHeightKey with
  | None => s
  | Some val =>
      let s := match be_at 0 val with
               | Some h => set_cur (set_v_height (fun _ => u64 (h + 1))) s
               | None => s end in
      match be_at 8 val with
      | Some x => set_cur (set_v_slot (fun _ => x)) s
      | None => s end
  end).

(** The loop over the map keeps the largest version whose height is reached. *)
Definition version_at (version height : Z) : Z :=
  map_fold (fun i ue v => if (height >=? ue) && (v <? i) then i else v) version UpdateMap.
Definition load_version : M StateMgr unit := modify (fun s =>
  let v := version_at (v_version (cur s)) (v_height (cur s)) in
  set_vld (set_v_version (fun _ => v)) (set_cur (set_v_version (fun _ => v)) s)).

Definition load_block : M StateMgr unit := modify (fun s =>
  let h := v_height (cur s) in
  if 0 <? h then
    match ds s !! BlockHeightKey2 (u64 (h - 1)) with
    | None => s
    | Some val =>
        let s := if (MsgLen <=? length val)%nat
                 then match MsgID_FromBytes (take MsgLen val) with
                      | Some rt => set_blkID (fun _ => rt) s
                      | None => s end
                 else s in
        match be_at MsgLen val with
        | Some x => set_cur (set_v_slot (fun _ => x)) s
        | None => s end
    end
  else s).

(** A stored root: 32 bytes are a root of the tree. *)
Definition load_root_at (key : bytes) (s : StateMgr) : StateMgr :=
  match ds s !! key with
  | None => s
  | Some val =>
      if (length val =? 32)%nat
      then set_smt (smt_set_root val) (set_cur (set_v_root (fun _ => NewMsgID val)) s)
      else match MsgID_FromBytes val with
           | Some rt => set_cur (set_v_root (fun _ => rt)) s
           | None => s end
  end.
Definition load_root : M StateMgr unit := modify (fun s =>
  let s := load_root_at RootKey s in
  let h := v_height (cur s) in
  let s := if 0 <? h
           then load_root_at (NewKey [KMetaType pb.MetaType_ST_RootKey; KUint64 (u64 (h - 1))]) s
           else s in
  set_vld (set_v_root (fun _ => v_root (cur s))) s).

(** The ids of a list, eight bytes each; what is left over is ignored. *)
Definition ids_of (val : bytes) : list Z :=
  (fun i => get_be (slice (8 * i) (8 * (i + 1)) val)) <$> seq 0 (length val / 8).

Definition load_ids (key : bytes) (add : Z -> StateMgr -> StateMgr) : M StateMgr unit :=
  let! db := gets ds in
  match db !! key with
  | None => ret tt
  | Some val =>
      for_each (ids_of val) (fun kid =>
        let! ok := has_ok (RoleBaseKey kid) in
        if ok then modify (add kid) else ret tt)
  end.

Definition load_chal (f : (ChalEpoch -> ChalEpoch) -> chalEpochInfo -> chalEpochInfo) (epoch : Z)
    : M StateMgr unit :=
  let! val := get (ChalEpochKey2 epoch) in
  match val with
  | Some val => modify (set_cur (set_v_ceInfo (f (fun ce => (unmarshal ce val).1))))
  | None => ret tt
  end.

Definition load_epoch : M StateMgr unit :=
  let! val := get ChalEpochKey in
  do! match val with
      | Some val =>
          if (8 <=? length val)%nat
          then modify (set_cur (set_v_ceInfo (set_ci_epoch (fun _ => get_be (take 8 val)))))
          else ret tt
      | None => ret tt
      end;
  let! v := gets cur in
  let epoch := ci_epoch (v_ceInfo v) in
  if epoch =? 0 then ret tt
  else
    do! (if 0 <? epoch then load_chal set_ci_current (u64 (epoch - 1)) else ret tt);
    if 1 <? epoch then load_chal set_ci_previous (u64 (epoch - 2)) else ret tt.

Definition load : M StateMgr unit :=
  do! load_height;
  do! load_version;
  do! load_block;
  do! load_root;
  do! load_ids KeepersKey (fun kid => set_keepers (fun l => l ++ [kid]));
  do! load_ids ProsKey (fun kid => set_pros (fun l => l ++ [kid]));
  do! load_ids UsersKey (fun kid => set_users (fun l => l ++ [kid]));
  load_epoch.

(** The state before [load]; [t] is the tree over the database. *)
Definition initStateMgr (base : bytes) (groupID thre : Z) (db : gmap bytes bytes) (t : smt_t) : StateMgr :=
  let id := NewMsgID (base ++ put_be 8 groupID) in
  let ce := mkChalEpochInfo 0 (newChalEpoch id) (newChalEpoch id) in
  let v := mkView 0 0 0 ce id ∅ ∅ ∅ in
  mkStateMgr db None t id [] [] [] thre id v v.

Definition NewStateMgr (base : bytes) (groupID thre : Z) (db : gmap bytes bytes) (t : smt_t) : StateMgr :=
  (load (initStateMgr base groupID thre db t)).2.
End Block.
