(* ===== verification/Scenario.v ===== *)
(** * Scenario: a small chain on the concrete libraries

    Accounts 5 and 6 are keepers, 7 is a user and 9 a provider.  The states of
    this file are reached by running the program's own definitions from the
    start-up state, and are kept evaluated; the witnesses of the theorems run
    on them. *)

From S2P Require Import Prelude GoMonad Codec Keys Segments SegmentID Types Tx Fr StateTypes Concrete State Roles Chunks Orders Challenge Pay Validate Block.

(** A run that ends well, named by its final state. *)
Definition final {A} (m : M StateMgr A) (s : StateMgr) : StateMgr := (m s).2.
Lemma run_ok (m : M StateMgr unit) s : is_Ok (m s).1 = true -> m s = (Ok tt, final m s).
Proof. unfold final. by destruct (m s) as [[[]|?|?] ?]. Qed.

Definition role_of (typ id : Z) (extra : bytes) : RoleInfo :=
  mkRoleInfo typ id 1 (put_be 8 id) (put_be 8 id) extra [] "".
Definition msg_of (from nonce method : Z) (params : bytes) : Message :=
  mkMessage 0 from 0 nonce None 0 None method params.
Definition sign (m : Message) : SignedMessage := mkSignedMessage m (mkSignature 0 []).
(** The signature of account [id] on [b], for the toy scheme. *)
Definition sig_of (id : Z) (b : bytes) : Signature := mkSignature SigSecp256k1 (put_be 8 id ++ b).

(** The block an honest leader proposes at [slot] on [s]. *)
Definition block_at (s : StateMgr) (slot : Z) (signers : list Z) (msgs : list Message) (errs : list Z) : SignedBlock :=
  let h := mkRawHeader 0 1 (v_height (cur s)) slot 5 (blkID s) in
  let root := foldl (fun r m => next_root r (m_Params m)) (next_root (v_root (cur s)) (enc h)) msgs in
  mkSignedBlock
    (mkRawBlock h (mkMsgSet (sign <$> msgs) ((fun e => mkReceipt e []) <$> errs) (v_root (cur s)) root))
    (mkMultiSignature SigBLS signers []).
Definition apply_at (s : StateMgr) (slot : Z) (signers : list Z) (msgs : list Message) : StateMgr :=
  final (ApplyBlock (Some (block_at s slot signers msgs ((fun _ => 0) <$> msgs)))) s.

Definition addRole_msg (typ id nonce : Z) (extra : bytes) : Message :=
  msg_of id nonce AddRole (enc (role_of typ id extra)).

Definition user_key : bytes := bytes_of_string "user-public-key".

(** Start-up, the genesis block with two keepers, then a user and a provider,
    and the user's file system with one bucket of two chunks. *)
Definition st0 : StateMgr := Eval vm_compute in NewStateMgr [] 1 1 ∅ ∅.
Definition blk0 : SignedBlock := Eval vm_compute in   block_at st0 1 [] [addRole_msg RoleInfo_Keeper 5 0 []; addRole_msg RoleInfo_Keeper 6 0 []] [0; 0].
Definition st1 : StateMgr := Eval vm_compute in final (ApplyBlock (Some blk0)) st0.
Definition blk1 : SignedBlock := Eval vm_compute in   block_at st1 2 [5; 6]
    [addRole_msg RoleInfo_User 7 0 user_key; addRole_msg RoleInfo_Provider 9 0 [];
     msg_of 7 1 CreateFs user_key;
     msg_of 7 2 CreateBucket (enc (mkBucketParams (mkBucketOption 1 1 1 1 0 1024) 0))]
    [0; 0; 0; 0].
Definition st2 : StateMgr := Eval vm_compute in final (ApplyBlock (Some blk1)) st1.

Lemma st0_run : NewStateMgr [] 1 1 ∅ ∅ = st0.
Proof. vm_cast_no_check (eq_refl st0). Qed.
Lemma st1_run : ApplyBlock (Some blk0) st0 = (Ok tt, st1).
Proof. vm_cast_no_check (eq_refl (Ok (A := unit) tt, st1)). Qed.
Lemma st2_run : ApplyBlock (Some blk1) st1 = (Ok tt, st2).
Proof. vm_cast_no_check (eq_refl (Ok (A := unit) tt, st2)). Qed.
