(* ===== verification/Handlers.v ===== *)
(** * Handlers: what every message handler may do to the state

    The handlers change the state through a few primitive writes: [put] under
    the tables of [store_tables] and [order_tables], the caches of users, orders and roles, and
    the challenge epochs.  [StoreFrame], [OrderFrame], [EpochFrame] and
    [RoleFrame] say that a relation between states allows them; a relation with
    these instances is kept by every handler, whatever its outcome.  The proofs
    walk the text of the definitions; the hint database carries each lemma to
    its callers.  [Frame] and [RoleHistory] instantiate the relation. *)

From S2P Require Import Prelude GoMonad Codec Keys Segments SegmentID Types Tx Fr StateTypes State Roles Chunks Orders Challenge Pay Validate Block.

(** The tables written through [put]: those of orders and their income, and of
    challenge epochs, apart. *)
Definition store_tables : list Z :=
  [pb.MetaType_ST_KeepersKey; pb.MetaType_ST_ProsKey; pb.MetaType_ST_UsersKey;
   pb.MetaType_ST_PDPVerifyKey; pb.MetaType_ST_PDPPublicKey; pb.MetaType_ST_NetKey;
   pb.MetaType_ST_BucketOptKey; pb.MetaType_ST_SegLocKey; pb.MetaType_ST_SegMapKey;
   pb.MetaType_ST_SegPayComfirmKey;
   pb.MetaType_ST_BucMetaKey; pb.MetaType_ST_ObjMetaKey].
Definition order_tables : list Z :=
  [pb.MetaType_ST_SegPayKey; pb.MetaType_ST_SegProofKey;
   pb.MetaType_ST_OrderStateKey; pb.MetaType_ST_OrderBaseKey; pb.MetaType_ST_OrderSeqKey].

Section Classes.
Context `{!StateEnv}.

(** The database tables, the users and the loading of role entries. *)
Class StoreFrame (w : side) (R : StateMgr -> StateMgr -> Prop) := {
  sf_pre :: PreOrder R;
  sf_put t vs v : bool_decide (t ∈ store_tables) = true ->
    Keeps R (put (NewKey (KMetaType t :: vs)) v);
  sf_put_user id u : Keeps R (modify (put_user w id u));
  sf_upd_user id f : Keeps R (modify (upd_user w id f));
  sf_roleOf id : Keeps R (roleOf w id);
}.

(** The tables and the cache of orders. *)
Class OrderFrame (w : side) (R : StateMgr -> StateMgr -> Prop) := {
  of_put t vs v : bool_decide (t ∈ order_tables) = true ->
    Keeps R (put (NewKey (KMetaType t :: vs)) v);
  of_put_order k oi : Keeps R (modify (put_order w k oi));
  of_upd_order k f : Keeps R (modify (upd_order w k f));
}.

(** The challenge epochs and their table. *)
Class EpochFrame (w : side) (R : StateMgr -> StateMgr -> Prop) := {
  ef_put t vs v : bool_decide (t = pb.MetaType_ST_ChalEpochKey) = true ->
    Keeps R (put (NewKey (KMetaType t :: vs)) v);
  ef_ceInfo f : Keeps R (modify (set_view w (set_v_ceInfo f)));
}.

(** The registration of a role on either side. *)
Class RoleFrame (w : side) (R : StateMgr -> StateMgr -> Prop) := {
  rf_addRole msg : w = Applied -> Keeps R (addRole msg);
  rf_canAddRole msg : w = Validating -> Keeps R (canAddRole msg);
}.
End Classes.

#[export] Hint Resolve sf_put_user sf_upd_user sf_roleOf of_put_order of_upd_order ef_ceInfo : keeps.
#[export] Hint Extern 2 (Keeps _ (put _ _)) => apply sf_put; vm_compute; reflexivity : keeps.
#[export] Hint Extern 2 (Keeps _ (put _ _)) => eapply of_put; vm_compute; reflexivity : keeps.
#[export] Hint Extern 2 (Keeps _ (put _ _)) => eapply ef_put; vm_compute; reflexivity : keeps.
#[export] Hint Extern 2 (Keeps _ (modify (put_bucket _ _ _ _))) => apply sf_upd_user : keeps.

(** ** Either side *)

Section Shared.
Context `{!StateEnv} (w : side) (R : StateMgr -> StateMgr -> Prop) `{!StoreFrame w R}.
Implicit Types (msg : Message) (id : Z).
Lemma keeps_get key : Keeps R (get key).
Proof. unfold get. keeps. Qed.
#[local] Hint Resolve keeps_get : keeps.
Lemma keeps_has_ok key : Keeps R (has_ok key).
Proof. unfold has_ok, has. keeps. Qed.
#[local] Hint Resolve keeps_has_ok : keeps.
Lemma keeps_verify ri b sig : Keeps R (verify ri b sig).
Proof. unfold verify, verify_with. keeps. Qed.
#[local] Hint Resolve keeps_verify : keeps.
Lemma keeps_get_decode {A} `{!Codec A} key : Keeps R (get_decode (A := A) key).
Proof. unfold get_decode. keeps. Qed.
#[local] Hint Resolve keeps_get_decode : keeps.
Lemma keeps_get_into {A} `{!Codec A} key (x : A) : Keeps R (get_into key x).
Proof. unfold get_into. keeps. Qed.
#[local] Hint Resolve keeps_get_into : keeps.
Lemma keeps_loadUser id : Keeps R (loadUser id).
Proof. unfold loadUser, loadUser_vk. keeps. Qed.
#[local] Hint Resolve keeps_loadUser : keeps.
Lemma keeps_addUser_check msg pk : Keeps R (addUser_check w msg pk).
Proof. unfold addUser_check. keeps. Qed.
#[local] Hint Resolve keeps_addUser_check : keeps.
Lemma keeps_userOf id : Keeps R (userOf w id).
Proof. unfold userOf. keeps. Qed.
#[local] Hint Resolve keeps_userOf : keeps.
Lemma keeps_getBucketManage id spu bid : Keeps R (getBucketManage w id spu bid).
Proof. unfold getBucketManage, loadBucket, loadChunk. keeps. Qed.
#[local] Hint Resolve keeps_getBucketManage : keeps.
Lemma keeps_getStripeBitMap bm id bid pro : Keeps R (getStripeBitMap w bm id bid pro).
Proof. unfold getStripeBitMap, loadStripeBitMap. keeps. Qed.
#[local] Hint Resolve keeps_getStripeBitMap : keeps.
Lemma keeps_addBucket_mem msg : Keeps R (addBucket_mem w msg).
Proof. unfold addBucket_mem. keeps. Qed.
#[local] Hint Resolve keeps_addBucket_mem : keeps.
Lemma keeps_addChunk_mem a b c d e f g : Keeps R (addChunk_mem w a b c d e f g).
Proof. unfold addChunk_mem. keeps. Qed.
#[local] Hint Resolve keeps_addChunk_mem : keeps.
Lemma keeps_verify_order or : Keeps R (verify_order w or).
Proof. unfold verify_order. keeps. Qed.
#[local] Hint Resolve keeps_verify_order : keeps.
Lemma keeps_addSeq_pre msg : Keeps R (addSeq_pre w msg).
Proof. unfold addSeq_pre. keeps. Qed.
#[local] Hint Resolve keeps_addSeq_pre : keeps.
Lemma keeps_addSeq_amounts sos u p b : Keeps R (addSeq_amounts sos u p b).
Proof. unfold addSeq_amounts. keeps. Qed.
#[local] Hint Resolve keeps_addSeq_amounts : keeps.
Lemma keeps_big_add x y : Keeps R (big_add x y).
Proof. unfold big_add. keeps. Qed.
#[local] Hint Resolve keeps_big_add : keeps.
Lemma keeps_big_cmp_eq x y : Keeps R (big_cmp_eq x y).
Proof. unfold big_cmp_eq. keeps. Qed.
#[local] Hint Resolve keeps_big_cmp_eq : keeps.
Lemma keeps_income :
  (forall d pi, Keeps R (add_income_value d pi)) /\
  (forall d pi, Keeps R (add_income_penalty d pi)) /\
  (forall d pi, Keeps R (add_acc_value d pi)) /\
  (forall d pi, Keeps R (add_acc_penalty d pi)).
Proof.
  unfold add_income_value, add_income_penalty, add_acc_value, add_acc_penalty.
  split_and!; keeps.
Qed.
End Shared.

#[export] Hint Resolve keeps_get keeps_has_ok keeps_verify keeps_get_decode keeps_get_into keeps_loadUser
  keeps_addUser_check keeps_userOf keeps_getBucketManage keeps_getStripeBitMap keeps_addBucket_mem
  keeps_addChunk_mem keeps_verify_order keeps_addSeq_pre keeps_addSeq_amounts
  keeps_big_add keeps_big_cmp_eq : keeps.

(** ** Either side: challenges, orders and pay *)

Section SharedOrders.
Context `{!StateEnv} (w : side) (R : StateMgr -> StateMgr -> Prop) `{!StoreFrame w R}.
Implicit Types (msg : Message) (id : Z).

Lemma keeps_chal_user id : Keeps R (chal_user w id).
Proof. destruct w; unfold chal_user; keeps. Qed.
#[local] Hint Resolve keeps_chal_user : keeps.
Lemma keeps_chal_total scp ns chal : Keeps R (chal_total w scp ns chal).
Proof.
  unfold chal_total, chal_latest, chal_seq, chal_order, chal_add_order. keeps.
Qed.
#[local] Hint Resolve keeps_chal_total : keeps.
Lemma keeps_removeSeg_load so : Keeps R (removeSeg_load w so).
Proof. unfold removeSeg_load, removeSeg_time. keeps. Qed.
#[local] Hint Resolve keeps_removeSeg_load : keeps.
Lemma keeps_addPay_pre msg : Keeps R (addPay_pre w msg).
Proof. unfold addPay_pre. keeps. Qed.
#[local] Hint Resolve keeps_addPay_pre : keeps.
Lemma keeps_addPay_same sapi spi : Keeps R (addPay_same sapi spi).
Proof. unfold addPay_same. keeps. Qed.
#[local] Hint Resolve keeps_addPay_same : keeps.
Lemma keeps_addBucMeta_check msg : Keeps R (addBucMeta_check w msg).
Proof. unfold addBucMeta_check. keeps. Qed.
#[local] Hint Resolve keeps_addBucMeta_check : keeps.
Lemma keeps_addObjMeta_check msg : Keeps R (addObjMeta_check w msg).
Proof. unfold addObjMeta_check. keeps. Qed.
#[local] Hint Resolve keeps_addObjMeta_check : keeps.
Lemma keeps_put_ObjMetaKey_etag etag cnt v : Keeps R (put (ObjMetaKey_etag etag cnt) v).
Proof. unfold ObjMetaKey_etag. case_match; keeps. Qed.
#[local] Hint Resolve keeps_put_ObjMetaKey_etag : keeps.

Context `{!OrderFrame w R}.

Lemma keeps_saveOrderState userID proID ns : Keeps R (saveOrderState userID proID ns).
Proof. unfold saveOrderState. keeps. Qed.
#[local] Hint Resolve keeps_saveOrderState : keeps.
Lemma keeps_saveIncomeAt userID proID epoch f g :
  (forall pi, Keeps R (f pi)) -> (forall pi, Keeps R (g pi)) ->
  Keeps R (saveIncomeAt userID proID epoch f g).
Proof. intros. unfold saveIncomeAt, put_encode. keeps. Qed.
Lemma keeps_orderOf userID proID : Keeps R (orderOf w userID proID).
Proof. unfold orderOf, loadOrder, loadBase, loadProve. keeps. Qed.
#[local] Hint Resolve keeps_orderOf : keeps.
Lemma keeps_addSeq_order so : Keeps R (addSeq_order w so).
Proof. unfold addSeq_order. keeps. Qed.
#[local] Hint Resolve keeps_addSeq_order : keeps.
Lemma keeps_commitOrder_mem msg : Keeps R (commitOrder_mem w msg).
Proof. unfold commitOrder_mem. keeps. Qed.
#[local] Hint Resolve keeps_commitOrder_mem : keeps.
Lemma keeps_subOrder_mem msg : Keeps R (subOrder_mem w msg).
Proof. unfold subOrder_mem. keeps. Qed.
#[local] Hint Resolve keeps_subOrder_mem : keeps.
Lemma keeps_chal_verify msg : Keeps R (chal_verify w msg).
Proof. unfold chal_verify, chal_paras, chal_ns. keeps. Qed.
#[local] Hint Resolve keeps_chal_verify : keeps.

Context `{!EpochFrame w R}.

Lemma keeps_updateChalEpoch_mem msg : Keeps R (updateChalEpoch_mem w msg).
Proof. unfold updateChalEpoch_mem. keeps. Qed.
#[local] Hint Resolve keeps_updateChalEpoch_mem : keeps.
End SharedOrders.

#[export] Hint Resolve keeps_chal_user keeps_chal_total keeps_removeSeg_load keeps_addPay_pre keeps_addPay_same
  keeps_addBucMeta_check keeps_addObjMeta_check keeps_put_ObjMetaKey_etag keeps_saveOrderState keeps_orderOf keeps_addSeq_order
  keeps_commitOrder_mem keeps_subOrder_mem keeps_chal_verify keeps_updateChalEpoch_mem : keeps.

(** ** The applied side *)

Section AppliedHandlers.
Context `{!StateEnv} (R : StateMgr -> StateMgr -> Prop) `{!StoreFrame Applied R}.
Implicit Types (msg : Message) (id : Z).

Lemma keeps_addUser msg : Keeps R (addUser msg).
Proof. unfold addUser. keeps. Qed.
#[local] Hint Resolve keeps_addUser : keeps.
Lemma keeps_addBucket msg : Keeps R (addBucket msg).
Proof. unfold addBucket. keeps. Qed.
#[local] Hint Resolve keeps_addBucket : keeps.
Lemma keeps_addChunk a b c d e f g : Keeps R (addChunk a b c d e f g).
Proof. unfold addChunk. keeps. Qed.
#[local] Hint Resolve keeps_addChunk : keeps.
Lemma keeps_addPay msg : Keeps R (addPay msg).
Proof. unfold addPay. keeps. Qed.
#[local] Hint Resolve keeps_addPay : keeps.
Lemma keeps_addBucMeta msg : Keeps R (addBucMeta msg).
Proof. unfold addBucMeta. keeps. Qed.
#[local] Hint Resolve keeps_addBucMeta : keeps.
Lemma keeps_addObjMeta msg : Keeps R (addObjMeta msg).
Proof. unfold addObjMeta, put_encode. keeps. Qed.
#[local] Hint Resolve keeps_addObjMeta : keeps.
Lemma keeps_updateNetAddr msg : Keeps R (updateNetAddr msg).
Proof. unfold updateNetAddr. keeps. Qed.
#[local] Hint Resolve keeps_updateNetAddr : keeps.

Context `{!OrderFrame Applied R}.

Lemma keeps_createOrder msg : Keeps R (createOrder msg).
Proof.
  unfold createOrder, createOrder_paras, createOrder_times, createOrder_save, append_id_put, put_encode.
  keeps.
Qed.
#[local] Hint Resolve keeps_createOrder : keeps.
Lemma keeps_addSeq msg : Keeps R (addSeq msg).
Proof. unfold addSeq, addSeq_save, put_encode. keeps. Qed.
#[local] Hint Resolve keeps_addSeq : keeps.
Lemma keeps_commitOrder msg : Keeps R (commitOrder msg).
Proof. unfold commitOrder. keeps. Qed.
#[local] Hint Resolve keeps_commitOrder : keeps.
Lemma keeps_subOrder msg : Keeps R (subOrder msg).
Proof. unfold subOrder. keeps. Qed.
#[local] Hint Resolve keeps_subOrder : keeps.
Lemma keeps_addSegProof msg : Keeps R (addSegProof msg).
Proof.
  destruct (keeps_income Applied R) as (?&?&?&?).
  unfold addSegProof, addSegProof_save, put_encode. keeps; by apply (keeps_saveIncomeAt Applied).
Qed.
#[local] Hint Resolve keeps_addSegProof : keeps.
Lemma keeps_removeSeg msg : Keeps R (removeSeg msg).
Proof.
  destruct (keeps_income Applied R) as (?&?&?&?).
  unfold removeSeg, removeSeg_save, add_del, put_encode. keeps; by apply (keeps_saveIncomeAt Applied).
Qed.
#[local] Hint Resolve keeps_removeSeg : keeps.

(** Every method but the two that touch the roles and the epochs. *)
Lemma keeps_apply_method_other msg : m_Method msg <> AddRole -> m_Method msg <> UpdateChalEpoch ->
  Keeps R (apply_method msg).
Proof.
  intros Hr%Z.eqb_neq He%Z.eqb_neq. unfold apply_method. rewrite Hr, He. keeps.
Qed.

Context `{!EpochFrame Applied R}.

Lemma keeps_updateChalEpoch msg : Keeps R (updateChalEpoch msg).
Proof. unfold updateChalEpoch, put_encode. keeps. Qed.
#[local] Hint Resolve keeps_updateChalEpoch : keeps.

(** Every method but the one that registers a role. *)
Lemma keeps_apply_method_no_role msg : m_Method msg <> AddRole -> Keeps R (apply_method msg).
Proof.
  intros Hr. destruct (decide (m_Method msg = UpdateChalEpoch)) as [E|?]; [|by apply keeps_apply_method_other].
  unfold apply_method. rewrite E. apply keeps_updateChalEpoch.
Qed.

Context `{!RoleFrame Applied R}.

Lemma keeps_apply_method msg : Keeps R (apply_method msg).
Proof.
  destruct (decide (m_Method msg = AddRole)) as [E|?]; [|by apply keeps_apply_method_no_role].
  unfold apply_method. rewrite E. by apply (rf_addRole (w := Applied)).
Qed.
End AppliedHandlers.

(** ** The validating side *)

Section ValidatingHandlers.
Context `{!StateEnv} (R : StateMgr -> StateMgr -> Prop) `{!StoreFrame Validating R}.
Implicit Types (msg : Message) (id : Z).

Lemma keeps_canAddUser msg : Keeps R (canAddUser msg).
Proof. unfold canAddUser. keeps. Qed.
#[local] Hint Resolve keeps_canAddUser : keeps.
Lemma keeps_canAddBucket msg : Keeps R (canAddBucket msg).
Proof. unfold canAddBucket. keeps. Qed.
#[local] Hint Resolve keeps_canAddBucket : keeps.
Lemma keeps_canAddChunk a b c d e f g : Keeps R (canAddChunk a b c d e f g).
Proof. unfold canAddChunk. keeps. Qed.
#[local] Hint Resolve keeps_canAddChunk : keeps.
Lemma keeps_canRemoveSeg msg : Keeps R (canRemoveSeg msg).
Proof. unfold canRemoveSeg. keeps. Qed.
#[local] Hint Resolve keeps_canRemoveSeg : keeps.
Lemma keeps_canAddPay msg : Keeps R (canAddPay msg).
Proof. unfold canAddPay. keeps. Qed.
#[local] Hint Resolve keeps_canAddPay : keeps.

Context `{!OrderFrame Validating R}.

Lemma keeps_canCreateOrder msg : Keeps R (canCreateOrder msg).
Proof. unfold canCreateOrder, createOrder_paras, createOrder_times. keeps. Qed.
#[local] Hint Resolve keeps_canCreateOrder : keeps.
Lemma keeps_canAddSeq msg : Keeps R (canAddSeq msg).
Proof. unfold canAddSeq. keeps. Qed.
#[local] Hint Resolve keeps_canAddSeq : keeps.
Lemma keeps_canCommitOrder msg : Keeps R (canCommitOrder msg).
Proof. unfold canCommitOrder. keeps. Qed.
#[local] Hint Resolve keeps_canCommitOrder : keeps.
Lemma keeps_canSubOrder msg : Keeps R (canSubOrder msg).
Proof. unfold canSubOrder. keeps. Qed.
#[local] Hint Resolve keeps_canSubOrder : keeps.
Lemma keeps_canAddSegProof msg : Keeps R (canAddSegProof msg).
Proof. unfold canAddSegProof. keeps. Qed.
#[local] Hint Resolve keeps_canAddSegProof : keeps.

Context `{!EpochFrame Validating R, !RoleFrame Validating R}.

Lemma keeps_validate_method msg : Keeps R (validate_method msg).
Proof.
  unfold validate_method, canUpdateChalEpoch, canUpdateNetAddr, canAddBucMeta, canAddObjMeta. keeps.
  by apply (rf_canAddRole (w := Validating)).
Qed.
End ValidatingHandlers.
