(* ===== verification/Frame.v ===== *)
(** * Frame: what no message handler touches

    Every handler of the state manager, on either side, leaves alone: the
    database outside the transaction, the stored nonces, the stored root and
    block heights, the side's version, height, slot and root, the other side,
    and the nonce each account is expected to use next.  The relation [frame]
    says so; it has the instances of [Handlers], so every handler keeps it, and
    the block-level theorems rest on it. *)

From S2P Require Import Prelude GoMonad Codec Keys Segments SegmentID Types Tx Fr StateTypes State Roles Chunks Orders Challenge Pay Validate Block Handlers.

Section Frame.
Context `{!StateEnv}.
Implicit Types (s : StateMgr) (w : side) (msg : Message) (id : Z) (key : bytes).

Definition other w : side := match w with Applied => Validating | Validating => Applied end.

(** The tables handlers do not write: the roots, the heights and the nonces. *)
Definition protected : list Z :=
  [pb.MetaType_ST_RootKey; pb.MetaType_ST_BlockHeightKey; pb.MetaType_ST_RoleValueKey].

(** The value a load would find, and the nonce the side expects. *)
Definition stored_value s id : roleValue :=
  match read s (RoleValueKey id) with
  | None => mkRoleValue 0 (Some 0)
  | Some data => (unmarshal (mkRoleValue 0 (Some 0)) data).1
  end.
Definition nonce_of w s id : Z :=
  match v_rInfo (view_of w s) !! id with
  | Some ri => rv_Nonce (r_val ri)
  | None => rv_Nonce (stored_value s id)
  end.

Record frame w s s' : Prop := mkFrame {
  fr_ds : ds s' = ds s;
  fr_tds : tds s' = None <-> tds s = None;
  fr_read k : has_tag protected k ->
    tds_get s' k = tds_get s k /\ smt_get (smt s') k = smt_get (smt s) k;
  fr_other : view_of (other w) s' = view_of (other w) s;
  fr_version : v_version (view_of w s') = v_version (view_of w s);
  fr_height : v_height (view_of w s') = v_height (view_of w s);
  fr_slot : v_slot (view_of w s') = v_slot (view_of w s);
  fr_root : v_root (view_of w s') = v_root (view_of w s);
  fr_blk : blkID s' = blkID s;
  fr_threshold : threshold s' = threshold s;
  fr_smt : v_version (cur s) < SMTVersion -> smt s' = smt s;
  fr_nonce id : nonce_of w s' id = nonce_of w s id;
}.

Lemma cur_version_frame w s s' : frame w s s' -> v_version (cur s') = v_version (cur s).
Proof. intros F. destruct w; [apply (fr_version _ _ _ F)|].
  pose proof (fr_other _ _ _ F) as E. simpl in E. by rewrite E.
Qed.

#[export] Instance frame_preorder w : PreOrder (frame w).
Proof.
  split.
  - intros s. by constructor.
  - intros s1 s2 s3 F G. pose proof (cur_version_frame _ _ _ F) as Ev.
    destruct F, G. constructor; try congruence; try tauto.
    + intros k Hk. destruct (fr_read0 k Hk), (fr_read1 k Hk). split; congruence.
    + intros Hv. rewrite fr_smt1 by lia. auto.
Qed.

Lemma nonce_of_eq w s s' id :
  v_rInfo (view_of w s') !! id = v_rInfo (view_of w s) !! id ->
  read s' (RoleValueKey id) = read s (RoleValueKey id) ->
  nonce_of w s' id = nonce_of w s id.
Proof. unfold nonce_of, stored_value. by intros -> ->. Qed.

(** ** Primitive writes *)

(** A write of the side's caches and epochs only. *)
Lemma frame_view w s f :
  (v_version (f (view_of w s)) = v_version (view_of w s)) ->
  (v_height (f (view_of w s)) = v_height (view_of w s)) ->
  (v_slot (f (view_of w s)) = v_slot (view_of w s)) ->
  (v_root (f (view_of w s)) = v_root (view_of w s)) ->
  (forall id, nonce_of w (set_view w f s) id = nonce_of w s id) ->
  frame w s (set_view w f s).
Proof. destruct w; simpl; intros; by constructor. Qed.

Lemma frame_view_caches w s f :
  (forall v, v_version (f v) = v_version v /\ v_height (f v) = v_height v /\
        v_slot (f v) = v_slot v /\ v_root (f v) = v_root v /\ v_rInfo (f v) = v_rInfo v) ->
  frame w s (set_view w f s).
Proof.
  intros Hf. pose proof (Hf (view_of w s)) as (?&?&?&?&Hr).
  apply frame_view; try done. intros id. unfold nonce_of, stored_value, read, tds_get.
  destruct w; simpl in *; by rewrite Hr.
Qed.

Lemma keeps_put_order w k oi : Keeps (frame w) (modify (put_order w k oi)).
Proof. apply keeps_modify. intros s. by apply frame_view_caches. Qed.
Lemma keeps_upd_order w k f : Keeps (frame w) (modify (upd_order w k f)).
Proof. apply keeps_modify. intros s. by apply frame_view_caches. Qed.
Lemma keeps_put_user w k oi : Keeps (frame w) (modify (put_user w k oi)).
Proof. apply keeps_modify. intros s. by apply frame_view_caches. Qed.
Lemma keeps_upd_user w k f : Keeps (frame w) (modify (upd_user w k f)).
Proof. apply keeps_modify. intros s. by apply frame_view_caches. Qed.
Lemma keeps_put_bucket w id bid bm : Keeps (frame w) (modify (put_bucket w id bid bm)).
Proof. apply keeps_modify. intros s. by apply frame_view_caches. Qed.
Lemma keeps_set_ceInfo w f : Keeps (frame w) (modify (set_view w (set_v_ceInfo f))).
Proof. apply keeps_modify. intros s. by apply frame_view_caches. Qed.

(** An entry that carries the expected nonce may be added or replaced. *)
Lemma frame_put_role w id ri s :
  rv_Nonce (r_val ri) = nonce_of w s id -> frame w s (put_role w id ri s).
Proof.
  intros Hn. apply frame_view; try done. intros id'.
  destruct (decide (id' = id)) as [->|Hne].
  - unfold nonce_of at 1. rewrite <-Hn. destruct w; simpl; by rewrite lookup_insert_eq.
  - unfold nonce_of, stored_value, read, tds_get.
    destruct w; simpl; by rewrite lookup_insert_ne.
Qed.

(** Lists of role ids are not part of the frame. *)
Lemma keeps_set_keepers f : Keeps (frame Applied) (modify (set_keepers f)).
Proof. apply keeps_modify. intros s. by constructor. Qed.
Lemma keeps_set_pros f : Keeps (frame Applied) (modify (set_pros f)).
Proof. apply keeps_modify. intros s. by constructor. Qed.
Lemma keeps_set_users f : Keeps (frame Applied) (modify (set_users f)).
Proof. apply keeps_modify. intros s. by constructor. Qed.

(** ** The stores *)

(** What a write under [key] leaves alone. *)
Record store_eff key s s' : Prop := mkStoreEff {
  se_ds : ds s' = ds s;
  se_tds : tds s' = None <-> tds s = None;
  se_read k : k <> key -> tds_get s' k = tds_get s k /\ smt_get (smt s') k = smt_get (smt s) k;
  se_cur : cur s' = cur s;
  se_vld : vld s' = vld s;
  se_blk : blkID s' = blkID s;
  se_threshold : threshold s' = threshold s;
  se_keepers : keepers s' = keepers s;
  se_smt : v_version (cur s) < SMTVersion -> smt s' = smt s;
}.

Lemma store_eff_refl key s : store_eff key s s.
Proof. by constructor. Qed.

Lemma store_eff_view key s s' w : store_eff key s s' -> view_of w s' = view_of w s.
Proof. intros []. by destruct w. Qed.

Lemma store_eff_read key s s' k : store_eff key s s' -> k <> key -> read s' k = read s k.
Proof. intros E Hk. unfold read. by destruct (se_read _ _ _ E k Hk) as [-> ->]. Qed.

Lemma tds_Put_eff key v s : store_eff key s (tds_Put key v s).2.
Proof.
  unfold tds_Put, bind, gets, deref, panic, ret, modify.
  destruct (tds s) as [m|] eqn:E; simpl; [|apply store_eff_refl].
  constructor; try done; [by rewrite E|].
  intros k Hk. split; [|done]. unfold tds_get. simpl. rewrite E. by rewrite lookup_insert_ne.
Qed.

Lemma store_eff_frame w t vs s s' :
  bool_decide (t ∈ protected) = false ->
  store_eff (NewKey (KMetaType t :: vs)) s s' -> frame w s s'.
Proof.
  intros Ht E. pose proof (fun w => store_eff_view _ _ _ w E) as Hw.
  constructor; rewrite ?Hw; try done; try apply E.
  - intros k Hk. apply (se_read _ _ _ E). intros ->. by eapply has_tag_ne.
  - intros id. apply nonce_of_eq; [by rewrite Hw|]. eapply store_eff_read; [done|].
    intros Heq. eapply (has_tag_ne protected _ t vs); [|done|by symmetry].
    apply has_tag_NewKey. unfold protected. set_solver.
Qed.

Context `{!SMTLaws}.

Lemma put_eff key v s : store_eff key s (put key v s).2.
Proof.
  unfold put. rewrite (bind_run _ _ _ _ _ (eq_refl : gets _ _ = _)).
  case_match eqn:Hv; [apply tds_Put_eff|]. apply Z.ltb_ge in Hv.
  unfold smt_Put, bind, gets, of_option, throw, ret, modify.
  destruct (smt_put (smt s) key v) as [t'|] eqn:E; simpl; [|apply store_eff_refl].
  constructor; try done; [|simpl; lia].
  intros k Hk. split; [done|]. simpl. rewrite (smt_get_put _ _ _ _ _ E).
  by rewrite bool_decide_false.
Qed.

Lemma keeps_tds_Put w t vs v :
  bool_decide (t ∈ protected) = false ->
  Keeps (frame w) (tds_Put (NewKey (KMetaType t :: vs)) v).
Proof. intros Ht s. eapply store_eff_frame; [done|apply tds_Put_eff]. Qed.

Lemma keeps_put w t vs v :
  bool_decide (t ∈ protected) = false ->
  Keeps (frame w) (put (NewKey (KMetaType t :: vs)) v).
Proof. intros Ht s. eapply store_eff_frame; [done|apply put_eff]. Qed.

(** ** Role entries *)

Lemma loadVal_run id s : loadVal id s = (Ok (stored_value s id), s).
Proof.
  unfold loadVal, bind, get, gets, stored_value.
  by destruct (read s (RoleValueKey id)).
Qed.

Lemma loadRole_run id s : exists base,
  loadRole id s = (Ok (mkRoleEntry base (stored_value s id)), s).
Proof.
  unfold loadRole. rewrite (bind_run _ _ _ _ _ (loadVal_run id s)).
  unfold bind, get, gets. destruct (read s (RoleBaseKey id)); [|by eexists].
  by case_match; eexists.
Qed.

Lemma keeps_loadVal w id : Keeps (frame w) (loadVal id).
Proof. intros s. by rewrite loadVal_run. Qed.
Lemma keeps_loadRole w id : Keeps (frame w) (loadRole id).
Proof. intros s. destruct (loadRole_run id s) as [? ->]. done. Qed.

(** The entry [roleOf] returns is the one it leaves in the cache. *)
Lemma roleOf_run w id s : exists ri s',
  roleOf w id s = (Ok ri, s') /\ frame w s s' /\
  v_rInfo (view_of w s') !! id = Some ri /\ rv_Nonce (r_val ri) = nonce_of w s id.
Proof.
  unfold roleOf. rewrite (bind_run _ _ _ _ _ (eq_refl : gets _ _ = _)).
  destruct (v_rInfo (view_of w s) !! id) as [ri|] eqn:E.
  - eexists ri, s. split_and!; try done. unfold nonce_of. by rewrite E.
  - destruct (loadRole_run id s) as [base Hl]. rewrite (bind_run _ _ _ _ _ Hl).
    eexists _, _. split; [reflexivity|].
    assert (Hn : rv_Nonce (stored_value s id) = nonce_of w s id)
      by (unfold nonce_of; by rewrite E).
    split_and!; [by apply frame_put_role|by destruct w; simpl; rewrite lookup_insert_eq|done].
Qed.

Lemma keeps_roleOf w id : Keeps (frame w) (roleOf w id).
Proof. intros s. by destruct (roleOf_run w id s) as (ri & s' & -> & ? & _). Qed.

Lemma keeps_addRole_entry w pri : Keeps (frame w) (addRole_entry w pri).
Proof.
  intros s. unfold addRole_entry. rewrite (bind_run _ _ _ _ _ (eq_refl : gets _ _ = _)).
  destruct (v_rInfo (view_of w s) !! ri_RoleID pri) as [ri|] eqn:E.
  - unfold bind, check. case_bool_decide; simpl; [|done].
    apply frame_put_role. unfold nonce_of. by rewrite E.
  - rewrite (bind_run _ _ _ _ _ (loadVal_run _ s)). simpl.
    apply frame_put_role. unfold nonce_of. by rewrite E.
Qed.
#[local] Hint Extern 2 (Keeps _ (tds_Put _ _)) => apply keeps_tds_Put; vm_compute; reflexivity : keeps.
#[local] Hint Extern 2 (Keeps (frame _) (put _ _)) => apply keeps_put; vm_compute; reflexivity : keeps.
#[local] Hint Resolve keeps_set_keepers keeps_set_pros keeps_set_users keeps_addRole_entry : keeps.

(** ** The instances *)

Lemma tables_disjoint (ts ts' : list Z) t :
  bool_decide (Forall (.∉ ts') ts) = true -> bool_decide (t ∈ ts) = true -> bool_decide (t ∈ ts') = false.
Proof. rewrite !bool_decide_eq_true, bool_decide_eq_false. rewrite Forall_forall. auto. Qed.

#[export] Instance frame_StoreFrame w : StoreFrame w (frame w).
Proof.
  split; [typeclasses eauto|intros t vs v; intros Ht; apply keeps_put; revert Ht; by apply tables_disjoint; vm_compute|..]; intros;
    [apply keeps_put_user|apply keeps_upd_user|apply keeps_roleOf].
Qed.
#[export] Instance frame_OrderFrame w : OrderFrame w (frame w).
Proof.
  split; intros; [|apply keeps_put_order|apply keeps_upd_order].
  apply keeps_put. eapply tables_disjoint; [|done]. by vm_compute.
Qed.
#[export] Instance frame_EpochFrame w : EpochFrame w (frame w).
Proof. split; intros; [rename select (bool_decide _ = true) into Ht; apply bool_decide_eq_true in Ht as ->; apply keeps_put; by vm_compute|apply keeps_set_ceInfo]. Qed.
#[export] Instance frame_RoleFrame w : RoleFrame w (frame w).
Proof.
  split; intros msg ->; [unfold addRole|unfold canAddRole]; unfold addRole_pre, addRole_lists, append_id, tds_Get; keeps.
Qed.
End Frame.
