(* ===== verification/Chain.v ===== *)
(** * Chain: lemmas about the run of a block

    What a message and a block leave alone ([chain_frame]), what one message
    does to the nonces and the root ([msg_step]), and what the loop over the
    messages therefore does.  The theorems are in [ChainProps]. *)

From S2P Require Import Prelude GoMonad Codec Keys Segments SegmentID Types Tx Fr StateTypes State Roles Chunks Orders Challenge Pay Validate Block Handlers Frame.

Section Chain.
Context `{!StateEnv, !SMTLaws}.
Implicit Types (s : StateMgr) (msg : Message) (id : Z) (key b : bytes).

(** The branch of the source in which the tree is not used yet. *)
Definition plain s : Prop := v_version (cur s) < SMTVersion.

Record chain_frame s s' : Prop := mkChainFrame {
  cf_ds : ds s' = ds s;
  cf_tds : tds s' = None <-> tds s = None;
  cf_vld : vld s' = vld s;
  cf_version : v_version (cur s') = v_version (cur s);
  cf_height : v_height (cur s') = v_height (cur s);
  cf_slot : v_slot (cur s') = v_slot (cur s);
  cf_blk : blkID s' = blkID s;
  cf_smt : plain s -> smt s' = smt s;
}.

#[export] Instance chain_frame_preorder : PreOrder chain_frame.
Proof.
  split.
  - intros s. by constructor.
  - intros s1 s2 s3 F G. unfold plain in *.
    assert (plain s1 -> plain s2) by (unfold plain; rewrite (cf_version _ _ F); done).
    destruct F, G. constructor; try congruence; try tauto.
    intros Hp. rewrite cf_smt1 by auto. auto.
Qed.

Lemma chain_frame_of_frame s s' : frame Applied s s' -> chain_frame s s'.
Proof. intros [?? _ ?????? _ ? _]. by constructor. Qed.

Lemma chain_frame_of_store key s s' : store_eff key s s' -> chain_frame s s'.
Proof. intros []. constructor; congruence || tauto. Qed.

Lemma keeps_chain_of_frame {A} (m : M StateMgr A) :
  Keeps (frame Applied) m -> Keeps chain_frame m.
Proof. intros Hm s. apply chain_frame_of_frame, Hm. Qed.

Lemma keeps_chain_put key v : Keeps chain_frame (put key v).
Proof. intros s. eapply chain_frame_of_store, put_eff. Qed.
Lemma keeps_chain_tds_Put key v : Keeps chain_frame (tds_Put key v).
Proof. intros s. eapply chain_frame_of_store, tds_Put_eff. Qed.
Lemma keeps_chain_put_role id ri : Keeps chain_frame (modify (put_role Applied id ri)).
Proof. apply keeps_modify. intros s. by constructor. Qed.
Lemma keeps_chain_set_root f : Keeps chain_frame (modify (set_cur (set_v_root f))).
Proof. apply keeps_modify. intros s. by constructor. Qed.
#[local] Hint Resolve keeps_chain_put keeps_chain_tds_Put keeps_chain_put_role
  keeps_chain_set_root : keeps.

Lemma keeps_newRoot b : Keeps chain_frame (newRoot b).
Proof. unfold newRoot. keeps. Qed.
#[local] Hint Resolve keeps_newRoot : keeps.
Lemma keeps_chain_roleOf id : Keeps chain_frame (roleOf Applied id).
Proof. apply keeps_chain_of_frame, (sf_roleOf (w := Applied)). Qed.
#[local] Hint Resolve keeps_chain_roleOf : keeps.
Lemma keeps_applyMsg_nonce msg : Keeps chain_frame (applyMsg_nonce msg).
Proof. unfold applyMsg_nonce, saveVal. keeps. Qed.
Lemma keeps_chain_apply_method msg : Keeps chain_frame (apply_method msg).
Proof. by apply keeps_chain_of_frame, (keeps_apply_method (frame Applied)). Qed.
#[local] Hint Resolve keeps_applyMsg_nonce keeps_chain_apply_method : keeps.
Lemma keeps_applyMsg (om : option Message) r : Keeps chain_frame (applyMsg om r).
Proof. unfold applyMsg. keeps. Qed.
#[local] Hint Resolve keeps_applyMsg : keeps.
Lemma keeps_apply_msgs msgs rs : Keeps chain_frame (apply_msgs msgs rs).
Proof. revert rs. induction msgs as [|m msgs IH]; intros rs; simpl; keeps. Qed.
#[local] Hint Resolve keeps_apply_msgs : keeps.
Lemma keeps_applyBlock_body blk mid b : Keeps chain_frame (applyBlock_body blk mid b).
Proof. unfold applyBlock_body. keeps. Qed.
Lemma keeps_applyBlock_admission blk : Keeps chain_frame (applyBlock_admission blk).
Proof. unfold applyBlock_admission, applyBlock_signers, genesis_msg_ok. keeps. Qed.
Lemma keeps_saveRoot : Keeps chain_frame saveRoot.
Proof. unfold saveRoot. keeps. Qed.

(** ** The keys of the chain *)

Lemma RoleValueKey_inj id id' : RoleValueKey id = RoleValueKey id' -> id = id'.
Proof.
  intros E. apply NewKey_num_inj in E; [by injection E| | |done..];
    repeat constructor; simpl; by eexists.
Qed.

Lemma has_tag_ne' ts t vs k : has_tag ts k -> bool_decide (t ∈ ts) = false ->
  k <> NewKey (KMetaType t :: vs).
Proof. intros Hk Ht E. by eapply has_tag_ne. Qed.

(** ** Nonces across a write *)

(** A write under another table does not touch the nonces; a write of [id]'s
    own entry does not either, once the entry is cached. *)
Lemma nonce_store_eff w key s s' :
  store_eff key s s' ->
  (forall id, RoleValueKey id = key -> is_Some (v_rInfo (view_of w s) !! id)) ->
  forall id, nonce_of w s' id = nonce_of w s id.
Proof.
  intros E Hc id. pose proof (store_eff_view _ _ _ w E) as Hw.
  unfold nonce_of. rewrite Hw. destruct (v_rInfo (view_of w s) !! id) as [ri|] eqn:Er; [done|].
  unfold stored_value. rewrite (store_eff_read _ _ _ _ E); [done|].
  intros Hk. destruct (Hc id Hk) as [ri Hri]. congruence.
Qed.

Lemma nonce_tag_eff w t vs s s' :
  store_eff (NewKey (KMetaType t :: vs)) s s' ->
  bool_decide (t ∈ [pb.MetaType_ST_RoleValueKey]) = false ->
  forall id, nonce_of w s' id = nonce_of w s id.
Proof.
  intros E Ht. eapply nonce_store_eff; [done|]. intros id Hk. exfalso.
  eapply (has_tag_ne _ (RoleValueKey id)); [|exact Ht|symmetry; exact Hk].
  apply has_tag_NewKey. set_solver.
Qed.

Definition BlockKeys : list Z := [pb.MetaType_ST_BlockHeightKey].

(** [newRoot], in both branches. *)
Lemma newRoot_Ok b s s' :
  newRoot b s = (Ok tt, s') ->
  (forall id, nonce_of Applied s' id = nonce_of Applied s id) /\
  (forall k, has_tag BlockKeys k -> tds_get s' k = tds_get s k) /\
  v_rInfo (cur s') = v_rInfo (cur s) /\ keepers s' = keepers s /\ threshold s' = threshold s /\
  (plain s -> v_root (cur s') = next_root (v_root (cur s)) b /\
              tds_get s' RootKey = Some (v_root (cur s'))) /\
  (forall h, tds_get s' (NewKey [KMetaType pb.MetaType_ST_RootKey; KUint64 h])
           = tds_get s (NewKey [KMetaType pb.MetaType_ST_RootKey; KUint64 h])).
Proof.
  assert (Hroot : forall h, NewKey [KMetaType pb.MetaType_ST_RootKey; KUint64 h] <> RootKey).
  { intros h E. apply NewKey_num_inj in E; [done| | |done..]; repeat constructor; by eexists. }
  unfold newRoot. rewrite (bind_run _ _ _ _ _ (eq_refl : gets _ _ = _)).
  unfold plain. case_match eqn:Hv; intros Hr.
  - apply Z.ltb_lt in Hv. apply bind_Ok in Hr as (? & s1 & Hm & Hr). apply modify_Ok in Hm as ->.
    rewrite (bind_run _ _ _ _ _ (eq_refl : gets _ _ = _)) in Hr.
    set (s1 := set_cur _ s) in *.
    pose proof (tds_Put_eff RootKey (v_root (cur s1)) s1) as E. rewrite Hr in E. simpl in E.
    assert (Hs1 : forall id, nonce_of Applied s1 id = nonce_of Applied s id) by done.
    split_and!.
    + intros id. rewrite <-Hs1. eapply (nonce_tag_eff Applied pb.MetaType_ST_RootKey [] s1 s'); [done|tag_compute].
    + intros k Hk. replace (tds_get s k) with (tds_get s1 k) by done.
      apply (se_read _ _ _ E). eapply has_tag_ne'; [exact Hk|tag_compute].
    + by rewrite (se_cur _ _ _ E).
    + by rewrite (se_keepers _ _ _ E).
    + by rewrite (se_threshold _ _ _ E).
    + intros _. rewrite (se_cur _ _ _ E). split; [done|].
      unfold tds_Put in Hr. apply bind_Ok in Hr as (? & ? & Hg & Hr). apply gets_Ok in Hg as [-> ->].
      apply bind_Ok in Hr as (t & ? & Hg & Hr). apply deref_Ok in Hg as [Ht ->].
      apply modify_Ok in Hr as ->. unfold tds_get. simpl. by rewrite lookup_insert_eq.
    + intros h. replace (tds_get s _) with
        (tds_get s1 (NewKey [KMetaType pb.MetaType_ST_RootKey; KUint64 h])) by done.
      apply (se_read _ _ _ E), Hroot.
  - apply Z.ltb_ge in Hv. apply bind_Ok in Hr as (? & s1 & Hm & Hr). apply ret_Ok in Hr as [_ ->].
    assert (E : store_eff RootKey s s1).
    { pose proof (put_eff RootKey b s) as E.
      apply try_err_Ok in Hm as [(? & _ & Hm)|(_ & e & Hm)]; by rewrite Hm in E. }
    split_and!; try lia.
    + eapply (nonce_tag_eff Applied pb.MetaType_ST_RootKey [] s s1); [done|tag_compute].
    + intros k Hk. apply (se_read _ _ _ E). eapply has_tag_ne'; [exact Hk|tag_compute].
    + by rewrite (se_cur _ _ _ E).
    + by rewrite (se_keepers _ _ _ E).
    + by rewrite (se_threshold _ _ _ E).
    + intros h. apply (se_read _ _ _ E), Hroot.
Qed.

(** ** One message *)

(** The expected nonces after a message of [from]. *)
Definition bump (f : Z -> Z) (from : Z) : Z -> Z := fun id => if id =? from then u64 (f id + 1) else f id.

Record msg_step msg s s' : Prop := mkMsgStep {
  st_nonce : m_Nonce msg = nonce_of Applied s (m_From msg);
  st_nonces id : nonce_of Applied s' id = bump (nonce_of Applied s) (m_From msg) id;
  st_blocks k : has_tag BlockKeys k -> tds_get s' k = tds_get s k;
  st_root : plain s -> v_root (cur s') = next_root (v_root (cur s)) (m_Params msg) /\
                       tds_get s' RootKey = Some (v_root (cur s'));
  st_roots h : tds_get s' (NewKey [KMetaType pb.MetaType_ST_RootKey; KUint64 h])
             = tds_get s (NewKey [KMetaType pb.MetaType_ST_RootKey; KUint64 h]);
}.

Lemma tag_protected_block k : has_tag BlockKeys k -> has_tag protected k.
Proof.
  unfold has_tag. rewrite !Exists_exists. intros (t & Ht & E). exists t. split; [|done].
  unfold BlockKeys, protected in *. set_solver.
Qed.
Lemma tag_root vs : has_tag protected (NewKey (KMetaType pb.MetaType_ST_RootKey :: vs)).
Proof. apply has_tag_NewKey. unfold protected. set_solver. Qed.

(** The sender's entry with the next nonce: the cache, then the store. *)
Lemma bump_entry msg ri s :
  rv_Nonce (r_val ri) = nonce_of Applied s (m_From msg) ->
  forall id, nonce_of Applied (put_role Applied (m_From msg) (inc_nonce ri) s) id
           = bump (nonce_of Applied s) (m_From msg) id.
Proof.
  intros Hn id. unfold bump, nonce_of at 1. simpl. destruct (Z.eqb_spec id (m_From msg)) as [->|Hne].
  - rewrite lookup_insert_eq. simpl. by rewrite Hn.
  - by rewrite lookup_insert_ne.
Qed.

Lemma applyMsg_nonce_Ok msg s s' :
  applyMsg_nonce msg s = (Ok tt, s') -> msg_step msg s s'.
Proof.
  unfold applyMsg_nonce. intros Hr.
  apply bind_Ok in Hr as (ri & s1 & H1 & Hr).
  destruct (roleOf_run Applied (m_From msg) s) as (ri' & s1' & E1 & F1 & _ & Hn).
  rewrite E1 in H1. injection H1 as -> ->.
  apply bind_Ok in Hr as (? & ? & Hc & Hr). apply check_Ok in Hc as [Hc ->].
  apply Z.eqb_eq in Hc.
  apply bind_Ok in Hr as (? & s2 & Hm & Hr). apply modify_Ok in Hm as ->.
  apply bind_Ok in Hr as ([] & s3 & H3 & Hr). unfold saveVal in H3.
  apply bind_Ok in H3 as (data & ? & Hd & H3). apply of_option_Ok in Hd as [_ ->].
  set (s2 := put_role Applied (m_From msg) (inc_nonce ri) s1) in *.
  pose proof (put_eff (RoleValueKey (m_From msg)) data s2) as E3. rewrite H3 in E3. simpl in E3.
  assert (HN : forall id, nonce_of Applied s3 id = bump (nonce_of Applied s) (m_From msg) id).
  { intros id. rewrite (nonce_store_eff Applied _ _ _ E3).
    - unfold s2. rewrite bump_entry by (by rewrite Hn, (fr_nonce _ _ _ F1)).
      unfold bump. by rewrite !(fr_nonce _ _ _ F1).
    - intros id' ->%RoleValueKey_inj. simpl. rewrite lookup_insert_eq. by eexists. }
  assert (HB : forall k, has_tag [pb.MetaType_ST_RootKey; pb.MetaType_ST_BlockHeightKey] k ->
               tds_get s3 k = tds_get s k).
  { intros k Hk. assert (Hp : has_tag protected k).
    { unfold has_tag in *. rewrite !Exists_exists in *. destruct Hk as (t & Ht & ?).
      exists t. split; [|done]. unfold protected. set_solver. }
    destruct (fr_read _ _ _ F1 k Hp) as [<- _]. replace (tds_get s1 k) with (tds_get s2 k) by done.
    apply (se_read _ _ _ E3). eapply has_tag_ne'; [exact Hk|tag_compute]. }
  assert (HBk : forall k, has_tag BlockKeys k -> tds_get s3 k = tds_get s k).
  { intros k Hk. apply HB. unfold has_tag in *. rewrite !Exists_exists in *.
    destruct Hk as (t & Ht & ?). exists t. split; [|done]. unfold BlockKeys in Ht. set_solver. }
  assert (HR : v_root (cur s3) = v_root (cur s)).
  { rewrite (se_cur _ _ _ E3). apply (fr_root _ _ _ F1). }
  assert (Hpl : plain s -> plain s3).
  { unfold plain. rewrite (se_cur _ _ _ E3). simpl.
    pose proof (fr_version _ _ _ F1) as Ev. simpl in Ev. by rewrite Ev. }
  rewrite (bind_run _ _ _ _ _ (eq_refl : gets _ _ = _)) in Hr.
  case_match eqn:Hv.
  - apply newRoot_Ok in Hr as (N1 & N2 & _ & _ & _ & N3 & N4). constructor.
    + by rewrite Hc, Hn.
    + intros id. by rewrite N1, HN.
    + intros k Hk. by rewrite N2, HBk.
    + intros Hp. rewrite <-HR. by apply N3, Hpl.
    + intros h. rewrite N4. apply HB, has_tag_NewKey. set_solver.
  - apply ret_Ok in Hr as [_ ->]. apply Z.ltb_ge in Hv. constructor.
    + by rewrite Hc, Hn.
    + done.
    + done.
    + intros Hp%Hpl. unfold plain in Hp. lia.
    + intros h. apply HB, has_tag_NewKey. set_solver.
Qed.

(** A handler of the applied side after the nonce part. *)
Lemma msg_step_frame msg s s1 s2 : msg_step msg s s1 -> chain_frame s s1 -> frame Applied s1 s2 ->
  msg_step msg s s2.
Proof.
  intros [] C F. constructor; [done|..].
  - intros id. by rewrite (fr_nonce _ _ _ F).
  - intros k Hk. destruct (fr_read _ _ _ F k (tag_protected_block k Hk)) as [-> _]. auto.
  - intros Hp. destruct (st_root0 Hp) as [E1 E2].
    pose proof (fr_root _ _ _ F) as E. simpl in E. rewrite E. split; [done|].
    by destruct (fr_read _ _ _ F RootKey (tag_root [])) as [-> _].
  - intros h. rewrite <-st_roots0. by apply (fr_read _ _ _ F), tag_root.
Qed.

Lemma applyMsg_Ok msg r s s' : applyMsg (Some msg) r s = (Ok tt, s') -> msg_step msg s s'.
Proof.
  simpl. intros Hr. apply bind_Ok in Hr as ([] & s1 & H1 & Hr).
  pose proof (keeps_applyMsg_nonce msg s) as C. rewrite H1 in C.
  apply applyMsg_nonce_Ok in H1. case_match.
  - by apply ret_Ok in Hr as [_ ->].
  - eapply msg_step_frame; [done..|]. pose proof (keeps_apply_method (frame Applied) msg s1) as F.
    by rewrite Hr in F.
Qed.

(** ** The loop over the messages *)

(** What the nonces of a block must be, and the expected nonces after it. *)
Fixpoint nonces_ok (f : Z -> Z) (msgs : list SignedMessage) : bool :=
  match msgs with
  | [] => true
  | m :: msgs =>
      let m := sm_Message m in
      (m_Nonce m =? f (m_From m)) && nonces_ok (bump f (m_From m)) msgs
  end.
Definition nonces_after (f : Z -> Z) (msgs : list SignedMessage) : Z -> Z :=
  foldl (fun f m => bump f (m_From (sm_Message m))) f msgs.

(** The root after the header and the parameters of the messages. *)
Definition roots_after (root : MsgID) (msgs : list SignedMessage) : MsgID :=
  foldl (fun root m => next_root root (m_Params (sm_Message m))) root msgs.

Lemma roots_after_foldl root msgs :
  roots_after root msgs = foldl next_root root ((fun m => m_Params (sm_Message m)) <$> msgs).
Proof. revert root. induction msgs as [|m msgs IH]; intros root; [done|apply IH]. Qed.

Lemma bump_ext f g from : (forall id, f id = g id) -> forall id, bump f from id = bump g from id.
Proof. intros E id. unfold bump. by rewrite !E. Qed.
Lemma nonces_ok_ext msgs : forall f g, (forall id, f id = g id) -> nonces_ok f msgs = nonces_ok g msgs.
Proof.
  induction msgs as [|m msgs IH]; intros f g E; [done|]. simpl. rewrite E. f_equal.
  apply IH. by apply bump_ext.
Qed.
Lemma nonces_after_ext msgs : forall f g, (forall id, f id = g id) ->
  forall id, nonces_after f msgs id = nonces_after g msgs id.
Proof.
  induction msgs as [|m msgs IH]; intros f g E id; [by apply E|]. simpl. apply IH. by apply bump_ext.
Qed.

Record msgs_step (msgs : list SignedMessage) s s' : Prop := mkMsgsStep {
  mst_ok : nonces_ok (nonce_of Applied s) msgs = true;
  mst_nonces id : nonce_of Applied s' id = nonces_after (nonce_of Applied s) msgs id;
  mst_blocks k : has_tag BlockKeys k -> tds_get s' k = tds_get s k;
  mst_root : plain s -> v_root (cur s') = roots_after (v_root (cur s)) msgs /\
     (tds_get s RootKey = Some (v_root (cur s)) -> tds_get s' RootKey = Some (v_root (cur s')));
  mst_roots h : tds_get s' (NewKey [KMetaType pb.MetaType_ST_RootKey; KUint64 h])
             = tds_get s (NewKey [KMetaType pb.MetaType_ST_RootKey; KUint64 h]);
}.

Lemma apply_msgs_Ok msgs rs s s' : apply_msgs msgs rs s = (Ok tt, s') -> msgs_step msgs s s'.
Proof.
  revert rs s. induction msgs as [|m msgs IH]; intros rs s Hr; cbn [apply_msgs] in Hr.
  - apply ret_Ok in Hr as [_ ->]. by constructor.
  - destruct rs as [|r rs]; [done|].
    apply bind_Ok in Hr as ([] & s1 & H1 & Hr).
    pose proof (keeps_applyMsg (Some (sm_Message m)) r s) as C. rewrite H1 in C. simpl in C.
    apply applyMsg_Ok in H1 as []. apply IH in Hr as [].
    constructor.
    + simpl. rewrite st_nonce0, Z.eqb_refl. simpl. rewrite <-mst_ok0. by apply nonces_ok_ext.
    + intros id. rewrite mst_nonces0. simpl. by apply nonces_after_ext.
    + intros k Hk. by rewrite mst_blocks0, st_blocks0.
    + intros Hp. assert (Hp1 : plain s1) by (unfold plain; by rewrite (cf_version _ _ C)).
      destruct (st_root0 Hp) as [E1 E2], (mst_root0 Hp1) as [E3 E4].
      simpl. rewrite <-E1. auto.
    + intros h. by rewrite mst_roots0, st_roots0.
Qed.

(** ** The block *)

Lemma BlockHeightKey2_ne h : BlockHeightKey2 h <> BlockHeightKey.
Proof. intros E. apply NewKey_num_inj in E; [done| | |done..]; repeat constructor; by eexists. Qed.

Definition height_entry blk (mid : MsgID) : bytes :=
  copy_into MsgLen mid ++ put_be 8 (rh_Slot (sb_header blk)).

Definition RootKey2 h : bytes := NewKey [KMetaType pb.MetaType_ST_RootKey; KUint64 h].

(** What the body of a block has done when it succeeds. *)
Record body_step blk mid b s s' : Prop := mkBodyStep {
  bo_ok : nonces_ok (nonce_of Applied s) (mset_Msgs (sb_set blk)) = true;
  bo_nonces id : nonce_of Applied s' id = nonces_after (nonce_of Applied s) (mset_Msgs (sb_set blk)) id;
  bo_height : tds_get s' BlockHeightKey = Some (put_be 8 (rh_Height (sb_header blk)));
  bo_entry : tds_get s' (BlockHeightKey2 (rh_Height (sb_header blk))) = Some (height_entry blk mid);
  bo_root : plain s ->
    v_root (cur s') = roots_after (next_root (v_root (cur s)) b) (mset_Msgs (sb_set blk)) /\
    v_root (cur s') = mset_Root (sb_set blk) /\ tds_get s' RootKey = Some (v_root (cur s'));
  bo_roots h : tds_get s' (RootKey2 h) = tds_get s (RootKey2 h);
}.

(** [tds_Put] of one of the block's own keys. *)
Lemma tds_Put_Ok key v s s' : tds_Put key v s = (Ok tt, s') ->
  store_eff key s s' /\ tds_get s' key = Some v.
Proof.
  intros Hr. pose proof (tds_Put_eff key v s) as E. rewrite Hr in E. split; [done|].
  unfold tds_Put in Hr. go_inv. unfold tds_get. simpl. by rewrite lookup_insert_eq.
Qed.

(** What was written is read back, unless the tree shadows the store. *)
Lemma put_read key v s s' :
  put key v s = (Ok tt, s') -> v <> [] -> (plain s -> smt_get (smt s) key = None) ->
  read s' key = Some v.
Proof.
  unfold put. rewrite (bind_run _ _ _ _ _ (eq_refl : gets _ _ = _)). intros Hr Hv Hs.
  unfold read. case_match eqn:Hp.
  - apply Z.ltb_lt in Hp. apply tds_Put_Ok in Hr as [E Hg].
    by rewrite (se_smt _ _ _ E Hp), (Hs Hp).
  - unfold smt_Put in Hr. go_inv. rename select (smt_put _ _ _ = _) into E.
    simpl. rewrite (smt_get_put _ _ _ _ _ E), bool_decide_true by done. by destruct v.
Qed.

Lemma applyBlock_body_Ok blk mid b s s' :
  applyBlock_body blk mid b s = (Ok tt, s') -> body_step blk mid b s s'.
Proof.
  unfold applyBlock_body. intros Hr.
  apply bind_Ok in Hr as ([] & s1 & [E1 G1]%tds_Put_Ok & Hr).
  apply bind_Ok in Hr as ([] & s2 & [E2 G2]%tds_Put_Ok & Hr).
  apply bind_Ok in Hr as ([] & s3 & H3 & Hr).
  pose proof (keeps_newRoot b s2) as C3. rewrite H3 in C3. simpl in C3.
  apply newRoot_Ok in H3 as (N1 & N2 & _ & _ & _ & N3 & N4).
  apply bind_Ok in Hr as ([] & s4 & H4 & Hr).
  pose proof (keeps_apply_msgs (mset_Msgs (sb_set blk)) (mset_Receipts (sb_set blk)) s3) as C4.
  rewrite H4 in C4. simpl in C4. apply apply_msgs_Ok in H4 as [].
  apply bind_Ok in Hr as (v & ? & [-> ->]%gets_Ok & [Hroot <-]%check_Ok).
  assert (HN : forall id, nonce_of Applied s3 id = nonce_of Applied s id).
  { intros id. rewrite N1.
    rewrite (nonce_tag_eff Applied _ _ s1 s2 E2) by tag_compute.
    apply (nonce_tag_eff Applied pb.MetaType_ST_BlockHeightKey [] s s1 E1). tag_compute. }
  assert (HB : forall k, has_tag BlockKeys k -> tds_get s' k = tds_get s2 k).
  { intros k Hk. by rewrite mst_blocks0, N2. }
  assert (HR : forall k, has_tag [pb.MetaType_ST_RootKey] k -> tds_get s2 k = tds_get s k).
  { intros k Hk. destruct (se_read _ _ _ E2 k) as [-> _];
      [eapply has_tag_ne'; [exact Hk|tag_compute]|].
    apply (se_read _ _ _ E1). eapply has_tag_ne'; [exact Hk|tag_compute]. }
  assert (Hc : cur s2 = cur s) by (by rewrite (se_cur _ _ _ E2), (se_cur _ _ _ E1)).
  constructor.
  - rewrite <-mst_ok0. symmetry. by apply nonces_ok_ext.
  - intros id. rewrite mst_nonces0. by apply nonces_after_ext.
  - rewrite HB by (apply has_tag_NewKey; unfold BlockKeys; set_solver).
    destruct (se_read _ _ _ E2 BlockHeightKey) as [-> _]; [|done].
    intros E. symmetry in E. by apply BlockHeightKey2_ne in E.
  - by rewrite HB by (apply has_tag_NewKey; unfold BlockKeys; set_solver).
  - intros Hp. assert (Hp2 : plain s2) by (unfold plain; by rewrite Hc).
    assert (Hp3 : plain s3) by (unfold plain; by rewrite (cf_version _ _ C3)).
    destruct (N3 Hp2) as [R1 R2], (mst_root0 Hp3) as [R3 R4].
    rewrite R1, Hc in R3. split_and!; [done| |by apply R4].
    apply negb_true_iff, andb_false_iff in Hroot as [Hroot|Hroot].
    + apply Z.ltb_ge in Hroot. exfalso. unfold plain in Hp3.
      rewrite (cf_version _ _ C4) in Hroot. lia.
    + apply negb_false_iff in Hroot. unfold MsgID_Equal in Hroot. by apply bool_decide_eq_true in Hroot.
  - intros h. unfold RootKey2. rewrite mst_roots0, N4. apply HR, has_tag_NewKey. set_solver.
Qed.

(** The checks that come first leave the state alone when they pass. *)
Lemma applyBlock_checks_Ok blk s s' : applyBlock_checks blk s = (Ok tt, s') ->
  s' = s /\ rh_Height (sb_header blk) = v_height (cur s) /\ v_slot (cur s) < rh_Slot (sb_header blk) /\
  rh_PrevID (sb_header blk) = blkID s /\ mset_ParentRoot (sb_set blk) = v_root (cur s).
Proof.
  unfold applyBlock_checks, MsgID_Equal. intros Hr.
  apply bind_Ok in Hr as (v & ? & [-> ->]%gets_Ok & Hr).
  apply bind_Ok in Hr as ([] & ? & [Hh ->]%check_Ok & Hr).
  apply bind_Ok in Hr as ([] & ? & [Hs ->]%check_Ok & Hr).
  apply bind_Ok in Hr as (id & ? & [-> ->]%gets_Ok & Hr).
  apply bind_Ok in Hr as ([] & s1 & H1 & Hr).
  apply Z.eqb_eq in Hh. apply negb_true_iff, Z.leb_gt in Hs.
  destruct (bool_decide_reflect (rh_PrevID (sb_header blk) = blkID s)) as [Hp|];
    [|apply bind_Ok in H1 as (? & ? & _ & []%throw_Ok)].
  apply ret_Ok in H1 as [_ ->].
  case_bool_decide as Hq; [|apply bind_Ok in Hr as (? & ? & _ & []%throw_Ok)].
  by apply ret_Ok in Hr as [_ ->].
Qed.

Lemma applyBlock_admission_state blk s : (applyBlock_admission blk s).2 = s.
Proof.
  assert (Keeps eq (applyBlock_admission blk)) as K; [|symmetry; apply K].
  unfold applyBlock_admission, applyBlock_signers, genesis_msg_ok. keeps.
Qed.

Definition open_txn s : StateMgr := set_tds (fun _ => Some (ds s)) s.

Lemma open_txn_read s k : tds s = None -> tds_get (open_txn s) k = ds s !! k.
Proof. done. Qed.
Lemma open_txn_nonce w s id : tds s = None -> nonce_of w (open_txn s) id = nonce_of w s id.
Proof.
  intros Ht. apply nonce_of_eq; [by destruct w|].
  unfold read, tds_get. simpl. by rewrite Ht.
Qed.

Record block_step blk s s' : Prop := mkBlockStep {
  bk_height : rh_Height (sb_header blk) = v_height (cur s);
  bk_slot : v_slot (cur s) < rh_Slot (sb_header blk);
  bk_prev : rh_PrevID (sb_header blk) = blkID s;
  bk_parent : mset_ParentRoot (sb_set blk) = v_root (cur s);
  bk_admission : applyBlock_admission blk (open_txn s) = (Ok tt, open_txn s);
  bk_nonces_ok : nonces_ok (nonce_of Applied s) (mset_Msgs (sb_set blk)) = true;
  bk_nonces id : nonce_of Applied s' id = nonces_after (nonce_of Applied s) (mset_Msgs (sb_set blk)) id;
  bk_vld : vld s' = vld s;
  bk_tds : tds s' = None;
  bk_height' : v_height (cur s') = u64 (v_height (cur s) + 1);
  bk_slot' : v_slot (cur s') = rh_Slot (sb_header blk);
  bk_blkID : blkID s' = RawBlock_Hash (sb_RawBlock blk);
  bk_version : v_version (cur s') = next_version (v_version (cur s)) (u64 (v_height (cur s) + 1));
  bk_ds_height : ds s' !! BlockHeightKey = Some (put_be 8 (v_height (cur s)));
  bk_ds_entry : ds s' !! BlockHeightKey2 (v_height (cur s))
                = Some (height_entry blk (RawBlock_Hash (sb_RawBlock blk)));
  bk_root : plain s -> exists b, marshal (sb_header blk) = Some b /\
    v_root (cur s') = roots_after (next_root (v_root (cur s)) b) (mset_Msgs (sb_set blk)) /\
    v_root (cur s') = mset_Root (sb_set blk) /\ ds s' !! RootKey = Some (v_root (cur s'));
  bk_roots h : plain s -> ds s' !! RootKey2 h = ds s !! RootKey2 h;
}.

(** [saveRoot] after a successful body. *)
Lemma saveRoot_Ok s s' : saveRoot s = (Ok tt, s') ->
  (forall id, nonce_of Applied s' id = nonce_of Applied s id) /\
  (forall k, has_tag BlockKeys k -> tds_get s' k = tds_get s k) /\
  (plain s -> s' = s) /\ chain_frame s s'.
Proof.
  intros Hr. pose proof (keeps_saveRoot s) as C. rewrite Hr in C. simpl in C. revert Hr.
  unfold saveRoot. rewrite (bind_run _ _ _ _ _ (eq_refl : gets _ _ = _)).
  unfold plain. rewrite Z.geb_leb. case_match eqn:Hv; intros Hr.
  - apply Z.leb_le in Hv.
    apply bind_Ok in Hr as (t & ? & [-> ->]%gets_Ok & Hr).
    apply bind_Ok in Hr as ([] & s1 & ->%modify_Ok & Hr).
    apply bind_Ok in Hr as ([] & s2 & [E1 _]%tds_Put_Ok & [E2 _]%tds_Put_Ok).
    split_and!; [|intros k Hk|lia|done].
    + intros id. rewrite (nonce_tag_eff Applied _ _ s2 s' E2) by tag_compute.
      apply (nonce_tag_eff Applied pb.MetaType_ST_RootKey [] _ s2 E1). tag_compute.
    + destruct (se_read _ _ _ E2 k) as [-> _]; [eapply has_tag_ne'; [exact Hk|tag_compute]|].
      destruct (se_read _ _ _ E1 k) as [-> _]; [eapply has_tag_ne'; [exact Hk|tag_compute]|done].
  - apply ret_Ok in Hr as [_ ->]. done.
Qed.

Lemma applyBlock_txn_Ok blk b mid s s' :
  (do! applyBlock_body blk mid b;
   do! modify (set_smt (fun t => smt_set_root (smt_root t) t));
   do! saveRoot;
   do! commit;
   advance blk mid) s = (Ok tt, s') ->
  exists s1 s3, applyBlock_body blk mid b s = (Ok tt, s1) /\ chain_frame s s1 /\
    (forall id, nonce_of Applied s3 id = nonce_of Applied s1 id) /\
    (forall k, has_tag BlockKeys k -> tds_get s3 k = tds_get s1 k) /\
    (plain s -> cur s3 = cur s1 /\ tds s3 = tds s1) /\
    vld s3 = vld s /\ v_version (cur s3) = v_version (cur s) /\ v_height (cur s3) = v_height (cur s) /\
    tds s3 <> None /\ advance blk mid (set_ds (fun d => default d (tds s3)) s3) = (Ok tt, s').
Proof.
  intros Hr. apply bind_Ok in Hr as ([] & s1 & H1 & Hr).
  pose proof (keeps_applyBlock_body blk mid b s) as C1. rewrite H1 in C1. simpl in C1.
  apply bind_Ok in Hr as ([] & s2 & ->%modify_Ok & Hr).
  apply bind_Ok in Hr as ([] & s3 & (N & B & P & C)%saveRoot_Ok & Hr).
  apply bind_Ok in Hr as ([] & s4 & H4 & Hr). unfold commit in H4. go_inv.
  rename select (tds _ = Some _) into Ht.
  exists s1, s3. split_and!; try done.
  - intros id. rewrite N. apply nonce_of_eq; [done|]. unfold read.
    simpl. rewrite smt_get_commit. done.
  - intros Hp. rewrite P; [done|]. unfold plain in *. simpl. by rewrite (cf_version _ _ C1).
  - by rewrite (cf_vld _ _ C), <-(cf_vld _ _ C1).
  - by rewrite (cf_version _ _ C), <-(cf_version _ _ C1).
  - by rewrite (cf_height _ _ C), <-(cf_height _ _ C1).
  - congruence.
  - by rewrite Ht.
Qed.

Lemma with_txn_Ok m s s' : with_txn m s = (Ok tt, s') ->
  exists s1, m (open_txn s) = (Ok tt, s1) /\ s' = set_tds (fun _ => None) s1.
Proof.
  unfold with_txn. change (NewTxn s).2 with (open_txn s).
  destruct (m (open_txn s)) as [o s1]. simpl. intros [= -> <-]. by exists s1.
Qed.

(** The scalars after a block; the transaction is the database now. *)
Lemma advance_Ok blk mid s s' : advance blk mid s = (Ok tt, s') ->
  v_height (cur s') = u64 (v_height (cur s) + 1) /\ v_slot (cur s') = rh_Slot (sb_header blk) /\
  blkID s' = mid /\ v_version (cur s') = next_version (v_version (cur s)) (u64 (v_height (cur s) + 1)) /\
  v_root (cur s') = v_root (cur s) /\ v_rInfo (cur s') = v_rInfo (cur s) /\
  ds s' = ds s /\ tds s' = tds s /\ smt s' = smt s /\ vld s' = vld s.
Proof. unfold advance. intros Hr. go_inv. done. Qed.

Lemma ApplyBlock_Ok blk s s' :
  tds s = None -> ApplyBlock (Some blk) s = (Ok tt, s') -> block_step blk s s'.
Proof.
  intros Ht Hr. unfold ApplyBlock in Hr.
  apply bind_Ok in Hr as ([] & s0 & (-> & Hh & Hsl & Hp & Hq)%applyBlock_checks_Ok & Hr).
  apply with_txn_Ok in Hr as (s9 & E & ->).
  apply bind_Ok in E as ([] & s1 & Ha & E).
  pose proof (applyBlock_admission_state blk (open_txn s)) as Hs. rewrite Ha in Hs. simpl in Hs. subst s1.
  apply bind_Ok in E as (b & ? & [Hb ->]%of_option_Ok & E).
  apply applyBlock_txn_Ok in E as (s1 & s3 & Hbody & C1 & N3 & B3 & P3 & V3 & Ver3 & H3 & T3 & E).
  apply applyBlock_body_Ok in Hbody as [].
  apply advance_Ok in E as (A1 & A2 & A3 & A4 & A5 & A6 & A7 & A8 & A9 & A10). simpl in *.
  destruct (tds s3) as [t|] eqn:Et; [|done]. simpl in *.
  assert (HT : forall k, tds_get s3 k = ds s9 !! k)
    by (intros k; unfold tds_get; by rewrite Et, A7).
  assert (HB : forall h, has_tag BlockKeys (BlockHeightKey2 h))
    by (intros; apply has_tag_NewKey; unfold BlockKeys; set_solver).
  assert (HN : forall id, nonce_of Applied (open_txn s) id = nonce_of Applied s id)
    by (intros; by apply open_txn_nonce).
  constructor; simpl; try done; try congruence.
  - rewrite <-bo_ok0. by apply nonces_ok_ext.
  - intros id. rewrite (nonces_after_ext _ _ (nonce_of Applied (open_txn s))) by done.
    rewrite <-bo_nonces0, <-N3. apply nonce_of_eq; [simpl; congruence|].
    unfold read. simpl. rewrite A9. by rewrite HT.
  - rewrite <-HT, B3, bo_height0 by (apply has_tag_NewKey; unfold BlockKeys; set_solver).
    by rewrite Hh.
  - rewrite <-HT, B3, <-Hh, bo_entry0 by done. done.
  - intros Hpl. exists b. split; [done|]. destruct (bo_root0 Hpl) as (R1 & R2 & R3).
    destruct (P3 Hpl) as [P1 P2]. rewrite A5, P1. split_and!; [done..|].
    rewrite <-HT. unfold tds_get in *. rewrite Et. by rewrite <-P2 in R3.
  - intros h Hpl. destruct (P3 Hpl) as [P1 P2]. specialize (bo_roots0 h).
    rewrite <-HT. unfold tds_get in *. rewrite Et. simpl in *. by rewrite <-P2 in bo_roots0.
Qed.

(** ** What survives an error *)

(** [chain_frame] without the tree. *)
Record chain_core s s' : Prop := mkChainCore {
  cc_ds : ds s' = ds s;
  cc_tds : tds s' = None <-> tds s = None;
  cc_vld : vld s' = vld s;
  cc_version : v_version (cur s') = v_version (cur s);
  cc_height : v_height (cur s') = v_height (cur s);
  cc_slot : v_slot (cur s') = v_slot (cur s);
  cc_blk : blkID s' = blkID s;
}.
#[export] Instance chain_core_preorder : PreOrder chain_core.
Proof.
  split; [intros s; by constructor|].
  intros s1 s2 s3 [] []. constructor; try congruence; tauto.
Qed.
Lemma keeps_core {A} (m : M StateMgr A) : Keeps chain_frame m -> Keeps chain_core m.
Proof. intros Hm s. destruct (Hm s). by constructor. Qed.

(** The run ends well, or has not left the core of [s]. *)
Definition safe_err s (r : outcome unit * StateMgr) : Prop := r.1 <> Ok tt -> chain_core s r.2.

Lemma safe_bind {A} (m : M StateMgr A) (f : A -> M StateMgr unit) s0 s :
  chain_core s0 s -> Keeps chain_core m ->
  (forall a s1, chain_core s0 s1 -> safe_err s0 (f a s1)) -> safe_err s0 (bind m f s).
Proof.
  intros C Hm Hf. unfold bind. specialize (Hm s).
  destruct (m s) as [[a|e|w] s1]; simpl in Hm.
  - apply Hf. by etransitivity.
  - intros _. by etransitivity.
  - intros _. by etransitivity.
Qed.

Lemma safe_commit blk mid s0 s : tds s0 <> None -> chain_core s0 s ->
  safe_err s0 ((do! commit; advance blk mid) s).
Proof.
  intros Ht C. unfold safe_err. assert (Hs : tds s <> None) by (by rewrite (cc_tds _ _ C)).
  unfold commit, bind, gets, deref. destruct (tds s) as [t|]; [|done]. simpl. done.
Qed.

(** Equal, in the branch without the tree. *)
Definition plain_eq s s' : Prop := plain s -> s' = s.
#[local] Instance plain_eq_preorder : PreOrder plain_eq.
Proof.
  split; [by intros s|]. intros s1 s2 s3 E1 E2 Hp. specialize (E1 Hp). subst s2. auto.
Qed.

Lemma keeps_set_height_back h : Keeps plain_eq (set_height_back h).
Proof.
  intros s Hp. unfold set_height_back. rewrite (bind_run _ _ _ _ _ (eq_refl : gets _ _ = _)).
  replace (v_version (cur s) >=? SMTVersion) with false; [by rewrite andb_false_r|].
  symmetry. rewrite Z.geb_leb. by apply Z.leb_gt.
Qed.
#[local] Hint Resolve keeps_set_height_back : keeps.

Lemma applyBlock_checks_plain blk s : plain s -> (applyBlock_checks blk s).2 = s.
Proof.
  assert (K : Keeps plain_eq (applyBlock_checks blk)); [|apply K].
  unfold applyBlock_checks. keeps.
Qed.

(** ** Chains of blocks *)

(** Applying blocks one after the other, as the sync pool does. *)
Definition apply_chain (blks : list SignedBlock) : M StateMgr unit :=
  for_each blks (fun blk => ApplyBlock (Some blk)).

Definition chain_msgs (blks : list SignedBlock) : list SignedMessage :=
  concat ((fun blk => mset_Msgs (sb_set blk)) <$> blks).

Lemma nonces_ok_app f l1 l2 :
  nonces_ok f (l1 ++ l2) = nonces_ok f l1 && nonces_ok (nonces_after f l1) l2.
Proof.
  revert f. induction l1 as [|m l1 IH]; intros f; simpl; [done|]. by rewrite IH, andb_assoc.
Qed.

Lemma apply_chain_nonces blks s s' :
  tds s = None -> apply_chain blks s = (Ok tt, s') ->
  nonces_ok (nonce_of Applied s) (chain_msgs blks) = true.
Proof.
  revert s. induction blks as [|blk blks IH]; intros s Ht Hr; [done|].
  apply bind_Ok in Hr as ([] & s1 & H1 & Hr).
  destruct (ApplyBlock_Ok _ _ _ Ht H1) as [].
  unfold chain_msgs in *. simpl. rewrite nonces_ok_app, bk_nonces_ok0. simpl.
  rewrite <-(IH s1) by done. apply nonces_ok_ext. intros id. by rewrite bk_nonces0.
Qed.

(** With no wrap-around in sight, the expected nonces only grow, and a list of
    messages with good nonces repeats no (sender, nonce) pair. *)
Lemma nonces_ok_NoDup msgs : forall f,
  (forall id, 0 <= f id /\ f id + Z.of_nat (length msgs) < 2 ^ 64) ->
  nonces_ok f msgs = true ->
  NoDup ((fun m => (m_From (sm_Message m), m_Nonce (sm_Message m))) <$> msgs) /\
  forall m, m ∈ msgs -> f (m_From (sm_Message m)) <= m_Nonce (sm_Message m).
Proof.
  induction msgs as [|m msgs IH]; intros f Hb Hok; [split; [constructor|set_solver]|].
  cbn [length] in Hb. simpl in Hok. apply andb_true_iff in Hok as [Hn%Z.eqb_eq Hok].
  assert (Hbump : forall id, f id <= bump f (m_From (sm_Message m)) id <= f id + 1 /\
            bump f (m_From (sm_Message m)) (m_From (sm_Message m)) = f (m_From (sm_Message m)) + 1).
  { intros id. unfold bump. rewrite Z.eqb_refl. pose proof (Hb id). pose proof (Hb (m_From (sm_Message m))).
    rewrite (u64_id (f (m_From _) + 1)) by (unfold is_u64; lia). split; [|done].
    case_match; [|lia]. rewrite u64_id by (unfold is_u64; lia). lia. }
  destruct (IH (bump f (m_From (sm_Message m)))) as [Hnd Hle].
  { intros id. pose proof (Hb id). destruct (Hbump id) as [? _]. lia. }
  { done. }
  split.
  - rewrite fmap_cons. constructor; [|done]. rewrite list_elem_of_fmap. intros (m' & E & Hin).
    injection E as E1 E2. specialize (Hle m' Hin). rewrite <-E1 in Hle.
    destruct (Hbump 0) as [_ Hb']. lia.
  - intros m' [->|Hin]%elem_of_cons; [lia|]. specialize (Hle m' Hin).
    destruct (Hbump (m_From (sm_Message m'))) as [? _]. lia.
Qed.

(** ** Signers *)

Lemma keeper_signers_spec signers kps :
  keeper_signers signers kps = list_to_set signers ∩ list_to_set kps.
Proof.
  unfold keeper_signers.
  assert (G : forall acc : gset Z, foldl (fun sset signer =>
      if existsb (fun kid => signer =? kid) kps then {[ signer ]} ∪ sset else sset) acc signers
      = acc ∪ (list_to_set signers ∩ list_to_set kps)).
  { induction signers as [|x l IH]; intros acc; [set_solver|]. cbn [foldl]. rewrite IH. simpl.
    destruct (existsb _ _) eqn:E.
    - apply existsb_exists in E as (k & Hk & ->%Z.eqb_eq). apply list_elem_of_In in Hk. set_solver.
    - assert (x ∉ (list_to_set kps : gset Z)); [|set_solver].
      rewrite elem_of_list_to_set, list_elem_of_In. intros Hin.
      assert (existsb (fun kid => x =? kid) kps = true); [|congruence].
      apply existsb_exists. exists x. by rewrite Z.eqb_refl. }
  rewrite G. set_solver.
Qed.
End Chain.
