(* ===== verification/OrderScenario.v ===== *)
(** * OrderScenario: an order on the small chain

    Continues [Scenario]: user 7 opens an order with provider 9 ([st3]), which
    takes two segments, commits it and opens the next ([st4]); two challenge
    epochs start ([st5]), the provider proves the order ([st6]), and once the
    proved epoch is over ([st7]) its income can be confirmed.  Each state is
    reached by applying a block to the one before. *)

From S2P Require Import Prelude GoMonad Codec Keys Segments SegmentID Types Tx Fr StateTypes Concrete State Roles Chunks Orders Challenge Pay Validate Block Handlers Frame Chain Scenario.

(** An order of both parties, with their signatures. *)
Definition sign_order (or : SignedOrder) : SignedOrder :=
  let h := default [] (SignedOrder_Hash or) in
  mkSignedOrder (so_OrderBase or) (so_Size or) (so_Price or) (sig_of 7 h) (sig_of 9 h).
Definition order_of (nonce start stop size price : Z) : SignedOrder :=
  sign_order (mkSignedOrder (mkOrderBase 7 9 nonce start stop 0 (Some 2) (Some 1)) size (Some price)
                (mkSignature 0 []) (mkSignature 0 [])).
Definition open_msg (n : Z) (or : SignedOrder) : Message := msg_of 7 n PreDataOrder (enc or).

(** The sequence that takes [old], of [size] and [price], by the segments. *)
Definition seq_of (old : SignedOrder) (seqNum : Z) (segs : list AggSegs) : SignedOrderSeq :=
  let b := so_OrderBase old in
  let size := so_Size old + segs_count segs * DefaultSegSize in
  let price := default 0 (ob_SegPrice b) * segs_count segs + default 0 (so_Price old) in
  let so := mkOrderSeq 7 9 (ob_Nonce b) seqNum size (Some price) segs in
  let nil := mkSignature 0 [] in
  let h := SignedOrderSeq_Hash (mkSignedOrderSeq so nil nil nil nil) in
  let oh := default [] (SignedOrder_Hash (mkSignedOrder b size (Some price) nil nil)) in
  mkSignedOrderSeq so (sig_of 7 h) (sig_of 9 h) (sig_of 7 oh) (sig_of 9 oh).
Definition seq_msg (n : Z) (sos : SignedOrderSeq) : Message := msg_of 7 n AddDataOrder (enc sos).
Definition commit_msg (n nonce seqNum : Z) : Message :=
  msg_of 7 n CommitDataOrder (enc (mkOrderCommitParas 7 9 nonce seqNum)).
Definition epoch_msg (s : StateMgr) (from n : Z) : Message :=
  let ce := v_ceInfo (cur s) in
  msg_of from n UpdateChalEpoch (enc (mkSignedEpochParams (ci_epoch ce) (ce_Seed (ci_current ce))
                                        (mkMultiSignature SigBLS [] []))).

(** The first order runs from the third day to the hundred-and-tenth. *)
Definition first_order : SignedOrder :=
  order_of 0 (BaseTime + 2 * Day) (BaseTime + 110 * Day) 0 0.
Definition two_segs : list AggSegs := [mkAggSegs 0 0 2 0].
Definition first_seq : SignedOrderSeq := seq_of first_order 0 two_segs.
Definition blk2 : SignedBlock := Eval vm_compute in block_at st2 3 [5; 6] [open_msg 3 first_order] [0].
Definition st3 : StateMgr := Eval vm_compute in final (ApplyBlock (Some blk2)) st2.
Definition second_order : SignedOrder :=
  order_of 1 (BaseTime + 3 * Day) (BaseTime + 120 * Day) 0 0.
Definition blk3 : SignedBlock := Eval vm_compute in   block_at st3 4 [5; 6] [seq_msg 4 first_seq; commit_msg 5 0 1; open_msg 6 second_order] [0; 0; 0].
Definition st4 : StateMgr := Eval vm_compute in final (ApplyBlock (Some blk3)) st3.

Lemma st3_run : ApplyBlock (Some blk2) st2 = (Ok tt, st3).
Proof. vm_cast_no_check (eq_refl (Ok (A := unit) tt, st3)). Qed.
Lemma st4_run : ApplyBlock (Some blk3) st3 = (Ok tt, st4).
Proof. vm_cast_no_check (eq_refl (Ok (A := unit) tt, st4)). Qed.
(** The two blocks, and the whole chain from the start-up state. *)
Lemma order_chain_run : apply_chain [blk2; blk3] st2 = (Ok tt, st4).
Proof. vm_cast_no_check (eq_refl (Ok (A := unit) tt, st4)). Qed.
Lemma full_chain_run : apply_chain [blk0; blk1; blk2; blk3] (NewStateMgr [] 1 1 ∅ ∅) = (Ok tt, st4).
Proof. vm_cast_no_check (eq_refl (Ok (A := unit) tt, st4)). Qed.

(** An empty block dates the epoch the next block starts. *)
Definition epoch_blocks (s : StateMgr) (slot n : Z) : list SignedBlock :=
  let b := block_at s slot [5; 6] [] [] in
  let s := final (ApplyBlock (Some b)) s in
  [b; block_at s (slot + 1) [5; 6] [epoch_msg s 5 n] [0]].
Definition first_epoch : list SignedBlock := Eval vm_compute in epoch_blocks st4 8640 1.
Definition st4e : StateMgr := Eval vm_compute in final (apply_chain first_epoch) st4.
Lemma first_epoch_run : apply_chain first_epoch st4 = (Ok tt, st4e).
Proof. vm_cast_no_check (eq_refl (Ok (A := unit) tt, st4e)). Qed.
Definition st5 : StateMgr := Eval vm_compute in final (apply_chain (epoch_blocks st4e 11520 2)) st4e.
Definition proof_params : SegChalParams :=
  mkSegChalParams 7 9 1 0 1 (2 * DefaultSegSize) (Some (4 * Day)) user_key.
Definition proof_msg (n : Z) : Message := msg_of 9 n SegmentProof (enc proof_params).
Definition st6 : StateMgr := Eval vm_compute in apply_at st5 11530 [5; 6] [proof_msg 1].
Definition st7 : StateMgr := Eval vm_compute in final (apply_chain (epoch_blocks st6 14400 3)) st6.

Definition income1 : AccPostIncome := mkAccPostIncome 9 0 (Some (4 * Day)) (Some 0).
Definition pay_msg (from n : Z) : Message :=
  msg_of from n ConfirmPostIncome
    (enc (mkPostIncomeParams 1 income1 (sig_of from (default [] (AccPostIncome_Hash income1))))).

