(* ===== verification/Lift.v ===== *)
(** * Lift: from messages to chains

    A relation between states that every successfully applied message keeps,
    and that the bookkeeping of a block cannot break, holds between the two
    ends of any chain of applied blocks.  [ChainRel] lists what it has to
    allow; [RoleHistory] and [OrderHistory] are its instances. *)

From S2P Require Import Prelude GoMonad Codec Keys Segments SegmentID Types Tx Fr StateTypes State Roles Chunks Orders Challenge Pay Validate Block Handlers Frame Chain.

Section Lift.
Context `{!StateEnv, !SMTLaws}.
Implicit Types (s : StateMgr) (msg : Message) (blk : SignedBlock) (key b : bytes).

(** The tables of the block's own bookkeeping. *)
Definition block_tables : list Z := [pb.MetaType_ST_RootKey; pb.MetaType_ST_BlockHeightKey].

Record same_caches s s' : Prop := mkSameCaches {
  sc_rInfo : v_rInfo (cur s') = v_rInfo (cur s);
  sc_oInfo : v_oInfo (cur s') = v_oInfo (cur s);
  sc_sInfo : v_sInfo (cur s') = v_sInfo (cur s);
  sc_ceInfo : v_ceInfo (cur s') = v_ceInfo (cur s);
}.

Class ChainRel (R : StateMgr -> StateMgr -> Prop) := {
  cr_pre :: PreOrder R;
  cr_same s s' : (forall k, read s' k = read s k) ->
    (forall k, smt_get (smt s') k = smt_get (smt s) k) ->
    (v_version (cur s') = v_version (cur s) \/
     exists h, v_version (cur s') = next_version (v_version (cur s)) h) ->
    same_caches s s' -> R s s';
  cr_store t vs s s' : bool_decide (t ∈ block_tables) = true ->
    store_eff (NewKey (KMetaType t :: vs)) s s' -> R s s';
  cr_msg msg r s s' : applyMsg (Some msg) r s = (Ok tt, s') -> R s s';
}.

Context (R : StateMgr -> StateMgr -> Prop) `{!ChainRel R}.

Lemma lift_tds_Put t vs v s s' : bool_decide (t ∈ block_tables) = true ->
  tds_Put (NewKey (KMetaType t :: vs)) v s = (Ok tt, s') -> R s s'.
Proof.
  intros Ht Hr. eapply (cr_store (R := R)); [exact Ht|].
  pose proof (tds_Put_eff (NewKey (KMetaType t :: vs)) v s) as E. rewrite Hr in E. exact E.
Qed.

Lemma lift_set_root f s : R s (set_cur (set_v_root f) s).
Proof. apply (cr_same (R := R)); try done. by left. Qed.

Lemma lift_newRoot b s s' : newRoot b s = (Ok tt, s') -> R s s'.
Proof.
  unfold newRoot. rewrite (bind_run _ _ _ _ _ (eq_refl : gets _ _ = _)). case_match; intros Hr.
  - apply bind_Ok in Hr as ([] & s1 & ->%modify_Ok & Hr).
    rewrite (bind_run _ _ _ _ _ (eq_refl : gets _ _ = _)) in Hr.
    etransitivity; [apply lift_set_root|]. eapply (lift_tds_Put pb.MetaType_ST_RootKey []); [|exact Hr].
    tag_compute.
  - apply bind_Ok in Hr as (o & s1 & Hm & [_ ->]%ret_Ok).
    eapply (cr_store (R := R) pb.MetaType_ST_RootKey []); [tag_compute|].
    pose proof (put_eff RootKey b s) as E. fold RootKey.
    apply try_err_Ok in Hm as [(? & _ & Hm)|(_ & e & Hm)]; by rewrite Hm in E.
Qed.

Lemma lift_apply_msgs msgs rs s s' : apply_msgs msgs rs s = (Ok tt, s') -> R s s'.
Proof.
  revert rs s. induction msgs as [|m msgs IH]; intros rs s Hr; simpl in Hr.
  { apply ret_Ok in Hr as [_ ->]. reflexivity. }
  destruct rs as [|r rs]; [done|]. apply bind_Ok in Hr as ([] & s1 & H1 & Hr).
  etransitivity; [by eapply (cr_msg (R := R))|by eapply IH].
Qed.

Lemma lift_body blk mid b s s' : applyBlock_body blk mid b s = (Ok tt, s') -> R s s'.
Proof.
  intros Hr. unfold applyBlock_body in Hr.
  apply bind_Ok in Hr as ([] & s1 & H1 & Hr).
  apply bind_Ok in Hr as ([] & s2 & H2 & Hr).
  apply bind_Ok in Hr as ([] & s3 & H3 & Hr).
  apply bind_Ok in Hr as ([] & s4 & H4 & Hr).
  apply bind_Ok in Hr as (v & ? & [-> ->]%gets_Ok & [_ ->]%check_Ok).
  transitivity s1; [by eapply (lift_tds_Put pb.MetaType_ST_BlockHeightKey []); [tag_compute|]|].
  transitivity s2; [by eapply (lift_tds_Put pb.MetaType_ST_BlockHeightKey); [tag_compute|]|].
  transitivity s3; [by eapply lift_newRoot|by eapply lift_apply_msgs].
Qed.

Lemma lift_saveRoot s s' : saveRoot s = (Ok tt, s') -> R s s'.
Proof.
  unfold saveRoot. rewrite (bind_run _ _ _ _ _ (eq_refl : gets _ _ = _)). case_match; intros Hr.
  - apply bind_Ok in Hr as (t & ? & [-> ->]%gets_Ok & Hr).
    apply bind_Ok in Hr as ([] & s1 & ->%modify_Ok & Hr).
    apply bind_Ok in Hr as ([] & s2 & H2 & Hr).
    etransitivity; [apply lift_set_root|].
    transitivity s2; [eapply (lift_tds_Put pb.MetaType_ST_RootKey []); [tag_compute|exact H2]|].
    eapply (lift_tds_Put pb.MetaType_ST_RootKey); [tag_compute|exact Hr].
  - apply ret_Ok in Hr as [_ ->]. reflexivity.
Qed.

Lemma lift_ApplyBlock blk s s' :
  tds s = None -> ApplyBlock (Some blk) s = (Ok tt, s') -> R s s'.
Proof.
  intros Ht Hr. unfold ApplyBlock in Hr.
  apply bind_Ok in Hr as ([] & s0 & (-> & _)%applyBlock_checks_Ok & Hr).
  apply with_txn_Ok in Hr as (s9 & E & ->).
  apply bind_Ok in E as ([] & s1 & Ha & E).
  pose proof (applyBlock_admission_state blk (open_txn s)) as Hs. rewrite Ha in Hs. simpl in Hs. subst s1.
  apply bind_Ok in E as (b & ? & [_ ->]%of_option_Ok & E).
  apply bind_Ok in E as ([] & s1 & H1 & E).
  apply bind_Ok in E as ([] & s2 & ->%modify_Ok & E).
  apply bind_Ok in E as ([] & s3 & H3 & E).
  apply bind_Ok in E as ([] & s4 & H4 & E). unfold commit in H4. go_inv.
  rename select (tds _ = Some _) into Et. unfold advance in E. go_inv.
  transitivity (open_txn s).
  { apply (cr_same (R := R)); [|done|by left|done]. intros k. unfold read, tds_get. simpl. by rewrite Ht. }
  transitivity s1; [by eapply lift_body|].
  transitivity s3.
  - etransitivity; [|by eapply lift_saveRoot].
    apply (cr_same (R := R)); [| |by left|done]; intros k; [unfold read|]; simpl; by rewrite smt_get_commit.
  - apply (cr_same (R := R)); [|done|right; by eexists|done]. intros k. unfold read, tds_get. simpl. by rewrite Et.
Qed.

Lemma lift_apply_chain blks s s' :
  tds s = None -> apply_chain blks s = (Ok tt, s') -> R s s'.
Proof.
  revert s. induction blks as [|blk blks IH]; intros s Ht Hr.
  { apply ret_Ok in Hr as [_ ->]. reflexivity. }
  apply bind_Ok in Hr as ([] & s1 & H1 & Hr).
  etransitivity; [by eapply lift_ApplyBlock|]. apply IH; [|done].
  by destruct (ApplyBlock_Ok _ _ _ Ht H1).
Qed.
End Lift.
