(* ===== verification/RoleHistory.v ===== *)
(** * RoleHistory: a registered role is permanent

    The role of an account is the one cached, or else the one stored
    ([role_at]).  No handler changes a registered role, [addRole] included:
    it refuses an account that has one.  Lifted to chains of blocks. *)

From S2P Require Import Prelude GoMonad Codec Keys Segments SegmentID Types Tx Fr StateTypes State Roles Chunks Orders Challenge Pay Validate Block Handlers Frame Chain Lift.

Section RoleHistory.
Context `{!StateEnv, !SMTLaws}.
Implicit Types (s : StateMgr) (id : Z) (msg : Message) (key : bytes) (ri : roleInfo).

(** The base [loadRole] finds, and the one the applied side works with. *)
Definition stored_base s id : option RoleInfo :=
  match read s (RoleBaseKey id) with
  | Some data => if (0 <? length data)%nat then decode data else None
  | None => None
  end.
Definition role_at s id : option RoleInfo :=
  match v_rInfo (cur s) !! id with
  | Some ri => r_base ri
  | None => stored_base s id
  end.

(** Registered roles stay, and cached accounts stay cached. *)
Record role_grow s s' : Prop := mkRoleGrow {
  rg_role id b : role_at s id = Some b -> role_at s' id = Some b;
  rg_cached id : is_Some (v_rInfo (cur s) !! id) -> is_Some (v_rInfo (cur s') !! id);
}.

#[export] Instance role_grow_preorder : PreOrder role_grow.
Proof. split; [by constructor|]. intros s1 s2 s3 [] []. constructor; eauto. Qed.

Lemma role_at_eq s s' id :
  v_rInfo (cur s') !! id = v_rInfo (cur s) !! id ->
  read s' (RoleBaseKey id) = read s (RoleBaseKey id) -> role_at s' id = role_at s id.
Proof. unfold role_at, stored_base. by intros -> ->. Qed.

Lemma role_grow_same s s' :
  (forall id, read s' (RoleBaseKey id) = read s (RoleBaseKey id)) ->
  v_rInfo (cur s') = v_rInfo (cur s) -> role_grow s s'.
Proof.
  intros Hr Hi. constructor; intros id; [|by rewrite Hi].
  intros b <-. apply role_at_eq; [by rewrite Hi|done].
Qed.

Lemma RoleBaseKey_inj id id' : RoleBaseKey id = RoleBaseKey id' -> id = id'.
Proof.
  intros E. apply NewKey_num_inj in E; [by injection E| | |done..];
    repeat constructor; simpl; by eexists.
Qed.

(** Writes under another table, and the write of a cached account's own role. *)
Lemma role_grow_tag t vs s s' : bool_decide (t ∈ [pb.MetaType_ST_RoleBaseKey]) = false ->
  store_eff (NewKey (KMetaType t :: vs)) s s' -> role_grow s s'.
Proof.
  intros Ht E. apply role_grow_same; [|by rewrite (se_cur _ _ _ E)].
  intros id. eapply store_eff_read; [done|]. eapply has_tag_ne'; [|done].
  apply has_tag_NewKey. set_solver.
Qed.

Lemma role_grow_put_base id s s' :
  is_Some (v_rInfo (cur s) !! id) -> store_eff (RoleBaseKey id) s s' -> role_grow s s'.
Proof.
  intros [ri Hc] E. pose proof (se_cur _ _ _ E) as Ec. constructor; intros id'; [|by rewrite Ec].
  intros b Hb. destruct (decide (id' = id)) as [->|Hne].
  - revert Hb. unfold role_at. by rewrite Ec, Hc.
  - rewrite <-Hb. apply role_at_eq; [by rewrite Ec|]. eapply store_eff_read; [done|].
    by intros ?%RoleBaseKey_inj.
Qed.

(** Filling the cache, and replacing an entry by one with the same base. *)
Lemma role_grow_put_role id ri s :
  (forall b, role_at s id = Some b -> r_base ri = Some b) -> role_grow s (put_role Applied id ri s).
Proof.
  intros Hb. constructor; intros id'; unfold role_at; simpl;
    (destruct (decide (id' = id)) as [->|Hne];
      [rewrite lookup_insert_eq|rewrite lookup_insert_ne by done]); eauto.
Qed.

Lemma loadRole_base id s ri s' : loadRole id s = (Ok ri, s') -> s' = s /\ r_base ri = stored_base s id.
Proof.
  unfold loadRole. rewrite (bind_run _ _ _ _ _ (loadVal_run id s)).
  unfold stored_base, bind, get, gets. destruct (read s (RoleBaseKey id)); [|by intros [= <- <-]].
  case_match; by intros [= <- <-].
Qed.

Lemma roleOf_base id s : role_grow s (roleOf Applied id s).2 /\
  (forall ri s', roleOf Applied id s = (Ok ri, s') ->
     role_at s id = r_base ri /\ v_rInfo (cur s') !! id = Some ri).
Proof.
  unfold roleOf. rewrite (bind_run _ _ _ _ _ (eq_refl : gets _ _ = _)). simpl.
  destruct (v_rInfo (cur s) !! id) as [ri|] eqn:E.
  - split; [done|]. intros ri' s' [= <- <-]. unfold role_at. by rewrite E.
  - destruct (loadRole_run id s) as [base Hl]. rewrite (bind_run _ _ _ _ _ Hl).
    apply loadRole_base in Hl as [_ Hb]. simpl in Hb.
    assert (Hr : role_at s id = base) by (unfold role_at; by rewrite E).
    split.
    + apply role_grow_put_role. by rewrite Hr.
    + intros ri' s' [= <- <-]. split; [done|]. simpl. by rewrite lookup_insert_eq.
Qed.

(** ** The handlers *)

#[export] Instance role_grow_StoreFrame : StoreFrame Applied role_grow.
Proof.
  split; [typeclasses eauto|..].
  - intros t vs v Ht s. eapply role_grow_tag; [|apply put_eff].
    eapply tables_disjoint; [|exact Ht]. by vm_compute.
  - intros id u. apply keeps_modify. intros s. by apply role_grow_same.
  - intros id f. apply keeps_modify. intros s. by apply role_grow_same.
  - intros id s. apply roleOf_base.
Qed.
#[export] Instance role_grow_OrderFrame : OrderFrame Applied role_grow.
Proof.
  split; [|intros; apply keeps_modify; intros s; by apply role_grow_same..].
  intros t vs v Ht s. eapply role_grow_tag; [|apply put_eff].
  eapply tables_disjoint; [|exact Ht]. by vm_compute.
Qed.
#[export] Instance role_grow_EpochFrame : EpochFrame Applied role_grow.
Proof.
  split; [intros t vs v ->%bool_decide_eq_true s; by eapply (role_grow_tag pb.MetaType_ST_ChalEpochKey); [|apply put_eff]|].
  intros f. apply keeps_modify. intros s. by apply role_grow_same.
Qed.

Lemma keeps_append_id t v id : bool_decide (t ∈ [pb.MetaType_ST_RoleBaseKey]) = false ->
  Keeps role_grow (append_id (NewKey (KMetaType t :: v)) id).
Proof.
  intros Ht. unfold append_id, tds_Get. keeps.
  intros s. eapply role_grow_tag; [exact Ht|apply tds_Put_eff].
Qed.

(** A successful registration, of an account whose entry is cached. *)
Lemma addRole_grow msg s s' :
  is_Some (v_rInfo (cur s) !! m_From msg) -> addRole msg s = (Ok tt, s') -> role_grow s s'.
Proof.
  intros [ri Hc] Hr. unfold addRole in Hr. apply bind_Ok in Hr as (pri & s1 & H1 & Hr).
  assert (s1 = s /\ ri_RoleID pri = m_From msg) as [-> Hid].
  { unfold addRole_pre, has_ok, has in H1. go_inv. split; [done|by apply Z.eqb_eq]. }
  apply bind_Ok in Hr as ([] & s1 & H2 & Hr). unfold addRole_entry in H2.
  rewrite (bind_run _ _ _ _ _ (eq_refl : gets _ _ = _)), Hid in H2. simpl in H2. rewrite Hc in H2.
  apply bind_Ok in H2 as ([] & ? & [Hb%bool_decide_eq_true ->]%check_Ok & ->%modify_Ok).
  transitivity (put_role Applied (m_From msg) (mkRoleEntry (Some pri) (r_val ri)) s).
  { apply role_grow_put_role. intros b. unfold role_at. rewrite Hc. congruence. }
  apply bind_Ok in Hr as ([] & s2 & H3 & Hr). rewrite Hid in H3.
  transitivity s2.
  { pose proof (put_eff (RoleBaseKey (m_From msg)) (m_Params msg)
      (put_role Applied (m_From msg) (mkRoleEntry (Some pri) (r_val ri)) s)) as E.
    rewrite H3 in E. eapply role_grow_put_base; [|exact E]. simpl. rewrite lookup_insert_eq. by eexists. }
  assert (K : Keeps role_grow (addRole_lists msg pri)); [|specialize (K s2); by rewrite Hr in K].
  unfold addRole_lists. keeps; try (by apply keeps_append_id);
    apply keeps_modify; intros t; by apply role_grow_same.
Qed.

Lemma applyMsg_grow msg r s s' : applyMsg (Some msg) r s = (Ok tt, s') -> role_grow s s'.
Proof.
  intros Hr. apply bind_Ok in Hr as ([] & s5 & Hn & Hr).
  assert (role_grow s s5 /\ is_Some (v_rInfo (cur s5) !! m_From msg)) as [G Hc].
  { unfold applyMsg_nonce in Hn. apply bind_Ok in Hn as (ri & s1 & H1 & Hn).
    destruct (roleOf_base (m_From msg) s) as [G1 E1]. specialize (E1 _ _ H1) as [Hb Hc].
    rewrite H1 in G1. simpl in G1.
    apply bind_Ok in Hn as (? & ? & [_ ->]%check_Ok & Hn).
    apply bind_Ok in Hn as ([] & s2 & ->%modify_Ok & Hn).
    apply bind_Ok in Hn as ([] & s3 & H3 & Hn).
    assert (G2 : role_grow s1 (put_role Applied (m_From msg) (inc_nonce ri) s1)).
    { apply role_grow_put_role. intros b. unfold role_at. by rewrite Hc. }
    assert (Hc2 : is_Some (v_rInfo (cur (put_role Applied (m_From msg) (inc_nonce ri) s1)) !! m_From msg))
      by (simpl; rewrite lookup_insert_eq; by eexists).
    revert H3 G2 Hc2. generalize (put_role Applied (m_From msg) (inc_nonce ri) s1) as s2. intros s2 H3 G2 Hc2.
    assert (G3 : role_grow s2 s3).
    { unfold saveVal in H3. apply bind_Ok in H3 as (data & ? & [_ ->]%of_option_Ok & H3).
      eapply (role_grow_tag pb.MetaType_ST_RoleValueKey); [tag_compute|].
      pose proof (put_eff (RoleValueKey (m_From msg)) data s2) as E. rewrite H3 in E. exact E. }
    rewrite (bind_run _ _ _ _ _ (eq_refl : gets _ _ = _)) in Hn.
    assert (G4 : role_grow s3 s5).
    { destruct (v_version (cur s3) <? SMTVersion); [|by apply ret_Ok in Hn as [_ ->]].
      assert (K : Keeps role_grow (newRoot (m_Params msg))); [|specialize (K s3); by rewrite Hn in K].
      unfold newRoot. keeps; try (apply keeps_modify; intros t; by apply role_grow_same);
        try apply keeps_try_err; try typeclasses eauto; intros t;
        eapply (role_grow_tag pb.MetaType_ST_RootKey []); try tag_compute; [apply tds_Put_eff|apply put_eff]. }
    split; [by repeat (etransitivity; [eassumption|])|]. by apply G4, G3. }
  etransitivity; [exact G|]. case_match; [by apply ret_Ok in Hr as [_ ->]|].
  destruct (decide (m_Method msg = AddRole)) as [E|Hne].
  - unfold apply_method in Hr. rewrite E in Hr. by apply addRole_grow in Hr.
  - pose proof (keeps_apply_method_no_role role_grow msg Hne s5) as K. by rewrite Hr in K.
Qed.

#[export] Instance role_grow_ChainRel : ChainRel role_grow.
Proof.
  split; [typeclasses eauto|..].
  - intros s s' Hr _ _ []. by apply role_grow_same.
  - intros t vs s s' Ht E. eapply role_grow_tag; [|exact E].
    eapply tables_disjoint; [|exact Ht]. by vm_compute.
  - intros msg r s s'. apply applyMsg_grow.
Qed.

(** C7. A registered role is permanent: along any chain of applied blocks, an
    account that has a role, with its type and its verification keys, keeps
    exactly that role, whatever messages the blocks carry. *)
Theorem role_permanent blks s s' id b :
  tds s = None -> apply_chain blks s = (Ok tt, s') ->
  role_at s id = Some b -> role_at s' id = Some b.
Proof. intros Ht Hr. by apply (lift_apply_chain role_grow _ _ _ Ht Hr). Qed.
End RoleHistory.

(** ** Witness: account 5 stays a keeper across the next block. *)

From S2P Require Import Concrete Scenario.

Lemma role_permanent_witness : role_at st2 5 = Some (role_of RoleInfo_Keeper 5 []).
Proof.
  apply (role_permanent [blk1] st1).
  - vm_compute. reflexivity.
  - unfold apply_chain. cbn [for_each]. rewrite (bind_run _ _ _ _ _ st2_run). reflexivity.
  - vm_compute. reflexivity.
Defined.
