(* ===== verification/OrderHistory.v ===== *)
(** * OrderHistory: the life of an order

    [order_step] is the state machine of the order between a user and a
    provider: opened, extended by sequences, committed, settled, proved and
    penalised.  The entry of a pair is the cached one, or else what [loadOrder]
    would find ([order_at]).  Every handler moves every entry by steps of the
    machine, so a chain of blocks does. *)

From stdpp Require Import relations.
From S2P Require Import Prelude GoMonad Codec Keys Segments SegmentID Types Tx Fr StateTypes State Roles Chunks Orders Challenge Pay Validate Block Handlers Frame Chain Lift.

Section OrderMachine.
Context `{!StateEnv}.
Implicit Types (oi : orderInfo) (u p : Z).

Definition set_income_value (f : Z -> Z) (x : PostIncome) : PostIncome :=
  mkPostIncome (pi_UserID x) (pi_ProID x) (pi_TokenIndex x) (f <$> pi_Value x) (pi_Penalty x).
Definition set_income_penalty (f : Z -> Z) (x : PostIncome) : PostIncome :=
  mkPostIncome (pi_UserID x) (pi_ProID x) (pi_TokenIndex x) (pi_Value x) (f <$> pi_Penalty x).

(** One event of the order between [u] and [p]. *)
Inductive order_step u p oi : orderInfo -> Prop :=
  | step_open or (b := so_OrderBase or) :
      o_base oi = None -> ns_SeqNum (o_ns oi) = 0 ->
      ob_UserID b = u -> ob_ProID b = p -> ob_Nonce b = ns_Nonce (o_ns oi) ->
      so_Size or = 0 -> so_Price or = Some 0 ->
      ob_Start b < ob_End b -> OrderMin <= i64 (ob_End b - ob_Start b) ->
      o_preStart oi <= ob_Start b -> o_preEnd oi <= ob_End b ->
      order_step u p oi (set_o_base (fun _ => Some or) oi)
  | step_seq sos base fsID segPrice price (so := sos_OrderSeq sos) :
      o_base oi = Some base ->
      os_UserID so = u -> os_ProID so = p ->
      os_Nonce so = ns_Nonce (o_ns oi) -> os_SeqNum so = ns_SeqNum (o_ns oi) ->
      os_Size so = u64 (so_Size base + u64 (segs_count (os_Segments so) * DefaultSegSize)) ->
      ob_SegPrice (so_OrderBase base) = Some segPrice -> so_Price base = Some price ->
      os_Price so = Some (segPrice * i64 (segs_count (os_Segments so)) + price) ->
      order_step u p oi
        (mkOrderInfo (o_prove oi) (o_income oi) (add_seqnum (o_ns oi))
           (fr_add (o_accFr oi) (acc_segs fsID (os_Segments so)).1)
           (Some (seq_base sos base)) (o_preStart oi) (o_preEnd oi))
  | step_commit base :
      o_base oi = Some base -> so_Size base <> 0 ->
      order_step u p oi
        (mkOrderInfo (o_prove oi) (o_income oi)
           (mkNonceSeq (u64 (ns_Nonce (o_ns oi) + 1)) 0 (ns_SubNonce (o_ns oi)))
           fr_zero None (o_preStart oi) (o_preEnd oi))
  | step_sub :
      ns_SubNonce (o_ns oi) <= ns_Nonce (o_ns oi) ->
      order_step u p oi
        (set_o_ns (fun ns => mkNonceSeq (ns_Nonce ns) (ns_SeqNum ns) (u64 (ns_SubNonce ns + 1))) oi)
  | step_prove epoch price :
      o_prove oi <= epoch ->
      order_step u p oi
        (set_o_income (set_income_value (fun v => v + price)) (set_o_prove (fun _ => u64 (epoch + 1)) oi))
  | step_penalty d :
      order_step u p oi (set_o_income (set_income_penalty (fun v => v + d)) oi).

(** What the steps preserve: between orders nothing is pending; a running
    order is that of the pair and of the expected nonce, and its size and price
    are those of one and the same number of segments. *)
Record order_ok u p oi : Prop := mkOrderOk {
  ok_idle : o_base oi = None -> ns_SeqNum (o_ns oi) = 0 /\ o_accFr oi = fr_zero;
  ok_open base : o_base oi = Some base ->
    ob_UserID (so_OrderBase base) = u /\ ob_ProID (so_OrderBase base) = p /\
    ob_Nonce (so_OrderBase base) = ns_Nonce (o_ns oi);
  ok_amounts base : o_base oi = Some base -> exists n,
    so_Size base = u64 (n * DefaultSegSize) /\
    so_Price base = Some (default 0 (ob_SegPrice (so_OrderBase base)) * n);
}.

Lemma size_step n c : u64 (u64 (n * DefaultSegSize) + u64 (c * DefaultSegSize))
  = u64 ((n + i64 c) * DefaultSegSize).
Proof.
  assert (E : i64 c = c + (- ((c + 2 ^ 63) / 2 ^ 64)) * 2 ^ 64) by (unfold i64; rewrite Z.mod_eq by lia; lia).
  unfold u64. rewrite <-Z.add_mod, E by lia.
  rewrite <-(Z_mod_plus_full _ (- ((c + 2 ^ 63) / 2 ^ 64) * DefaultSegSize)). f_equal. lia.
Qed.

Lemma order_step_ok u p oi oi' : order_step u p oi oi' -> order_ok u p oi -> order_ok u p oi'.
Proof.
  intros St [Hi Ho Ha].
  destruct St as [or b Hb|sos base fsID sp price so Hb Hu Hp Hn Hs Hsz Hsp Hpr Htot|base Hb| | |];
    constructor; simpl in *; try done. all: intros base' [= <-].
  - done.
  - exists 0. subst b. split; [done|]. rewrite Z.mul_0_r. done.
  - by apply (Ho base).
  - destruct (Ha _ Hb) as (n & Hn1 & Hn2). exists (n + i64 (segs_count (os_Segments so))).
    subst so. simpl. rewrite Hsz, Hn1, Htot. split; [apply size_step|].
    f_equal. assert (price = sp * n) as -> by (rewrite Hsp in Hn2; simpl in Hn2; congruence).
    rewrite Hsp. simpl. ring.
Qed.

Lemma order_steps_ok u p oi oi' : rtc (order_step u p) oi oi' -> order_ok u p oi -> order_ok u p oi'.
Proof. induction 1; eauto using order_step_ok. Qed.
End OrderMachine.

Section OrderHistory.
Context `{!StateEnv, !SMTLaws}.
Implicit Types (s : StateMgr) (oi : orderInfo) (u p : Z) (msg : Message) (key : bytes).

(** ** The entry of a pair *)

(** What [loadOrder] reads off the stores; it looks at the keys of the pair only. *)
Definition read_into {A} `{!Codec A} s key (x : A) : A :=
  match read s key with Some data => (unmarshal x data).1 | None => x end.
Definition stored_prove s u p : Z :=
  match read s (SegProofKey u p) with
  | Some data => if (8 <=? length data)%nat then get_be (take 8 data) else 0
  | None => 0
  end.
Definition stored_full s u p n : option OrderFull :=
  match read s (OrderBaseKey u p n) with Some data => decode data | None => None end.
Definition stored_order s u p : orderInfo :=
  let income := read_into s (SegPayKey u p) (income0 u p) in
  let prove := stored_prove s u p in
  let ns := read_into s (OrderStateKey u p) (mkNonceSeq 0 0 0) in
  match stored_full s u p (ns_Nonce ns) with
  | None => mkOrderInfo prove income ns fr_zero None 0 0
  | Some ofl =>
      let pre := if 0 <? ns_Nonce ns then stored_full s u p (u64 (ns_Nonce ns - 1)) else None in
      let times := match pre with
                   | Some pf => let pb := so_OrderBase (of_SignedOrder pf) in (ob_Start pb, ob_End pb)
                   | None => (0, 0)
                   end in
      mkOrderInfo prove income ns (FrFromBytes fr_zero (of_AccFr ofl)) (Some (of_SignedOrder ofl)) times.1 times.2
  end.
Definition order_at s u p : orderInfo :=
  match v_oInfo (cur s) !! (u, p) with
  | Some oi => oi
  | None => stored_order s u p
  end.
Definition order_key u p key : Prop :=
  key = SegPayKey u p \/ key = SegProofKey u p \/ key = OrderStateKey u p \/
  exists n, key = OrderBaseKey u p n.

Lemma get_run key s : get key s = (Ok (read s key), s).
Proof. done. Qed.
Lemma get_into_run {A} `{!Codec A} key (x : A) s : get_into key x s = (Ok (read_into s key x), s).
Proof. unfold get_into, read_into. rewrite (bind_run _ _ _ _ _ (get_run key s)). by destruct (read s key). Qed.
Lemma loadProve_run u p s : loadProve u p s = (Ok (stored_prove s u p), s).
Proof.
  unfold loadProve, stored_prove. rewrite (bind_run _ _ _ _ _ (get_run _ s)).
  destruct (read s _); [by case_match|done].
Qed.
Lemma loadBase_run u p n s : loadBase u p n s = (Ok (stored_full s u p n), s).
Proof. unfold loadBase, stored_full. rewrite (bind_run _ _ _ _ _ (get_run _ s)). by destruct (read s _). Qed.

Lemma loadOrder_run u p s : loadOrder u p s = (Ok (stored_order s u p), s).
Proof.
  unfold loadOrder, stored_order. rewrite (bind_run _ _ _ _ _ (get_into_run _ _ s)).
  rewrite (bind_run _ _ _ _ _ (loadProve_run _ _ s)), (bind_run _ _ _ _ _ (get_into_run _ _ s)).
  rewrite (bind_run _ _ _ _ _ (loadBase_run _ _ _ s)).
  destruct (stored_full s u p _) as [ofl|]; [|done]. destruct (0 <? _); [|done].
  rewrite (bind_run _ _ _ _ _ (loadBase_run _ _ _ s)). by destruct (stored_full s u p _).
Qed.

Lemma stored_order_eq s s' u p :
  (forall key, order_key u p key -> read s' key = read s key) ->
  stored_order s' u p = stored_order s u p.
Proof.
  intros Hr. unfold order_key in Hr.
  assert (H4 : forall n, stored_full s' u p n = stored_full s u p n)
    by (intros n; unfold stored_full; rewrite Hr; [done|by eauto]).
  unfold stored_order, read_into, stored_prove. rewrite !Hr by auto.
  rewrite H4. destruct (stored_full s u p _); [|done]. by rewrite H4.
Qed.
(** ** Relations the handlers keep *)

(** Every entry moves by steps, and a cached entry stays cached. *)
Record orders_evolve s s' : Prop := mkOrdersEvolve {
  oe_steps u p : rtc (order_step u p) (order_at s u p) (order_at s' u p);
  oe_cached k : is_Some (v_oInfo (cur s) !! k) -> is_Some (v_oInfo (cur s') !! k);
}.
#[export] Instance orders_evolve_preorder : PreOrder orders_evolve.
Proof. split; [by constructor|]. intros s1 s2 s3 [] []. constructor; [intros u p; etransitivity; eauto|auto]. Qed.

(** The cache of orders is not touched. *)
Definition same_orders s s' : Prop := v_oInfo (cur s') = v_oInfo (cur s).
#[export] Instance same_orders_preorder : PreOrder same_orders.
Proof. split; [done|]. unfold same_orders. intros s1 s2 s3. congruence. Qed.

(** ... and the entries evolve, once the one of [k] is cached. *)
Record pair_evolve (k : Z * Z) s s' : Prop := mkPairEvolve {
  pe_same : same_orders s s';
  pe_evolve : is_Some (v_oInfo (cur s) !! k) -> orders_evolve s s';
}.
#[export] Instance pair_evolve_preorder k : PreOrder (pair_evolve k).
Proof.
  split; [by constructor|]. intros s1 s2 s3 [S1 E1] [S2 E2].
  constructor; [by transitivity s2|]. intros Hk. transitivity s2; [auto|].
  apply E2. unfold same_orders in S1. by rewrite S1.
Qed.

Lemma evolve_reads s s' :
  (forall u p, is_Some (v_oInfo (cur s) !! (u, p)) \/
     forall key, order_key u p key -> read s' key = read s key) ->
  same_orders s s' -> orders_evolve s s'.
Proof.
  unfold same_orders. intros Hr Hs. constructor; [|intros k; by rewrite Hs].
  intros u p. enough (order_at s' u p = order_at s u p) as -> by done.
  unfold order_at. rewrite Hs. destruct (v_oInfo (cur s) !! (u, p)) eqn:E; [done|].
  apply stored_order_eq. destruct (Hr u p) as [[? ?]|]; [congruence|done].
Qed.

Lemma order_key_tag u p key : order_key u p key -> has_tag order_tables key.
Proof. intros [->|[->|[->|[n ->]]]]; apply has_tag_NewKey; unfold order_tables; set_solver. Qed.

Lemma evolve_tag t vs s s' : bool_decide (t ∈ order_tables) = false ->
  store_eff (NewKey (KMetaType t :: vs)) s s' -> orders_evolve s s'.
Proof.
  intros Ht E. apply evolve_reads; [|unfold same_orders; by rewrite (se_cur _ _ _ E)].
  intros u p. right. intros key Hk%order_key_tag. eapply store_eff_read; [done|].
  by eapply has_tag_ne'.
Qed.

Lemma pair_evolve_put (k : Z * Z) key v :
  (forall u p, order_key u p key -> (u, p) = k) -> Keeps (pair_evolve k) (put key v).
Proof.
  intros Hk s. pose proof (put_eff key v s) as E.
  assert (same_orders s (put key v s).2) by (unfold same_orders; by rewrite (se_cur _ _ _ E)).
  constructor; [done|]. intros Hc. apply evolve_reads; [|done].
  intros u p. destruct (decide ((u, p) = k)) as [->|Hne]; [by left|right].
  intros key' Ho. eapply store_eff_read; [done|]. intros ->. by apply Hne, Hk.
Qed.

(** Filling the cache, and moving a cached entry. *)
Lemma evolve_put_order u p oi s :
  rtc (order_step u p) (order_at s u p) oi -> orders_evolve s (put_order Applied (u, p) oi s).
Proof.
  intros St. constructor.
  - intros u' p'. unfold order_at at 2. simpl.
    destruct (decide ((u', p') = (u, p))) as [[= -> ->]|Hne].
    + by rewrite lookup_insert_eq.
    + rewrite lookup_insert_ne by done. unfold order_at.
      by destruct (v_oInfo (cur s) !! (u', p')).
  - intros k Hk. simpl. destruct (decide (k = (u, p))) as [->|Hne];
      [rewrite lookup_insert_eq; by eexists|by rewrite lookup_insert_ne].
Qed.

Lemma upd_order_put k f s oi : v_oInfo (cur s) !! k = Some oi ->
  upd_order Applied k f s = put_order Applied k (f oi) s.
Proof.
  intros Hk. unfold upd_order, put_order, set_view. destruct s as [? ? ? ? ? ? ? ? ? [] ?]. simpl in *.
  unfold set_cur, set_v_oInfo. simpl. repeat f_equal.
  apply map_eq. intros k'. destruct (decide (k' = k)) as [->|Hne].
  - by rewrite lookup_alter_eq, Hk, lookup_insert_eq.
  - by rewrite lookup_alter_ne, lookup_insert_ne.
Qed.

Lemma orderOf_run u p s :
  exists s1, orderOf Applied u p s = (Ok (order_at s u p), s1) /\ orders_evolve s s1 /\
    v_oInfo (cur s1) !! (u, p) = Some (order_at s u p) /\ order_at s1 u p = order_at s u p.
Proof.
  unfold orderOf. rewrite (bind_run _ _ _ _ _ (eq_refl : gets _ _ = _)). simpl.
  unfold order_at at 1 3. destruct (v_oInfo (cur s) !! (u, p)) as [oi|] eqn:E.
  - exists s. split_and!; try done. by unfold order_at; rewrite E.
  - rewrite (bind_run _ _ _ _ _ (loadOrder_run u p s)).
    eexists. split; [reflexivity|].
    assert (H1 : order_at s u p = stored_order s u p) by (unfold order_at; by rewrite E).
    split_and!; [apply evolve_put_order; by rewrite H1|simpl; by rewrite lookup_insert_eq, H1|].
    unfold order_at. simpl. by rewrite lookup_insert_eq, E.
Qed.
(** ** What does not touch the orders *)

Lemma roleOf_orders id s : same_orders s (roleOf Applied id s).2 /\
  forall key, read (roleOf Applied id s).2 key = read s key.
Proof.
  unfold roleOf. rewrite (bind_run _ _ _ _ _ (eq_refl : gets _ _ = _)). simpl.
  destruct (v_rInfo (cur s) !! id); [done|].
  destruct (loadRole_run id s) as [base Hl]. by rewrite (bind_run _ _ _ _ _ Hl).
Qed.

Lemma evolve_view f s : (forall v, v_oInfo (f v) = v_oInfo v) -> orders_evolve s (set_cur f s).
Proof.
  intros Hf. apply evolve_reads; [intros u p; by right|]. unfold same_orders. simpl. apply Hf.
Qed.

#[export] Instance pair_StoreFrame k : StoreFrame Applied (pair_evolve k).
Proof.
  split; [typeclasses eauto|..].
  - intros t vs v Ht. apply pair_evolve_put. intros u p Ho%order_key_tag. exfalso.
    eapply has_tag_ne'; [exact Ho| |reflexivity]. eapply tables_disjoint; [|exact Ht]. by vm_compute.
  - intros id x. apply keeps_modify. intros s. constructor; [done|intros _; by apply evolve_view].
  - intros id f. apply keeps_modify. intros s. constructor; [done|intros _; by apply evolve_view].
  - intros id s. destruct (roleOf_orders id s) as [Hs Hr]. constructor; [done|]. intros _.
    apply evolve_reads; [intros u p; by right|done].
Qed.

(** Such computations evolve every entry, whatever is cached. *)
#[export] Instance orders_StoreFrame : StoreFrame Applied orders_evolve.
Proof.
  split; [typeclasses eauto|..].
  - intros t vs v Ht s. eapply evolve_tag; [|apply put_eff].
    eapply tables_disjoint; [|exact Ht]. by vm_compute.
  - intros id x. apply keeps_modify. intros s. by apply evolve_view.
  - intros id f. apply keeps_modify. intros s. by apply evolve_view.
  - intros id s. destruct (roleOf_orders id s) as [Hs Hr].
    apply evolve_reads; [intros u p; by right|done].
Qed.
#[export] Instance orders_EpochFrame : EpochFrame Applied orders_evolve.
Proof.
  split; [intros t vs v ->%bool_decide_eq_true s; by eapply (evolve_tag pb.MetaType_ST_ChalEpochKey); [|apply put_eff]|intros f].
  apply keeps_modify. intros s. by apply evolve_view.
Qed.

(** The keys that belong to a pair. *)
Lemma order_key_inj u p key : order_key u p key ->
  forall u' p', order_key u' p' key -> (u', p') = (u, p).
Proof.
  intros Hk u' p' Hk'. revert Hk.
  destruct Hk' as [->|[->|[->|[n' ->]]]]; intros [E|[E|[E|[n E]]]];
    apply NewKey_num_inj in E; try done; try (repeat constructor; simpl; by eexists);
    by injection E as -> ->.
Qed.

Lemma pair_put_key u p key v : order_key u p key -> Keeps (pair_evolve (u, p)) (put key v).
Proof. intros Hk. apply pair_evolve_put. intros u' p'. by apply order_key_inj. Qed.

(** The keys under the same tables that no entry is read from. *)
Lemma pair_put_other k key v : (forall u p, ~ order_key u p key) -> Keeps (pair_evolve k) (put key v).
Proof. intros Hk. apply pair_evolve_put. intros u p Ho. by destruct (Hk u p). Qed.

Ltac other_key := apply pair_put_other; intros ? ? [?E|[?E|[?E|[? ?E]]]];
  match goal with E : _ = _ |- _ => apply NewKey_num_inj in E end;
  try done; try (repeat constructor; simpl; by eexists).

Lemma pair_put_state4 k u p e v : Keeps (pair_evolve k) (put (OrderStateKey4 u p e) v).
Proof. other_key. Qed.
Lemma pair_put_proof4 k u p e v : Keeps (pair_evolve k) (put (SegProofKey4 u p e) v).
Proof. other_key. Qed.
Lemma pair_put_pay4 k u p e v : Keeps (pair_evolve k) (put (SegPayKey4 u p e) v).
Proof. other_key. Qed.
Lemma pair_put_pay1 k p v : Keeps (pair_evolve k) (put (SegPayKey1 p) v).
Proof. other_key. Qed.
Lemma pair_put_pay0 k p e v : Keeps (pair_evolve k) (put (SegPayKey0 p e) v).
Proof. other_key. Qed.
Lemma pair_put_seq k u p n q v : Keeps (pair_evolve k) (put (OrderSeqKey u p n q) v).
Proof. other_key. Qed.
Lemma pair_put_pay u p v : Keeps (pair_evolve (u, p)) (put (SegPayKey u p) v).
Proof. apply pair_put_key. by left. Qed.
Lemma pair_put_proof u p v : Keeps (pair_evolve (u, p)) (put (SegProofKey u p) v).
Proof. apply pair_put_key. right. by left. Qed.
Lemma pair_put_state u p v : Keeps (pair_evolve (u, p)) (put (OrderStateKey u p) v).
Proof. apply pair_put_key. right. right. by left. Qed.
Lemma pair_put_base u p n v : Keeps (pair_evolve (u, p)) (put (OrderBaseKey u p n) v).
Proof. apply pair_put_key. right. right. right. by exists n. Qed.
#[local] Hint Resolve pair_put_state4 pair_put_proof4 pair_put_pay4 pair_put_pay1 pair_put_pay0
  pair_put_seq pair_put_pay pair_put_proof pair_put_state pair_put_base : keeps.

Lemma pair_saveOrderState u p ns : Keeps (pair_evolve (u, p)) (saveOrderState u p ns).
Proof. unfold saveOrderState. keeps. Qed.
Lemma pair_put_encode {A} `{!Codec A} k key (x : A) :
  (forall v, Keeps (pair_evolve k) (put key v)) -> Keeps (pair_evolve k) (put_encode key x).
Proof. intros. unfold put_encode. keeps. Qed.
#[local] Hint Resolve pair_saveOrderState : keeps.
#[local] Hint Extern 2 (Keeps (pair_evolve _) (put_encode _ _)) => apply pair_put_encode; intros : keeps.

Lemma pair_saveIncomeAt k u p e f g :
  (forall x, Keeps (pair_evolve k) (f x)) -> (forall x, Keeps (pair_evolve k) (g x)) ->
  Keeps (pair_evolve k) (saveIncomeAt u p e f g).
Proof. intros. unfold saveIncomeAt. keeps. Qed.
Lemma pair_createOrder_save or ns (b := so_OrderBase or) :
  Keeps (pair_evolve (ob_UserID b, ob_ProID b)) (createOrder_save or ns).
Proof. subst b. unfold createOrder_save, append_id_put. keeps. Qed.
Lemma pair_addSeq_save so oi base fr : Keeps (pair_evolve (os_UserID so, os_ProID so)) (addSeq_save so oi base fr).
Proof. unfold addSeq_save. keeps. Qed.
Lemma pair_addSegProof_save msg scp oi price :
  Keeps (pair_evolve (scp_UserID scp, scp_ProID scp)) (addSegProof_save msg scp oi price).
Proof.
  destruct (keeps_income Applied (pair_evolve (scp_UserID scp, scp_ProID scp))) as (?&?&?&?).
  unfold addSegProof_save. keeps. by apply pair_saveIncomeAt.
Qed.
Lemma pair_removeSeg_save so income d :
  Keeps (pair_evolve (srp_UserID so, srp_ProID so)) (removeSeg_save so income d).
Proof.
  destruct (keeps_income Applied (pair_evolve (srp_UserID so, srp_ProID so))) as (?&?&?&?).
  unfold removeSeg_save. keeps. by apply pair_saveIncomeAt.
Qed.

(** ** The handlers of orders *)

Lemma evolve_step u p oi oi' (m : M StateMgr unit) s s' :
  v_oInfo (cur s) !! (u, p) = Some oi -> order_step u p oi oi' -> Keeps (pair_evolve (u, p)) m ->
  m (put_order Applied (u, p) oi' s) = (Ok tt, s') -> orders_evolve s s'.
Proof.
  intros Hc St Hm Hr. transitivity (put_order Applied (u, p) oi' s).
  - apply evolve_put_order, rtc_once. unfold order_at. by rewrite Hc.
  - specialize (Hm (put_order Applied (u, p) oi' s)). rewrite Hr in Hm. apply Hm. simpl.
    rewrite lookup_insert_eq. by eexists.
Qed.

Lemma orderOf_Ok u p s oi s' : orderOf Applied u p s = (Ok oi, s') ->
  orders_evolve s s' /\ v_oInfo (cur s') !! (u, p) = Some oi /\ oi = order_at s u p.
Proof. intros E. destruct (orderOf_run u p s) as (s1 & E1 & ? & ? & ?). rewrite E1 in E. by injection E as <- <-. Qed.

Lemma createOrder_paras_Ok msg s or s' (b := so_OrderBase or) :
  createOrder_paras msg s = (Ok or, s') -> s' = s /\ decode (m_Params msg) = Some or /\
  so_Size or = 0 /\ so_Price or = Some 0 /\ OrderMin <= i64 (ob_End b - ob_Start b) /\
  CheckOrder b = Ok tt /\ m_From msg = ob_UserID b.
Proof.
  intros Hr. unfold createOrder_paras in Hr.
  apply bind_Ok in Hr as (or' & ? & [Hd ->]%of_option_Ok & Hr).
  apply bind_Ok in Hr as (price & ? & [Hp ->]%of_option_Ok & Hr).
  apply bind_Ok in Hr as ([] & ? & [Hs%Z.eqb_eq ->]%check_Ok & Hr).
  apply bind_Ok in Hr as ([] & ? & [->%Z.eqb_eq ->]%check_Ok & Hr).
  apply bind_Ok in Hr as ([] & ? & [Hm%negb_true_iff%Z.ltb_ge ->]%check_Ok & Hr).
  apply bind_Ok in Hr as ([] & ? & [Hc ->]%of_outcome_Ok & Hr).
  apply bind_Ok in Hr as ([] & ? & [Hu%Z.eqb_eq ->]%check_Ok & [-> ->]%ret_Ok). done.
Qed.

Lemma createOrder_evolve msg s s' : createOrder msg s = (Ok tt, s') -> orders_evolve s s'.
Proof.
  intros Hr. unfold createOrder in Hr.
  apply bind_Ok in Hr as (or & ? & (-> & _ & Hsz & Hp & Hmin & _ & _)%createOrder_paras_Ok & Hr).
  apply bind_Ok in Hr as ([] & s1 & Hv & Hr).
  apply (keeps_Ok orders_evolve) in Hv; [|apply (keeps_verify_order Applied); typeclasses eauto].
  apply bind_Ok in Hr as (oi & s2 & (E2 & Hc & _)%orderOf_Ok & Hr).
  apply bind_Ok in Hr as ([] & ? & [Hn%Z.eqb_eq ->]%check_Ok & Hr).
  apply bind_Ok in Hr as ([] & ? & [Hq%Z.eqb_eq ->]%check_Ok & Hr).
  apply bind_Ok in Hr as ([] & s3 & Ht & Hr). unfold createOrder_times in Ht.
  apply bind_Ok in Ht as ([] & ? & [Hb%bool_decide_eq_true ->]%check_Ok & Ht).
  apply bind_Ok in Ht as ([] & ? & [Ht1%negb_true_iff ->]%check_Ok & Ht).
  apply bind_Ok in Ht as ([] & ? & [Ht2%negb_true_iff ->]%check_Ok & [Ht3%negb_true_iff ->]%check_Ok).
  rewrite Z.geb_leb in Ht1. rewrite Z.gtb_ltb in Ht2, Ht3.
  apply Z.leb_gt in Ht1. apply Z.ltb_ge in Ht2, Ht3.
  apply bind_Ok in Hr as ([] & s4 & ->%modify_Ok & Hr).
  rewrite (upd_order_put _ _ _ _ Hc) in Hr.
  transitivity s1; [done|]. transitivity s2; [done|].
  eapply evolve_step; [exact Hc|by apply step_open|apply pair_createOrder_save|exact Hr].
Qed.

Lemma addSeq_evolve msg s s' : addSeq msg s = (Ok tt, s') -> orders_evolve s s'.
Proof.
  intros Hr. unfold addSeq in Hr.
  apply bind_Ok in Hr as ([sos [uri pri]] & s1 & Hp & Hr).
  apply (keeps_Ok orders_evolve) in Hp; [|apply (keeps_addSeq_pre Applied); typeclasses eauto].
  apply bind_Ok in Hr as ([oi base] & s2 & Ho & Hr). simpl in Ho, Hr. unfold addSeq_order in Ho.
  apply bind_Ok in Ho as (oi' & s3 & (E2 & Hc & _)%orderOf_Ok & Ho).
  apply bind_Ok in Ho as (base' & ? & [Hb ->]%of_option_Ok & Ho).
  apply bind_Ok in Ho as ([] & ? & [Hn%Z.eqb_eq ->]%check_Ok & Ho).
  apply bind_Ok in Ho as ([] & ? & [Hq%Z.eqb_eq ->]%check_Ok & [[= -> ->] ->]%ret_Ok).
  apply bind_Ok in Hr as (ui & s4 & Hu & Hr).
  apply (keeps_Ok (pair_evolve (os_UserID (sos_OrderSeq sos), os_ProID (sos_OrderSeq sos)))) in Hu;
    [|apply (keeps_userOf Applied); typeclasses eauto].
  apply bind_Ok in Hr as ([] & s5 & Ha & Hr). 
  pose proof Ha as Hk. apply (keeps_Ok (pair_evolve (os_UserID (sos_OrderSeq sos), os_ProID (sos_OrderSeq sos)))) in Hk;
    [|apply (keeps_addSeq_amounts Applied); typeclasses eauto].
  unfold addSeq_amounts in Ha.
  apply bind_Ok in Ha as ([] & ? & [Hsz%Z.eqb_eq ->]%check_Ok & Ha).
  apply bind_Ok in Ha as (segPrice & ? & [Hsp ->]%deref_Ok & Ha).
  apply bind_Ok in Ha as (basePrice & ? & [Hbp ->]%deref_Ok & Ha).
  apply bind_Ok in Ha as (soPrice & ? & [Hop ->]%deref_Ok & Ha).
  apply bind_Ok in Ha as ([] & ? & [Hpr%Z.eqb_eq ->]%check_Ok & _).
  apply bind_Ok in Hr as ([] & s6 & Hs & Hr).
  apply (keeps_Ok (pair_evolve (os_UserID (sos_OrderSeq sos), os_ProID (sos_OrderSeq sos)))) in Hs;
    [|apply keeps_for_each; [typeclasses eauto|intros; apply keeps_addChunk; typeclasses eauto]].
  apply bind_Ok in Hr as ([] & s7 & ->%modify_Ok & Hr).
  assert (P : pair_evolve (os_UserID (sos_OrderSeq sos), os_ProID (sos_OrderSeq sos)) s3 s6)
    by (repeat (etransitivity; [eassumption|]); reflexivity).
  destruct P as [Ps Pe]. unfold same_orders in Ps.
  transitivity s1; [done|]. transitivity s3; [done|].
  transitivity s6; [apply Pe; rewrite Hc; by eexists|].
  eapply evolve_step; [by rewrite Ps| |apply pair_addSeq_save|exact Hr].
  by eapply (step_seq _ _ _ sos base' (su_fsID ui) segPrice basePrice); subst.
Qed.

Lemma commitOrder_evolve msg s s' : commitOrder msg s = (Ok tt, s') -> orders_evolve s s'.
Proof.
  intros Hr. unfold commitOrder, commitOrder_mem in Hr.
  apply bind_Ok in Hr as (r & s9 & Hm & Hr).
  apply bind_Ok in Hm as (ocp & ? & [Hd ->]%of_option_Ok & Hm).
  apply bind_Ok in Hm as ([] & ? & [_ ->]%check_Ok & Hm).
  apply bind_Ok in Hm as (oi & s1 & (E1 & Hc & _)%orderOf_Ok & Hm).
  apply bind_Ok in Hm as ([] & ? & [_ ->]%check_Ok & Hm).
  apply bind_Ok in Hm as ([] & ? & [_ ->]%check_Ok & Hm).
  apply bind_Ok in Hm as (base & ? & [Hb ->]%deref_Ok & Hm).
  apply bind_Ok in Hm as ([] & ? & [Hz%negb_true_iff%Z.eqb_neq ->]%check_Ok & Hm).
  apply bind_Ok in Hm as ([] & ? & ->%modify_Ok & [-> ->]%ret_Ok). simpl in Hr.
  transitivity s1; [done|].
  eapply evolve_step; [exact Hc|by eapply step_commit|apply pair_saveOrderState|exact Hr].
Qed.

Lemma subOrder_evolve msg s s' : subOrder msg s = (Ok tt, s') -> orders_evolve s s'.
Proof.
  intros Hr. unfold subOrder, subOrder_mem in Hr.
  apply bind_Ok in Hr as (r & s9 & Hm & Hr).
  apply bind_Ok in Hm as (osp & ? & [Hd ->]%of_option_Ok & Hm).
  apply bind_Ok in Hm as ([] & ? & [_ ->]%check_Ok & Hm).
  apply bind_Ok in Hm as (oi & s1 & (E1 & Hc & _)%orderOf_Ok & Hm).
  apply bind_Ok in Hm as ([] & ? & [Hn%Z.eqb_eq ->]%check_Ok & Hm).
  apply bind_Ok in Hm as ([] & ? & [Hl%negb_true_iff ->]%check_Ok & Hm).
  rewrite Z.gtb_ltb in Hl. apply Z.ltb_ge in Hl.
  apply bind_Ok in Hm as (ofl & ? & Hg & Hm). unfold get_decode, get in Hg. go_inv.
  cbn [fst snd] in Hr.
  rewrite (upd_order_put _ _ _ _ Hc) in Hr.
  transitivity s1; [done|].
  eapply evolve_step; [exact Hc| |apply pair_saveOrderState|exact Hr].
  apply (step_sub (osp_UserID osp) (osp_ProID osp)). lia.
Qed.

Lemma add_income_value_Ok d x s y s' : add_income_value d x s = (Ok y, s') ->
  s' = s /\ y = set_income_value (fun v => v + d) x.
Proof.
  intros Hr. unfold add_income_value, big_add in Hr. go_inv. split; [done|].
  unfold set_income_value. by match goal with E : pi_Value x = _ |- _ => rewrite E end.
Qed.
Lemma add_income_penalty_Ok d x s y s' : add_income_penalty d x s = (Ok y, s') ->
  s' = s /\ y = set_income_penalty (fun v => v + d) x.
Proof.
  intros Hr. unfold add_income_penalty, big_add in Hr. go_inv. split; [done|].
  unfold set_income_penalty. by match goal with E : pi_Penalty x = _ |- _ => rewrite E end.
Qed.

Lemma put_order_twice w k x y s : put_order w k x (put_order w k y s) = put_order w k x s.
Proof.
  destruct s as [? ? ? ? ? ? ? ? ? [] []], w;
    unfold put_order, set_view, set_cur, set_vld, set_v_oInfo; simpl; by rewrite insert_insert_eq.
Qed.

(** What [chal_verify] leaves: the entry of the pair is cached and returned,
    and the epoch has not been proved. *)
Lemma chal_verify_Ok msg s scp oi price s' : chal_verify Applied msg s = (Ok (scp, (oi, price)), s') ->
  orders_evolve s s' /\ decode (m_Params msg) = Some scp /\
  v_oInfo (cur s') !! (scp_UserID scp, scp_ProID scp) = Some oi /\
  oi = order_at s (scp_UserID scp) (scp_ProID scp) /\
  o_prove oi <= scp_Epoch scp /\ scp_Epoch scp = ce_Epoch (ci_current (v_ceInfo (cur s))).
Proof.
  intros Hr. unfold chal_verify in Hr.
  apply bind_Ok in Hr as ([scp' prf] & s1 & Hp & Hr). unfold chal_paras in Hp.
  apply bind_Ok in Hp as (scp1 & ? & [Hd ->]%of_option_Ok & Hp).
  apply bind_Ok in Hp as (prf' & ? & [_ ->]%of_option_Ok & Hp).
  apply bind_Ok in Hp as (? & ? & [_ ->]%of_option_Ok & Hp).
  apply bind_Ok in Hp as ([] & ? & [_ ->]%check_Ok & Hp).
  apply bind_Ok in Hp as (v & ? & [-> ->]%gets_Ok & Hp).
  apply bind_Ok in Hp as ([] & ? & [He%Z.eqb_eq ->]%check_Ok & [[= -> ->] ->]%ret_Ok).
  cbn [fst snd] in Hr.
  apply bind_Ok in Hr as (oi' & s2 & (E2 & Hc & Ho)%orderOf_Ok & Hr).
  apply bind_Ok in Hr as ([] & ? & [Hl%negb_true_iff ->]%check_Ok & Hr).
  rewrite Z.gtb_ltb in Hl. apply Z.ltb_ge in Hl.
  assert (K : pair_evolve (scp_UserID scp1, scp_ProID scp1) s2 s' /\ scp = scp1 /\ oi = oi').
  { apply bind_Ok in Hr as (v & ? & [-> ->]%gets_Ok & Hr).
    apply bind_Ok in Hr as (ui & s3 & Hu & Hr).
    apply (keeps_Ok (pair_evolve (scp_UserID scp1, scp_ProID scp1))) in Hu;
      [|apply (keeps_chal_user Applied); typeclasses eauto].
    apply bind_Ok in Hr as (chal & ? & [_ ->]%of_option_Ok & Hr).
    apply bind_Ok in Hr as (ns & s4 & Hn & Hr).
    assert (s4 = s3) as -> by (unfold chal_ns, get_into in Hn; unfold get in Hn; go_inv; by case_match; go_inv).
    apply bind_Ok in Hr as (a & s5 & Ht & Hr).
    apply (keeps_Ok (pair_evolve (scp_UserID scp1, scp_ProID scp1))) in Ht;
      [|apply (keeps_chal_total Applied); typeclasses eauto].
    apply bind_Ok in Hr as (ok & ? & [_ ->]%of_option_Ok & Hr).
    apply bind_Ok in Hr as ([] & ? & [_ ->]%check_Ok & [[= -> -> ->] ->]%ret_Ok).
    split; [by etransitivity|done]. }
  destruct K as ([Ps Pe] & -> & ->). unfold same_orders in Ps. split_and!; try done.
  - etransitivity; [exact E2|]. apply Pe. rewrite Hc. by eexists.
  - by rewrite Ps.
Qed.

Lemma addSegProof_evolve msg s s' : addSegProof msg s = (Ok tt, s') -> orders_evolve s s'.
Proof.
  intros Hr. unfold addSegProof in Hr.
  apply bind_Ok in Hr as ([scp [oi price]] & s1 & (E1 & _ & Hc & _ & Hl & _)%chal_verify_Ok & Hr).
  cbn [fst snd] in Hr.
  apply bind_Ok in Hr as ([] & s2 & ->%modify_Ok & Hr).
  apply bind_Ok in Hr as (income & s2 & [-> ->]%add_income_value_Ok & Hr).
  apply bind_Ok in Hr as ([] & s3 & ->%modify_Ok & Hr). rewrite put_order_twice in Hr.
  transitivity s1; [done|].
  eapply evolve_step; [exact Hc| |apply pair_addSegProof_save|exact Hr].
  by apply (step_prove _ _ oi (scp_Epoch scp) price).
Qed.

Lemma removeSeg_evolve msg s s' : removeSeg msg s = (Ok tt, s') -> orders_evolve s s'.
Proof.
  intros Hr. unfold removeSeg in Hr.
  apply bind_Ok in Hr as (so & ? & [Hd ->]%of_option_Ok & Hr).
  apply bind_Ok in Hr as ([] & ? & [_ ->]%check_Ok & Hr).
  apply bind_Ok in Hr as (oi & s2 & (E2 & Hc & _)%orderOf_Ok & Hr).
  apply bind_Ok in Hr as (ui & s3 & Hu & Hr).
  apply (keeps_Ok (pair_evolve (srp_UserID so, srp_ProID so))) in Hu;
    [|apply (keeps_userOf Applied); typeclasses eauto].
  apply bind_Ok in Hr as (l & s4 & Hl & Hr).
  apply (keeps_Ok (pair_evolve (srp_UserID so, srp_ProID so))) in Hl;
    [|apply (keeps_removeSeg_load Applied); typeclasses eauto].
  apply bind_Ok in Hr as (segPrice & ? & [_ ->]%deref_Ok & Hr).
  apply bind_Ok in Hr as (income & ? & [-> ->]%add_income_penalty_Ok & Hr).
  apply bind_Ok in Hr as ([] & s5 & ->%modify_Ok & Hr).
  assert (P : pair_evolve (srp_UserID so, srp_ProID so) s2 s4) by (by etransitivity).
  destruct P as [Ps Pe]. unfold same_orders in Ps. rewrite <-Ps in Hc.
  rewrite (upd_order_put _ _ _ _ Hc) in Hr.
  transitivity s2; [done|]. transitivity s4; [apply Pe; rewrite <-Ps, Hc; by eexists|].
  match type of Hr with ?m (put_order _ _ ?oi' _) = _ =>
    apply (evolve_step _ _ oi oi' m _ _ Hc); [apply step_penalty| |exact Hr] end.
  unfold add_del. keeps. apply pair_removeSeg_save.
Qed.

(** ** Messages and chains *)

Lemma keeps_evolve_put t vs v : bool_decide (t ∈ order_tables) = false ->
  Keeps orders_evolve (put (NewKey (KMetaType t :: vs)) v).
Proof. intros Ht s. eapply evolve_tag; [exact Ht|apply put_eff]. Qed.
Lemma keeps_evolve_tds_Put t vs v : bool_decide (t ∈ order_tables) = false ->
  Keeps orders_evolve (tds_Put (NewKey (KMetaType t :: vs)) v).
Proof. intros Ht s. eapply evolve_tag; [exact Ht|apply tds_Put_eff]. Qed.
Lemma keeps_evolve_put_role id ri : Keeps orders_evolve (modify (put_role Applied id ri)).
Proof. apply keeps_modify. intros s. by apply evolve_view. Qed.
Lemma keeps_evolve_root f : Keeps orders_evolve (modify (set_cur (set_v_root f))).
Proof. apply keeps_modify. intros s. by apply evolve_view. Qed.
Lemma keeps_evolve_ids f : Keeps orders_evolve (modify (set_keepers f)) /\
  Keeps orders_evolve (modify (set_pros f)) /\ Keeps orders_evolve (modify (set_users f)).
Proof.
  split_and!; apply keeps_modify; intros s; (apply evolve_reads; [intros u p; by right|done]).
Qed.
#[local] Hint Resolve keeps_evolve_put_role keeps_evolve_root : keeps.
#[local] Hint Extern 2 (Keeps orders_evolve (put _ _)) => apply keeps_evolve_put; vm_compute; reflexivity : keeps.
#[local] Hint Extern 2 (Keeps orders_evolve (tds_Put _ _)) => apply keeps_evolve_tds_Put; vm_compute; reflexivity : keeps.
#[local] Hint Extern 2 (Keeps orders_evolve (modify _)) => apply keeps_evolve_ids : keeps.

Lemma addRole_evolve msg : Keeps orders_evolve (addRole msg).
Proof. unfold addRole, addRole_pre, addRole_entry, loadVal, addRole_lists, append_id, tds_Get. keeps. Qed.

Lemma apply_method_evolve msg s s' : apply_method msg s = (Ok tt, s') -> orders_evolve s s'.
Proof.
  unfold apply_method.
  repeat match goal with |- (if ?b then ?h _ else _) _ = _ -> _ => destruct b end.
  - apply keeps_Ok, addRole_evolve.
  - apply keeps_Ok, keeps_addUser. typeclasses eauto.
  - apply keeps_Ok, keeps_addBucket. typeclasses eauto.
  - apply createOrder_evolve.
  - apply addSeq_evolve.
  - apply commitOrder_evolve.
  - apply subOrder_evolve.
  - apply removeSeg_evolve.
  - apply keeps_Ok. by apply (keeps_updateChalEpoch orders_evolve).
  - apply addSegProof_evolve.
  - apply keeps_Ok, keeps_addPay. typeclasses eauto.
  - apply keeps_Ok, keeps_updateNetAddr. typeclasses eauto.
  - apply keeps_Ok, keeps_addBucMeta. typeclasses eauto.
  - apply keeps_Ok, keeps_addObjMeta. typeclasses eauto.
  - done.
Qed.

Lemma keeps_evolve_nonce msg : Keeps orders_evolve (applyMsg_nonce msg).
Proof.
  unfold applyMsg_nonce, saveVal, newRoot. keeps.
Qed.

Lemma applyMsg_evolve msg r s s' : applyMsg (Some msg) r s = (Ok tt, s') -> orders_evolve s s'.
Proof.
  intros Hr. apply bind_Ok in Hr as ([] & s1 & H1 & Hr).
  apply (keeps_Ok _ _ _ _ _ (keeps_evolve_nonce msg)) in H1.
  etransitivity; [exact H1|]. destruct (negb _); [by apply ret_Ok in Hr as [_ ->]|].
  by apply apply_method_evolve in Hr.
Qed.

#[export] Instance orders_evolve_ChainRel : ChainRel orders_evolve.
Proof.
  split; [typeclasses eauto|..].
  - intros s s' Hr _ _ []. apply evolve_reads; [intros u p; by right|done].
  - intros t vs s s' Ht E. eapply evolve_tag; [|exact E].
    eapply tables_disjoint; [|exact Ht]. by vm_compute.
  - intros msg r s s'. apply applyMsg_evolve.
Qed.

(** A node started on an empty database. *)
Lemma fresh_load base groupID thre t (s0 := initStateMgr base groupID thre ∅ t) (v := version_at 0 0) :
  (forall k, smt_get t k = None) -> exists f,
  load s0 = (Ok tt, set_vld f (set_cur (set_v_version (fun _ => v)) s0)).
Proof.
  intros Ht.
  set (s1 := set_vld (set_v_version (fun _ => v)) (set_cur (set_v_version (fun _ => v)) s0)).
  exists (fun w => set_v_root (fun _ => v_root (cur s1)) (set_v_version (fun _ => v) w)). unfold load.
  assert (H1 : load_height s0 = (Ok tt, s0)) by done. rewrite (bind_run _ _ _ _ _ H1).
  assert (H2 : load_version s0 = (Ok tt, s1)) by done. rewrite (bind_run _ _ _ _ _ H2).
  assert (H3 : load_block s1 = (Ok tt, s1)) by done. rewrite (bind_run _ _ _ _ _ H3).
  assert (H4 : load_root s1 = (Ok tt, set_vld (set_v_root (fun _ => v_root (cur s1))) s1)) by done.
  rewrite (bind_run _ _ _ _ _ H4). set (s2 := set_vld _ s1).
  assert (H5 : forall key f, load_ids key f s2 = (Ok tt, s2)) by done.
  rewrite !(bind_run _ _ _ _ _ (H5 _ _)). unfold load_epoch.
  assert (H6 : get ChalEpochKey s2 = (Ok None, s2)) by (unfold get, gets, read; simpl; by rewrite Ht).
  by rewrite (bind_run _ _ _ _ _ H6).
Qed.

Lemma fresh_state base groupID thre t (s := NewStateMgr base groupID thre ∅ t) :
  (forall k, smt_get t k = None) ->
  tds s = None /\ v_oInfo (cur s) = ∅ /\ (forall k, read s k = None).
Proof.
  intros Ht. subst s. unfold NewStateMgr. destruct (fresh_load base groupID thre t Ht) as [f ->].
  split_and!; [done..|]. intros k. unfold read, tds_get. simpl. by rewrite Ht.
Qed.

(** C6. Along any chain of applied blocks the order between a user and a
    provider moves only by the steps of the order machine: it is opened with
    the expected nonce when none is running, extended by sequences in order,
    committed when it holds data, settled in order, proved for an epoch not
    proved yet, or penalised; no message does anything else to it. *)
Theorem order_life_cycle blks s s' u p :
  tds s = None -> apply_chain blks s = (Ok tt, s') ->
  rtc (order_step u p) (order_at s u p) (order_at s' u p).
Proof. intros Ht Hr. by apply (lift_apply_chain orders_evolve _ _ _ Ht Hr). Qed.

(** C8. In every state a fresh node reaches by applying blocks, a pair without
    a running order has no sequence and no data pending, and a running order is
    the pair's own, has the expected nonce, and its size and its price are
    those of one and the same number of segments. *)
Theorem order_invariant base groupID thre t blks s' u p :
  (forall k, smt_get t k = None) ->
  apply_chain blks (NewStateMgr base groupID thre ∅ t) = (Ok tt, s') ->
  order_ok u p (order_at s' u p).
Proof.
  intros Ht Hr. destruct (fresh_state base groupID thre t Ht) as (Htds & Ho & Hread).
  eapply order_steps_ok; [by apply (lift_apply_chain orders_evolve _ _ _ Htds Hr)|].
  unfold order_at. rewrite Ho, lookup_empty. unfold stored_order, stored_full, read_into.
  rewrite !Hread. by constructor.
Qed.
End OrderHistory.

(** ** Witnesses: the first order of the scenario, committed, and the next one. *)

From S2P Require Import Concrete Scenario OrderScenario.

Lemma order_life_cycle_witness :
  o_ns (order_at st4 7 9) = mkNonceSeq 1 0 0 /\ rtc (order_step 7 9) (order_at st2 7 9) (order_at st4 7 9).
Proof.
  split; [vm_compute; reflexivity|].
  apply (order_life_cycle [blk2; blk3] st2).
  - vm_compute. reflexivity.
  - exact order_chain_run.
Defined.

Lemma order_invariant_witness :
  o_base (order_at st4 7 9) = Some second_order /\ order_ok 7 9 (order_at st4 7 9).
Proof.
  split; [vm_compute; reflexivity|].
  apply (order_invariant [] 1 1 ∅ [blk0; blk1; blk2; blk3]).
  - intros k. change (toy_get ∅ k = None). unfold toy_get. by rewrite lookup_empty.
  - exact full_chain_run.
Defined.
