(* ===== verification/EpochHistory.v ===== *)
(** * EpochHistory: the chain of challenge epochs

    [epoch_step] is what one UpdateChalEpoch message does to the challenge
    epochs; nothing else touches them, so along a chain of blocks the epochs
    form a chain of their own: consecutive numbers, each naming the seed of the
    one before, no two closer than the duration of the version. *)

From stdpp Require Import relations.
From S2P Require Import Prelude GoMonad Codec Keys Segments SegmentID Types Tx Fr StateTypes State Roles Chunks Orders Challenge Pay Validate Block Handlers Frame Chain Lift.

Section EpochHistory.
Context `{!StateEnv, !SMTLaws}.
Implicit Types (s : StateMgr) (msg : Message) (ce : chalEpochInfo).

(** The message's parameters [params] start the next epoch at [slot]. *)
Inductive epoch_step ce : chalEpochInfo -> Prop :=
  | epoch_next params sep version dur slot :
      decode params = Some sep ->
      sep_Epoch sep = ci_epoch ce -> sep_Prev sep = ce_Seed (ci_current ce) ->
      ChalDurMap !! version = Some dur -> dur <= u64 (slot - ce_Slot (ci_current ce)) ->
      epoch_step ce
        (mkChalEpochInfo (u64 (ci_epoch ce + 1))
           (mkChalEpoch (ci_epoch ce) slot (NewMsgID params)) (ci_current ce)).

Definition epochs_evolve s s' : Prop := rtc epoch_step (v_ceInfo (cur s)) (v_ceInfo (cur s')).
#[export] Instance epochs_evolve_preorder : PreOrder epochs_evolve.
Proof. split; [intros s; constructor|]. intros s1 s2 s3. unfold epochs_evolve. apply (transitivity (R := rtc epoch_step)). Qed.

Lemma epochs_same s s' : v_ceInfo (cur s') = v_ceInfo (cur s) -> epochs_evolve s s'.
Proof. unfold epochs_evolve. by intros ->. Qed.

#[export] Instance epochs_StoreFrame : StoreFrame Applied epochs_evolve.
Proof.
  split; [typeclasses eauto|..].
  - intros t vs v _ s. apply epochs_same. by rewrite (se_cur _ _ _ (put_eff _ v s)).
  - intros id u. apply keeps_modify. intros s. by apply epochs_same.
  - intros id f. apply keeps_modify. intros s. by apply epochs_same.
  - intros id s. apply epochs_same. unfold roleOf.
    rewrite (bind_run _ _ _ _ _ (eq_refl : gets _ _ = _)). simpl.
    destruct (v_rInfo (cur s) !! id); [done|].
    destruct (loadRole_run id s) as [base Hl]. by rewrite (bind_run _ _ _ _ _ Hl).
Qed.
#[export] Instance epochs_OrderFrame : OrderFrame Applied epochs_evolve.
Proof.
  split; [|intros; apply keeps_modify; intros s; by apply epochs_same..].
  intros t vs v _ s. apply epochs_same. by rewrite (se_cur _ _ _ (put_eff _ v s)).
Qed.

Lemma epochs_put key v : Keeps epochs_evolve (put key v).
Proof. intros s. apply epochs_same. by rewrite (se_cur _ _ _ (put_eff key v s)). Qed.
Lemma epochs_tds_Put key v : Keeps epochs_evolve (tds_Put key v).
Proof. intros s. apply epochs_same. by rewrite (se_cur _ _ _ (tds_Put_eff key v s)). Qed.
Lemma epochs_modify f : (forall s, v_ceInfo (cur (f s)) = v_ceInfo (cur s)) -> Keeps epochs_evolve (modify f).
Proof. intros Hf. apply keeps_modify. intros s. by apply epochs_same. Qed.
#[local] Hint Resolve epochs_put epochs_tds_Put : keeps.
#[local] Hint Extern 3 (Keeps epochs_evolve (modify _)) => apply epochs_modify; reflexivity : keeps.

(** ** The message that starts an epoch *)

Lemma updateChalEpoch_evolve msg s s' : updateChalEpoch msg s = (Ok tt, s') -> epochs_evolve s s'.
Proof.
  intros Hr. unfold updateChalEpoch in Hr. apply bind_Ok in Hr as ([] & s1 & Hm & Hr).
  transitivity s1.
  - unfold updateChalEpoch_mem in Hm.
    apply bind_Ok in Hm as (sep & ? & [Hd ->]%of_option_Ok & Hm).
    apply bind_Ok in Hm as (v & ? & [-> ->]%gets_Ok & Hm).
    apply bind_Ok in Hm as ([] & ? & [He%Z.eqb_eq ->]%check_Ok & Hm).
    apply bind_Ok in Hm as ([] & ? & [Hp ->]%check_Ok & Hm). unfold MsgID_Equal in Hp.
    apply bool_decide_eq_true in Hp.
    apply bind_Ok in Hm as (dur & ? & [Hdur ->]%of_option_Ok & Hm).
    apply bind_Ok in Hm as ([] & ? & [Hs%negb_true_iff%Z.ltb_ge ->]%check_Ok & Hm).
    apply bind_Ok in Hm as (c & ? & [-> ->]%gets_Ok & ->%modify_Ok).
    apply rtc_once. simpl. rewrite He. by eapply epoch_next.
  - assert (K : Keeps epochs_evolve (let! v := gets cur in
        do! put_encode (ChalEpochKey2 (ce_Epoch (ci_current (v_ceInfo v)))) (ci_current (v_ceInfo v));
        put ChalEpochKey (put_be 8 (ci_epoch (v_ceInfo v))))) by (unfold put_encode; keeps).
    specialize (K s1). by rewrite Hr in K.
Qed.

Lemma addRole_epochs msg : Keeps epochs_evolve (addRole msg).
Proof. unfold addRole, addRole_pre, addRole_entry, loadVal, addRole_lists, append_id, tds_Get. keeps. Qed.

Lemma applyMsg_epochs msg r s s' : applyMsg (Some msg) r s = (Ok tt, s') -> epochs_evolve s s'.
Proof.
  intros Hr. apply bind_Ok in Hr as ([] & s1 & H1 & Hr).
  assert (K : Keeps epochs_evolve (applyMsg_nonce msg)) by (unfold applyMsg_nonce, saveVal, newRoot; keeps).
  specialize (K s). rewrite H1 in K. etransitivity; [exact K|].
  destruct (negb _); [by apply ret_Ok in Hr as [_ ->]|].
  destruct (decide (m_Method msg = UpdateChalEpoch)) as [E|Hne].
  { unfold apply_method in Hr. rewrite E in Hr. by apply updateChalEpoch_evolve in Hr. }
  destruct (decide (m_Method msg = AddRole)) as [E|Hne'].
  { unfold apply_method in Hr. rewrite E in Hr. change (addRole msg s1 = (Ok tt, s')) in Hr.
    pose proof (addRole_epochs msg s1) as K1. by rewrite Hr in K1. }
  pose proof (keeps_apply_method_other epochs_evolve msg Hne' Hne s1) as K1. by rewrite Hr in K1.
Qed.

#[export] Instance epochs_ChainRel : ChainRel epochs_evolve.
Proof.
  split; [typeclasses eauto|..].
  - intros s s' _ _ _ []. by apply epochs_same.
  - intros t vs s s' _ E. apply epochs_same. by rewrite (se_cur _ _ _ E).
  - intros msg r s s'. apply applyMsg_epochs.
Qed.

End EpochHistory.

(** ** Witness: the first epoch of the scenario. *)

From S2P Require Import Concrete Scenario OrderScenario.

