(* ===== verification/ChunkHistory.v ===== *)
(** * ChunkHistory: where the chunks of a bucket are placed

    Per user, bucket and provider the state manager keeps the set of stripes
    of which the provider stores a chunk ([placed]).  [addChunk] adds a run of
    stripes and refuses a run that meets the set; an order sequence therefore
    never gives a provider two chunks of one stripe. *)

From S2P Require Import Prelude GoMonad Codec Keys Segments SegmentID Types Tx Fr StateTypes State Roles Chunks Orders Challenge Pay Validate Block Handlers Frame Chain.

Section ChunkHistory.
Context `{!StateEnv, !SMTLaws, !BitSetLaws}.
Implicit Types (s : StateMgr) (u bid pro i : Z) (key : bytes).

(** The bit map of a provider: the cached one, or the one that would be loaded. *)
Definition stored_map s u bid pro : bitset :=
  match read s (SegMapKey u bid pro) with
  | Some data => match decode (A := bitsetStored) data with
                 | Some bs => bs_from (bss_Val bs)
                 | None => bs_new
                 end
  | None => bs_new
  end.
Definition cached_map (m : gmap Z segPerUser) u bid pro : option bitset :=
  match m !! u with
  | Some su => match su_buckets su !! bid with Some bm => bm_stripes bm !! pro | None => None end
  | None => None
  end.
Definition map_at s u bid pro : bitset :=
  match cached_map (v_sInfo (cur s)) u bid pro with
  | Some cm => cm
  | None => stored_map s u bid pro
  end.
Definition placed s u bid pro i : bool := bs_test (map_at s u bid pro) i.

Definition same_maps s s' : Prop := forall u bid pro, map_at s' u bid pro = map_at s u bid pro.
#[export] Instance same_maps_preorder : PreOrder same_maps.
Proof. split; [done|]. intros s1 s2 s3 E1 E2 u bid pro. by rewrite E2, E1. Qed.

Lemma SegMapKey_inj u bid pro u' bid' pro' :
  SegMapKey u bid pro = SegMapKey u' bid' pro' -> (u, bid, pro) = (u', bid', pro').
Proof.
  intros E. apply NewKey_num_inj in E; [by injection E as -> -> ->| | |done..];
    repeat constructor; simpl; by eexists.
Qed.

Lemma maps_reads s s' :
  v_sInfo (cur s') = v_sInfo (cur s) ->
  (forall u bid pro, read s' (SegMapKey u bid pro) = read s (SegMapKey u bid pro)) -> same_maps s s'.
Proof. intros Hs Hr u bid pro. unfold map_at, stored_map. by rewrite Hs, Hr. Qed.

(** ** Computations that leave the bit maps alone *)

Lemma maps_put t vs v : bool_decide (t ∈ [pb.MetaType_ST_SegMapKey]) = false ->
  Keeps same_maps (put (NewKey (KMetaType t :: vs)) v).
Proof.
  intros Ht s. pose proof (put_eff (NewKey (KMetaType t :: vs)) v s) as E.
  apply maps_reads; [by rewrite (se_cur _ _ _ E)|]. intros u bid pro.
  eapply store_eff_read; [done|]. eapply has_tag_ne'; [|done]. apply has_tag_NewKey. set_solver.
Qed.
Lemma maps_modify f : (forall s, v_sInfo (cur (f s)) = v_sInfo (cur s)) ->
  (forall s key, read (f s) key = read s key) -> Keeps same_maps (modify f).
Proof. intros Hf Hr. apply keeps_modify. intros s. apply maps_reads; auto. Qed.
#[local] Hint Extern 2 (Keeps same_maps (put _ _)) => apply maps_put; vm_compute; reflexivity : keeps.
#[local] Hint Extern 3 (Keeps same_maps (modify (put_order _ _ _))) => apply maps_modify; reflexivity : keeps.
#[local] Hint Extern 3 (Keeps same_maps (modify (put_role _ _ _))) => apply maps_modify; reflexivity : keeps.

Lemma maps_roleOf id : Keeps same_maps (roleOf Applied id).
Proof. unfold roleOf, loadRole, loadVal, get. keeps. Qed.
Lemma maps_verify ri b sg : Keeps same_maps (verify ri b sg).
Proof. unfold verify, verify_with. keeps. Qed.
#[local] Hint Resolve maps_roleOf maps_verify : keeps.
Lemma maps_addSeq_pre msg : Keeps same_maps (addSeq_pre Applied msg).
Proof. unfold addSeq_pre. keeps. Qed.
Lemma maps_addSeq_order so : Keeps same_maps (addSeq_order Applied so).
Proof. unfold addSeq_order, orderOf, loadOrder, loadBase, loadProve, get_into, get. keeps. Qed.
Lemma maps_addSeq_amounts sos x y b : Keeps same_maps (addSeq_amounts sos x y b).
Proof. unfold addSeq_amounts. keeps. Qed.
Lemma maps_addSeq_save so oi b fr : Keeps same_maps (addSeq_save so oi b fr).
Proof. unfold addSeq_save, get_decode, get, put_encode, saveOrderState. keeps. Qed.

(** Filling a cache with what would be loaded changes nothing either. *)
Lemma maps_fill s s' :
  (forall u bid pro, read s' (SegMapKey u bid pro) = read s (SegMapKey u bid pro)) ->
  (forall u bid pro, cached_map (v_sInfo (cur s')) u bid pro = cached_map (v_sInfo (cur s)) u bid pro \/
     (cached_map (v_sInfo (cur s)) u bid pro = None /\
      cached_map (v_sInfo (cur s')) u bid pro = Some (stored_map s u bid pro))) -> same_maps s s'.
Proof.
  intros Hr Hc u bid pro. unfold map_at.
  assert (E : stored_map s' u bid pro = stored_map s u bid pro) by (unfold stored_map; by rewrite Hr).
  rewrite E. by destruct (Hc u bid pro) as [->|[-> ->]].
Qed.

Lemma maps_loadUser id : Keeps same_maps (loadUser id).
Proof. unfold loadUser, loadUser_vk, get. keeps. Qed.

(** The user's entry is cached by [userOf], and the load does not touch the caches. *)
Lemma userOf_Ok u s su s' : userOf Applied u s = (Ok su, s') ->
  same_maps s s' /\ v_sInfo (cur s') !! u = Some su.
Proof.
  intros Hr. unfold userOf in Hr. rewrite (bind_run _ _ _ _ _ (eq_refl : gets _ _ = _)) in Hr. simpl in Hr.
  destruct (v_sInfo (cur s) !! u) as [x|] eqn:E; [by apply ret_Ok in Hr as [-> ->]|].
  apply bind_Ok in Hr as (x & s1 & Hs1 & Hr).
  apply bind_Ok in Hr as ([] & s2 & ->%modify_Ok & [-> ->]%ret_Ok).
  pose proof (maps_loadUser u s) as M. rewrite Hs1 in M.
  assert (Hc : v_sInfo (cur s1) = v_sInfo (cur s) /\ su_buckets x = ∅).
  { unfold loadUser in Hs1. apply bind_Ok in Hs1 as (vk & s3 & H3 & Hs1). unfold get in Hs1. go_inv.
    split; [|done]. unfold loadUser_vk in H3. apply bind_Ok in H3 as (d & ? & [-> ->]%gets_Ok & H3).
    destruct (read s _); [by go_inv|]. apply bind_Ok in H3 as (d & ? & [-> ->]%gets_Ok & H3).
    apply bind_Ok in H3 as (d & ? & [_ ->]%of_option_Ok & H3).
    apply bind_Ok in H3 as (pk & ? & [_ ->]%of_option_Ok & H3).
    apply bind_Ok in H3 as ([] & s4 & H4 & [_ ->]%ret_Ok).
    pose proof (put_eff (PDPVerifyKey u) (vk_Serialize (pk_VerifyKey pk)) s) as Ef.
    rewrite H4 in Ef. simpl in Ef. by rewrite (se_cur _ _ _ Ef). }
  destruct Hc as [Hc Hb]. split; [|simpl; by rewrite lookup_insert_eq].
  transitivity s1; [done|]. apply maps_fill; [done|]. intros u' bid pro. left.
  unfold cached_map. simpl. rewrite Hc. destruct (decide (u' = u)) as [->|Hne].
  - by rewrite lookup_insert_eq, E, Hb, lookup_empty.
  - by rewrite lookup_insert_ne.
Qed.

(** Writing one bucket of a cached user. *)
Lemma cached_put_bucket (m : gmap Z segPerUser) u bid bm su u' bid' pro' :
  m !! u = Some su ->
  cached_map (alter (set_su_buckets <[bid := bm]>) u m) u' bid' pro' =
    if bool_decide ((u', bid') = (u, bid)) then bm_stripes bm !! pro' else cached_map m u' bid' pro'.
Proof.
  intros Hu. unfold cached_map. destruct (decide (u' = u)) as [->|Hne].
  - rewrite lookup_alter_eq, Hu. simpl. case_bool_decide as E.
    + injection E as ->. by rewrite lookup_insert_eq.
    + rewrite lookup_insert_ne; [done|]. intros ->. by apply E.
  - rewrite lookup_alter_ne by done. rewrite bool_decide_false; [done|]. by intros [= ? ?].
Qed.

(** [loadBucket] only reads, and finds no bit map. *)
Lemma loadBucket_Ok u bid s bm s' : loadBucket u bid s = (Ok bm, s') -> s' = s /\ bm_stripes bm = ∅.
Proof.
  intros Hr. assert (K : Keeps eq (loadBucket u bid)) by (unfold loadBucket, loadChunk, get; keeps).
  specialize (K s). rewrite Hr in K. simpl in K. subst s'. split; [done|].
  unfold loadBucket, get in Hr. apply bind_Ok in Hr as (d & ? & [-> ->]%gets_Ok & Hr).
  destruct (read s _); [|by go_inv]. destruct (decode l) as [pbo|]; [|by go_inv].
  apply bind_Ok in Hr as (c & s2 & _ & [-> _]%ret_Ok). done.
Qed.

Lemma getBucketManage_Ok u bid su s bm s' :
  v_sInfo (cur s) !! u = Some su -> getBucketManage Applied u su bid s = (Ok bm, s') ->
  same_maps s s' /\ exists su', v_sInfo (cur s') !! u = Some su' /\ su_buckets su' !! bid = Some bm.
Proof.
  intros Hu Hr. unfold getBucketManage in Hr. destruct (su_buckets su !! bid) as [b|] eqn:E.
  { apply ret_Ok in Hr as [-> ->]. split; [done|]. by exists su. }
  apply bind_Ok in Hr as (b & s1 & [-> Hb]%loadBucket_Ok & Hr).
  apply bind_Ok in Hr as ([] & s2 & ->%modify_Ok & [-> ->]%ret_Ok). split.
  - apply maps_fill; [done|]. intros u' bid' pro'. left. simpl.
    rewrite (cached_put_bucket _ _ _ _ su) by done. case_bool_decide as Eb; [|done].
    injection Eb as -> ->. unfold cached_map. by rewrite Hb, lookup_empty, Hu, E.
  - simpl. rewrite lookup_alter_eq, Hu. simpl. eexists. split; [done|]. simpl. by rewrite lookup_insert_eq.
Qed.

Lemma getStripeBitMap_Ok u bid pro bm su s r s' :
  v_sInfo (cur s) !! u = Some su -> su_buckets su !! bid = Some bm ->
  getStripeBitMap Applied bm u bid pro s = (Ok r, s') ->
  same_maps s s' /\ r.2 = map_at s u bid pro /\
  exists su', v_sInfo (cur s') !! u = Some su' /\ su_buckets su' !! bid = Some r.1.
Proof.
  intros Hu Hb Hr. unfold getStripeBitMap in Hr.
  assert (Hm : cached_map (v_sInfo (cur s)) u bid pro = bm_stripes bm !! pro)
    by (unfold cached_map; by rewrite Hu, Hb).
  destruct (bm_stripes bm !! pro) as [cm|] eqn:E.
  { apply ret_Ok in Hr as [-> ->]. split; [done|]. unfold map_at. rewrite Hm. split; [done|]. by exists su. }
  apply bind_Ok in Hr as (cm & s1 & Hs1 & Hr).
  assert (s1 = s /\ cm = stored_map s u bid pro) as [-> ->].
  { unfold loadStripeBitMap, get in Hs1. apply bind_Ok in Hs1 as (d & ? & [-> ->]%gets_Ok & Hs1).
    unfold stored_map. destruct (read s _); [|by go_inv]. destruct (decode l); by go_inv. }
  apply bind_Ok in Hr as ([] & s2 & ->%modify_Ok & [-> ->]%ret_Ok). split_and!.
  - apply maps_fill; [done|]. intros u' bid' pro'. simpl.
    rewrite (cached_put_bucket _ _ _ _ su) by done. case_bool_decide as Eb; [|by left].
    injection Eb as -> ->. simpl. unfold cached_map. rewrite Hu, Hb.
    destruct (decide (pro' = pro)) as [->|Hne]; [right|left].
    + by rewrite E, lookup_insert_eq.
    + by rewrite lookup_insert_ne.
  - simpl. unfold map_at. by rewrite Hm.
  - simpl. rewrite lookup_alter_eq, Hu. simpl. eexists. split; [done|]. simpl. by rewrite lookup_insert_eq.
Qed.

(** ** Adding a run of stripes *)

Lemma stripe_range_u64 start len i : 0 <= start -> i ∈ stripe_range start len -> is_u64 i.
Proof.
  intros Hs Hi. unfold stripe_range in Hi. apply elem_of_u64_range_list in Hi.
  pose proof (u64_range (start + len)) as Hr. unfold is_u64 in *. lia.
Qed.

Lemma test_foldl_set l cm j : Forall is_u64 l -> is_u64 j ->
  bs_test (foldl (fun cm i => bs_set i cm) cm l) j = bool_decide (j ∈ l) || bs_test cm j.
Proof.
  intros Hl Hj. revert cm. induction Hl as [|i l Hi Hl IH]; intros cm; cbn [foldl]; [done|].
  rewrite IH, bs_test_set by done. destruct (Z.eqb_spec i j) as [->|Hne].
  - rewrite (bool_decide_true (j ∈ j :: l)) by set_solver. by rewrite orb_true_r.
  - simpl. f_equal. apply bool_decide_ext. set_solver.
Qed.

Lemma addChunk_mem_Ok u bid start len pro nonce chunk s r s' :
  0 <= start -> addChunk_mem Applied u bid start len pro nonce chunk s = (Ok r, s') ->
  (forall i, i ∈ stripe_range start len -> placed s u bid pro i = false) /\
  is_Some (cached_map (v_sInfo (cur s')) u bid pro) /\
  forall u' bid' pro' i, is_u64 i -> placed s' u' bid' pro' i =
    bool_decide ((u', bid', pro') = (u, bid, pro) /\ i ∈ stripe_range start len) || placed s u' bid' pro' i.
Proof.
  intros Hst Hr. unfold addChunk_mem in Hr.
  apply bind_Ok in Hr as (su & s1 & [M1 U1]%userOf_Ok & Hr).
  apply bind_Ok in Hr as ([] & ? & [_ ->]%check_Ok & Hr).
  apply bind_Ok in Hr as (bm & s2 & [M2 (su2 & U2 & B2)]%getBucketManage_Ok & Hr); [|done].
  apply bind_Ok in Hr as ([] & ? & [_ ->]%check_Ok & Hr).
  apply bind_Ok in Hr as ([bm3 cm] & s3 & (M3 & Hcm & su3 & U3 & B3)%(getStripeBitMap_Ok _ _ _ _ su2) & Hr); [|done..].
  simpl in *. apply bind_Ok in Hr as ([] & ? & [Hf ->]%check_Ok & Hr).
  apply bind_Ok in Hr as ([] & s4 & ->%modify_Ok & [_ ->]%ret_Ok).
  assert (M : same_maps s s3) by (transitivity s1; [done|]; by transitivity s2).
  assert (Hcm' : cm = map_at s u bid pro) by (rewrite Hcm, M2; apply M1).
  assert (Hl : Forall is_u64 (stripe_range start len))
    by (apply Forall_forall; intros i; by apply stripe_range_u64).
  split_and!.
  - intros i Hi. rewrite forallb_forall in Hf. specialize (Hf i (proj1 (list_elem_of_In _ _) Hi)).
    apply negb_true_iff in Hf. unfold placed. by rewrite <-Hcm'.
  - simpl. rewrite (cached_put_bucket _ _ _ _ su3), bool_decide_true by done. simpl.
    rewrite lookup_insert_eq. by eexists.
  - intros u' bid' pro' i Hi. unfold placed. rewrite <-(M u' bid' pro').
    unfold map_at at 1. simpl. rewrite (cached_put_bucket _ _ _ _ su3) by done.
    case_bool_decide as E1.
    + injection E1 as -> ->. simpl. destruct (decide (pro' = pro)) as [->|Hne].
      * rewrite lookup_insert_eq, test_foldl_set by done. rewrite (M u bid pro), Hcm'. f_equal.
        apply bool_decide_ext. naive_solver.
      * rewrite lookup_insert_ne by done. rewrite bool_decide_false by naive_solver. simpl.
        unfold map_at, cached_map. by rewrite U3, B3.
    + rewrite bool_decide_false by naive_solver. done.
Qed.

Lemma maps_put_SegMap u bid pro v s :
  is_Some (cached_map (v_sInfo (cur s)) u bid pro) -> same_maps s (put (SegMapKey u bid pro) v s).2.
Proof.
  intros [cm Hc]. pose proof (put_eff (SegMapKey u bid pro) v s) as E.
  intros u' bid' pro'. unfold map_at. rewrite (se_cur _ _ _ E).
  destruct (decide ((u', bid', pro') = (u, bid, pro))) as [[= -> -> ->]|Hne]; [by rewrite Hc|].
  destruct (cached_map _ u' bid' pro'); [done|]. unfold stored_map.
  rewrite (store_eff_read _ _ _ _ E); [done|]. intros Hk%SegMapKey_inj. congruence.
Qed.

Lemma maps_put_SegMap4 u bid pro e v : Keeps same_maps (put (SegMapKey4 u bid pro e) v).
Proof.
  intros s. pose proof (put_eff (SegMapKey4 u bid pro e) v s) as E.
  apply maps_reads; [by rewrite (se_cur _ _ _ E)|]. intros u' bid' pro'. eapply store_eff_read; [done|].
  intros Hk. apply NewKey_num_inj in Hk; try done; repeat constructor; simpl; by eexists.
Qed.

Lemma addChunk_Ok u bid start len pro nonce chunk s s' :
  0 <= start -> addChunk u bid start len pro nonce chunk s = (Ok tt, s') ->
  (forall i, i ∈ stripe_range start len -> placed s u bid pro i = false) /\
  forall u' bid' pro' i, is_u64 i -> placed s' u' bid' pro' i =
    bool_decide ((u', bid', pro') = (u, bid, pro) /\ i ∈ stripe_range start len) || placed s u' bid' pro' i.
Proof.
  intros Hst Hr. unfold addChunk in Hr.
  apply bind_Ok in Hr as (r & s1 & (F & C & P)%addChunk_mem_Ok & Hr); [|done].
  apply bind_Ok in Hr as (data & ? & [_ ->]%of_option_Ok & Hr).
  apply bind_Ok in Hr as ([] & s2 & H2 & Hr).
  pose proof (maps_put_SegMap u bid pro data s1 C) as M2. rewrite H2 in M2. simpl in M2.
  assert (K : forall d, Keeps same_maps (let! v := gets cur in
      do! put (SegMapKey4 u bid pro (ci_epoch (v_ceInfo v))) data;
      let! data := of_option d "serialize" in
      do! put (SegLocKey4 u bid chunk start) data; put (SegLocKey u bid chunk) (put_be 8 start)))
    by (intros d; keeps; apply maps_put_SegMap4).
  specialize (K (marshal r.1) s2). rewrite Hr in K. simpl in K. split; [done|].
  intros u' bid' pro' i Hi. rewrite <-(P u' bid' pro' i Hi). unfold placed. by rewrite K, M2.
Qed.

(** ** A whole sequence *)

(** The (bucket, stripe) positions of the segments of a sequence. *)
Definition seg_cells (seg : AggSegs) : list (Z * Z) :=
  (fun i => (as_BucketID seg, i)) <$> stripe_range (as_Start seg) (as_Length seg).
Definition cells (segs : list AggSegs) : list (Z * Z) := concat (seg_cells <$> segs).

Lemma elem_of_seg_cells seg bid i :
  (bid, i) ∈ seg_cells seg <-> bid = as_BucketID seg /\ i ∈ stripe_range (as_Start seg) (as_Length seg).
Proof. unfold seg_cells. rewrite list_elem_of_fmap. naive_solver. Qed.

Lemma addChunks_Ok u pro nonce segs s s' :
  Forall (fun seg => 0 <= as_Start seg) segs ->
  for_each segs (fun seg => addChunk u (as_BucketID seg) (as_Start seg) (as_Length seg) pro nonce (as_ChunkID seg)) s
    = (Ok tt, s') ->
  NoDup (cells segs) /\ (forall bid i, (bid, i) ∈ cells segs -> placed s u bid pro i = false) /\
  forall u' bid' pro' i, is_u64 i -> placed s' u' bid' pro' i =
    bool_decide ((u', pro') = (u, pro) /\ (bid', i) ∈ cells segs) || placed s u' bid' pro' i.
Proof.
  intros Hl. revert s. induction Hl as [|seg segs Hseg Hl IH]; intros s Hr.
  { apply ret_Ok in Hr as [_ ->]. split_and!; [constructor|by intros ?? ?%elem_of_nil|].
    intros. rewrite bool_decide_false; [done|]. by intros [_ ?%elem_of_nil]. }
  apply bind_Ok in Hr as ([] & s1 & [F1 P1]%addChunk_Ok & Hr); [|done].
  destruct (IH _ Hr) as (N & F & P). unfold cells in *. cbn [fmap list_fmap concat].
  assert (Hin : forall bid i, (bid, i) ∈ seg_cells seg -> is_u64 i /\ placed s1 u bid pro i = true).
  { intros bid i [-> Hi]%elem_of_seg_cells. pose proof (stripe_range_u64 _ _ _ Hseg Hi) as Hu.
    split; [done|]. by rewrite P1, bool_decide_true. }
  split_and!.
  - apply NoDup_app. split_and!; [|intros [bid i] Hc1 Hc2|done].
    + apply NoDup_fmap; [intros ?? [=]; done|]. apply NoDup_seqZ.
    + destruct (Hin _ _ Hc1) as [Hu Hp]. specialize (F _ _ Hc2). congruence.
  - intros bid i [[-> Hi]%elem_of_seg_cells|Hc]%elem_of_app; [by apply F1|].
    specialize (F bid i Hc). destruct (decide (is_u64 i)) as [Hu|Hu].
    + rewrite P1 in F by done. by apply orb_false_iff in F as [_ F].
    + exfalso. apply Hu. clear -Hc Hl. apply list_elem_of_In, in_concat in Hc as (l & Hin & Hc).
      apply list_elem_of_In, list_elem_of_fmap in Hin as (sg & -> & Hs).
      apply list_elem_of_In, elem_of_seg_cells in Hc as [_ Hi].
      eapply stripe_range_u64; [|exact Hi]. by eapply (Forall_forall (fun sg => 0 <= as_Start sg)).
  - intros u' bid' pro' i Hi. rewrite P, P1 by done.
    rewrite orb_assoc. f_equal. rewrite <-bool_decide_or. apply bool_decide_ext.
    rewrite elem_of_app, elem_of_seg_cells. naive_solver.
Qed.

Lemma maps_Ok {A} (m : M StateMgr A) s a s' : Keeps same_maps m -> m s = (Ok a, s') -> same_maps s s'.
Proof. intros K E. specialize (K s). by rewrite E in K. Qed.

(** A sequence that is added to an order gives its provider at most one chunk
    of any stripe: the (bucket, stripe) positions of its segments are pairwise
    different, whatever their chunk numbers, the provider held none of them
    before, it holds all of them after, and the placement of every other user,
    provider or position is untouched. *)
Theorem addSeq_places msg sos s s' (so := sos_OrderSeq sos) :
  decode (m_Params msg) = Some sos -> Forall (fun seg => 0 <= as_Start seg) (os_Segments so) ->
  addSeq msg s = (Ok tt, s') ->
  NoDup (cells (os_Segments so)) /\
  (forall bid i, (bid, i) ∈ cells (os_Segments so) -> placed s (os_UserID so) bid (os_ProID so) i = false) /\
  forall u bid pro i, is_u64 i -> placed s' u bid pro i =
    bool_decide ((u, pro) = (os_UserID so, os_ProID so) /\ (bid, i) ∈ cells (os_Segments so))
    || placed s u bid pro i.
Proof.
  intros Hd Hl Hr. unfold addSeq in Hr.
  apply bind_Ok in Hr as ([sos' rr] & s1 & Hs1 & Hr).
  pose proof (maps_Ok _ _ _ _ (maps_addSeq_pre msg) Hs1) as M1.
  assert (sos' = sos) as -> by (unfold addSeq_pre in Hs1; apply bind_Ok in Hs1 as (sos1 & ? & [Hd' ->]%of_option_Ok & Hs1);
    repeat apply bind_Ok in Hs1 as (? & ? & _ & Hs1); apply ret_Ok in Hs1 as [[= -> _] _]; congruence).
  cbn [fst snd] in Hr. fold so in Hr.
  apply bind_Ok in Hr as (ob & s2 & Hs2 & Hr). apply maps_Ok in Hs2; [|apply maps_addSeq_order].
  apply bind_Ok in Hr as (su & s3 & [M3 _]%userOf_Ok & Hr).
  apply bind_Ok in Hr as ([] & s4 & Hs4 & Hr). apply maps_Ok in Hs4; [|apply maps_addSeq_amounts].
  apply bind_Ok in Hr as ([] & s5 & (N & F & P)%addChunks_Ok & Hr); [|done].
  apply bind_Ok in Hr as ([] & s6 & ->%modify_Ok & Hr). apply maps_Ok in Hr; [|apply maps_addSeq_save].
  assert (M : same_maps s s4) by (transitivity s1; [done|]; transitivity s2; [done|]; by transitivity s3).
  unfold placed in *. split_and!; [done| |].
  - intros bid i Hc. rewrite <-(M (os_UserID so)). by apply F.
  - intros u bid pro i Hi. rewrite (Hr u bid pro), <-(M u bid pro). by apply P.
Qed.
End ChunkHistory.

(** ** Witness: the two segments of the first order. *)

From S2P Require Import Concrete Scenario OrderScenario.

Lemma addSeq_places_witness :
  placed st3 7 0 9 1 = false /\
  placed (final (addSeq (seq_msg 4 first_seq)) (NewTxn st3).2) 7 0 9 1 = true.
Proof.
  split; [vm_compute; reflexivity|].
  destruct (addSeq_places (seq_msg 4 first_seq) first_seq (NewTxn st3).2
    (final (addSeq (seq_msg 4 first_seq)) (NewTxn st3).2)) as (_ & _ & P).
  - vm_compute. reflexivity.
  - repeat constructor; vm_compute; discriminate.
  - apply run_ok. vm_compute. reflexivity.
  - rewrite P by done. vm_compute. reflexivity.
Defined.
