(* ===== verification/Income.v ===== *)
(** * Income: what a provider is paid

    The time an order is charged for in a challenge epoch, the effect of an
    accepted proof on the order and its income, and the countersigning of the
    income by keepers. *)

From S2P Require Import Prelude GoMonad Codec Keys Segments SegmentID Types Tx Fr StateTypes State Roles Chunks Orders Challenge Pay Validate Block Handlers Frame Chain OrderHistory RoleHistory.

(** C36. An order of the length that [createOrder] asks for, met by a challenge
    epoch that is no longer, is charged for exactly the time the two overlap. *)
Theorem order_dur_overlap `{!StateEnv} chalStart chalEnd b old :
  0 <= chalStart < chalEnd -> chalEnd - chalStart <= OrderMin -> chalEnd < 2 ^ 62 ->
  0 <= ob_Start b -> OrderMin <= ob_End b - ob_Start b -> ob_End b < 2 ^ 62 ->
  ob_Start b < chalEnd -> chalStart < ob_End b ->
  order_dur chalStart chalEnd b old = Z.min (ob_End b) chalEnd - Z.max (ob_Start b) chalStart.
Proof.
  intros. unfold order_dur. rewrite !Z.geb_leb.
  destruct (Z.leb_spec (ob_Start b) chalStart), (Z.leb_spec chalEnd (ob_End b)),
    (Z.leb_spec chalStart (ob_Start b)), (Z.leb_spec (ob_End b) chalEnd); simpl;
    rewrite ?i64_id by lia; unfold OrderMin in *; lia.
Qed.

Section Income.
Context `{!StateEnv, !SMTLaws}.
Implicit Types (s : StateMgr) (msg : Message) (key : bytes).

(** The price that is paid is the one the message claims. *)
Lemma chal_verify_price w msg s scp oi price s' :
  chal_verify w msg s = (Ok (scp, (oi, price)), s') -> scp_Price scp = Some price.
Proof.
  intros Hr. unfold chal_verify in Hr.
  apply bind_Ok in Hr as (p & s1 & _ & Hr). apply bind_Ok in Hr as (oi' & s2 & _ & Hr).
  apply bind_Ok in Hr as ([] & s3 & _ & Hr). apply bind_Ok in Hr as (v & s4 & _ & Hr).
  apply bind_Ok in Hr as (ui & s5 & _ & Hr). apply bind_Ok in Hr as (chal & s6 & _ & Hr).
  apply bind_Ok in Hr as (ns & s7 & _ & Hr). apply bind_Ok in Hr as (a & s8 & Ht & Hr).
  apply bind_Ok in Hr as (ok & s9 & _ & Hr). apply bind_Ok in Hr as ([] & s10 & _ & [[= -> -> ->] _]%ret_Ok).
  unfold chal_total in Ht. apply bind_Ok in Ht as (v' & ? & _ & Ht).
  apply bind_Ok in Ht as ([] & ? & _ & Ht). apply bind_Ok in Ht as (a1 & ? & _ & Ht).
  apply bind_Ok in Ht as (a2 & ? & _ & Ht). apply bind_Ok in Ht as ([] & ? & _ & Ht).
  by apply bind_Ok in Ht as ([] & ? & [Hp%bool_decide_eq_true _]%check_Ok & [-> _]%ret_Ok).
Qed.

(** C35. An accepted proof is one for the current epoch by a pair that had not
    proved it; it adds exactly the claimed price to the pair's income, moves
    the pair past the epoch, and changes nothing else of the order; a second
    proof of the pair for that epoch is refused, whatever it claims. *)
Theorem addSegProof_once msg s s' :
  addSegProof msg s = (Ok tt, s') ->
  exists scp price (u := scp_UserID scp) (p := scp_ProID scp),
    decode (m_Params msg) = Some scp /\ scp_Price scp = Some price /\
    scp_Epoch scp = ce_Epoch (ci_current (v_ceInfo (cur s))) /\
    o_prove (order_at s u p) <= scp_Epoch scp /\
    order_at s' u p = set_o_income (set_income_value (fun v => v + price))
                        (set_o_prove (fun _ => u64 (scp_Epoch scp + 1)) (order_at s u p)) /\
    forall msg2 scp2 s2, decode (m_Params msg2) = Some scp2 ->
      scp_UserID scp2 = u -> scp_ProID scp2 = p -> scp_Epoch scp2 = scp_Epoch scp ->
      0 <= scp_Epoch scp < 2 ^ 64 - 1 -> order_at s2 u p = order_at s' u p ->
      (addSegProof msg2 s2).1 <> Ok tt.
Proof.
  intros Hr. unfold addSegProof in Hr.
  apply bind_Ok in Hr as ([scp [oi price]] & s1 & Hv & Hr).
  pose proof (chal_verify_price _ _ _ _ _ _ _ Hv) as Hp.
  apply chal_verify_Ok in Hv as (_ & Hd & Hc & Hoi & Hl & He). cbn [fst snd] in Hr.
  apply bind_Ok in Hr as ([] & s2 & ->%modify_Ok & Hr).
  apply bind_Ok in Hr as (income & s2 & [-> ->]%add_income_value_Ok & Hr).
  apply bind_Ok in Hr as ([] & s3 & ->%modify_Ok & Hr). rewrite put_order_twice in Hr.
  apply (keeps_Ok _ _ _ _ _ (pair_addSegProof_save msg scp _ price)) in Hr as [Hs _].
  assert (Ho : order_at s' (scp_UserID scp) (scp_ProID scp) =
    set_o_income (set_income_value (fun v => v + price)) (set_o_prove (fun _ => u64 (scp_Epoch scp + 1)) oi)).
  { unfold same_orders in Hs. unfold order_at. rewrite Hs. simpl. by rewrite lookup_insert_eq. }
  exists scp, price. split_and!; try done; [by rewrite <-Hoi|by rewrite Ho, Hoi|].
  intros msg2 scp2 s4 Hd2 Hu2 Hp2 He2 Hb Heq Hr2.
  destruct (addSegProof msg2 s4) as [o s5] eqn:E. simpl in Hr2. subst o.
  unfold addSegProof in E. apply bind_Ok in E as ([scp3 [oi3 price3]] & s6 & Hv & _).
  apply chal_verify_Ok in Hv as (_ & Hd3 & _ & Ho3 & Hl3 & _). rewrite Hd2 in Hd3. injection Hd3 as <-.
  rewrite Ho3, Hu2, Hp2, Heq, Ho in Hl3. simpl in Hl3. rewrite u64_id in Hl3 by (unfold is_u64; lia). lia.
Qed.

Context `{!CodecLaws SignedAccPostIncome, !CodecNonempty SignedAccPostIncome}.

Lemma big_cmp_eq_Ok x y s b s' : big_cmp_eq x y s = (Ok b, s') -> s' = s /\ (b = true -> x = y).
Proof.
  unfold big_cmp_eq. destruct x as [x|], y as [y|]; intros Hr; try discriminate;
    apply ret_Ok in Hr as [-> ->]; (split; [done|]); [by intros ->%Z.eqb_eq|done].
Qed.

Lemma MultiSignature_Add_Ok ms id sg ms' : MultiSignature_Add ms id sg = Ok ms' ->
  id ∉ ms_Signer ms /\ ms_Signer ms' = ms_Signer ms ++ [id].
Proof.
  intros Hadd. unfold MultiSignature_Add in Hadd. destruct (negb _); [done|].
  destruct (existsb _ _) eqn:Ex; [done|]. split.
  - intros Hin%list_elem_of_In. rewrite <-not_true_iff_false, existsb_exists in Ex.
    apply Ex. exists id. by rewrite Z.eqb_refl.
  - by repeat case_match; simplify_eq.
Qed.

Lemma roleOf_reads w id s key : read (roleOf w id s).2 key = read s key.
Proof.
  unfold roleOf. rewrite (bind_run _ _ _ _ _ (eq_refl : gets _ _ = _)).
  destruct (v_rInfo _ !! id); [done|].
  destruct (loadRole_run id s) as [base Hl]. rewrite (bind_run _ _ _ _ _ Hl). by destruct w.
Qed.

Lemma addPay_pre_Ok msg s pip spi s' : addPay_pre Applied msg s = (Ok (pip, spi), s') ->
  decode (m_Params msg) = Some pip /\ pip_Epoch pip = ce_Epoch (ci_previous (v_ceInfo (cur s))) /\
  (exists base, role_at s (m_From msg) = Some base /\ ri_Type base = RoleInfo_Keeper) /\
  api_Value spi = api_Value (pip_Income pip) /\ api_Penalty spi = api_Penalty (pip_Income pip) /\
  (read s (SegPayKey0 (api_ProID (pip_Income pip)) (pip_Epoch pip)) ≫= decode) = Some spi /\
  (forall key, read s' key = read s key) /\ smt s' = smt s /\ v_version (cur s') = v_version (cur s).
Proof.
  intros Hr. unfold addPay_pre in Hr.
  apply bind_Ok in Hr as (pip' & ? & [Hd ->]%of_option_Ok & Hr).
  apply bind_Ok in Hr as (v & ? & [-> ->]%gets_Ok & Hr).
  apply bind_Ok in Hr as ([] & ? & [He%Z.eqb_eq ->]%check_Ok & Hr).
  apply bind_Ok in Hr as (ri & s1 & H1 & Hr).
  destruct (roleOf_base (m_From msg) s) as [_ Hb]. destruct (Hb _ _ H1) as [Hrole _].
  pose proof (roleOf_reads Applied (m_From msg) s) as Hread. rewrite H1 in Hread. simpl in Hread.
  pose proof (sf_roleOf (w := Applied) (R := frame Applied) (m_From msg) s) as F. rewrite H1 in F. simpl in F.
  assert (Hsm : smt s1 = smt s).
  { clear -H1. unfold roleOf in H1. apply bind_Ok in H1 as (v & ? & [-> ->]%gets_Ok & H1). simpl in H1.
    destruct (v_rInfo (cur s) !! m_From msg); [by apply ret_Ok in H1 as [_ ->]|].
    destruct (loadRole_run (m_From msg) s) as [base Hl]. rewrite (bind_run _ _ _ _ _ Hl) in H1. by go_inv. }
  apply bind_Ok in Hr as (base & ? & [Hbase ->]%deref_Ok & Hr).
  apply bind_Ok in Hr as ([] & ? & [Ht%Z.eqb_eq ->]%check_Ok & Hr).
  apply bind_Ok in Hr as (spi' & s2 & Hg & Hr).
  unfold get_decode, get in Hg. apply bind_Ok in Hg as (data & ? & [-> ->]%gets_Ok & Hg).
  apply bind_Ok in Hg as (data & ? & [Hk ->]%of_option_Ok & [Hdec ->]%of_option_Ok).
  apply bind_Ok in Hr as (b1 & ? & [-> Hv]%big_cmp_eq_Ok & Hr).
  apply bind_Ok in Hr as ([] & ? & [-> ->]%check_Ok & Hr).
  apply bind_Ok in Hr as (b2 & ? & [-> Hp]%big_cmp_eq_Ok & Hr).
  apply bind_Ok in Hr as ([] & ? & [-> ->]%check_Ok & Hr).
  apply bind_Ok in Hr as (h & ? & [_ ->]%deref_Ok & Hr).
  apply bind_Ok in Hr as ([] & s3 & Hver & [[= -> ->] ->]%ret_Ok).
  assert (K : Keeps eq (verify (Some base) h (pip_Sig pip'))) by (unfold verify, verify_with; keeps).
  specialize (K s1). rewrite Hver in K. simpl in K. subst s3.
  split_and!; auto.
  - exists base. by rewrite Hrole.
  - rewrite <-Hread, Hk. done.
  - by apply (fr_version _ _ _ F).
Qed.

(** A countersigned income: the sender is a keeper, the epoch is the previous
    one, the amounts are those accumulated for the provider in that epoch and
    those signed before, and the keeper was not among the signers, to which it
    is added; so the signers of an income stay pairwise different. *)
Theorem addPay_countersigns msg s s' :
  (forall key, plain s -> smt_get (smt s) key = None) -> addPay msg s = (Ok tt, s') ->
  exists pip spi (inc := pip_Income pip) (key := SegPayComfirmKey (api_ProID inc) (pip_Epoch pip))
      (old := read_into s key (new_sapi pip)) (new := read_into s' key (new_sapi pip)),
    decode (m_Params msg) = Some pip /\
    pip_Epoch pip = ce_Epoch (ci_previous (v_ceInfo (cur s))) /\
    (exists base, role_at s (m_From msg) = Some base /\ ri_Type base = RoleInfo_Keeper) /\
    (read s (SegPayKey0 (api_ProID inc) (pip_Epoch pip)) ≫= decode) = Some spi /\
    api_Value inc = api_Value spi /\ api_Penalty inc = api_Penalty spi /\
    api_Value (sapi_AccPostIncome old) = api_Value spi /\ api_Penalty (sapi_AccPostIncome old) = api_Penalty spi /\
    sapi_AccPostIncome new = sapi_AccPostIncome old /\
    m_From msg ∉ ms_Signer (sapi_Sig old) /\
    ms_Signer (sapi_Sig new) = ms_Signer (sapi_Sig old) ++ [m_From msg] /\
    (NoDup (ms_Signer (sapi_Sig old)) -> NoDup (ms_Signer (sapi_Sig new))).
Proof.
  intros Hsilent Hr. unfold addPay in Hr.
  apply bind_Ok in Hr as ([pip spi] & s1 & Hp & Hr).
  apply addPay_pre_Ok in Hp as (Hd & He & Hrole & Hv & Hpen & Hspi & Hread & Hsmt & Hver).
  cbn [fst snd] in Hr. set (key := SegPayComfirmKey _ _) in Hr.
  rewrite (bind_run _ _ _ _ _ (get_into_run key (new_sapi pip) s1)) in Hr.
  assert (Hold : read_into s1 key (new_sapi pip) = read_into s key (new_sapi pip))
    by (unfold read_into; by rewrite Hread).
  rewrite Hold in Hr. set (old := read_into s key (new_sapi pip)) in *.
  apply bind_Ok in Hr as ([] & s2 & Hsame & Hr). unfold addPay_same in Hsame.
  apply bind_Ok in Hsame as ([] & ? & [_ ->]%check_Ok & Hsame).
  apply bind_Ok in Hsame as (b1 & ? & [-> Hv1]%big_cmp_eq_Ok & Hsame).
  apply bind_Ok in Hsame as ([] & ? & [-> ->]%check_Ok & Hsame).
  apply bind_Ok in Hsame as (b2 & ? & [-> Hp1]%big_cmp_eq_Ok & [-> ->]%check_Ok).
  apply bind_Ok in Hr as (sig & ? & [Hadd ->]%of_outcome_Ok & Hr).
  apply bind_Ok in Hr as (data & ? & [Hm ->]%of_option_Ok & Hr).
  apply bind_Ok in Hr as ([] & s3 & H3 & Hr).
  apply MultiSignature_Add_Ok in Hadd as [Hni Hs].
  assert (R3 : read s3 key = Some data).
  { eapply put_read; [exact H3|by eapply marshal_nonempty|]. unfold plain. rewrite Hver, Hsmt. apply Hsilent. }
  assert (R' : read s' key = Some data).
  { rewrite <-R3. pose proof (put_eff (SegPayComfirmKey1 (api_ProID (pip_Income pip))) data s3) as E.
    rewrite Hr in E. eapply store_eff_read; [exact E|]. intros Hk.
    apply NewKey_num_inj in Hk; try done; repeat constructor; simpl; by eexists. }
  exists pip, spi. cbv zeta. fold key. fold old.
  assert (Hnew : read_into s' key (new_sapi pip) = mkSignedAccPostIncome (sapi_AccPostIncome old) sig)
    by (unfold read_into; by rewrite R', (unmarshal_marshal _ _ _ Hm)).
  rewrite Hnew. simpl. split_and!; auto.
  intros Hnd. rewrite Hs. apply NoDup_app. split_and!; [done|set_solver|apply NoDup_singleton].
Qed.
End Income.

(** ** Witnesses: the proof of the second epoch and its countersigned income. *)

From S2P Require Import Concrete Scenario OrderScenario.

Lemma order_dur_overlap_witness :
  order_dur (BaseTime + Day) (BaseTime + 3 * Day) (so_OrderBase first_order) 0 = Day.
Proof. apply (order_dur_overlap (BaseTime + Day) (BaseTime + 3 * Day) (so_OrderBase first_order) 0); vm_compute; intuition discriminate. Defined.

Lemma addSegProof_once_witness :
  exists scp, decode (m_Params (proof_msg 1)) = Some scp /\ scp_Price scp = Some (4 * Day).
Proof.
  destruct (addSegProof_once (proof_msg 1) (NewTxn st5).2 (final (addSegProof (proof_msg 1)) (NewTxn st5).2))
    as (scp & price & Hd & Hp & _).
  - apply run_ok. vm_compute. reflexivity.
  - exists scp. split; [exact Hd|]. vm_compute in Hd. injection Hd as <-. reflexivity.
Defined.

Lemma addPay_countersigns_witness :
  m_From (pay_msg 5 4) = 5 /\ exists base, role_at (NewTxn st7).2 5 = Some base /\ ri_Type base = RoleInfo_Keeper.
Proof.
  split; [reflexivity|].
  destruct (addPay_countersigns (pay_msg 5 4) (NewTxn st7).2 (final (addPay (pay_msg 5 4)) (NewTxn st7).2))
    as (pip & spi & _ & _ & Hrole & _).
  - intros key _. assert (E : smt (NewTxn st7).2 = ∅) by (vm_compute; reflexivity).
    rewrite E. change (toy_get ∅ key = None). unfold toy_get. by rewrite lookup_empty.
  - apply run_ok. vm_compute. reflexivity.
  - exact Hrole.
Defined.
