(* ===== verification/ChainProps.v ===== *)
(** * ChainProps: what applying a block guarantees

    The theorems about [ApplyBlock]: the state root it commits to, the nonces it
    consumes and that they cannot be used again, the signers it needs and why
    two accepted blocks share keepers, the genesis rule, what survives an error,
    the version, and what a restart recovers from the database. *)

From S2P Require Import Prelude GoMonad Codec Keys Segments SegmentID Types Tx Fr StateTypes State Roles Chunks Orders Challenge Pay Validate Block Handlers Frame Chain.

Section ChainProps.
Context `{!StateEnv, !SMTLaws}.
Implicit Types (s : StateMgr) (blk : SignedBlock).

(** C1. A block applied by a node whose version is below [SMTVersion], so that the tree
    is not in use ([plain]): the block extends the chain the node is on, and the new
    state root is the hash chain over the old root, the header and the parameters of
    every message, in order; it is the root the block announces, and it is in the
    database.  With the tree in use the announced root is not compared. *)
Theorem ApplyBlock_root blk s s' :
  tds s = None -> plain s -> ApplyBlock (Some blk) s = (Ok tt, s') ->
  rh_Height (sb_header blk) = v_height (cur s) /\ v_slot (cur s) < rh_Slot (sb_header blk) /\
  rh_PrevID (sb_header blk) = blkID s /\ mset_ParentRoot (sb_set blk) = v_root (cur s) /\
  exists hdr, marshal (sb_header blk) = Some hdr /\
    v_root (cur s') = foldl next_root (v_root (cur s))
      (hdr :: ((fun m => m_Params (sm_Message m)) <$> mset_Msgs (sb_set blk))) /\
    v_root (cur s') = mset_Root (sb_set blk) /\
    ds s' !! RootKey = Some (v_root (cur s')).
Proof.
  intros Ht Hp Hr. destruct (ApplyBlock_Ok _ _ _ Ht Hr) as [].
  destruct (bk_root Hp) as (b & ? & R & ? & ?). split_and!; [done..|].
  exists b. split_and!; [done| |done..]. rewrite R. apply roots_after_foldl.
Qed.

(** The messages of an applied block carry, per sender, consecutive nonces
    starting at the one expected of it, and each account's expected nonce grows
    by exactly the number of its messages, failed ones included. *)
Theorem ApplyBlock_nonces blk s s' :
  tds s = None -> ApplyBlock (Some blk) s = (Ok tt, s') ->
  nonces_ok (nonce_of Applied s) (mset_Msgs (sb_set blk)) = true /\
  forall id, 0 <= nonce_of Applied s id ->
    nonce_of Applied s id + Z.of_nat (length (mset_Msgs (sb_set blk))) < 2 ^ 64 ->
    nonce_of Applied s' id = nonce_of Applied s id +
      Z.of_nat (length (filter (fun m => m_From (sm_Message m) = id) (mset_Msgs (sb_set blk)))).
Proof.
  intros Ht Hr. destruct (ApplyBlock_Ok _ _ _ Ht Hr) as []. split; [done|].
  intros id Hlo Hlt. rewrite bk_nonces. clear -Hlo Hlt.
  generalize dependent (nonce_of Applied s).
  induction (mset_Msgs (sb_set blk)) as [|m l IH]; intros f Hlo Hlt; [simpl; lia|].
  cbn [length] in Hlt. unfold nonces_after in *. cbn [foldl].
  assert (E : bump f (m_From (sm_Message m)) id
              = if bool_decide (m_From (sm_Message m) = id) then f id + 1 else f id).
  { unfold bump. case_bool_decide as Eb.
    - rewrite Eb, Z.eqb_refl. apply u64_id. unfold is_u64. lia.
    - by destruct (Z.eqb_spec id (m_From (sm_Message m))) as [->|]. }
  rewrite IH by (rewrite E; case_bool_decide; lia). rewrite E.
  rewrite filter_cons. case_bool_decide; case_decide; try done; cbn [length]; lia.
Qed.

(** C4. Along any chain of applied blocks, of any length, no two messages have
    the same sender and nonce: nothing is replayed. *)
Theorem apply_chain_no_replay blks s s' :
  tds s = None -> apply_chain blks s = (Ok tt, s') ->
  (forall id, 0 <= nonce_of Applied s id /\
     nonce_of Applied s id + Z.of_nat (length (chain_msgs blks)) < 2 ^ 64) ->
  NoDup ((fun m => (m_From (sm_Message m), m_Nonce (sm_Message m))) <$> chain_msgs blks).
Proof.
  intros Ht Hr Hb. apply (nonces_ok_NoDup _ (nonce_of Applied s)); [done|].
  by eapply apply_chain_nonces.
Qed.

(** ** Who may extend the chain *)

(** The keepers among the signers of a block. *)
Definition quorum blk s : gset Z :=
  list_to_set (ms_Signer (sb_MultiSignature blk)) ∩ list_to_set (keepers s).

Lemma ApplyBlock_quorum_size blk s s' :
  tds s = None -> ApplyBlock (Some blk) s = (Ok tt, s') -> 0 < v_height (cur s) ->
  getThreshold s <= Z.of_nat (size (quorum blk s)).
Proof.
  intros Ht Hr Hh. destruct (ApplyBlock_Ok _ _ _ Ht Hr) as [].
  unfold applyBlock_admission in bk_admission. rewrite bk_height in bk_admission.
  replace (0 <? v_height (cur s)) with true in bk_admission by (symmetry; by apply Z.ltb_lt).
  unfold applyBlock_signers in bk_admission. go_inv.
  rename select (negb (Z.of_nat _ <? _) = true) into Hq.
  rewrite keeper_signers_spec in Hq. apply negb_true_iff, Z.ltb_ge in Hq. exact Hq.
Qed.

(** C34. Two blocks, of one height or not, that are accepted after the genesis block by
    nodes that know the same distinct keepers, are both signed by at least a third of
    these keepers. *)
Theorem ApplyBlock_quorums_intersect blk1 s1 s1' blk2 s2 s2' :
  tds s1 = None -> tds s2 = None ->
  ApplyBlock (Some blk1) s1 = (Ok tt, s1') -> ApplyBlock (Some blk2) s2 = (Ok tt, s2') ->
  0 < v_height (cur s1) -> 0 < v_height (cur s2) ->
  keepers s1 = keepers s2 -> NoDup (keepers s1) ->
  Z.of_nat (length (keepers s1)) <= 3 * Z.of_nat (size (quorum blk1 s1 ∩ quorum blk2 s2)).
Proof.
  intros Ht1 Ht2 H1 H2 Hh1 Hh2 Hk Hnd.
  pose proof (ApplyBlock_quorum_size _ _ _ Ht1 H1 Hh1) as Q1.
  pose proof (ApplyBlock_quorum_size _ _ _ Ht2 H2 Hh2) as Q2.
  assert (Hsub : quorum blk1 s1 ∪ quorum blk2 s2 ⊆ list_to_set (keepers s1))
    by (unfold quorum; rewrite Hk; set_solver).
  apply subseteq_size in Hsub. rewrite size_list_to_set in Hsub by done.
  pose proof (size_union_alt (quorum blk1 s1) (quorum blk2 s2)) as Hu.
  pose proof (size_difference_alt (quorum blk2 s2) (quorum blk1 s1)) as Hd.
  assert (E : quorum blk2 s2 ∩ quorum blk1 s1 = quorum blk1 s1 ∩ quorum blk2 s2) by set_solver.
  rewrite E in Hd.
  unfold getThreshold in Q1, Q2. rewrite <-Hk in Q2.
  pose proof (Z.mod_pos_bound (2 * (Z.of_nat (length (keepers s1)) + 1)) 3).
  pose proof (Z.div_mod (2 * (Z.of_nat (length (keepers s1)) + 1)) 3).
  assert (size (quorum blk1 s1 ∩ quorum blk2 s2) <= size (quorum blk2 s2))%nat
    by (apply subseteq_size; set_solver).
  repeat case_match; lia.
Qed.

(** The genesis block only registers keepers: every message of an applied
    block at height zero is an AddRole whose role is a keeper. *)
Theorem ApplyBlock_genesis blk s s' :
  tds s = None -> ApplyBlock (Some blk) s = (Ok tt, s') -> v_height (cur s) = 0 ->
  Forall (fun m => m_Method (sm_Message m) = AddRole /\
            exists pri, decode (m_Params (sm_Message m)) = Some pri /\ ri_Type pri = RoleInfo_Keeper)
         (mset_Msgs (sb_set blk)).
Proof.
  intros Ht Hr Hh. destruct (ApplyBlock_Ok _ _ _ Ht Hr) as [].
  unfold applyBlock_admission in bk_admission. rewrite bk_height, Hh in bk_admission. simpl in bk_admission.
  revert bk_admission. generalize (open_txn s) at 2 as t'. generalize (open_txn s) as t. clear.
  induction (mset_Msgs (sb_set blk)) as [|m l IH]; intros t t' Hl; [constructor|].
  cbn [for_each] in Hl. apply bind_Ok in Hl as ([] & t1 & H1 & Hl).
  constructor; [|by eapply IH]. unfold genesis_msg_ok in H1. go_inv.
  split; [by apply Z.eqb_eq|]. eexists. split; [done|by apply Z.eqb_eq].
Qed.

(** ** Errors *)

(** C31. Below [SMTVersion] ([plain]), whatever goes wrong in a block, an error or a
    panic: the database, the height, the slot, the version, the last block and the
    validating side are those from before the call, and no transaction is left open.
    With the tree in use, its nodes and the height go to the database outside of the
    transaction, and an error leaves them there. *)
Theorem ApplyBlock_error_keeps_db blk s :
  tds s = None -> plain s -> (ApplyBlock (Some blk) s).1 <> Ok tt ->
  let s' := (ApplyBlock (Some blk) s).2 in
  ds s' = ds s /\ tds s' = None /\ v_height (cur s') = v_height (cur s) /\
  v_slot (cur s') = v_slot (cur s) /\ v_version (cur s') = v_version (cur s) /\
  blkID s' = blkID s /\ vld s' = vld s.
Proof.
  intros Ht Hp. cbv zeta. destruct (ApplyBlock (Some blk) s) as [o s'] eqn:Hr.
  simpl. intros Hne. unfold ApplyBlock, bind at 1 in Hr.
  pose proof (applyBlock_checks_plain blk s Hp) as E.
  destruct (applyBlock_checks blk s) as [[[]|e|w] s0]; simpl in E; subst s0;
    [|by simplify_eq; split_and!..].
  change (with_txn ?m s) with ((m (open_txn s)).1, set_tds (fun _ => None) (m (open_txn s)).2) in Hr.
  injection Hr as <- <-.
  match type of Hne with (?m _).1 <> _ => assert (S : safe_err (open_txn s) (m (open_txn s))) end.
  { apply safe_bind; [done|apply keeps_core, keeps_applyBlock_admission|intros _ s1 C1].
    apply safe_bind; [done|apply keeps_core; keeps|intros b s2 C2].
    apply safe_bind; [done|apply keeps_core, keeps_applyBlock_body|intros _ s3 C3].
    apply safe_bind; [done|apply keeps_modify; intros; by constructor|intros _ s4 C4].
    apply safe_bind; [done|apply keeps_core, keeps_saveRoot|intros _ s5 C5].
    by apply safe_commit. }
  destruct (S Hne) as []. by split_and!.
Qed.
End ChainProps.

(** ** Witnesses *)

From S2P Require Import Concrete Scenario.

(** The first block on the concrete libraries meets the hypotheses. *)
Lemma ApplyBlock_root_witness :
  v_root (cur st1) = mset_Root (sb_set blk0) /\ ds st1 !! RootKey = Some (v_root (cur st1)).
Proof.
  destruct (ApplyBlock_root blk0 st0 st1) as (_ & _ & _ & _ & hdr & _ & _ & H1 & H2).
  - vm_compute; reflexivity.
  - vm_compute; reflexivity.
  - exact st1_run.
  - split; [exact H1|exact H2].
Defined.

Lemma ApplyBlock_nonces_witness : nonce_of Applied st2 7 = 3.
Proof.
  destruct (ApplyBlock_nonces blk1 st1 st2) as [_ H].
  - vm_compute; reflexivity.
  - exact st2_run.
  - rewrite H by (vm_compute; done). vm_compute; reflexivity.
Defined.

Lemma st0_nonce id : nonce_of Applied st0 id = 0.
Proof.
  assert (E1 : ds st0 = ∅) by (vm_compute; reflexivity).
  assert (E2 : smt st0 = ∅) by (vm_compute; reflexivity).
  assert (E3 : tds st0 = None) by (vm_compute; reflexivity).
  assert (E4 : v_rInfo (view_of Applied st0) = ∅) by (vm_compute; reflexivity).
  unfold nonce_of, stored_value, read, tds_get. rewrite E1, E2, E3, E4, !lookup_empty. reflexivity.
Qed.

Lemma apply_chain_no_replay_witness :
  NoDup ((fun m => (m_From (sm_Message m), m_Nonce (sm_Message m))) <$> chain_msgs [blk0; blk1]).
Proof.
  apply (apply_chain_no_replay [blk0; blk1] st0 (final (apply_chain [blk0; blk1]) st0)).
  - vm_compute; reflexivity.
  - apply run_ok. vm_compute; reflexivity.
  - intros id. rewrite st0_nonce. replace (length (chain_msgs [blk0; blk1])) with 6%nat by (vm_compute; reflexivity).
    lia.
Defined.

Lemma ApplyBlock_quorums_intersect_witness :
  2 <= 3 * Z.of_nat (size (quorum blk1 st1 ∩ quorum blk1 st1)).
Proof.
  apply (ApplyBlock_quorums_intersect blk1 st1 st2 blk1 st1 st2).
  1,2: vm_compute; reflexivity.
  1,2: exact st2_run.
  1,2: vm_compute; reflexivity.
  - vm_compute; reflexivity.
  - apply (bool_decide_unpack _). vm_compute. exact I.
Defined.

Lemma ApplyBlock_genesis_witness :
  Forall (fun m => m_Method (sm_Message m) = AddRole /\
            exists pri, decode (m_Params (sm_Message m)) = Some pri /\ ri_Type pri = RoleInfo_Keeper)
         (mset_Msgs (sb_set blk0)).
Proof.
  apply (ApplyBlock_genesis blk0 st0 st1).
  - vm_compute; reflexivity.
  - exact st1_run.
  - vm_compute; reflexivity.
Defined.

(** A block at the wrong nonce: the registration of account 7 comes twice. *)
Definition replay_block : SignedBlock :=
  block_at st1 2 [5; 6]
    [addRole_msg RoleInfo_User 7 0 user_key; addRole_msg RoleInfo_User 7 0 user_key] [0; 0].

Lemma ApplyBlock_error_keeps_db_witness :
  (ApplyBlock (Some replay_block) st1).1 = Err "wrong nonce" /\
  ds (ApplyBlock (Some replay_block) st1).2 = ds st1.
Proof.
  split; [vm_compute; reflexivity|].
  destruct (ApplyBlock_error_keeps_db replay_block st1) as [H _].
  - vm_compute; reflexivity.
  - vm_compute; reflexivity.
  - vm_compute. discriminate.
  - exact H.
Defined.
