(* ===== verification/Restart.v ===== *)
(** * Restart: caches, versions and what a restart recovers

    The caches of an applied chain agree with its database, so that loading an
    entry again, as the validating side and a restarted node do, finds the
    same; the version a node reaches block by block is the one [load] computes
    from the height; and [NewStateMgr] on the database of an applied block
    recovers its height, slot, block and root. *)

From S2P Require Import Prelude GoMonad Codec Keys Segments SegmentID Types Tx Fr StateTypes State Roles Chunks Orders Challenge Pay Validate Block Handlers Frame Chain.

Section Coherence.
Context `{!StateEnv, !SMTLaws}.
Implicit Types (s : StateMgr) (id : Z) (msg : Message) (key : bytes).

(** The cached nonces are the stored ones, and while the tree is not in use it
    does not shadow the store. *)
Record coherent s : Prop := mkCoherent {
  co_nonce id : nonce_of Applied s id = rv_Nonce (stored_value s id);
  co_silent id : plain s -> smt_get (smt s) (RoleValueKey id) = None;
}.

Lemma stored_value_eq s s' id :
  read s' (RoleValueKey id) = read s (RoleValueKey id) -> stored_value s' id = stored_value s id.
Proof. unfold stored_value. by intros ->. Qed.

Lemma tag_RoleValue id : has_tag protected (RoleValueKey id).
Proof. apply has_tag_NewKey. unfold protected. set_solver. Qed.

Lemma frame_nonce w s s' id : frame w s s' -> nonce_of Applied s' id = nonce_of Applied s id.
Proof.
  intros F. destruct w; [apply (fr_nonce _ _ _ F)|]. apply nonce_of_eq.
  - by rewrite (fr_other _ _ _ F : view_of Applied s' = view_of Applied s).
  - unfold read. by destruct (fr_read _ _ _ F _ (tag_RoleValue id)) as [-> ->].
Qed.

Lemma frame_coherent w s s' : frame w s s' -> coherent s -> coherent s'.
Proof.
  intros F [Hn Hs]. constructor; intros id.
  - rewrite (frame_nonce _ _ _ _ F), Hn. f_equal. symmetry. apply stored_value_eq. unfold read.
    by destruct (fr_read _ _ _ F _ (tag_RoleValue id)) as [-> ->].
  - unfold plain. rewrite (cur_version_frame _ _ _ F). intros Hp.
    destruct (fr_read _ _ _ F _ (tag_RoleValue id)) as [_ ->]. auto.
Qed.

(** A write under another table. *)
Lemma store_coherent t vs s s' :
  store_eff (NewKey (KMetaType t :: vs)) s s' ->
  bool_decide (t ∈ [pb.MetaType_ST_RoleValueKey]) = false -> coherent s -> coherent s'.
Proof.
  intros E Ht [Hn Hs].
  assert (Hk : forall id, RoleValueKey id <> NewKey (KMetaType t :: vs)).
  { intros id. eapply has_tag_ne'; [|done]. apply has_tag_NewKey. set_solver. }
  constructor; intros id.
  - rewrite (nonce_tag_eff _ _ _ _ _ E Ht), Hn. f_equal. symmetry.
    by apply stored_value_eq, (store_eff_read _ _ _ _ E).
  - unfold plain. rewrite (se_cur _ _ _ E). intros Hp.
    destruct (se_read _ _ _ E _ (Hk id)) as [_ ->]. auto.
Qed.

(** Changing the scalars of the applied side. *)
Lemma preserves_view f : (forall v, v_rInfo (f v) = v_rInfo v /\ v_version (f v) = v_version v) ->
  Preserves coherent (modify (set_cur f)).
Proof.
  intros Hf. apply preserves_modify. intros s [Hn Hs].
  assert (Hr : forall id, stored_value (set_cur f s) id = stored_value s id) by done.
  constructor; intros id.
  - rewrite Hr, <-Hn. unfold nonce_of. simpl. destruct (Hf (cur s)) as [-> _].
    by rewrite (Hr id).
  - unfold plain. simpl. destruct (Hf (cur s)) as [_ ->]. apply Hs.
Qed.

Lemma preserves_tds_Put t vs v : bool_decide (t ∈ [pb.MetaType_ST_RoleValueKey]) = false ->
  Preserves coherent (tds_Put (NewKey (KMetaType t :: vs)) v).
Proof. intros Ht s [] s' Hco [E _]%tds_Put_Ok. by eapply store_coherent. Qed.

Lemma preserves_put t vs v : bool_decide (t ∈ [pb.MetaType_ST_RoleValueKey]) = false ->
  Preserves coherent (put (NewKey (KMetaType t :: vs)) v).
Proof.
  intros Ht s a s' Hco E. pose proof (put_eff (NewKey (KMetaType t :: vs)) v s) as Ef.
  rewrite E in Ef. by eapply store_coherent.
Qed.

Lemma newRoot_coherent b : Preserves coherent (newRoot b).
Proof.
  unfold newRoot. apply preserves_bind; [apply preserves_pure; keeps|intros v]. case_match.
  - apply preserves_bind; [by apply preserves_view|intros _].
    apply preserves_bind; [apply preserves_pure; keeps|intros v'].
    apply (preserves_tds_Put pb.MetaType_ST_RootKey []). tag_compute.
  - apply preserves_bind; [|intros; apply preserves_pure; keeps].
    intros s o s' Hco Hr. pose proof (put_eff RootKey b s) as E.
    assert (E' : store_eff RootKey s s')
      by (apply try_err_Ok in Hr as [(? & _ & Hm)|(_ & e & Hm)]; by rewrite Hm in E).
    eapply (store_coherent pb.MetaType_ST_RootKey []); [done|tag_compute|done].
Qed.

Context `{!CodecLaws roleValue, !CodecNonempty roleValue}.

Lemma applyMsg_nonce_coherent msg : Preserves coherent (applyMsg_nonce msg).
Proof.
  intros s [] s' Hco Hr. unfold applyMsg_nonce in Hr.
  apply bind_Ok in Hr as (ri & s1 & H1 & Hr).
  destruct (roleOf_run Applied (m_From msg) s) as (ri' & s1' & E1 & F1 & _ & Hn).
  rewrite E1 in H1. injection H1 as -> ->. apply (frame_coherent _ _ _ F1) in Hco.
  apply bind_Ok in Hr as (? & ? & [_ ->]%check_Ok & Hr).
  apply bind_Ok in Hr as ([] & s2 & ->%modify_Ok & Hr).
  apply bind_Ok in Hr as ([] & s3 & H3 & Hr). unfold saveVal in H3.
  apply bind_Ok in H3 as (data & ? & [Hd ->]%of_option_Ok & H3).
  set (s2 := put_role Applied (m_From msg) (inc_nonce ri) s1) in *.
  pose proof (put_eff (RoleValueKey (m_From msg)) data s2) as E3. rewrite H3 in E3. simpl in E3.
  assert (Hs3 : coherent s3).
  { destruct Hco as [Hcn Hcs].
    assert (Hread : read s3 (RoleValueKey (m_From msg)) = Some data).
    { eapply put_read; [done|by eapply marshal_nonempty|]. intros Hp. by apply Hcs. }
    constructor; intros id.
    - destruct (decide (id = m_From msg)) as [->|Hne].
      + unfold nonce_of, stored_value. rewrite Hread, (unmarshal_marshal _ _ _ Hd).
        rewrite (store_eff_view _ _ _ Applied E3). simpl. by rewrite lookup_insert_eq.
      + rewrite (nonce_store_eff _ _ _ _ E3).
        2: { intros id' ->%RoleValueKey_inj. simpl. rewrite lookup_insert_eq. by eexists. }
        assert (Hk : RoleValueKey id <> RoleValueKey (m_From msg))
          by (intros ?%RoleValueKey_inj; done).
        rewrite (stored_value_eq s2 s3) by (by apply (store_eff_read _ _ _ _ E3)).
        change (stored_value s2 id) with (stored_value s1 id).
        rewrite <-(Hcn id). unfold nonce_of. simpl. by rewrite lookup_insert_ne.
    - unfold plain. rewrite (se_cur _ _ _ E3). intros Hp.
      rewrite (se_smt _ _ _ E3 Hp). by apply Hcs. }
  rewrite (bind_run _ _ _ _ _ (eq_refl : gets _ _ = _)) in Hr.
  case_match; [|by apply ret_Ok in Hr as [_ ->]].
  by eapply newRoot_coherent.
Qed.

Lemma handler_coherent {A} (m : M StateMgr A) : Keeps (frame Applied) m -> Preserves coherent m.
Proof. apply preserves_keeps. intros s s'. apply frame_coherent. Qed.

Lemma applyMsg_coherent om r : Preserves coherent (applyMsg om r).
Proof.
  destruct om as [msg|]; simpl; [|apply preserves_pure; keeps].
  apply preserves_bind; [apply applyMsg_nonce_coherent|intros _].
  case_match; [apply preserves_pure; keeps|]. by apply handler_coherent, (keeps_apply_method (frame Applied)).
Qed.

Lemma apply_msgs_coherent msgs rs : Preserves coherent (apply_msgs msgs rs).
Proof.
  revert rs. induction msgs as [|m msgs IH]; intros rs; simpl; [apply preserves_pure; keeps|].
  destruct rs; [apply preserves_pure; keeps|].
  apply preserves_bind; [apply (applyMsg_coherent (Some _))|auto].
Qed.

Lemma applyBlock_body_coherent blk mid b : Preserves coherent (applyBlock_body blk mid b).
Proof.
  unfold applyBlock_body.
  apply preserves_bind; [apply (preserves_tds_Put pb.MetaType_ST_BlockHeightKey []); tag_compute|intros _].
  apply preserves_bind; [apply (preserves_tds_Put pb.MetaType_ST_BlockHeightKey); tag_compute|intros _].
  apply preserves_bind; [apply newRoot_coherent|intros _].
  apply preserves_bind; [apply apply_msgs_coherent|intros _].
  apply preserves_pure. keeps.
Qed.

Lemma saveRoot_coherent : Preserves coherent saveRoot.
Proof.
  unfold saveRoot. apply preserves_bind; [apply preserves_pure; keeps|intros v].
  case_match; [|apply preserves_pure; keeps].
  apply preserves_bind; [apply preserves_pure; keeps|intros t].
  apply preserves_bind; [by apply preserves_view|intros _].
  apply preserves_bind; [apply (preserves_tds_Put pb.MetaType_ST_RootKey []); tag_compute|intros _].
  apply (preserves_tds_Put pb.MetaType_ST_RootKey). tag_compute.
Qed.

(** Changes the nonces cannot see. *)
Lemma coherent_eq s s' :
  (forall id, read s' (RoleValueKey id) = read s (RoleValueKey id)) ->
  (forall id, smt_get (smt s') (RoleValueKey id) = smt_get (smt s) (RoleValueKey id)) ->
  v_rInfo (cur s') = v_rInfo (cur s) -> (plain s' -> plain s) -> coherent s -> coherent s'.
Proof.
  intros Hr Hg Hi Hp [Hn Hs]. constructor; intros id.
  - rewrite (stored_value_eq s s') by done. rewrite <-Hn. apply nonce_of_eq; [by simpl; rewrite Hi|done].
  - rewrite Hg. auto.
Qed.

(** C32. After a block that was applied without an error, as before it, every nonce the
    node has cached is the one its database holds, for every account: loading an
    account again cannot change what is expected of it.  (The version has to be in
    the range of its type.  After a block that failed the caches may be ahead of the
    database, whose transaction was discarded.) *)
Theorem ApplyBlock_coherent blk s s' :
  tds s = None -> coherent s -> ApplyBlock (Some blk) s = (Ok tt, s') ->
  0 <= v_version (cur s) < 2 ^ 32 - 1 -> coherent s'.
Proof.
  intros Ht Hco Hr Hv.
  unfold ApplyBlock in Hr.
  apply bind_Ok in Hr as ([] & s0 & (-> & _)%applyBlock_checks_Ok & Hr).
  apply with_txn_Ok in Hr as (s9 & E & ->).
  apply bind_Ok in E as ([] & s1 & Ha & E).
  pose proof (applyBlock_admission_state blk (open_txn s)) as Hs. rewrite Ha in Hs. simpl in Hs. subst s1.
  assert (Hco1 : coherent (open_txn s)).
  { apply (coherent_eq s); try done. intros id. unfold read, tds_get. simpl. by rewrite Ht. }
  apply bind_Ok in E as (b & ? & [_ ->]%of_option_Ok & E).
  apply bind_Ok in E as ([] & s1 & H1 & E).
  pose proof (keeps_applyBlock_body blk (RawBlock_Hash (sb_RawBlock blk)) b (open_txn s)) as C1.
  rewrite H1 in C1. simpl in C1. apply applyBlock_body_coherent in H1; [|done].
  apply bind_Ok in E as ([] & s2 & ->%modify_Ok & E).
  apply bind_Ok in E as ([] & s3 & H3 & E).
  pose proof (saveRoot_Ok _ _ H3) as (_ & _ & _ & C3). apply saveRoot_coherent in H3.
  2: { apply (coherent_eq s1); try done; intros id; unfold read; simpl; by rewrite smt_get_commit. }
  apply bind_Ok in E as ([] & s4 & H4 & E). unfold commit in H4. go_inv.
  rename select (tds _ = Some _) into Et.
  apply advance_Ok in E as (A1 & A2 & A3 & A4 & A5 & A6 & A7 & A8 & A9 & A10).
  simpl in *. apply (coherent_eq s3); try done.
  - intros id. unfold read, tds_get. simpl. by rewrite A9, A7, Et.
  - intros id. simpl. by rewrite A9.
  - unfold plain. simpl. rewrite A4. unfold next_version.
    rewrite (cf_version _ _ C3). simpl. rewrite (cf_version _ _ C1). simpl. unfold u32. rewrite Z.mod_small by lia. repeat case_match; lia.
Qed.
End Coherence.

(** ** The version *)

Section Version.
Context `{!StateEnv, !SMTLaws}.

(** The version after [n] blocks, by the increments of [ApplyBlock]. *)
Fixpoint running_version (n : nat) : Z :=
  match n with
  | O => 0
  | S n => next_version (running_version n) (Z.of_nat (S n))
  end.

(** The result of the loop, in whatever order the map is visited. *)
Lemma version_at_spec v h :
  v <= version_at v h /\
  (version_at v h = v \/ exists ue, UpdateMap !! version_at v h = Some ue /\ ue <= h) /\
  (forall i ue, UpdateMap !! i = Some ue -> ue <= h -> i <= version_at v h).
Proof.
  unfold version_at.
  apply (map_fold_weak_ind (fun r m => v <= r /\
    (r = v \/ exists ue, m !! r = Some ue /\ ue <= h) /\
    (forall i ue, m !! i = Some ue -> ue <= h -> i <= r))).
  - split_and!; [lia|by left|]. intros i ue Hi. by rewrite lookup_empty in Hi.
  - intros j u m r Hj (Hv & Hr & Hmax).
    assert (Hne : forall ue, m !! r = Some ue -> r <> j) by congruence.
    destruct (Z.geb_spec h u), (Z.ltb_spec r j); simpl; split_and!; try lia.
    all: try (right; exists u; rewrite lookup_insert_eq; split; [done|lia]).
    all: try (destruct Hr as [->|(ue & Hm & ?)]; [by left|right; exists ue;
              rewrite lookup_insert_ne by (symmetry; eauto); done]).
    all: intros i ue Hi ?; destruct (decide (i = j)) as [->|Hij];
         [rewrite lookup_insert_eq in Hi; simplify_eq; lia
         |rewrite lookup_insert_ne in Hi by done; specialize (Hmax i ue Hi); lia].
Qed.

Lemma UpdateMap_init i : env_build = build_init ->
  UpdateMap !! i = (if i =? 1 then Some 2880 else if i =? 2 then Some 20160
                    else if i =? 3 then Some 103000 else None).
Proof.
  intros ->. simpl. unfold UpdateHeight1, UpdateHeight2, UpdateHeight3.
  destruct (Z.eqb_spec i 1) as [->|?]; [done|].
  destruct (Z.eqb_spec i 2) as [->|?]; [done|].
  destruct (Z.eqb_spec i 3) as [->|?]; [done|].
  by rewrite !lookup_insert_ne, lookup_singleton_ne by done.
Qed.

Lemma version_at_init h : env_build = build_init ->
  version_at 0 h = if h >=? 103000 then 3 else if h >=? 20160 then 2 else if h >=? 2880 then 1 else 0.
Proof.
  intros E. destruct (version_at_spec 0 h) as (Hv & Hr & Hmax).
  assert (2880 <= h -> 1 <= version_at 0 h) by (apply Hmax; by rewrite UpdateMap_init).
  assert (20160 <= h -> 2 <= version_at 0 h) by (apply Hmax; by rewrite UpdateMap_init).
  assert (103000 <= h -> 3 <= version_at 0 h) by (apply Hmax; by rewrite UpdateMap_init).
  clear Hmax.
  destruct Hr as [Hr|(ue & Hr & ?)].
  - destruct (Z.geb_spec h 103000), (Z.geb_spec h 20160), (Z.geb_spec h 2880); lia.
  - rewrite UpdateMap_init in Hr by done.
    destruct (Z.geb_spec h 103000), (Z.geb_spec h 20160), (Z.geb_spec h 2880);
      repeat case_match; simplify_eq; lia.
Qed.

Lemma next_version_init v h : env_build = build_init -> 0 <= v < 4 ->
  next_version v h = if (v =? 0) && (h >=? 2880) then 1 else if (v =? 1) && (h >=? 20160) then 2
                     else if (v =? 2) && (h >=? 103000) then 3 else v.
Proof.
  intros E Hv. unfold next_version, u32. rewrite Z.mod_small, UpdateMap_init by (done || lia).
  destruct (Z.geb_spec h 103000), (Z.geb_spec h 20160), (Z.geb_spec h 2880);
    repeat case_match; simplify_eq; simpl; lia.
Qed.

(** With the default configuration, the version a node has counted up block
    by block is at every height the one a start-up computes from the height
    alone, so restarted and running nodes interpret blocks alike. *)
Theorem running_version_is_loaded n : env_build = build_init ->
  running_version n = version_at 0 (Z.of_nat n).
Proof.
  intros E. assert (Hn : running_version n = version_at 0 (Z.of_nat n) /\ 0 <= running_version n < 4).
  { induction n as [|n [IH Hb]]; [split; [by rewrite version_at_init|done]|].
    cbn [running_version]. rewrite next_version_init by done.
    rewrite version_at_init in * by done. rewrite IH in *.
    destruct (Z.geb_spec (Z.of_nat (S n)) 103000), (Z.geb_spec (Z.of_nat n) 103000),
      (Z.geb_spec (Z.of_nat (S n)) 20160), (Z.geb_spec (Z.of_nat n) 20160),
      (Z.geb_spec (Z.of_nat (S n)) 2880), (Z.geb_spec (Z.of_nat n) 2880); simpl; lia. }
  apply Hn.
Qed.
End Version.

(** A genesis configuration that schedules the tree before the last built-in
    upgrade breaks that agreement: at the scheduled height a restarted node is
    on the configured version while a running one is still on the first. *)
Theorem configured_version_diverges (E : StateEnv) :
  @env_build E = build_configure 4 1000 0 build_init ->
  version_at 0 1000 = 4 /\ running_version 1000 = 0.
Proof.
  intros Eb.
  assert (Hm : forall i, UpdateMap !! i = if i =? 4 then Some 1000 else @UpdateMap build_init !! i).
  { intros i. rewrite Eb. simpl. destruct (Z.eqb_spec i 4) as [->|?]; [done|].
    by rewrite lookup_insert_ne. }
  split.
  - destruct (version_at_spec 0 1000) as (H0 & Hr & Hmax).
    assert (4 <= version_at 0 1000) by (apply (Hmax 4 1000); [by rewrite Hm|done]).
    destruct Hr as [?|(ue & Hr & Hle)]; [lia|].
    rewrite Hm in Hr. destruct (Z.eqb_spec (version_at 0 1000) 4) as [|Hne]; [done|].
    simpl in Hr. rewrite !lookup_insert_ne, lookup_singleton_ne in Hr by lia. done.
  - assert (Hn : forall n, (n <= 1000)%nat -> running_version n = 0); [|by apply Hn].
    induction n as [|n IH]; intros Hn; [done|]. cbn [running_version]. rewrite IH by lia.
    assert (E1 : UpdateMap !! 1 = Some 2880) by (by rewrite Hm).
    unfold next_version. change (u32 (0 + 1)) with 1. rewrite E1.
    destruct (Z.geb_spec (Z.of_nat (S n)) 2880); lia.
Qed.

(** ** What a restart recovers *)

Section Restart.
Context `{!StateEnv, !SMTLaws, !HashesLaws}.
Implicit Types (s : StateMgr).

(** What the later steps of [load] leave alone. *)
Definition same_position s s' : Prop :=
  v_height (cur s') = v_height (cur s) /\ v_slot (cur s') = v_slot (cur s) /\
  v_version (cur s') = v_version (cur s) /\ v_root (cur s') = v_root (cur s) /\
  v_root (vld s') = v_root (vld s) /\ blkID s' = blkID s.
#[local] Instance same_position_preorder : PreOrder same_position.
Proof. split; [by intros s|]. unfold same_position. intros s1 s2 s3. naive_solver congruence. Qed.

Lemma keeps_load_ids key (add : Z -> StateMgr -> StateMgr) :
  (forall kid s, same_position s (add kid s)) -> Keeps same_position (load_ids key add).
Proof.
  intros Ha. unfold load_ids, has_ok, has. keeps. apply keeps_modify. auto.
Qed.

Lemma keeps_load_epoch : Keeps same_position load_epoch.
Proof. unfold load_epoch, load_chal, get. keeps; by apply keeps_modify. Qed.

Lemma load_position s : same_position (load_root (load_block (load_version (load_height s).2).2).2).2 (load s).2.
Proof.
  assert (E1 : load_height s = (Ok tt, (load_height s).2)) by done.
  unfold load. rewrite (bind_run _ _ _ _ _ E1). clear E1. generalize (load_height s).2 as s1. intros s1.
  assert (E2 : load_version s1 = (Ok tt, (load_version s1).2)) by done.
  rewrite (bind_run _ _ _ _ _ E2). clear E2. generalize (load_version s1).2 as s2. intros s2.
  assert (E3 : load_block s2 = (Ok tt, (load_block s2).2)) by done.
  rewrite (bind_run _ _ _ _ _ E3). clear E3. generalize (load_block s2).2 as s3. intros s3.
  assert (E4 : load_root s3 = (Ok tt, (load_root s3).2)) by done.
  rewrite (bind_run _ _ _ _ _ E4). clear E4. generalize (load_root s3).2 as s4.
  assert (K : Keeps same_position (
    do! load_ids KeepersKey (fun kid => set_keepers (fun l => l ++ [kid]));
    do! load_ids ProsKey (fun kid => set_pros (fun l => l ++ [kid]));
    do! load_ids UsersKey (fun kid => set_users (fun l => l ++ [kid]));
    load_epoch)); [|apply K].
  keeps; first [by apply keeps_load_ids | apply keeps_load_epoch].
Qed.

Lemma roots_after_length root b msgs : length (roots_after (next_root root b) msgs) = MsgLen /\
  MsgID_FromBytes (roots_after (next_root root b) msgs) = Some (roots_after (next_root root b) msgs).
Proof.
  revert root b. induction msgs as [|m msgs IH]; intros root b; [apply NewMsgID_spec|]. apply IH.
Qed.

Lemma be_at_put8 x : is_u64 x -> be_at 0 (put_be 8 x) = Some x /\ be_at 8 (put_be 8 x) = None.
Proof.
  intros Hx. unfold be_at. rewrite length_put_be. simpl. split; [|done].
  unfold slice. rewrite drop_0, take_ge by (rewrite length_put_be; lia). by rewrite get_put_be8.
Qed.

Lemma height_entry_at blk mid : length mid = MsgLen -> is_u64 (rh_Slot (sb_header blk)) ->
  (MsgLen <=? length (height_entry blk mid))%nat = true /\
  take MsgLen (height_entry blk mid) = mid /\
  be_at MsgLen (height_entry blk mid) = Some (rh_Slot (sb_header blk)).
Proof.
  intros Hl Hs. unfold height_entry, be_at. rewrite copy_into_exact by done.
  rewrite length_app, length_put_be, Hl. simpl. split_and!; [done|by apply take_app_length'|].
  unfold slice. rewrite drop_app_length' by done. rewrite take_ge by (rewrite length_put_be; unfold MsgLen; lia).
  by rewrite get_put_be8.
Qed.

Lemma load_root_at_root s key root :
  ds s !! key = Some root -> length root = MsgLen -> MsgID_FromBytes root = Some root ->
  load_root_at key s = set_cur (set_v_root (fun _ => root)) s.
Proof. intros E Hl Hf. unfold load_root_at. by rewrite E, Hl, Hf. Qed.
Lemma load_root_at_none s key : ds s !! key = None -> load_root_at key s = s.
Proof. intros E. unfold load_root_at. by rewrite E. Qed.

(** C5. Below [SMTVersion] ([plain]), with no root of the tree in the database: a node
    started on the database of an applied block is where the block left the running
    node, with the same next height, slot, last block and state root, the root on
    both sides.  Its version is the one [load] computes from the height with the
    built-in upgrade heights; that of the running node need not be the same
    ([configured_version_diverges]). *)
Theorem restart_recovers blk s s' base groupID thre t :
  tds s = None -> plain s -> ApplyBlock (Some blk) s = (Ok tt, s') ->
  is_Some (marshal (sb_RawBlock blk)) -> is_u64 (rh_Slot (sb_header blk)) ->
  0 <= v_height (cur s) < 2 ^ 64 - 1 -> (forall h, ds s !! RootKey2 h = None) ->
  let r := NewStateMgr base groupID thre (ds s') t in
  v_height (cur r) = v_height (cur s') /\ v_slot (cur r) = v_slot (cur s') /\
  blkID r = blkID s' /\ v_root (cur r) = v_root (cur s') /\ v_root (vld r) = v_root (cur s') /\
  v_version (cur r) = version_at 0 (v_height (cur s')).
Proof.
  intros Ht Hp Hr [braw Hm] Hslot Hh Hroots. destruct (ApplyBlock_Ok _ _ _ Ht Hr) as [].
  destruct (bk_root Hp) as (b & _ & Hra & _ & Hrk).
  assert (Hid : length (blkID s') = MsgLen /\ MsgID_FromBytes (blkID s') = Some (blkID s')).
  { rewrite bk_blkID. unfold RawBlock_Hash. rewrite Hm. apply NewMsgID_spec. }
  destruct Hid as [Hidl Hidf]. rewrite <-bk_blkID in bk_ds_entry.
  destruct (roots_after_length (v_root (cur s)) b (mset_Msgs (sb_set blk))) as [Hrl Hrf].
  rewrite <-Hra in Hrl, Hrf.
  assert (Hu : is_u64 (v_height (cur s))) by (unfold is_u64; lia).
  assert (Hu1 : u64 (v_height (cur s) + 1) = v_height (cur s) + 1) by (apply u64_id; unfold is_u64; lia).
  cbv zeta. unfold NewStateMgr.
  destruct (load_position (initStateMgr base groupID thre (ds s') t)) as (-> & -> & -> & -> & -> & ->).
  destruct (be_at_put8 _ Hu) as [B0 B8]. destruct (height_entry_at blk _ Hidl Hslot) as (L1 & L2 & L3).
  assert (S1 : exists s1, (load_height (initStateMgr base groupID thre (ds s') t)).2 = s1 /\
            v_height (cur s1) = v_height (cur s') /\ ds s1 = ds s' /\ v_version (cur s1) = 0).
  { eexists. split; [done|]. unfold load_height, modify. simpl. rewrite bk_ds_height, B0, B8.
    by rewrite bk_height', Hu1. }
  destruct S1 as (s1 & -> & G1 & D1 & V1).
  unfold load_version, load_block, load_root, modify. cbn [snd].
  set (s2 := set_vld _ (set_cur _ s1)).
  assert (G2 : v_height (cur s2) = v_height (cur s')) by (by simpl).
  assert (D2 : ds s2 = ds s') by done.
  assert (V2 : v_version (cur s2) = version_at 0 (v_height (cur s'))) by (simpl; by rewrite V1, G1).
  clearbody s2. rewrite G2, bk_height', Hu1.
  replace (0 <? v_height (cur s) + 1) with true by (symmetry; apply Z.ltb_lt; lia).
  replace (v_height (cur s) + 1 - 1) with (v_height (cur s)) by lia. rewrite (u64_id _ Hu).
  rewrite D2, bk_ds_entry, L1, L2, Hidf, L3.
  rewrite (load_root_at_root _ RootKey (v_root (cur s'))) by (simpl; congruence).
  simpl. rewrite G2, bk_height', Hu1.
  replace (0 <? v_height (cur s) + 1) with true by (symmetry; apply Z.ltb_lt; lia).
  rewrite load_root_at_none; [simpl; rewrite G2, V2, bk_slot', bk_height', Hu1; by split_and!|]. change (ds s2 !! RootKey2 (u64 (v_height (cur s) + 1 - 1)) = None).
  rewrite D2. by rewrite bk_roots, Hroots.
Qed.
End Restart.

(** ** Witnesses *)

From S2P Require Import Concrete Scenario.

Lemma st0_coherent : coherent st0.
Proof.
  assert (E1 : ds st0 = ∅) by (vm_compute; reflexivity).
  assert (E2 : smt st0 = ∅) by (vm_compute; reflexivity).
  assert (E3 : tds st0 = None) by (vm_compute; reflexivity).
  assert (E4 : v_rInfo (view_of Applied st0) = ∅) by (vm_compute; reflexivity).
  constructor; intros id.
  - unfold nonce_of. by rewrite E4, lookup_empty.
  - intros _. rewrite E2. reflexivity.
Qed.

Lemma ApplyBlock_coherent_witness : coherent st1.
Proof.
  apply (ApplyBlock_coherent blk0 st0 st1).
  - vm_compute; reflexivity.
  - apply st0_coherent.
  - exact st1_run.
  - vm_compute. split; [discriminate|reflexivity].
Defined.

Lemma running_version_is_loaded_witness : running_version 2880 = version_at 0 2880.
Proof. apply (running_version_is_loaded 2880). reflexivity. Defined.

Lemma configured_version_diverges_witness :
  @version_at (toy_env_with (build_configure 4 1000 0 build_init)) 0 1000 = 4.
Proof.
  destruct (configured_version_diverges (toy_env_with (build_configure 4 1000 0 build_init)) eq_refl) as [H _].
  exact H.
Defined.

(** No key of a database lies under the root's tag. *)
Lemma no_root2 (db : gmap bytes bytes) :
  forallb (fun kv => negb (bool_decide (take 3 kv.1 = bytes_of_string "20/"))) (map_to_list db) = true ->
  forall h, db !! RootKey2 h = None.
Proof.
  intros Hf h. destruct (db !! RootKey2 h) as [v|] eqn:E; [|done].
  apply elem_of_map_to_list in E. rewrite forallb_forall in Hf.
  specialize (Hf _ (proj1 (list_elem_of_In _ _) E)). done.
Qed.

Lemma restart_recovers_witness :
  v_root (cur (NewStateMgr [] 1 1 (ds st2) (smt st2))) = v_root (cur st2) /\
  v_height (cur (NewStateMgr [] 1 1 (ds st2) (smt st2))) = 2.
Proof.
  destruct (restart_recovers blk1 st1 st2 [] 1 1 (smt st2)) as (H1 & _ & _ & H2 & _).
  - vm_compute; reflexivity.
  - vm_compute; reflexivity.
  - exact st2_run.
  - eexists; vm_compute; reflexivity.
  - vm_compute. split; [discriminate|reflexivity].
  - vm_compute. split; [discriminate|reflexivity].
  - apply no_root2. vm_compute. reflexivity.
  - split; [exact H2|rewrite H1; vm_compute; reflexivity].
Defined.
