(* ===== verification/Propose.v ===== *)
(** * Propose: how a block is put together and voted on

    [submodule/txPool/process.go]: the leader's [Propose] validates the pending
    messages in turn and records each outcome in a receipt; every other keeper
    runs [OnPropose] on the result before it votes.  Which messages are taken
    depends on the iteration order of a map, on the clock and on sizes: the
    entry of each sender says how many of its messages the loop gets to. *)

From S2P Require Import Prelude GoMonad Codec Keys Segments SegmentID Types Tx Fr StateTypes State Roles Chunks Orders Challenge Pay Validate Block Handlers Frame Chain Restart.

Section Propose.
Context `{!StateEnv}.
Implicit Types (s : StateMgr) (sb : SignedBlock).

(** [RoleVerify(ctx, sm.From, sm.Hash().Bytes(), sm.Signature)]; [None] is an error *)
Variable RoleVerify : SignedMessage -> option bool.

(** [s.StateGetNonce] of [submodule/state/state_api.go] *)
Definition StateGetNonce (roleID : Z) : M StateMgr Z :=
  let! v := gets cur in
  match v_rInfo v !! roleID with
  | Some ri => ret (rv_Nonce (r_val ri))
  | None => let! rv := loadVal roleID in ret (rv_Nonce rv)
  end.

(** A sender's entry of [mp.pending], and how many turns its loop makes. *)
Record pend := mkPend { pd_from : Z; pd_info : gmap Z SignedMessage; pd_turns : nat }.

(** for i := nc; ; i++ { m, ok := ms.info[i]; if !ok { break } ... } *)
Fixpoint take_run (info : gmap Z SignedMessage) (i : Z) (turns : nat) : list SignedMessage :=
  match turns with
  | O => []
  | S turns =>
      match info !! i with
      | Some m => m :: take_run info (u64 (i + 1)) turns
      | None => []
      end
  end.

(** One message of the proposal: its receipt records the error. *)
Definition propose_msg (m : SignedMessage) : M StateMgr Receipt := fun s =>
  match ValidateMsg (Some (sm_Message m)) s with
  | (Ok _, s') => (Ok (mkReceipt 0 []), s')
  | (Err e, s') => (Ok (mkReceipt 1 (bytes_of_string e)), s')
  | (Panic w, s') => (Panic w, s')
  end.

Fixpoint propose_msgs (ms : list SignedMessage) : M StateMgr (list Receipt) :=
  match ms with
  | [] => ret []
  | m :: ms =>
      let! r := propose_msg m in
      let! rs := propose_msgs ms in
      ret (r :: rs)
  end.

Fixpoint propose_pending (pending : list pend) : M StateMgr (list SignedMessage * list Receipt) :=
  match pending with
  | [] => ret ([], [])
  | p :: pending =>
      let! nc := StateGetNonce (pd_from p) in
      let ms := take_run (pd_info p) nc (pd_turns p) in
      let! rs := propose_msgs ms in
      let! rest := propose_pending pending in
      ret (ms ++ rest.1, rs ++ rest.2)
  end.

(** After the genesis block.  The block that is validated has no messages yet. *)
Definition Propose (rh : RawHeader) (pending : list pend) : M StateMgr MsgSet :=
  do! ValidateBlock None;
  let! v := gets vld in
  let oldRoot := v_root v in
  do! ValidateBlock (Some (mkSignedBlock (mkRawBlock rh (mkMsgSet [] [] [] [])) (mkMultiSignature 0 [] [])));
  let! p := propose_pending pending in
  let! v := gets vld in
  ret (mkMsgSet p.1 p.2 oldRoot (v_root v)).

(** The loop of [OnPropose]: the receipt must say what validation says. *)
Fixpoint onPropose_msgs (ms : list SignedMessage) (rs : list Receipt) : M StateMgr unit :=
  match ms with
  | [] => ret tt
  | sm :: ms =>
      let! ok := of_option (RoleVerify sm) "wrong message" in
      do! check ok "invalid sign";
      let! r := try_err (ValidateMsg (Some (sm_Message sm))) in
      match rs with
      | [] => panic "index out of range"
      | tr :: rs =>
          do! (match r with
               | None => check (negb (r_Err tr =? 0)) "fail to validate message, shoule be right"
               | Some _ => check (r_Err tr =? 0) "fail to validate message, shoule be wrong"
               end);
          onPropose_msgs ms rs
      end
  end.

Definition OnPropose sb : M StateMgr unit :=
  do! ValidateBlock None;
  let! v := gets vld in
  do! check (MsgID_Equal (v_root v) (mset_ParentRoot (sb_set sb))) "OnPropose wrong state";
  do! ValidateBlock (Some sb);
  do! onPropose_msgs (mset_Msgs (sb_set sb)) (mset_Receipts (sb_set sb));
  let! v := gets vld in
  check (MsgID_Equal (v_root v) (mset_Root (sb_set sb))) "OnPropose has wrong state".

(** ** An honest proposal is accepted *)

Lemma propose_msgs_accepted ms rs s s' rest rrs :
  (forall m, m ∈ ms -> RoleVerify m = Some true) ->
  propose_msgs ms s = (Ok rs, s') ->
  onPropose_msgs (ms ++ rest) (rs ++ rrs) s = onPropose_msgs rest rrs s'.
Proof.
  revert rs s. induction ms as [|m ms IH]; intros rs s Hv Hr; cbn [propose_msgs] in Hr.
  - by apply ret_Ok in Hr as [-> ->].
  - apply bind_Ok in Hr as (r & s1 & H1 & Hr). apply bind_Ok in Hr as (rs' & s2 & H2 & Hr).
    apply ret_Ok in Hr as [-> ->]. cbn [app onPropose_msgs].
    rewrite Hv by set_solver. cbn [of_option]. rewrite bind_ret_l. cbn [check]. rewrite bind_ret_l.
    unfold propose_msg in H1. unfold bind at 1, try_err.
    destruct (ValidateMsg (Some (sm_Message m)) s) as [[[]|e|w] s3]; simplify_eq.
    + change ((do! check true ?e; ?k) ?t) with (k t). apply IH; [set_solver|done].
    + change ((do! check true ?e; ?k) ?t) with (k t). apply IH; [set_solver|done].
Qed.

Lemma propose_pending_accepted pending ms rs s s' :
  propose_pending pending s = (Ok (ms, rs), s') ->
  (forall m, m ∈ ms -> RoleVerify m = Some true) ->
  onPropose_msgs ms rs s = (Ok tt, s').
Proof.
  revert ms rs s. induction pending as [|p pending IH]; intros ms rs s Hr Hv; cbn [propose_pending] in Hr.
  - apply ret_Ok in Hr as [[= -> ->] ->]. done.
  - apply bind_Ok in Hr as (nc & s1 & H1 & Hr). apply bind_Ok in Hr as (rs1 & s2 & H2 & Hr).
    apply bind_Ok in Hr as ([ms3 rs3] & s3 & H3 & Hr). apply ret_Ok in Hr as [[= -> ->] ->].
    assert (s1 = s) as ->.
    { assert (K : Keeps eq (StateGetNonce (pd_from p))) by (unfold StateGetNonce, loadVal, get; keeps).
      specialize (K s). by rewrite H1 in K. }
    rewrite (propose_msgs_accepted _ rs1 s s2 ms3 rs3); [|set_solver|exact H2].
    apply IH; [done|set_solver].
Qed.

(** The two states differ in the validating side only. *)
Definition same_applied s1 s2 : Prop := set_vld (fun _ => cur s1) s1 = set_vld (fun _ => cur s2) s2.

Lemma reset_same s1 s2 : same_applied s1 s2 -> reset s1 = reset s2.
Proof.
  unfold same_applied, reset, modify, set_vld. destruct s1, s2. simpl. intros E. injection E as -> -> -> -> -> -> -> -> -> ->. done.
Qed.

Lemma ValidateBlock_reset ob s1 s2 : same_applied s1 s2 -> ValidateBlock ob s1 = ValidateBlock ob s2.
Proof. intros E. unfold ValidateBlock. apply bind_eq. apply reset_same. exact E. Qed.

(** C13. What a leader proposes, whatever messages it picked, every keeper with the same
    applied state votes for, if the role service verifies the signatures of the
    messages; it finds the same root and the same receipts, and its state is then the
    leader's. *)
Theorem Propose_accepted rh pending s1 s1' s2 mset sig :
  Propose rh pending s1 = (Ok mset, s1') -> same_applied s1 s2 ->
  (forall m, m ∈ mset_Msgs mset -> RoleVerify m = Some true) ->
  OnPropose (mkSignedBlock (mkRawBlock rh mset) sig) s2 = (Ok tt, s1').
Proof.
  intros Hr Hs Hv. unfold Propose in Hr.
  apply bind_Ok in Hr as ([] & t1 & H1 & Hr).
  apply bind_Ok in Hr as (v & ? & [-> ->]%gets_Ok & Hr).
  apply bind_Ok in Hr as ([] & t2 & H2 & Hr).
  apply bind_Ok in Hr as ([ms rs] & t3 & H3 & Hr).
  apply bind_Ok in Hr as (v & ? & [-> ->]%gets_Ok & [-> ->]%ret_Ok). simpl in Hv.
  unfold OnPropose. rewrite (ValidateBlock_reset _ _ _ Hs) in H1. unfold MsgID_Equal. simpl.
  rewrite (bind_run _ _ _ _ _ H1), (bind_run _ _ _ _ _ (eq_refl : gets _ _ = _)).
  rewrite bool_decide_true by done. simpl. rewrite bind_ret_l.
  change (ValidateBlock (Some (mkSignedBlock (mkRawBlock rh (mkMsgSet ms rs (v_root (vld t1)) (v_root (vld t3)))) sig)))
    with (ValidateBlock (Some (mkSignedBlock (mkRawBlock rh (mkMsgSet [] [] [] [])) (mkMultiSignature 0 [] [])))).
  rewrite (bind_run _ _ _ _ _ H2).
  rewrite (bind_run _ _ _ _ _ (propose_pending_accepted _ _ _ _ _ H3 Hv)).
  rewrite (bind_run _ _ _ _ _ (eq_refl : gets _ _ = _)). by rewrite bool_decide_true.
Qed.
End Propose.

(** ** Validation and application agree on roots and nonces *)

Section Agreement.
Context `{!StateEnv, !SMTLaws}.
Implicit Types (s : StateMgr) (sb : SignedBlock) (msg : Message).

(** What validating a message does to the root and the expected nonces. *)
Record validated msg s s' : Prop := mkValidated {
  va_nonces id : nonce_of Validating s' id =
    if m_Nonce msg =? nonce_of Validating s (m_From msg)
    then bump (nonce_of Validating s) (m_From msg) id else nonce_of Validating s id;
  va_root : v_root (vld s') =
    if m_Nonce msg =? nonce_of Validating s (m_From msg)
    then next_root (v_root (vld s)) (m_Params msg) else v_root (vld s);
  va_version : v_version (vld s') = v_version (vld s);
  va_cur : cur s' = cur s;
  va_applied id : nonce_of Applied s' id = nonce_of Applied s id;
  va_coherent : coherent s';
}.

(** The entry the validating side uses carries the nonce it expects, wherever
    it comes from: the cached and the stored nonces of the applied side agree. *)
Lemma validate_role_run id s : coherent s -> exists ri s1,
  validate_role id s = (Ok ri, s1) /\ frame Validating s s1 /\ rv_Nonce (r_val ri) = nonce_of Validating s id.
Proof.
  intros Hco. unfold validate_role. rewrite (bind_run _ _ _ _ _ (eq_refl : gets _ _ = _)).
  destruct (v_rInfo (vld s) !! id) as [ri|] eqn:E.
  - exists ri, s. split_and!; try done. unfold nonce_of. simpl. by rewrite E.
  - destruct (v_rInfo (cur s) !! id) as [nri|] eqn:E'.
    + assert (Hn : rv_Nonce (r_val nri) = nonce_of Validating s id).
      { pose proof (co_nonce _ Hco id) as Hc. unfold nonce_of in *. simpl in *. by rewrite E' in Hc; rewrite E. }
      eexists _, _. split; [done|]. split; [|done]. by apply frame_put_role.
    + destruct (roleOf_run Validating id s) as (ri & s' & -> & F & _ & Hn). eauto.
Qed.

Lemma bump_entry_v msg ri s :
  rv_Nonce (r_val ri) = nonce_of Validating s (m_From msg) ->
  forall id, nonce_of Validating (put_role Validating (m_From msg) (inc_nonce ri) s) id
           = bump (nonce_of Validating s) (m_From msg) id.
Proof.
  intros Hn id. unfold bump, nonce_of at 1. simpl. destruct (Z.eqb_spec id (m_From msg)) as [->|Hne].
  - rewrite lookup_insert_eq. simpl. by rewrite Hn.
  - by rewrite lookup_insert_ne.
Qed.

Lemma ValidateMsg_validated msg s :
  coherent s -> v_version (vld s) < SMTVersion -> validated msg s (ValidateMsg (Some msg) s).2.
Proof.
  intros Hco Hv. unfold ValidateMsg.
  destruct (validate_role_run (m_From msg) s Hco) as (ri & s1 & H1 & F1 & Hn).
  rewrite (bind_run _ _ _ _ _ H1). rewrite Hn.
  pose proof (frame_coherent _ _ _ F1 Hco) as Hco1.
  assert (Hcur : cur s1 = cur s) by apply (fr_other _ _ _ F1).
  destruct (m_Nonce msg =? nonce_of Validating s (m_From msg)) eqn:En.
  - change ((do! check true ?e; ?k) s1) with (k s1).
    change ((do! modify ?f; ?k) s1) with (k (f s1)). cbn beta.
    set (s2 := put_role Validating (m_From msg) (inc_nonce ri) s1).
    assert (N2 : forall id, nonce_of Validating s2 id = bump (nonce_of Validating s) (m_From msg) id).
    { intros id. unfold s2. rewrite bump_entry_v by (by rewrite Hn, (fr_nonce _ _ _ F1)).
      unfold bump. by rewrite !(fr_nonce _ _ _ F1). }
    assert (R2 : v_root (vld s2) = v_root (vld s)) by apply (fr_root _ _ _ F1).
    assert (V2 : v_version (vld s2) = v_version (vld s)) by apply (fr_version _ _ _ F1).
    assert (Hco2 : coherent s2) by (destruct Hco1; by constructor).
    unfold newValidateRoot. rewrite bind_assoc.
    rewrite (bind_run _ _ _ _ _ (eq_refl : gets _ _ = _)).
    replace (v_version (vld s2) >=? SMTVersion) with false
      by (symmetry; rewrite V2, Z.geb_leb; by apply Z.leb_gt).
    change ((do! modify ?f; ?k) s2) with (k (f s2)). cbn beta.
    set (s3 := set_vld _ s2).
    pose proof (keeps_validate_method (frame Validating) msg s3) as F3. generalize dependent (validate_method msg s3).2.
    intros s4 F3.
    assert (Hco3 : coherent s3) by (destruct Hco2; by constructor).
    constructor; rewrite ?En.
    + intros id. rewrite (fr_nonce _ _ _ F3). apply N2.
    + rewrite (fr_root _ _ _ F3 : v_root (vld s4) = v_root (vld s3)).
      change (v_root (vld s3)) with (next_root (v_root (vld s2)) (m_Params msg)). by rewrite R2.
    + rewrite (fr_version _ _ _ F3 : v_version (vld s4) = v_version (vld s3)). done.
    + rewrite (fr_other _ _ _ F3 : cur s4 = cur s3). done.
    + intros id. rewrite (frame_nonce _ _ _ _ F3). apply (frame_nonce _ _ _ _ F1).
    + by eapply frame_coherent.
  - change ((do! check false ?e; ?k) s1) with (Err (A:=unit) e, s1). simpl.
    constructor; rewrite ?En; try done.
    + intros id. apply (fr_nonce _ _ _ F1).
    + apply (fr_root _ _ _ F1).
    + apply (fr_version _ _ _ F1).
    + intros id. apply (frame_nonce _ _ _ _ F1).
Qed.

Lemma onPropose_msgs_root RoleVerify ms rs s s' :
  coherent s -> v_version (vld s) < SMTVersion ->
  onPropose_msgs RoleVerify ms rs s = (Ok tt, s') -> nonces_ok (nonce_of Validating s) ms = true ->
  v_root (vld s') = roots_after (v_root (vld s)) ms.
Proof.
  revert rs s. induction ms as [|m ms IH]; intros rs s Hco Hv Hr Hn; cbn [onPropose_msgs] in Hr.
  - by apply ret_Ok in Hr as [_ ->].
  - apply bind_Ok in Hr as (ok & ? & [_ ->]%of_option_Ok & Hr).
    apply bind_Ok in Hr as ([] & ? & [_ ->]%check_Ok & Hr).
    apply bind_Ok in Hr as (r & s1 & H1 & Hr).
    pose proof (ValidateMsg_validated (sm_Message m) s Hco Hv) as W.
    assert (E1 : (ValidateMsg (Some (sm_Message m)) s).2 = s1).
    { apply try_err_Ok in H1 as [(? & _ & ->)|(_ & e & ->)]; done. }
    rewrite E1 in W. destruct W as [].
    simpl in Hn. apply andb_true_iff in Hn as [Hnm Hn]. rewrite Hnm in *.
    destruct rs as [|tr rs]; [done|].
    apply bind_Ok in Hr as ([] & s2 & H2 & Hr).
    assert (s2 = s1) as -> by (destruct r; by apply check_Ok in H2 as [_ ->]).
    apply IH in Hr; [|done|lia|].
    + rewrite Hr, va_root0. done.
    + rewrite <-Hn. by apply nonces_ok_ext.
Qed.

(** The state [reset] leaves expects the applied nonces. *)
Lemma reset_run s : coherent s -> exists s1, reset s = (Ok tt, s1) /\
  cur s1 = cur s /\ blkID s1 = blkID s /\ coherent s1 /\ v_root (vld s1) = v_root (cur s) /\
  v_version (vld s1) = v_version (cur s) /\ v_height (vld s1) = v_height (cur s) /\
  v_slot (vld s1) = v_slot (cur s) /\
  (forall id, nonce_of Applied s1 id = nonce_of Applied s id) /\
  (forall id, nonce_of Validating s1 id = nonce_of Applied s id).
Proof.
  intros Hco. eexists. split; [done|]. split_and!; try done.
  - destruct Hco. by constructor.
  - intros id. rewrite (co_nonce _ Hco). unfold nonce_of. simpl. by rewrite lookup_empty.
Qed.

Lemma ValidateBlock_Ok sb s s' : coherent s -> plain s -> ValidateBlock (Some sb) s = (Ok tt, s') ->
  rh_PrevID (sb_header sb) = blkID s /\ rh_Height (sb_header sb) = v_height (cur s) /\
  v_slot (cur s) < rh_Slot (sb_header sb) /\ coherent s' /\ v_version (vld s') < SMTVersion /\
  cur s' = cur s /\ (forall id, nonce_of Applied s' id = nonce_of Applied s id) /\
  (forall id, nonce_of Validating s' id = nonce_of Applied s id) /\
  exists b, marshal (sb_header sb) = Some b /\ v_root (vld s') = next_root (v_root (cur s)) b.
Proof.
  intros Hco Hp Hr. destruct (reset_run s Hco) as (s1 & H1 & C1 & B1 & Co1 & R1 & V1 & Hh1 & Sl1 & NA & NV).
  unfold ValidateBlock in Hr. rewrite (bind_run _ _ _ _ _ H1) in Hr.
  apply bind_Ok in Hr as (id & ? & [-> ->]%gets_Ok & Hr).
  apply bind_Ok in Hr as ([] & ? & [E1 ->]%check_Ok & Hr).
  apply bind_Ok in Hr as (v & ? & [-> ->]%gets_Ok & Hr).
  apply bind_Ok in Hr as ([] & ? & [E2 ->]%check_Ok & Hr).
  apply bind_Ok in Hr as ([] & ? & [E3 ->]%check_Ok & Hr).
  apply bind_Ok in Hr as (b & ? & [E4 ->]%of_option_Ok & Hr).
  apply bind_Ok in Hr as ([] & s2 & ->%modify_Ok & Hr).
  unfold newValidateRoot in Hr. apply bind_Ok in Hr as (v & ? & [-> ->]%gets_Ok & ->%modify_Ok).
  simpl. rewrite V1. unfold plain in Hp.
  replace (v_version (cur s) >=? SMTVersion) with false by (symmetry; rewrite Z.geb_leb; by apply Z.leb_gt).
  unfold MsgID_Equal in E1. apply bool_decide_eq_true in E1. apply Z.eqb_eq in E2.
  apply negb_true_iff, Z.leb_gt in E3. rewrite B1 in E1. rewrite Hh1 in E2. rewrite Sl1 in E3.
  split_and!; try done.
  - destruct Co1. by constructor.
  - exists b. split; [done|]. by rewrite R1.
Qed.

(** C2. Below [SMTVersion] ([plain]), in a state whose cached nonces are those of the
    database ([coherent]): when a keeper has voted for a block whose nonces are the
    expected ones, the applied side accepts its place in the chain, and the root the
    block announces is the one applying its messages leads to: validation and
    application cannot disagree on the state root.  With the tree in use the applied
    side has its own root. *)
Theorem OnPropose_root RoleVerify sb s s' :
  coherent s -> plain s -> OnPropose RoleVerify sb s = (Ok tt, s') ->
  nonces_ok (nonce_of Applied s) (mset_Msgs (sb_set sb)) = true ->
  applyBlock_checks sb s = (Ok tt, s) /\
  exists b, marshal (sb_header sb) = Some b /\
    mset_Root (sb_set sb) = roots_after (next_root (v_root (cur s)) b) (mset_Msgs (sb_set sb)).
Proof.
  intros Hco Hp Hr Hn. unfold OnPropose in Hr.
  destruct (reset_run s Hco) as (s1 & H1 & C1 & B1 & Co1 & R1 & V1 & Hh1 & Sl1 & NA & NV).
  unfold ValidateBlock at 1 in Hr. rewrite bind_assoc, (bind_run _ _ _ _ _ H1) in Hr.
  rewrite bind_ret_l in Hr.
  apply bind_Ok in Hr as (v & ? & [-> ->]%gets_Ok & Hr).
  apply bind_Ok in Hr as ([] & ? & [Hpr ->]%check_Ok & Hr).
  apply bind_Ok in Hr as ([] & s2 & H2 & Hr).
  assert (Hp1 : plain s1) by (unfold plain; by rewrite C1).
  apply ValidateBlock_Ok in H2 as (P1 & P2 & P3 & P4 & P5 & P6 & P7 & P8 & b & P9 & P10); [|done..].
  apply bind_Ok in Hr as ([] & s3 & H3 & Hr).
  apply bind_Ok in Hr as (v & ? & [-> ->]%gets_Ok & [Hrt ->]%check_Ok).
  apply onPropose_msgs_root in H3; [|done..|].
  2: { rewrite <-Hn. apply nonces_ok_ext. intros id. by rewrite P8, NA. }
  unfold MsgID_Equal in *. apply bool_decide_eq_true in Hpr, Hrt. rewrite C1, B1 in *. split.
  - unfold applyBlock_checks, MsgID_Equal.
    rewrite (bind_run _ _ _ _ _ (eq_refl : gets _ _ = _)).
    rewrite P2, Z.eqb_refl. cbn [check]. rewrite bind_ret_l.
    replace (rh_Slot (sb_header sb) <=? v_slot (cur s)) with false by (symmetry; by apply Z.leb_gt).
    cbn [negb check]. rewrite bind_ret_l. rewrite (bind_run _ _ _ _ _ (eq_refl : gets _ _ = _)).
    rewrite P1, bool_decide_true by done. rewrite bind_ret_l.
    by rewrite bool_decide_true by congruence.
  - exists b. split; [done|]. by rewrite <-Hrt, H3, P10.
Qed.

(** ** An honest proposal has good nonces *)

Lemma take_run_nonces info from i n f :
  (forall k m, info !! k = Some m -> m_From (sm_Message m) = from /\ m_Nonce (sm_Message m) = k) ->
  f from = i ->
  nonces_ok f (take_run info i n) = true /\
  (forall id, id <> from -> nonces_after f (take_run info i n) id = f id).
Proof.
  intros Hi. revert i f. induction n as [|n IH]; intros i f Hf; simpl; [done|].
  destruct (info !! i) as [m|] eqn:E; [|done]. destruct (Hi _ _ E) as [Hm Hk]. simpl.
  rewrite Hk, Hm, Hf, Z.eqb_refl. destruct (IH (u64 (i + 1)) (bump f from)) as [I1 I2].
  { unfold bump. by rewrite Z.eqb_refl, Hf. }
  rewrite I1. split; [done|]. intros id Hne. unfold nonces_after in *. rewrite ?Hm, I2 by done.
  unfold bump. by destruct (Z.eqb_spec id from).
Qed.

(** An entry of the pool holds messages of its sender, under their nonces. *)
Definition pool_ok (p : pend) : Prop :=
  forall k m, pd_info p !! k = Some m ->
    m_From (sm_Message m) = pd_from p /\ m_Nonce (sm_Message m) = k.

Lemma propose_msgs_keeps ms s rs s' :
  coherent s -> v_version (vld s) < SMTVersion -> propose_msgs ms s = (Ok rs, s') ->
  coherent s' /\ v_version (vld s') < SMTVersion /\
  forall id, nonce_of Applied s' id = nonce_of Applied s id.
Proof.
  revert s rs. induction ms as [|m ms IH]; intros s rs Hco Hv Hr; cbn [propose_msgs] in Hr.
  - by apply ret_Ok in Hr as [_ ->].
  - apply bind_Ok in Hr as (r & s1 & H1 & Hr). apply bind_Ok in Hr as (rs' & s2 & H2 & [_ ->]%ret_Ok).
    pose proof (ValidateMsg_validated (sm_Message m) s Hco Hv) as W.
    assert (E1 : (ValidateMsg (Some (sm_Message m)) s).2 = s1).
    { unfold propose_msg in H1. by destruct (ValidateMsg _ s) as [[?|?|?] ?]; simplify_eq. }
    rewrite E1 in W. destruct W as [].
    destruct (IH _ _ va_coherent0 ltac:(lia) H2) as (? & ? & HN).
    split_and!; try done. intros id. by rewrite HN.
Qed.

Lemma StateGetNonce_run id s : StateGetNonce id s = (Ok (nonce_of Applied s id), s).
Proof.
  unfold StateGetNonce, nonce_of. rewrite (bind_run _ _ _ _ _ (eq_refl : gets _ _ = _)). simpl.
  destruct (v_rInfo (cur s) !! id) as [ri|]; [done|].
  by rewrite (bind_run _ _ _ _ _ (loadVal_run id s)).
Qed.

Lemma propose_pending_nonces pending s ms rs s' f :
  coherent s -> v_version (vld s) < SMTVersion ->
  Forall pool_ok pending -> NoDup (pd_from <$> pending) ->
  (forall p, p ∈ pending -> f (pd_from p) = nonce_of Applied s (pd_from p)) ->
  propose_pending pending s = (Ok (ms, rs), s') -> nonces_ok f ms = true.
Proof.
  revert s ms rs f. induction pending as [|p pending IH]; intros s ms rs f Hco Hv Hok Hnd Hf Hr;
    cbn [propose_pending] in Hr.
  - by apply ret_Ok in Hr as [[= -> ->] _].
  - rewrite (bind_run _ _ _ _ _ (StateGetNonce_run (pd_from p) s)) in Hr.
    apply bind_Ok in Hr as (rs1 & s2 & H2 & Hr).
    apply bind_Ok in Hr as ([ms3 rs3] & s3 & H3 & [[= -> ->] ->]%ret_Ok).
    apply Forall_cons in Hok as [Hp Hok]. rewrite fmap_cons in Hnd. apply NoDup_cons in Hnd as [Hnin Hnd].
    destruct (propose_msgs_keeps _ _ _ _ Hco Hv H2) as (Hco2 & Hv2 & HN).
    destruct (take_run_nonces (pd_info p) (pd_from p) (nonce_of Applied s (pd_from p)) (pd_turns p) f Hp)
      as [T1 T2]; [apply Hf; set_solver|].
    rewrite nonces_ok_app, T1. simpl. eapply IH; [done..| |exact H3].
    intros q Hq. rewrite HN, T2; [apply Hf; set_solver|].
    intros E. apply Hnin. rewrite <-E. by apply list_elem_of_fmap_2.
Qed.

(** Whatever part of its pool an honest leader gets to, its proposal never
    carries a nonce that applying the block would refuse. *)
Theorem Propose_nonces rh pending s s' mset :
  coherent s -> plain s -> Forall pool_ok pending -> NoDup (pd_from <$> pending) ->
  Propose rh pending s = (Ok mset, s') ->
  nonces_ok (nonce_of Applied s) (mset_Msgs mset) = true.
Proof.
  intros Hco Hp Hok Hnd Hr. unfold Propose in Hr.
  destruct (reset_run s Hco) as (s1 & H1 & C1 & B1 & Co1 & R1 & V1 & Hh1 & Sl1 & NA & NV).
  unfold ValidateBlock at 1 in Hr. rewrite bind_assoc, (bind_run _ _ _ _ _ H1) in Hr.
  rewrite bind_ret_l in Hr.
  apply bind_Ok in Hr as (v & ? & [-> ->]%gets_Ok & Hr).
  apply bind_Ok in Hr as ([] & s2 & H2 & Hr).
  assert (Hp1 : plain s1) by (unfold plain; by rewrite C1).
  apply ValidateBlock_Ok in H2 as (P1 & P2 & P3 & P4 & P5 & P6 & P7 & P8 & b & P9 & P10); [|done..].
  apply bind_Ok in Hr as ([ms rs] & s3 & H3 & Hr).
  apply bind_Ok in Hr as (v & ? & [-> ->]%gets_Ok & [-> ->]%ret_Ok).
  eapply propose_pending_nonces; [exact P4|exact P5|done|done| |exact H3].
  intros p _. by rewrite P7, NA.
Qed.
End Agreement.

(** ** Witnesses *)

From S2P Require Import Concrete Scenario.

Definition all_verified : SignedMessage -> option bool := fun _ => Some true.
Definition pool1 : list pend :=
  [mkPend 7 {[ 0 := sign (addRole_msg RoleInfo_User 7 0 user_key); 1 := sign (msg_of 7 1 CreateFs user_key) ]} 9;
   mkPend 9 {[ 0 := sign (addRole_msg RoleInfo_Provider 9 0 []); 2 := sign (msg_of 9 2 UpdateNet []) ]} 9].
Definition header_of (s : StateMgr) (slot : Z) : RawHeader :=
  mkRawHeader 0 1 (v_height (cur s)) slot 5 (blkID s).
Definition proposed1 : MsgSet :=
  match (Propose (header_of st1 2) pool1 st1).1 with Ok m => m | _ => mkMsgSet [] [] [] [] end.

Example proposed1_msgs : length (mset_Msgs proposed1) = 3%nat.
Proof. vm_compute. reflexivity. Qed.

Lemma Propose_accepted_witness :
  exists s', OnPropose all_verified (mkSignedBlock (mkRawBlock (header_of st1 2) proposed1) (mkMultiSignature 0 [] [])) st1
    = (Ok tt, s').
Proof.
  exists (Propose (header_of st1 2) pool1 st1).2.
  apply (Propose_accepted all_verified (header_of st1 2) pool1 st1).
  - unfold proposed1. destruct (Propose (header_of st1 2) pool1 st1) as [[m|e|w] s'] eqn:E; [reflexivity|exfalso..].
    + assert (is_Ok (Propose (header_of st1 2) pool1 st1).1 = true) as H by (vm_compute; reflexivity).
      rewrite E in H. discriminate H.
    + assert (is_Ok (Propose (header_of st1 2) pool1 st1).1 = true) as H by (vm_compute; reflexivity).
      rewrite E in H. discriminate H.
  - reflexivity.
  - reflexivity.
Defined.

Lemma OnPropose_root_witness :
  exists b, marshal (sb_header blk0) = Some b /\
    mset_Root (sb_set blk0) = roots_after (next_root (v_root (cur st0)) b) (mset_Msgs (sb_set blk0)).
Proof.
  apply (OnPropose_root all_verified blk0 st0 (final (OnPropose all_verified blk0) st0)).
  - apply st0_coherent.
  - vm_compute; reflexivity.
  - apply run_ok. vm_compute; reflexivity.
  - vm_compute; reflexivity.
Defined.

Definition pool0 : list pend := [mkPend 5 {[ 0 := sign (addRole_msg RoleInfo_Keeper 5 0 []) ]} 3].

Lemma Propose_nonces_witness : exists mset,
  (Propose (header_of st0 1) pool0 st0).1 = Ok mset /\
  nonces_ok (nonce_of Applied st0) (mset_Msgs mset) = true.
Proof.
  destruct (Propose (header_of st0 1) pool0 st0) as [[m|e|w] s'] eqn:E;
    [|assert (is_Ok (Propose (header_of st0 1) pool0 st0).1 = true) as H by (vm_compute; reflexivity);
      rewrite E in H; discriminate H..].
  exists m. split; [reflexivity|].
  apply (Propose_nonces (header_of st0 1) pool0 st0 s' m).
  - apply st0_coherent.
  - vm_compute; reflexivity.
  - apply Forall_singleton. intros k m' Hk. simpl in Hk.
    apply lookup_singleton_Some in Hk as [<- <-]. split; reflexivity.
  - apply NoDup_singleton.
  - exact E.
Defined.

(** A message with a nonce no account expects, marked as failed. *)
Definition bad_nonce_block : SignedBlock :=
  let h := header_of st1 2 in
  mkSignedBlock (mkRawBlock h (mkMsgSet [sign (msg_of 7 5 UpdateNet [])] [mkReceipt 1 []]
                   (v_root (cur st1)) (next_root (v_root (cur st1)) (enc h))))
    (mkMultiSignature SigBLS [5; 6] []).

(** A keeper votes for a block whose only message has a wrong nonce, as long
    as its receipt marks it as failed; applying the same block, signed by every
    keeper, is an error, which the sync pool answers by a panic. *)
Theorem OnPropose_accepts_bad_nonce :
  is_Ok (OnPropose all_verified bad_nonce_block st1).1 = true /\
  (ApplyBlock (Some bad_nonce_block) st1).1 = Err "wrong nonce".
Proof. split; vm_compute; reflexivity. Qed.
