(* ===== verification/Divergence.v ===== *)
(** * Divergence: where nodes stop agreeing

    Concrete runs on the small chain: a block that every keeper votes for and
    that no node can apply, a message that stops every node, and a restart that
    changes what a node accepts. *)

From S2P Require Import Prelude GoMonad Codec Keys Segments SegmentID Types Tx Fr StateTypes Concrete State Roles Chunks Orders Challenge Pay Validate Block Handlers Frame Chain Restart Propose Scenario OrderScenario.

(** The epoch message in the first block whose own slot is late enough. *)
Definition early_epoch : SignedBlock := block_at st4 8640 [5; 6] [epoch_msg st4 5 1] [0].

(** The slot an epoch may start at is the block's own for a voting keeper and
    the previous block's for an applying node: a block that starts an epoch as
    soon as the first test allows is voted for and cannot be applied. *)
Theorem epoch_vote_not_applied :
  is_Ok (OnPropose all_verified early_epoch st4).1 = true /\
  (ApplyBlock (Some early_epoch) st4).1 = Err "duration is wrong, expect at least".
Proof. split; vm_compute; reflexivity. Qed.

(** Keeper 5 signs the income a second time. *)
Definition st8 : StateMgr := apply_at st7 14500 [5; 6] [pay_msg 5 4].
Definition second_pay : SignedBlock := block_at st8 14600 [5; 6] [pay_msg 5 5] [0].

(** A keeper that countersigns an income twice gets the votes of the others,
    whose check never looks at the signers stored so far, but the block that
    carries the second signature cannot be applied. *)
Theorem pay_vote_not_applied :
  is_Ok (OnPropose all_verified second_pay st8).1 = true /\
  (ApplyBlock (Some second_pay) st8).1 = Err "signer exist".
Proof. split; vm_compute; reflexivity. Qed.

(** An order with provider 12, which is not registered. *)
Definition stranger_order : SignedOrder :=
  let b := mkOrderBase 7 12 0 (BaseTime + 2 * Day) (BaseTime + 110 * Day) 0 (Some 2) (Some 1) in
  let h := default [] (SignedOrder_Hash (mkSignedOrder b 0 (Some 0) (mkSignature 0 []) (mkSignature 0 []))) in
  mkSignedOrder b 0 (Some 0) (sig_of 7 h) (sig_of 12 h).

(** A user's order with a provider nobody registered is not refused: the
    provider's missing role is dereferenced, so the leader that proposes the
    message and any keeper that checks it panic. *)
Theorem unknown_provider_panics :
  (Propose (header_of st2 3) [mkPend 7 {[ 3 := sign (open_msg 3 stranger_order) ]} 9] st2).1
    = Panic "nil pointer dereference" /\
  (OnPropose all_verified (block_at st2 3 [5; 6] [open_msg 3 stranger_order] [0]) st2).1
    = Panic "nil pointer dereference".
Proof. split; vm_compute; reflexivity. Qed.

(** The second order takes data and is committed; the third starts before the
    first one did. *)
Definition restarted : StateMgr := NewStateMgr [] 1 1 (ds st4) (smt st4).
Definition third_order : SignedOrder := order_of 2 (BaseTime + Day) (BaseTime + 105 * Day) 0 0.
Definition commit_second : SignedBlock :=
  block_at st4 5 [5; 6] [seq_msg 7 (seq_of second_order 0 [mkAggSegs 0 2 1 0]); commit_msg 8 1 1] [0; 0].
Definition open_third : SignedBlock :=
  block_at (final (ApplyBlock (Some commit_second)) st4) 6 [5; 6] [open_msg 9 third_order] [0].

(** The times of the order before the last are remembered only by a node that
    was restarted while the last one was running; such a node refuses a next
    order that starts before them, which every other node accepts. *)
Theorem restart_splits_orders :
  is_Ok (apply_chain [commit_second; open_third] st4).1 = true /\
  is_Ok (ApplyBlock (Some commit_second) restarted).1 = true /\
  (apply_chain [commit_second; open_third] restarted).1 = Err "start is early than previous".
Proof. split_and!; vm_compute; reflexivity. Qed.
