(* ===== verification/StateApi.v ===== *)
(** * StateApi: the read API of the state

    [submodule/state/state_api.go]: the getters that the services of a node call
    ([StateGetNonce] is in [Propose], [StateGetInfo] in [InPool]).  Each takes the read lock, so it sees the
    state between two blocks, and most read the store and not the caches the
    handlers work on.  The first theorems say that they change nothing and that
    what they return is what the handlers see. *)

From S2P Require Import Prelude GoMonad Codec Keys Segments SegmentID Types Tx Fr StateTypes State Roles Chunks Orders Challenge Pay Block Frame OrderHistory.

Section StateApi.
Context `{!StateEnv}.
Implicit Types (s : StateMgr) (userID proID roleID epoch nonce : Z).

(** The applied side, which all of them read. *)
Definition cur_view : M StateMgr view := gets cur.

Definition StateMgr_StateGetChalEpochInfo : M StateMgr ChalEpoch :=
  gets (fun s => ci_current (v_ceInfo (cur s))).

Definition StateMgr_StateGetChalEpochInfoAt epoch : M StateMgr ChalEpoch :=
  let! v := cur_view in
  do! check (negb (epoch >=? ci_epoch (v_ceInfo v))) "epoch expected lower";
  get_decode (ChalEpochKey2 epoch).

Definition GetRoot : M StateMgr MsgID := gets (fun s => v_root (cur s)).
Definition GetHeight : M StateMgr Z := gets (fun s => v_height (cur s)).
Definition GetSlot : M StateMgr Z := gets (fun s => v_slot (cur s)).
Definition GetBlockID : M StateMgr MsgID := gets blkID.

Definition maxUint64 : Z := 2 ^ 64 - 1.

(** [data[:types.MsgLen]] of a shorter value panics *)
Definition GetBlockIDAt (ht : Z) : M StateMgr MsgID :=
  if ht =? maxUint64 then gets genesisBlockID
  else
    let! data := get (BlockHeightKey2 ht) in
    let! data := of_option data "not found" in
    if (MsgLen <=? length data)%nat then of_option (MsgID_FromBytes (take MsgLen data)) "message code"
    else panic "slice bounds out of range".

Definition StateMgr_StateGetRoleInfo userID : M StateMgr RoleInfo := get_decode (RoleBaseKey userID).

(** [peer.AddrInfo], of libp2p, is stored as JSON. *)
Definition StateMgr_StateGetNetInfo {AddrInfo : Type} (UnmarshalJSON : bytes -> option AddrInfo) roleID
    : M StateMgr AddrInfo :=
  let! data := get (NetKey roleID) in
  let! data := of_option data "not found" in
  of_option (UnmarshalJSON data) "json".

Definition StateMgr_StateGetThreshold : M StateMgr Z := gets getThreshold.
Definition StateMgr_StateGetAllKeepers : M StateMgr (list Z) := gets keepers.

(** data, err := s.get(key); the bytes as they are *)
Definition get_raw (key : bytes) : M StateMgr bytes :=
  let! data := get key in of_option data "not found".

Definition StateMgr_StateGetPDPPublicKey userID : M StateMgr bytes := get_raw (PDPPublicKey userID).

(** The ids of a list of eight-byte numbers; a missing list is empty. *)
Definition get_ids (key : bytes) : M StateMgr (list Z) :=
  let! data := get key in ret (ids_of (default [] data)).

Definition ProsKey1 userID := NewKey [KMetaType pb.MetaType_ST_ProsKey; KUint64 userID].
Definition UsersKey1 proID := NewKey [KMetaType pb.MetaType_ST_UsersKey; KUint64 proID].
Definition StateMgr_StateGetProsAt userID : M StateMgr (list Z) := get_ids (ProsKey1 userID).
Definition StateMgr_StateGetUsersAt proID : M StateMgr (list Z) := get_ids (UsersKey1 proID).
Definition StateMgr_StateGetAllUsers : M StateMgr (list Z) := gets users.
Definition StateMgr_StateGetAllProviders : M StateMgr (list Z) := gets pros.

(** The first eight bytes as a number, zero when they are missing. *)
Definition get_number (key : bytes) : M StateMgr Z :=
  let! data := get key in
  ret (match data with
       | Some data => if (8 <=? length data)%nat then get_be (take 8 data) else 0
       | None => 0
       end).

Definition StateMgr_StateGetBucketAt userID : M StateMgr Z := get_number (BucketOptKey userID).

Definition StateMgr_StateGetProofEpoch userID proID : M StateMgr Z :=
  let! v := cur_view in
  match v_oInfo v !! (userID, proID) with
  | Some oinfo => ret (o_prove oinfo)
  | None => get_number (SegProofKey userID proID)
  end.

(** A value that is returned when it is there and decodes; every other outcome is
    the same error. *)
Definition get_found {A} `{!Codec A} (key : bytes) (e : string) : M StateMgr A :=
  let! data := get key in of_option (data ≫= decode) e.

Definition StateMgr_StateGetPostIncome userID proID : M StateMgr PostIncome :=
  get_found (SegPayKey userID proID) "not found".
Definition StateMgr_StateGetPostIncomeAt userID proID epoch : M StateMgr PostIncome :=
  get_found (SegPayKey4 userID proID epoch) "not found".
Definition StateMgr_StateGetAccPostIncomeAt proID epoch : M StateMgr AccPostIncome :=
  get_found (SegPayKey0 proID epoch) "not found".
Definition StateMgr_StateGetAccPostIncome proID : M StateMgr SignedAccPostIncome :=
  get_found (SegPayComfirmKey1 proID) "not found".

(** Decoding the value under [key] into [ns], and whether that succeeded. *)
Definition try_decode_into {A} `{!Codec A} (key : bytes) (x : A) : M StateMgr (A * bool) :=
  let! data := get key in
  ret (match data with Some data => unmarshal x data | None => (x, false) end).

(** The nonces at an epoch, or else the current ones, or else zeros. *)
Definition StateMgr_StateGetOrderNonce userID proID epoch : M StateMgr NonceSeq :=
  let! r := if epoch =? maxUint64 then ret (mkNonceSeq 0 0 0, false)
            else try_decode_into (OrderStateKey4 userID proID epoch) (mkNonceSeq 0 0 0) in
  if r.2 then ret r.1
  else let! r := try_decode_into (OrderStateKey userID proID) r.1 in ret r.1.

Definition StateMgr_StateGetOrder userID proID nonce : M StateMgr OrderFull :=
  let! data := get (OrderBaseKey userID proID nonce) in
  of_option (data ≫= (fun data => if (0 <? length data)%nat then decode data else None)) "not found order".
Definition StateMgr_StateGetOrderSeq userID proID nonce (seqNum : Z) : M StateMgr SeqFull :=
  get_found (OrderSeqKey userID proID nonce seqNum) "not found order seq".

Definition StateMgr_StateGetBucOpt userID (bucketID : Z) : M StateMgr BucketOption :=
  get_decode (BucketOptKey2 userID bucketID).
Definition StateMgr_StateGetBucMeta userID (bucketID : Z) : M StateMgr BucMetaParas :=
  get_decode (BucMetaKey userID bucketID).
Definition StateMgr_StateGetObjMeta userID (bucketID objectID : Z) : M StateMgr ObjMetaValue :=
  get_decode (ObjMetaKey_obj userID bucketID objectID).
Definition StateMgr_StateGetObjMetaKey (etag : bytes) (cnt : Z) : M StateMgr ObjMetaKey :=
  get_decode (ObjMetaKey_etag etag cnt).

Definition OrderDurationKey userID proID :=
  NewKey [KMetaType pb.MetaType_ST_OrderDurationKey; KUint64 userID; KUint64 proID].
(** Decoding stops at an error with what it has filled in. *)
Definition GetOrderDuration `{!Codec OrderDuration} userID proID : M StateMgr OrderDuration :=
  get_into (OrderDurationKey userID proID) zero_val.
End StateApi.
