(* ===== verification/StateSaved.v ===== *)
(** * StateSaved: the caches are written through

    The handlers work on entries held in memory and save them; the read API and
    a restarted node read the store.  [saved] says that the two agree: for every
    cached order its nonces, its income and its next epoch to prove are those in
    the store, and the challenge epochs in force are found under their numbers.
    It holds along every chain of applied blocks, so a service that reads the
    store through the API sees what the handlers check against. *)

From S2P Require Import Prelude GoMonad Codec Keys Segments SegmentID Types Tx Fr StateTypes State Roles Chunks Orders Challenge Pay Validate Block Handlers Frame Chain Lift OrderHistory EpochHistory StateApi.

(** A configuration whose version numbers are 32-bit ones, and under which the
    tree, once in use, stays in use. *)
Class BuildGrows `{!StateEnv} := {
  bg_start : is_u32 (version_at 0 0);
  bg_smt v h : is_u32 v -> next_version v h < SMTVersion -> v < SMTVersion;
}.

Lemma next_version_range `{!StateEnv} v h : is_u32 v -> is_u32 (next_version v h).
Proof. intros Hv. unfold next_version. repeat case_match; [apply u32_range|done..]. Qed.

Section Saved.
Context `{!StateEnv, !SMTLaws, !BuildGrows}.
Context `{!CodecLaws NonceSeq, !CodecNonempty NonceSeq, !CodecLaws PostIncome, !CodecNonempty PostIncome}.
Context `{!CodecLaws ChalEpoch, !CodecNonempty ChalEpoch}.
Implicit Types (s : StateMgr) (oi : orderInfo) (u p : Z) (msg : Message) (key : bytes) (ce : chalEpochInfo).

Definition ns0 : NonceSeq := mkNonceSeq 0 0 0.

(** The tree is empty until it is in use. *)
Definition tree_late s : Prop :=
  is_u32 (v_version (cur s)) /\ (v_version (cur s) < SMTVersion -> forall k, smt_get (smt s) k = None).

Record entry_saved s u p oi : Prop := mkEntrySaved {
  es_ns : read_into s (OrderStateKey u p) ns0 = o_ns oi;
  es_income : read_into s (SegPayKey u p) (income0 u p) = o_income oi;
  es_prove : stored_prove s u p = o_prove oi;
}.

Definition orders_saved s : Prop := forall u p oi,
  v_oInfo (cur s) !! (u, p) = Some oi -> entry_saved s u p oi.

Definition epoch_stored s (e : ChalEpoch) : Prop := read s (ChalEpochKey2 (ce_Epoch e)) ≫= decode = Some e.
Record epochs_saved s (ce := v_ceInfo (cur s)) : Prop := mkEpochsSaved {
  ep_range : 0 <= ci_epoch ce < 2 ^ 64;
  ep_current : 1 <= ci_epoch ce -> ce_Epoch (ci_current ce) = ci_epoch ce - 1 /\ epoch_stored s (ci_current ce);
  ep_previous : 2 <= ci_epoch ce -> ce_Epoch (ci_previous ce) = ci_epoch ce - 2 /\ epoch_stored s (ci_previous ce);
}.

Record saved s : Prop := mkSaved {
  sv_late : tree_late s;
  sv_orders : orders_saved s;
  sv_epochs : epochs_saved s;
}.

(** ** Reading after writing *)

Lemma put_reads_back key v s s' : tree_late s -> v <> [] -> put key v s = (Ok tt, s') -> read s' key = Some v.
Proof.
  intros [_ Hl] Hv. unfold put. rewrite (bind_run _ _ _ _ _ (eq_refl : gets _ _ = _)).
  case_match eqn:E; intros Hr.
  - apply Z.ltb_lt in E. unfold tds_Put in Hr. apply bind_Ok in Hr as (t & ? & [-> ->]%gets_Ok & Hr).
    apply bind_Ok in Hr as (t & ? & [Ht ->]%deref_Ok & ->%modify_Ok). unfold read, tds_get. simpl.
    rewrite (Hl E). by rewrite lookup_insert_eq.
  - unfold smt_Put in Hr. apply bind_Ok in Hr as (t & ? & [-> ->]%gets_Ok & Hr).
    apply bind_Ok in Hr as (t & ? & [Ht ->]%of_option_Ok & ->%modify_Ok). unfold read. simpl.
    rewrite (smt_get_put _ _ _ _ _ Ht), bool_decide_true by done. by destruct v.
Qed.

Lemma store_eff_late key s s' : store_eff key s s' -> tree_late s -> tree_late s'.
Proof.
  intros E [Hu Hl]. unfold tree_late. rewrite (se_cur _ _ _ E). split; [done|]. intros Hv k.
  rewrite (se_smt _ _ _ E Hv). by apply Hl.
Qed.

(** The keys the invariant reads. *)
Definition pair_key u p key : Prop := key = SegPayKey u p \/ key = SegProofKey u p \/ key = OrderStateKey u p.
Definition saved_key key : Prop := (exists u p, pair_key u p key) \/ exists e, key = ChalEpochKey2 e.

(** A computation on the store that leaves the keys of [K] alone. *)
Record spares (K : bytes -> Prop) s s' : Prop := mkSpares {
  sp_cur : cur s' = cur s;
  sp_late : tree_late s -> tree_late s';
  sp_read k : K k -> read s' k = read s k;
}.
#[export] Instance spares_preorder K : PreOrder (spares K).
Proof.
  split; [by constructor|]. intros s1 s2 s3 [C1 L1 R1] [C2 L2 R2].
  constructor; [congruence|auto|]. intros k Hk. rewrite R2 by done. auto.
Qed.
Lemma spares_mono (K K' : bytes -> Prop) s s' : (forall k, K' k -> K k) -> spares K s s' -> spares K' s s'.
Proof. intros Hk []. constructor; auto. Qed.
Lemma spares_put K key v : ~ K key -> Keeps (spares K) (put key v).
Proof.
  intros Hk s. pose proof (put_eff key v s) as E. constructor; [apply E|by eapply store_eff_late|].
  intros k Hk'. eapply store_eff_read; [done|]. by intros ->.
Qed.
Lemma spares_tds_Put K key v : ~ K key -> Keeps (spares K) (tds_Put key v).
Proof.
  intros Hk s. pose proof (tds_Put_eff key v s) as E. constructor; [apply E|by eapply store_eff_late|].
  intros k Hk'. eapply store_eff_read; [done|]. by intros ->.
Qed.
Lemma spares_put_encode {A} `{!Codec A} K key (x : A) : ~ K key -> Keeps (spares K) (put_encode key x).
Proof.
  intros Hk. unfold put_encode. apply keeps_bind; [typeclasses eauto|apply keeps_of_option; typeclasses eauto|].
  intros b. by apply spares_put.
Qed.

Lemma put_encode_saved {A} `{!Codec A, !CodecLaws A, !CodecNonempty A} key (x y : A) s s' :
  tree_late s -> put_encode key x s = (Ok tt, s') -> read_into s' key y = x /\ read s' key ≫= decode = Some x.
Proof.
  intros Hl Hr. unfold put_encode in Hr. apply bind_Ok in Hr as (b & ? & [Hb ->]%of_option_Ok & Hr).
  apply put_reads_back in Hr; [|done|by eapply marshal_nonempty]. unfold read_into. rewrite Hr.
  split; [by rewrite (unmarshal_marshal x y b Hb)|]. simpl. by apply decode_marshal.
Qed.

(** Numeric keys of different shape or content. *)
Ltac key_ne := let E := fresh in intros E; apply NewKey_num_inj in E; [|(repeat constructor; simpl; by eexists)..|done|done];
  simpl in E; try discriminate E; try (injection E; intros; subst; done).
(** The key is none of those the invariant reads. *)
Ltac not_saved_key := let K := fresh in let E := fresh in
  intros K; destruct K as [(? & ? & [E | [E | E]]) | (? & E)]; revert E; key_ne.

Lemma entry_saved_read s s' u p oi : (forall k, pair_key u p k -> read s' k = read s k) ->
  entry_saved s u p oi -> entry_saved s' u p oi.
Proof.
  intros Hr [E1 E2 E3]. unfold pair_key in Hr. unfold read_into, stored_prove in *.
  constructor; unfold read_into, stored_prove; rewrite Hr by auto; done.
Qed.
Lemma epochs_saved_read s s' : v_ceInfo (cur s') = v_ceInfo (cur s) ->
  (forall e, read s' (ChalEpochKey2 e) = read s (ChalEpochKey2 e)) -> epochs_saved s -> epochs_saved s'.
Proof. intros Hc Hr []. unfold epoch_stored in *. constructor; rewrite Hc; unfold epoch_stored; rewrite ?Hr; auto. Qed.

(** Nothing the invariant reads has changed. *)
Lemma spares_saved s s' : spares saved_key s s' -> saved s -> saved s'.
Proof.
  intros [Hc Hl Hr] [L O E]. constructor; [auto| |].
  - intros u p oi Hoi. rewrite Hc in Hoi. eapply entry_saved_read; [|by apply O].
    intros k Hk. apply Hr. left. by exists u, p.
  - apply (epochs_saved_read s); [by rewrite Hc| |done]. intros e. apply Hr. right. by exists e.
Qed.

(** An entry was replaced and saved; the other keys were left alone. *)
Definition other_key u p key : Prop := saved_key key /\ ~ pair_key u p key.

Lemma pair_key_inj u p u' p' key : pair_key u p key -> pair_key u' p' key -> (u', p') = (u, p).
Proof. intros [-> | [-> | ->]] [E|[E|E]]; apply NewKey_num_inj in E; try done; try (repeat constructor; simpl; by eexists); by injection E as -> ->. Qed.

Lemma saved_after s s' u p oi :
  spares (other_key u p) (put_order Applied (u, p) oi s) s' -> entry_saved s' u p oi -> saved s -> saved s'.
Proof.
  intros [Hc Hl Hr] He [L O E]. constructor; [by apply Hl| |].
  - intros u' p' oi' Hoi. rewrite Hc in Hoi. simpl in Hoi.
    destruct (decide ((u', p') = (u, p))) as [[= -> ->]|Hne].
    + rewrite lookup_insert_eq in Hoi. by injection Hoi as <-.
    + rewrite lookup_insert_ne in Hoi by done. eapply entry_saved_read; [|by apply O].
      intros k Hk. apply Hr. split; [left; by exists u', p'|]. intros Hk'. apply Hne. by eapply pair_key_inj.
  - apply (epochs_saved_read s); [by rewrite Hc| |done]. intros e. apply Hr. split; [right; by exists e|].
    intros [K|[K|K]]; revert K; key_ne.
Qed.

(** ** What does not concern the entries *)

Definition keeps_saved s s' : Prop := saved s -> saved s'.
#[export] Instance keeps_saved_preorder : PreOrder keeps_saved.
Proof. split; [intros s; by unfold keeps_saved|]. unfold keeps_saved. intros s1 s2 s3. auto. Qed.

Lemma saved_same s s' : (forall k, read s' k = read s k) -> (forall k, smt_get (smt s') k = smt_get (smt s) k) ->
  (v_version (cur s') = v_version (cur s) \/ exists h, v_version (cur s') = next_version (v_version (cur s)) h) ->
  v_oInfo (cur s') = v_oInfo (cur s) -> v_ceInfo (cur s') = v_ceInfo (cur s) -> keeps_saved s s'.
Proof.
  intros Hr Hs Hv Ho Hc [L O E]. constructor.
  - destruct L as [Hu L]. destruct Hv as [Hv|[h Hv]]; unfold tree_late; rewrite Hv.
    + split; [done|]. intros Hlt k. rewrite Hs. by apply L.
    + split; [by apply next_version_range|]. intros Hlt k. rewrite Hs. by apply L, (bg_smt _ h).
  - intros u p oi Hoi. rewrite Ho in Hoi. eapply entry_saved_read; [|by apply O]. auto.
  - by apply (epochs_saved_read s).
Qed.

Lemma spares_keeps_saved s s' : spares saved_key s s' -> keeps_saved s s'.
Proof. exact (spares_saved s s'). Qed.

(** Tables of their own never hold a key the invariant reads. *)
Definition saved_tables : list Z :=
  [pb.MetaType_ST_SegPayKey; pb.MetaType_ST_SegProofKey; pb.MetaType_ST_OrderStateKey; pb.MetaType_ST_ChalEpochKey].
Lemma saved_key_tag key : saved_key key -> has_tag saved_tables key.
Proof.
  intros [(u & p & [-> | [-> | ->]])|[e ->]]; apply has_tag_NewKey; unfold saved_tables; set_solver.
Qed.
Lemma tag_not_saved_key t vs : bool_decide (t ∈ saved_tables) = false -> ~ saved_key (NewKey (KMetaType t :: vs)).
Proof. intros Ht Hk%saved_key_tag. by eapply (has_tag_ne saved_tables _ t vs). Qed.

Lemma saved_tag t vs s s' : bool_decide (t ∈ saved_tables) = false ->
  store_eff (NewKey (KMetaType t :: vs)) s s' -> keeps_saved s s'.
Proof.
  intros Ht E. apply spares_keeps_saved. constructor; [apply E|by eapply store_eff_late|].
  intros k Hk. eapply store_eff_read; [done|]. intros ->. by eapply tag_not_saved_key.
Qed.

#[export] Instance saved_StoreFrame : StoreFrame Applied keeps_saved.
Proof.
  split; [typeclasses eauto|..].
  - intros t vs v Ht s. eapply saved_tag; [|apply put_eff]. eapply tables_disjoint; [|exact Ht]. by vm_compute.
  - intros id x. apply keeps_modify. intros s. by apply saved_same; auto.
  - intros id f. apply keeps_modify. intros s. by apply saved_same; auto.
  - intros id s. unfold roleOf. rewrite (bind_run _ _ _ _ _ (eq_refl : gets _ _ = _)). simpl.
    destruct (v_rInfo (cur s) !! id); [done|].
    destruct (loadRole_run id s) as [base Hl]. rewrite (bind_run _ _ _ _ _ Hl). by apply saved_same; auto.
Qed.

(** Loading an entry caches what is stored. *)
Lemma stored_order_saved s u p : entry_saved s u p (stored_order s u p).
Proof. unfold stored_order. constructor; by repeat case_match. Qed.

Lemma orderOf_saved u p s oi s' : orderOf Applied u p s = (Ok oi, s') -> saved s ->
  saved s' /\ v_oInfo (cur s') !! (u, p) = Some oi /\ entry_saved s' u p oi.
Proof.
  intros Hr Hs. destruct (orderOf_Ok _ _ _ _ _ Hr) as (_ & Hc & _).
  assert (saved s') as Hs'; [|split_and!; [done..|by apply (sv_orders _ Hs')]].
  unfold orderOf in Hr. apply bind_Ok in Hr as (v & ? & [-> ->]%gets_Ok & Hr). simpl in Hr.
  destruct (v_oInfo (cur s) !! (u, p)); [by apply ret_Ok in Hr as [_ ->]|].
  rewrite (bind_run _ _ _ _ _ (loadOrder_run u p s)) in Hr.
  apply bind_Ok in Hr as ([] & ? & ->%modify_Ok & [-> ->]%ret_Ok).
  apply (saved_after s _ u p (stored_order s u p)); [done| |done].
  eapply entry_saved_read; [|apply stored_order_saved]. done.
Qed.

(** ** Computations that save one part of an entry *)

(** [m] writes [own] with what reads back as [x], and no other key in force. *)
Definition saves {A} `{!Codec A} (own : bytes) (y x : A) (m : M StateMgr unit) : Prop := forall s s',
  tree_late s -> m s = (Ok tt, s') ->
  spares (fun k => saved_key k /\ k <> own) s s' /\ read_into s' own y = x.

Section Saves.
Context {A : Type} `{!Codec A}.
Implicit Types (x y : A) (own : bytes).

Lemma saves_then own y x (m : M StateMgr unit) (k : M StateMgr unit) : saved_key own ->
  saves own y x m -> Keeps (spares saved_key) k -> saves own y x (do! m; k).
Proof.
  intros Hown Hm Hk s s' Hl Hr. apply bind_Ok in Hr as ([] & s1 & Q1 & Q2). destruct (Hm _ _ Hl Q1) as [S1 R1].
  apply (keeps_Ok _ _ _ _ _ Hk) in Q2 as S2. split.
  - etransitivity; [exact S1|]. eapply spares_mono; [|exact S2]. by intros ? [].
  - unfold read_into in *. by rewrite (sp_read _ _ _ S2).
Qed.
Lemma then_saves {B} own y x (m : M StateMgr B) (k : B -> M StateMgr unit) :
  Keeps (spares saved_key) m -> (forall b, saves own y x (k b)) -> saves own y x (bind m k).
Proof.
  intros Hm Hk s s' Hl Hr. apply bind_Ok in Hr as (a & s1 & Q1 & Q2).
  apply (keeps_Ok _ _ _ _ _ Hm) in Q1 as S1. destruct (Hk a _ _ (sp_late _ _ _ S1 Hl) Q2) as [S2 R2].
  split; [|done]. etransitivity; [|exact S2]. eapply spares_mono; [|exact S1]. by intros ? [].
Qed.
Lemma saves_put_encode `{!CodecLaws A, !CodecNonempty A} own y x : saves own y x (put_encode own x).
Proof.
  intros s s' Hl Hr. destruct (put_encode_saved own x y s s' Hl Hr) as [Hx _]. split; [|done].
  pose proof (spares_put_encode (fun k => saved_key k /\ k <> own) own x (fun K => proj2 K eq_refl) s) as S1.
  by rewrite Hr in S1.
Qed.
End Saves.

Lemma state4_not_saved u p e : ~ saved_key (OrderStateKey4 u p e).
Proof. not_saved_key. Qed.

Lemma saves_saveOrderState u p ns : saves (OrderStateKey u p) ns0 ns (saveOrderState u p ns).
Proof.
  intros s s' Hl Hr. unfold saveOrderState in Hr.
  apply bind_Ok in Hr as (b & ? & [Hb ->]%of_option_Ok & Hr). apply bind_Ok in Hr as ([] & s1 & Q1 & Hr).
  apply bind_Ok in Hr as (v & ? & [-> ->]%gets_Ok & Q2).
  pose proof (spares_put (fun k => saved_key k /\ k <> OrderStateKey u p) (OrderStateKey u p) b (fun K => proj2 K eq_refl) s) as S1. rewrite Q1 in S1.
  pose proof (put_eff (OrderStateKey4 u p (ci_epoch (v_ceInfo (cur s1)))) b s1) as E2. rewrite Q2 in E2.
  apply put_reads_back in Q1; [|done|by apply (marshal_nonempty ns b Hb)].
  assert (read s' (OrderStateKey u p) = Some b) as R2.
  { rewrite <-Q1. eapply store_eff_read; [exact E2|]. key_ne. }
  split; [|unfold read_into; rewrite R2; by rewrite (unmarshal_marshal ns ns0 b Hb)].
  etransitivity; [exact S1|]. constructor; [apply E2|by eapply store_eff_late|].
  intros k [Hk _]. eapply store_eff_read; [exact E2|]. intros ->. by eapply state4_not_saved.
Qed.

Lemma pair_saved_key u p k : pair_key u p k -> saved_key k.
Proof. intros Hk. left. by exists u, p. Qed.
Lemma pair_keys u p : pair_key u p (SegPayKey u p) /\ pair_key u p (SegProofKey u p) /\ pair_key u p (OrderStateKey u p).
Proof. unfold pair_key. tauto. Qed.

(** The entry is replaced by one that differs in the part that is saved. *)
Lemma saved_by {A} `{!Codec A} own (y x : A) s s' u p oi oi' (m : M StateMgr unit) :
  saved s -> v_oInfo (cur s) !! (u, p) = Some oi -> pair_key u p own -> saves own y x m ->
  (forall s1, (forall k, pair_key u p k -> k <> own -> read s1 k = read s k) -> read_into s1 own y = x ->
     entry_saved s u p oi -> entry_saved s1 u p oi') ->
  m (put_order Applied (u, p) oi' s) = (Ok tt, s') -> saved s'.
Proof.
  intros Hs Hc Hown Hm He Hr.
  assert (tree_late (put_order Applied (u, p) oi' s)) as Hl by exact (sv_late _ Hs).
  destruct (Hm _ _ Hl Hr) as [S1 R1]. apply (saved_after s _ u p oi'); [| |done].
  - eapply spares_mono; [|exact S1]. intros k [Hk Hn]. split; [done|by intros ->].
  - apply He; [|done|by apply (sv_orders _ Hs)]. intros k Hk Hn.
    exact (sp_read _ _ _ S1 k (conj (pair_saved_key _ _ _ Hk) Hn)).
Qed.

Lemma saved_by_ns s s' u p oi oi' (m : M StateMgr unit) :
  saved s -> v_oInfo (cur s) !! (u, p) = Some oi -> o_income oi' = o_income oi -> o_prove oi' = o_prove oi ->
  saves (OrderStateKey u p) ns0 (o_ns oi') m -> m (put_order Applied (u, p) oi' s) = (Ok tt, s') -> saved s'.
Proof.
  intros Hs Hc Hi Hp Hm Hr. destruct (pair_keys u p) as (K1 & K2 & K3).
  apply (saved_by (OrderStateKey u p) ns0 (o_ns oi') s s' u p oi oi' m); [done..| |done].
  intros s1 Hread Hx [E1 E2 E3]. unfold read_into, stored_prove in *. constructor; unfold read_into, stored_prove;
    [done|rewrite Hread; [by rewrite Hi|done|key_ne]|rewrite Hread; [by rewrite Hp|done|key_ne]].
Qed.
Lemma saved_by_income s s' u p oi oi' (m : M StateMgr unit) :
  saved s -> v_oInfo (cur s) !! (u, p) = Some oi -> o_ns oi' = o_ns oi -> o_prove oi' = o_prove oi ->
  saves (SegPayKey u p) (income0 u p) (o_income oi') m -> m (put_order Applied (u, p) oi' s) = (Ok tt, s') -> saved s'.
Proof.
  intros Hs Hc Hi Hp Hm Hr. destruct (pair_keys u p) as (K1 & K2 & K3).
  apply (saved_by (SegPayKey u p) (income0 u p) (o_income oi') s s' u p oi oi' m); [done..| |done].
  intros s1 Hread Hx [E1 E2 E3]. unfold read_into, stored_prove in *. constructor; unfold read_into, stored_prove;
    [rewrite Hread; [by rewrite Hi|done|key_ne]|done|rewrite Hread; [by rewrite Hp|done|key_ne]].
Qed.

(** Walking a computation that writes keys other than those in force. *)
Ltac spare := unfold get_decode, get_into, get; repeat first
  [ apply spares_put_encode; solve [auto] | apply spares_put; solve [auto]
  | apply keeps_gets; typeclasses eauto | apply keeps_of_option; typeclasses eauto
  | apply keeps_deref; typeclasses eauto | apply keeps_ret; typeclasses eauto
  | apply keeps_bind; [typeclasses eauto| |intros ?] | case_match ].

(** ** Saving the income and the next epoch to prove *)

Lemma put_prove_spares u p n s s' : tree_late s -> is_u64 n -> put (SegProofKey u p) (put_be 8 n) s = (Ok tt, s') ->
  spares (fun k => saved_key k /\ k <> SegProofKey u p) s s' /\ stored_prove s' u p = n.
Proof.
  intros Hl Hn Hr. split.
  - pose proof (spares_put (fun k => saved_key k /\ k <> SegProofKey u p) (SegProofKey u p) (put_be 8 n) (fun K => proj2 K eq_refl) s) as S1.
    by rewrite Hr in S1.
  - assert (Hlen : length (put_be 8 n) = 8%nat) by apply length_put_be.
    apply put_reads_back in Hr; [|done|by intros E; rewrite E in Hlen]. unfold stored_prove.
    rewrite Hr, Hlen. simpl (8 <=? 8)%nat. cbv iota. rewrite take_ge by (rewrite Hlen; lia). by apply get_put_be8.
Qed.

Lemma spares_saveIncomeAt K u p e f g :
  (forall x, Keeps (spares K) (f x)) -> (forall x, Keeps (spares K) (g x)) ->
  ~ K (SegPayKey4 u p e) -> ~ K (SegPayKey1 p) -> ~ K (SegPayKey0 p e) ->
  Keeps (spares K) (saveIncomeAt u p e f g).
Proof.
  intros Hf Hg K4 K1 K0. unfold saveIncomeAt. spare; [apply Hf|apply Hg].
Qed.

Lemma spares_big K : (forall d x, Keeps (spares K) (add_income_value d x)) /\ (forall d x, Keeps (spares K) (add_income_penalty d x)) /\
  (forall d x, Keeps (spares K) (add_acc_value d x)) /\ (forall d x, Keeps (spares K) (add_acc_penalty d x)).
Proof.
  unfold add_income_value, add_income_penalty, add_acc_value, add_acc_penalty, big_add. split_and!; keeps.
Qed.

(** No key in force is one of an epoch, of a provider or of a sequence. *)
Lemma pay4_not_saved u p e : ~ saved_key (SegPayKey4 u p e). Proof. not_saved_key. Qed.
Lemma pay1_not_saved p : ~ saved_key (SegPayKey1 p). Proof. not_saved_key. Qed.
Lemma pay0_not_saved p e : ~ saved_key (SegPayKey0 p e). Proof. not_saved_key. Qed.
Lemma proof4_not_saved u p e : ~ saved_key (SegProofKey4 u p e). Proof. not_saved_key. Qed.
Lemma base_not_saved u p n : ~ saved_key (OrderBaseKey u p n). Proof. not_saved_key. Qed.
Lemma seq_not_saved u p n q : ~ saved_key (OrderSeqKey u p n q). Proof. not_saved_key. Qed.

#[local] Hint Extern 1 (~ saved_key (NewKey _)) => apply tag_not_saved_key; vm_compute; reflexivity : core.
#[local] Hint Resolve pay4_not_saved pay1_not_saved pay0_not_saved proof4_not_saved base_not_saved seq_not_saved state4_not_saved : core.

Lemma addSegProof_saved msg scp oi price u p s s' (E1 : scp_UserID scp = u) (E2 : scp_ProID scp = p) :
  saved s -> read_into s (OrderStateKey u p) ns0 = o_ns oi -> is_u64 (o_prove oi) ->
  addSegProof_save msg scp oi price (put_order Applied (u, p) oi s) = (Ok tt, s') -> saved s'.
Proof.
  intros Hs En Hu Hr. subst u p. set (u := scp_UserID scp) in *. set (p := scp_ProID scp) in *.
  set (s0 := put_order Applied (u, p) oi s) in *. assert (tree_late s0) as L0 by exact (sv_late _ Hs).
  unfold addSegProof_save in Hr. fold u p in Hr.
  apply bind_Ok in Hr as ([] & s1 & Q1 & Hr). apply (keeps_Ok _ _ _ _ _ (spares_put saved_key _ _ (proof4_not_saved _ _ _))) in Q1.
  pose proof (sp_late _ _ _ Q1 L0) as L1.
  apply bind_Ok in Hr as ([] & s2 & Q2 & Hr). apply put_prove_spares in Q2 as [Q2 P2]; [|done..].
  pose proof (sp_late _ _ _ Q2 L1) as L2.
  apply bind_Ok in Hr as ([] & s3 & Q3 & Hr). apply (saves_put_encode _ (income0 u p)) in Q3 as [Q3 P3]; [|done].
  assert (spares saved_key s3 s') as Q4.
  { destruct (spares_big saved_key) as (B1 & B2 & B3 & B4).
    eapply keeps_Ok; [|exact Hr]. apply keeps_bind; [typeclasses eauto|by apply spares_saveIncomeAt|intros []].
    apply keeps_bind; [typeclasses eauto|apply keeps_gets; typeclasses eauto|intros v]. by apply spares_put_encode. }
  destruct (pair_keys u p) as (K1 & K2 & K3).
  apply (saved_after s _ u p oi); [| |done].
  - fold s0. transitivity s1; [eapply spares_mono; [|exact Q1]; by intros ? []|].
    transitivity s2; [eapply spares_mono; [|exact Q2]; intros k [Hk Hn]; split; [done|by intros ->]|].
    transitivity s3; [eapply spares_mono; [|exact Q3]; intros k [Hk Hn]; split; [done|by intros ->]|].
    eapply spares_mono; [|exact Q4]. by intros ? [].
  - unfold read_into, stored_prove in *. constructor; unfold read_into, stored_prove.
    + rewrite (sp_read _ _ _ Q4), (sp_read _ _ _ Q3), (sp_read _ _ _ Q2), (sp_read _ _ _ Q1);
        [exact En|by eapply pair_saved_key|split; [by eapply pair_saved_key|key_ne]..|by eapply pair_saved_key].
    + by rewrite (sp_read _ _ _ Q4) by (by eapply pair_saved_key).
    + rewrite (sp_read _ _ _ Q4), (sp_read _ _ _ Q3); [exact P2|split; [by eapply pair_saved_key|key_ne]|by eapply pair_saved_key].
Qed.

(** ** The handlers *)

Lemma createOrder_saved msg s s' : createOrder msg s = (Ok tt, s') -> keeps_saved s s'.
Proof.
  intros Hr Hs. unfold createOrder in Hr.
  apply bind_Ok in Hr as (or & ? & (-> & _)%createOrder_paras_Ok & Hr).
  apply bind_Ok in Hr as ([] & s1 & Hv & Hr).
  apply (keeps_Ok keeps_saved) in Hv; [|apply (keeps_verify_order Applied); typeclasses eauto].
  apply bind_Ok in Hr as (oi & s2 & Ho & Hr). apply orderOf_saved in Ho as (S2 & Hc & _); [|by apply Hv].
  apply bind_Ok in Hr as ([] & ? & [_ ->]%check_Ok & Hr).
  apply bind_Ok in Hr as ([] & ? & [_ ->]%check_Ok & Hr).
  apply bind_Ok in Hr as ([] & s3 & Ht & Hr).
  assert (s3 = s2) as -> by (unfold createOrder_times in Ht; by go_inv).
  apply bind_Ok in Hr as ([] & s4 & ->%modify_Ok & Hr). rewrite (upd_order_put _ _ _ _ Hc) in Hr.
  eapply saved_by_ns; [exact S2|exact Hc|..|exact Hr]; [done|done|].
  unfold createOrder_save. apply then_saves; [by apply spares_put_encode|intros _].
  apply saves_then; [eapply pair_saved_key; apply pair_keys|apply saves_saveOrderState|].
  destruct (_ =? 0); [|apply keeps_ret; typeclasses eauto]. unfold append_id_put. spare.
Qed.

Lemma addSeq_saved msg s s' : addSeq msg s = (Ok tt, s') -> keeps_saved s s'.
Proof.
  intros Hr Hs. unfold addSeq in Hr.
  apply bind_Ok in Hr as ([sos [uri pri]] & s1 & Hp & Hr).
  apply (keeps_Ok keeps_saved) in Hp; [|apply (keeps_addSeq_pre Applied); typeclasses eauto].
  apply bind_Ok in Hr as ([oi base] & s2 & Ho & Hr). simpl in Ho, Hr. unfold addSeq_order in Ho.
  apply bind_Ok in Ho as (oi' & s3 & Ho' & Ho). apply orderOf_saved in Ho' as (S3 & Hc & _); [|by apply Hp].
  apply bind_Ok in Ho as (base' & ? & [Hb ->]%of_option_Ok & Ho).
  apply bind_Ok in Ho as ([] & ? & [_ ->]%check_Ok & Ho).
  apply bind_Ok in Ho as ([] & ? & [_ ->]%check_Ok & [[= -> ->] ->]%ret_Ok).
  set (u := os_UserID (sos_OrderSeq sos)) in *. set (p := os_ProID (sos_OrderSeq sos)) in *.
  apply bind_Ok in Hr as (ui & s4 & Hu & Hr).
  pose proof (keeps_Ok _ _ _ _ _ (keeps_userOf Applied (pair_evolve (u, p)) _) Hu) as [P4 _].
  apply (keeps_Ok keeps_saved) in Hu; [|apply (keeps_userOf Applied); typeclasses eauto].
  apply bind_Ok in Hr as ([] & s5 & Ha & Hr).
  pose proof (keeps_Ok _ _ _ _ _ (keeps_addSeq_amounts Applied (pair_evolve (u, p)) _ _ _ _) Ha) as [P5 _].
  apply (keeps_Ok keeps_saved) in Ha; [|apply (keeps_addSeq_amounts Applied); typeclasses eauto].
  apply bind_Ok in Hr as ([] & s6 & Hf & Hr).
  assert (Kf : forall R, StoreFrame Applied R -> R s5 s6).
  { intros R HR. eapply keeps_Ok; [|exact Hf]. apply keeps_for_each; [apply (sf_pre (w := Applied))|].
    intros seg. apply keeps_addChunk. done. }
  pose proof (Kf _ (pair_StoreFrame (u, p))) as [P6 _]. pose proof (Kf _ saved_StoreFrame) as K6.
  apply bind_Ok in Hr as ([] & s7 & ->%modify_Ok & Hr).
  unfold same_orders in *. rewrite <-P4, <-P5, <-P6 in Hc.
  eapply saved_by_ns; [by apply K6, Ha, Hu|exact Hc|..|exact Hr]; [done|done|].
  unfold addSeq_save. apply then_saves; [spare|intros ofl].
  apply then_saves; [by apply spares_put_encode|intros _].
  apply then_saves; [by apply spares_put_encode|intros _]. apply saves_saveOrderState.
Qed.

Lemma commitOrder_saved msg s s' : commitOrder msg s = (Ok tt, s') -> keeps_saved s s'.
Proof.
  intros Hr Hs. unfold commitOrder, commitOrder_mem in Hr.
  apply bind_Ok in Hr as (r & s9 & Hm & Hr).
  apply bind_Ok in Hm as (ocp & ? & [Hd ->]%of_option_Ok & Hm).
  apply bind_Ok in Hm as ([] & ? & [_ ->]%check_Ok & Hm).
  apply bind_Ok in Hm as (oi & s1 & Ho & Hm). apply orderOf_saved in Ho as (S2 & Hc & _); [|done].
  apply bind_Ok in Hm as ([] & ? & [_ ->]%check_Ok & Hm).
  apply bind_Ok in Hm as ([] & ? & [_ ->]%check_Ok & Hm).
  apply bind_Ok in Hm as (base & ? & [Hb ->]%deref_Ok & Hm).
  apply bind_Ok in Hm as ([] & ? & [_ ->]%check_Ok & Hm).
  apply bind_Ok in Hm as ([] & ? & ->%modify_Ok & [-> ->]%ret_Ok). simpl in Hr.
  eapply saved_by_ns; [exact S2|exact Hc|..|exact Hr]; [done|done|]. apply saves_saveOrderState.
Qed.

Lemma subOrder_saved msg s s' : subOrder msg s = (Ok tt, s') -> keeps_saved s s'.
Proof.
  intros Hr Hs. unfold subOrder, subOrder_mem in Hr.
  apply bind_Ok in Hr as (r & s9 & Hm & Hr).
  apply bind_Ok in Hm as (osp & ? & [Hd ->]%of_option_Ok & Hm).
  apply bind_Ok in Hm as ([] & ? & [_ ->]%check_Ok & Hm).
  apply bind_Ok in Hm as (oi & s1 & Ho & Hm). apply orderOf_saved in Ho as (S2 & Hc & _); [|done].
  apply bind_Ok in Hm as ([] & ? & [_ ->]%check_Ok & Hm).
  apply bind_Ok in Hm as ([] & ? & [_ ->]%check_Ok & Hm).
  apply bind_Ok in Hm as (ofl & ? & Hg & Hm). unfold get_decode, get in Hg. go_inv.
  cbn [fst snd] in Hr. rewrite (upd_order_put _ _ _ _ Hc) in Hr.
  eapply saved_by_ns; [exact S2|exact Hc|..|exact Hr]; [done|done|]. apply saves_saveOrderState.
Qed.

Lemma chal_verify_saved msg s r s' : chal_verify Applied msg s = (Ok r, s') -> keeps_saved s s'.
Proof.
  intros Hr Hs. unfold chal_verify in Hr.
  apply bind_Ok in Hr as (pr & s1 & Hp & Hr).
  assert (s1 = s) as -> by (unfold chal_paras in Hp; by go_inv).
  apply bind_Ok in Hr as (oi & s2 & Ho & Hr). apply orderOf_saved in Ho as (S2 & _ & _); [|done].
  match type of Hr with ?m s2 = _ => assert (K : Keeps keeps_saved m) end.
  { repeat first [apply (keeps_chal_total Applied); typeclasses eauto|apply (keeps_chal_user Applied); typeclasses eauto
      |apply keeps_bind; [typeclasses eauto| |intros ?]|unfold chal_ns, get_into, get; keeps]. }
  by apply (keeps_Ok _ _ _ _ _ K) in Hr; apply Hr.
Qed.

Lemma addSegProof_keeps_saved msg s s' : addSegProof msg s = (Ok tt, s') -> keeps_saved s s'.
Proof.
  intros Hr Hs. unfold addSegProof in Hr.
  apply bind_Ok in Hr as ([scp [oi price]] & s1 & Hv & Hr).
  apply chal_verify_Ok in Hv as Hv'. destruct Hv' as (_ & _ & Hc & _).
  apply chal_verify_saved in Hv.
  cbn [fst snd] in Hr.
  apply bind_Ok in Hr as ([] & s2 & ->%modify_Ok & Hr).
  apply bind_Ok in Hr as (income & s2 & [-> ->]%add_income_value_Ok & Hr).
  apply bind_Ok in Hr as ([] & s3 & ->%modify_Ok & Hr). rewrite put_order_twice in Hr.
  eapply addSegProof_saved; [reflexivity|reflexivity|by apply Hv|..|exact Hr]; [|apply u64_range].
  apply (sv_orders _ (Hv Hs) _ _ _ Hc).
Qed.

Lemma removeSeg_saved msg s s' : removeSeg msg s = (Ok tt, s') -> keeps_saved s s'.
Proof.
  intros Hr Hs. unfold removeSeg in Hr.
  apply bind_Ok in Hr as (so & ? & [Hd ->]%of_option_Ok & Hr).
  apply bind_Ok in Hr as ([] & ? & [_ ->]%check_Ok & Hr).
  apply bind_Ok in Hr as (oi & s2 & Ho & Hr). apply orderOf_saved in Ho as (S2 & Hc & _); [|done].
  set (u := srp_UserID so) in *. set (p := srp_ProID so) in *.
  apply bind_Ok in Hr as (ui & s3 & Hu & Hr).
  pose proof (keeps_Ok _ _ _ _ _ (keeps_userOf Applied (pair_evolve (u, p)) _) Hu) as [P4 _].
  apply (keeps_Ok keeps_saved) in Hu; [|apply (keeps_userOf Applied); typeclasses eauto].
  apply bind_Ok in Hr as (l & s4 & Hl & Hr).
  pose proof (keeps_Ok _ _ _ _ _ (keeps_removeSeg_load Applied (pair_evolve (u, p)) _) Hl) as [P5 _].
  apply (keeps_Ok keeps_saved) in Hl; [|apply (keeps_removeSeg_load Applied); typeclasses eauto].
  apply bind_Ok in Hr as (segPrice & ? & [_ ->]%deref_Ok & Hr).
  apply bind_Ok in Hr as (income & ? & [-> ->]%add_income_penalty_Ok & Hr).
  apply bind_Ok in Hr as ([] & s5 & ->%modify_Ok & Hr).
  unfold same_orders in *. rewrite <-P4, <-P5 in Hc. rewrite (upd_order_put _ _ _ _ Hc) in Hr.
  eapply saved_by_income; [by apply Hl, Hu|exact Hc|..|exact Hr]; [done|done|]. simpl.
  destruct (spares_big saved_key) as (B1 & B2 & B3 & B4). unfold add_del.
  apply then_saves; [spare|intros odel]. apply then_saves; [by apply spares_put_encode|intros _].
  apply then_saves; [spare|intros sdel]. apply then_saves; [by apply spares_put_encode|intros _].
  unfold removeSeg_save. apply saves_then; [eapply pair_saved_key; apply pair_keys|apply saves_put_encode|].
  apply keeps_bind; [typeclasses eauto|spare|intros v]. by apply spares_saveIncomeAt.
Qed.

(** ** The message that starts an epoch *)

Lemma epoch_key_ne e e' : e <> e' -> ChalEpochKey2 e <> ChalEpochKey2 e'.
Proof. intros Hne. key_ne. Qed.
Lemma epoch_not_pair u p k e : pair_key u p k -> k <> ChalEpochKey2 e.
Proof. intros [-> | [-> | ->]]; key_ne. Qed.

Lemma updateChalEpoch_saved msg s s' : updateChalEpoch msg s = (Ok tt, s') -> keeps_saved s s'.
Proof.
  intros Hr [L O [Er Ec Ep]]. unfold updateChalEpoch in Hr. apply bind_Ok in Hr as ([] & s1 & Hm & Hr).
  unfold updateChalEpoch_mem in Hm.
  apply bind_Ok in Hm as (sep & ? & [Hd ->]%of_option_Ok & Hm).
  apply bind_Ok in Hm as (v & ? & [-> ->]%gets_Ok & Hm).
  apply bind_Ok in Hm as ([] & ? & [He%Z.eqb_eq ->]%check_Ok & Hm).
  apply bind_Ok in Hm as ([] & ? & [_ ->]%check_Ok & Hm).
  apply bind_Ok in Hm as (dur & ? & [_ ->]%of_option_Ok & Hm).
  apply bind_Ok in Hm as ([] & ? & [_ ->]%check_Ok & Hm).
  apply bind_Ok in Hm as (c & ? & [-> ->]%gets_Ok & ->%modify_Ok). simpl in He.
  apply bind_Ok in Hr as (v & ? & [-> ->]%gets_Ok & Hr).
  apply bind_Ok in Hr as ([] & s2 & Q2 & Q3). simpl in Q2, Q3. rewrite He in *.
  set (e := ci_epoch (v_ceInfo (cur s))) in *. set (s1 := set_cur _ s) in *.
  assert (tree_late s1) as L1 by exact L.
  pose proof (put_encode_saved _ _ zero_val _ _ L1 Q2) as [_ R2].
  pose proof (keeps_Ok _ _ _ _ _ (spares_put_encode (fun k => k <> ChalEpochKey2 e) (ChalEpochKey2 e)
    (mkChalEpoch e (v_slot (cur s)) (NewMsgID (m_Params msg))) (fun N => N eq_refl)) Q2) as S2.
  pose proof (put_eff ChalEpochKey (put_be 8 (u64 (e + 1))) s2) as E3. rewrite Q3 in E3. cbn [snd] in E3.
  assert (Hne : forall k, ChalEpochKey2 k <> ChalEpochKey) by (intros k; key_ne).
  assert (Hread : forall k, k <> ChalEpochKey2 e -> k <> ChalEpochKey -> read s' k = read s k).
  { intros k N1 N2. rewrite (store_eff_read _ _ _ _ E3 N2). exact (sp_read _ _ _ S2 k N1). }
  assert (Hcur : cur s' = cur s1) by (rewrite (se_cur _ _ _ E3); apply (sp_cur _ _ _ S2)).
  constructor.
  - eapply store_eff_late; [exact E3|]. by apply (sp_late _ _ _ S2).
  - intros u p oi Hoi. rewrite Hcur in Hoi. eapply entry_saved_read; [|exact (O u p oi Hoi)].
    intros k Hk. apply Hread; [by eapply epoch_not_pair|]. destruct Hk as [-> | [-> | ->]]; key_ne.
  - assert (Hnew : epoch_stored s' (mkChalEpoch e (v_slot (cur s)) (NewMsgID (m_Params msg)))).
    { unfold epoch_stored. simpl. by rewrite (store_eff_read _ _ _ _ E3 (Hne e)). }
    constructor; rewrite Hcur; simpl.
    + apply u64_range.
    + intros H1e. change (1 <= u64 (e + 1)) in H1e. change (e = u64 (e + 1) - 1 /\ epoch_stored s' (mkChalEpoch e (v_slot (cur s)) (NewMsgID (m_Params msg)))). split; [|exact Hnew]. unfold u64 in *. destruct (decide (e = 2 ^ 64 - 1)) as [E|N].
      * exfalso. rewrite E in H1e. vm_compute in H1e. done.
      * rewrite Z.mod_small in * by lia. lia.
    + intros H2e. change (2 <= u64 (e + 1)) in H2e. change (ce_Epoch (ci_current (v_ceInfo (cur s))) = u64 (e + 1) - 2 /\ epoch_stored s' (ci_current (v_ceInfo (cur s)))). unfold u64 in *. destruct (decide (e = 2 ^ 64 - 1)) as [E|N].
      * exfalso. rewrite E in H2e. vm_compute in H2e. done.
      * rewrite Z.mod_small in * by lia. destruct (Ec ltac:(lia)) as [Hn Hst]. fold e in Hn. split; [lia|].
        unfold epoch_stored in *. rewrite Hread; [done|apply epoch_key_ne; lia|apply Hne].
Qed.

(** ** Messages and chains *)

Lemma keeps_saved_tag t vs v : bool_decide (t ∈ saved_tables) = false ->
  Keeps keeps_saved (put (NewKey (KMetaType t :: vs)) v).
Proof. intros Ht s. eapply saved_tag; [exact Ht|apply put_eff]. Qed.
Lemma keeps_saved_tds_tag t vs v : bool_decide (t ∈ saved_tables) = false ->
  Keeps keeps_saved (tds_Put (NewKey (KMetaType t :: vs)) v).
Proof. intros Ht s. eapply saved_tag; [exact Ht|apply tds_Put_eff]. Qed.
Lemma keeps_saved_caches f : (forall s, (forall k, read (f s) k = read s k) /\ smt (f s) = smt s /\
    v_version (cur (f s)) = v_version (cur s) /\ v_oInfo (cur (f s)) = v_oInfo (cur s) /\
    v_ceInfo (cur (f s)) = v_ceInfo (cur s)) -> Keeps keeps_saved (modify f).
Proof.
  intros Hf. apply keeps_modify. intros s. destruct (Hf s) as (F1 & F2 & F3 & F4 & F5).
  apply saved_same; [done|by rewrite F2|by left|done..].
Qed.
#[local] Hint Extern 2 (Keeps keeps_saved (put _ _)) => apply keeps_saved_tag; vm_compute; reflexivity : keeps.
#[local] Hint Extern 2 (Keeps keeps_saved (tds_Put _ _)) => apply keeps_saved_tds_tag; vm_compute; reflexivity : keeps.
#[local] Hint Extern 2 (Keeps keeps_saved (modify _)) => apply keeps_saved_caches; done : keeps.

Lemma addRole_saved msg : Keeps keeps_saved (addRole msg).
Proof. unfold addRole, addRole_pre, addRole_entry, loadVal, addRole_lists, append_id, tds_Get. keeps. Qed.

Lemma apply_method_saved msg s s' : apply_method msg s = (Ok tt, s') -> keeps_saved s s'.
Proof.
  unfold apply_method.
  repeat match goal with |- (if ?b then ?h _ else _) _ = _ -> _ => destruct b end.
  - apply keeps_Ok, addRole_saved.
  - apply keeps_Ok, keeps_addUser. typeclasses eauto.
  - apply keeps_Ok, keeps_addBucket. typeclasses eauto.
  - apply createOrder_saved.
  - apply addSeq_saved.
  - apply commitOrder_saved.
  - apply subOrder_saved.
  - apply removeSeg_saved.
  - apply updateChalEpoch_saved.
  - apply addSegProof_keeps_saved.
  - apply keeps_Ok, keeps_addPay. typeclasses eauto.
  - apply keeps_Ok, keeps_updateNetAddr. typeclasses eauto.
  - apply keeps_Ok, keeps_addBucMeta. typeclasses eauto.
  - apply keeps_Ok, keeps_addObjMeta. typeclasses eauto.
  - done.
Qed.

Lemma keeps_saved_nonce msg : Keeps keeps_saved (applyMsg_nonce msg).
Proof. unfold applyMsg_nonce, saveVal, newRoot. keeps. Qed.

#[export] Instance saved_ChainRel : ChainRel keeps_saved.
Proof.
  split; [typeclasses eauto|..].
  - intros s s' Hr Hs Hv []. by apply saved_same.
  - intros t vs s s' Ht E. eapply saved_tag; [|exact E].
    eapply tables_disjoint; [|exact Ht]. by vm_compute.
  - intros msg r s s' Hr. apply bind_Ok in Hr as ([] & s1 & Q1 & Hr).
    apply (keeps_Ok _ _ _ _ _ (keeps_saved_nonce msg)) in Q1.
    etransitivity; [exact Q1|]. destruct (negb _); [by apply ret_Ok in Hr as [_ ->]|].
    by apply apply_method_saved in Hr.
Qed.

Lemma fresh_saved base groupID thre t : (forall k, smt_get t k = None) -> saved (NewStateMgr base groupID thre ∅ t).
Proof.
  intros Ht. destruct (fresh_state base groupID thre t Ht) as (_ & Ho & _). unfold NewStateMgr in *.
  destruct (fresh_load base groupID thre t Ht) as [f E]. rewrite E in *. constructor.
  - split; [apply bg_start|]. intros _ k. apply Ht.
  - intros u p oi. by rewrite Ho, lookup_empty.
  - constructor; simpl; lia.
Qed.

Lemma chain_saved base groupID thre t blks s : (forall k, smt_get t k = None) ->
  apply_chain blks (NewStateMgr base groupID thre ∅ t) = (Ok tt, s) -> saved s.
Proof.
  intros Ht Hr. destruct (fresh_state base groupID thre t Ht) as (Htds & _).
  by apply (lift_apply_chain keeps_saved _ _ _ Htds Hr), fresh_saved.
Qed.

(** ** What the read API answers *)

Lemma OrderNonce_now u p s : saved s ->
  StateMgr_StateGetOrderNonce u p maxUint64 s = (Ok (o_ns (order_at s u p)), s).
Proof.
  intros Hs. unfold StateMgr_StateGetOrderNonce. rewrite Z.eqb_refl, bind_ret_l. cbn [fst snd].
  assert (E : read_into s (OrderStateKey u p) ns0 = o_ns (order_at s u p)).
  { unfold order_at. destruct (v_oInfo (cur s) !! (u, p)) as [oi|] eqn:E; [apply (sv_orders _ Hs _ _ _ E)|].
    apply stored_order_saved. }
  rewrite <-E. unfold try_decode_into, bind, get, gets, ret, read_into, ns0. by destruct (read s _).
Qed.

Lemma get_number_run key s : get_number key s =
  (Ok (match read s key with Some data => if (8 <=? length data)%nat then get_be (take 8 data) else 0 | None => 0 end), s).
Proof. done. Qed.

Lemma ProofEpoch_now u p s : StateMgr_StateGetProofEpoch u p s = (Ok (o_prove (order_at s u p)), s).
Proof.
  unfold StateMgr_StateGetProofEpoch, cur_view, order_at. rewrite (bind_run _ _ _ _ _ (eq_refl : gets _ _ = _)).
  destruct (v_oInfo (cur s) !! (u, p)); [done|]. rewrite get_number_run.
  by rewrite <-(es_prove _ _ _ _ (stored_order_saved s u p)).
Qed.

Lemma ChalEpoch_at (e : ChalEpoch) s : epoch_stored s e -> ce_Epoch e < ci_epoch (v_ceInfo (cur s)) ->
  StateMgr_StateGetChalEpochInfoAt (ce_Epoch e) s = (Ok e, s).
Proof.
  intros He Hlt. unfold StateMgr_StateGetChalEpochInfoAt, cur_view. rewrite (bind_run _ _ _ _ _ (eq_refl : gets _ _ = _)).
  replace (ce_Epoch e >=? ci_epoch (v_ceInfo (cur s))) with false by (rewrite Z.geb_leb; symmetry; by apply Z.leb_gt).
  cbn [negb check]. rewrite bind_ret_l. unfold get_decode. rewrite (bind_run _ _ _ _ _ (get_run _ s)).
  unfold epoch_stored in He. destruct (read s _) as [d|]; [|done].
  simpl in He. unfold bind, of_option, ret. by rewrite He.
Qed.

(** C11. In every state a fresh node reaches by applying blocks, the read API
    answers with what the handlers work on: the current nonces of a pair and the
    next epoch it has to prove are those of the entry the handlers use, and the
    current and the previous challenge epoch, against which proofs are checked,
    are found under their numbers.  Asking changes nothing. *)
Theorem api_agrees base groupID thre t blks s u p (ce := v_ceInfo (cur s)) : (forall k, smt_get t k = None) ->
  apply_chain blks (NewStateMgr base groupID thre ∅ t) = (Ok tt, s) ->
  StateMgr_StateGetOrderNonce u p maxUint64 s = (Ok (o_ns (order_at s u p)), s) /\
  StateMgr_StateGetProofEpoch u p s = (Ok (o_prove (order_at s u p)), s) /\
  (1 <= ci_epoch ce -> StateMgr_StateGetChalEpochInfoAt (ci_epoch ce - 1) s = (Ok (ci_current ce), s)) /\
  (2 <= ci_epoch ce -> StateMgr_StateGetChalEpochInfoAt (ci_epoch ce - 2) s = (Ok (ci_previous ce), s)).
Proof.
  intros Ht Hr. apply chain_saved in Hr as Hs; [|done]. destruct (sv_epochs _ Hs) as [_ Hc Hp]. fold ce in Hc, Hp.
  split_and!; [by apply OrderNonce_now|apply ProofEpoch_now|..].
  - intros Hn. destruct (Hc Hn) as [E Hst]. rewrite <-E. apply ChalEpoch_at; [done|]. change (v_ceInfo (cur s)) with ce. lia.
  - intros Hn. destruct (Hp Hn) as [E Hst]. rewrite <-E. apply ChalEpoch_at; [done|]. change (v_ceInfo (cur s)) with ce. lia.
Qed.
End Saved.

(** ** Witness: the small chain with its order and first epoch. *)

From S2P Require Import Concrete Restart Scenario OrderScenario.

#[export] Instance toy_BuildGrows : BuildGrows.
Proof.
  split; [vm_compute; intuition discriminate|]. intros v h Hv. unfold is_u32 in Hv.
  unfold next_version. rewrite UpdateMap_init by done. change SMTVersion with (2 ^ 32 - 1). unfold u32.
  destruct (decide (v = 2 ^ 32 - 1)) as [->|Hne]; [by vm_compute|]. intros _. lia.
Qed.
#[export] Instance toy_NonceSeq_nonempty : CodecNonempty NonceSeq.
Proof. intros [[|p|p] q c] b [= <-]; done. Qed.
#[export] Instance toy_PostIncome_nonempty : CodecNonempty PostIncome.
Proof. intros [[|p|p] q c d e] b [= <-]; done. Qed.
#[export] Instance toy_ChalEpoch_nonempty : CodecNonempty ChalEpoch.
Proof. intros [[|p|p] q c] b [= <-]; done. Qed.

Lemma api_agrees_witness :
  StateMgr_StateGetOrderNonce 7 9 maxUint64 st4 = (Ok (mkNonceSeq 1 0 0), st4) /\
  StateMgr_StateGetProofEpoch 7 9 st4 = (Ok 0, st4).
Proof.
  destruct (api_agrees [] 1 1 ∅ [blk0; blk1; blk2; blk3] st4 7 9) as (E1 & E2 & _).
  - intros k. by vm_compute.
  - exact full_chain_run.
  - assert (N : o_ns (order_at st4 7 9) = mkNonceSeq 1 0 0) by (vm_compute; reflexivity).
    assert (P : o_prove (order_at st4 7 9) = 0) by (vm_compute; reflexivity).
    rewrite N in E1. rewrite P in E2. split; [exact E1|exact E2].
Defined.
