(* ===== verification/HotStuff.v ===== *)
(** * HotStuff: the phase machine of a view

    [lib/hotstuff] and [submodule/consensus]: a keeper's [HotstuffManager] and
    the one-keeper [PoAManager].  The manager talks to the application (the
    transaction pool) and to the role service through the interfaces of
    [consensus/common] and [api.IRole]; both act on a world [W] of their own,
    so every theorem about the manager is proved against the interfaces.

    The clock is an argument: a reading is a number of nanoseconds since the
    Unix epoch.  [time.Sleep] and the log are left out; a message that is handed
    to the network is appended to [calls], the trace of the manager's calls to
    its services (publishing errors are only logged by the source). *)

From S2P Require Import Prelude GoMonad Codec Segments Types Tx.

(** ** lib/hotstuff/hotstuff.go *)

Definition MsgNewView := 0.
Definition MsgPrepare := 1.
Definition MsgVotePrepare := 2.
Definition MsgPreCommit := 3.
Definition MsgVotePreCommit := 4.
Definition MsgCommit := 5.
Definition MsgVoteCommit := 6.
Definition MsgDecide := 7.

Inductive PhaseState :=
  PhaseInit | PhaseNew | PhasePrepare | PhasePreCommit | PhaseCommit | PhaseDecide | PhaseFinal.

#[export] Instance PhaseState_eq_dec : EqDecision PhaseState.
Proof. solve_decision. Defined.

(** [uint16(phase)] *)
Definition phase_u16 (p : PhaseState) : Z :=
  match p with
  | PhaseInit => 0 | PhaseNew => 1 | PhasePrepare => 2 | PhasePreCommit => 3
  | PhaseCommit => 4 | PhaseDecide => 5 | PhaseFinal => 6
  end.

Record HotstuffMessage := mkHotstuffMessage {
  hm_From : Z; hm_Type : Z; hm_Data : RawBlock; hm_Sig : Signature; hm_Quorum : MultiSignature }.

Definition CalcHash `{!Hashes} (h : bytes) (phase : PhaseState) : bytes :=
  NewMsgID (put_be 2 (phase_u16 phase) ++ h).

(** ** consensus/common/common.go, api.IRole *)

Class ConsensusApp (W : Type) := {
  GetMembers : W -> list Z;
  GetQuorumSize : W -> Z;
  CreateBlockHeader : Z -> M W RawHeader;
  app_Propose : RawHeader -> M W MsgSet;
  app_OnPropose : SignedBlock -> M W unit;
  app_OnViewDone : SignedBlock -> M W unit;
}.

Class IRole (W : Type) := {
  RoleSign : Z -> bytes -> Z -> M W Signature;
  RoleVerify : Z -> bytes -> Signature -> M W bool;
  RoleVerifyMulti : bytes -> MultiSignature -> M W bool;
  RoleSelf : M W RoleInfo;
  RoleGet : Z -> bool -> M W (option RoleInfo);   (** a nil pointer is [None] *)
  RoleSanityCheck : SignedMessage -> M W bool;
}.

(** [tx.MsgSet{}], [tx.RawHeader{}] and the other zero values *)
Definition MsgSet_zero : MsgSet := mkMsgSet [] [] MsgIDUndef MsgIDUndef.
Definition RawHeader_zero : RawHeader := mkRawHeader 0 0 0 0 0 MsgIDUndef.
Definition MultiSignature_zero : MultiSignature := mkMultiSignature SigUnkown [] [].

Definition RawHeader_Hash `{!Hashes, !Codec RawHeader} (rh : RawHeader) : MsgID :=
  match marshal rh with
  | None => MsgIDUndef
  | Some res => NewMsgID res
  end.

(** ** The manager *)

Record hs_view := mkHsView {
  hv_slot : Z; hv_leader : Z; hv_start : Z; hv_header : RawHeader; hv_txs : MsgSet;
  hv_phase : PhaseState; hv_members : list Z;
  hv_highQuorum : MultiSignature; hv_prepareQuorum : MultiSignature;
  hv_preCommitQuorum : MultiSignature; hv_commitQuorum : MultiSignature }.

Definition set_hv_slot x (v : hs_view) := mkHsView x (hv_leader v) (hv_start v) (hv_header v) (hv_txs v) (hv_phase v) (hv_members v) (hv_highQuorum v) (hv_prepareQuorum v) (hv_preCommitQuorum v) (hv_commitQuorum v).
Definition set_hv_leader x (v : hs_view) := mkHsView (hv_slot v) x (hv_start v) (hv_header v) (hv_txs v) (hv_phase v) (hv_members v) (hv_highQuorum v) (hv_prepareQuorum v) (hv_preCommitQuorum v) (hv_commitQuorum v).
Definition set_hv_start x (v : hs_view) := mkHsView (hv_slot v) (hv_leader v) x (hv_header v) (hv_txs v) (hv_phase v) (hv_members v) (hv_highQuorum v) (hv_prepareQuorum v) (hv_preCommitQuorum v) (hv_commitQuorum v).
Definition set_hv_header x (v : hs_view) := mkHsView (hv_slot v) (hv_leader v) (hv_start v) x (hv_txs v) (hv_phase v) (hv_members v) (hv_highQuorum v) (hv_prepareQuorum v) (hv_preCommitQuorum v) (hv_commitQuorum v).
Definition set_hv_txs x (v : hs_view) := mkHsView (hv_slot v) (hv_leader v) (hv_start v) (hv_header v) x (hv_phase v) (hv_members v) (hv_highQuorum v) (hv_prepareQuorum v) (hv_preCommitQuorum v) (hv_commitQuorum v).
Definition set_hv_phase x (v : hs_view) := mkHsView (hv_slot v) (hv_leader v) (hv_start v) (hv_header v) (hv_txs v) x (hv_members v) (hv_highQuorum v) (hv_prepareQuorum v) (hv_preCommitQuorum v) (hv_commitQuorum v).
Definition set_hv_members x (v : hs_view) := mkHsView (hv_slot v) (hv_leader v) (hv_start v) (hv_header v) (hv_txs v) (hv_phase v) x (hv_highQuorum v) (hv_prepareQuorum v) (hv_preCommitQuorum v) (hv_commitQuorum v).

(** The quorum of a phase: the votes of the leader's current phase are added
    to it, and a replica keeps there what the leader's message carries. *)
Definition phase_quorum (p : PhaseState) (v : hs_view) : MultiSignature :=
  match p with
  | PhaseNew => hv_highQuorum v
  | PhasePrepare => hv_prepareQuorum v
  | PhasePreCommit => hv_preCommitQuorum v
  | _ => hv_commitQuorum v
  end.
Definition set_quorum (p : PhaseState) (q : MultiSignature) (v : hs_view) : hs_view :=
  match p with
  | PhaseNew => mkHsView (hv_slot v) (hv_leader v) (hv_start v) (hv_header v) (hv_txs v) (hv_phase v) (hv_members v) q (hv_prepareQuorum v) (hv_preCommitQuorum v) (hv_commitQuorum v)
  | PhasePrepare => mkHsView (hv_slot v) (hv_leader v) (hv_start v) (hv_header v) (hv_txs v) (hv_phase v) (hv_members v) (hv_highQuorum v) q (hv_preCommitQuorum v) (hv_commitQuorum v)
  | PhasePreCommit => mkHsView (hv_slot v) (hv_leader v) (hv_start v) (hv_header v) (hv_txs v) (hv_phase v) (hv_members v) (hv_highQuorum v) (hv_prepareQuorum v) q (hv_commitQuorum v)
  | _ => mkHsView (hv_slot v) (hv_leader v) (hv_start v) (hv_header v) (hv_txs v) (hv_phase v) (hv_members v) (hv_highQuorum v) (hv_prepareQuorum v) (hv_preCommitQuorum v) q
  end.

(** [&view{header: tx.RawHeader{}}] *)
Definition hs_view_zero : hs_view :=
  mkHsView 0 0 0 RawHeader_zero MsgSet_zero PhaseInit [] MultiSignature_zero MultiSignature_zero MultiSignature_zero MultiSignature_zero.

(** A call to a service: a signature of one's own over a block and a phase, a
    quorum certificate found valid (with the quorum size asked for), a block
    the application validated or proposed, a block handed over when its view is
    done, a message published. *)
Inductive call :=
  | CSign (b : RawBlock) (p : PhaseState)
  | CVerified (size : Z) (h : bytes) (q : MultiSignature)
  | CProposed (b : RawBlock)
  | CDone (b : SignedBlock)
  | CPublish (m : HotstuffMessage).

Section HotStuff.
Context `{!Hashes, !Signatures, !Codec RawHeader, !Codec RawBlock} {W : Type} `{!ConsensusApp W, !IRole W}.
(** os.Getenv("MEFS_SKIP_CHECK_PROPOSE") != "" *)
Variable MEFS_SKIP_CHECK_PROPOSE : bool.

Record HotstuffManager := mkHotstuffManager {
  localID : Z; curView : hs_view; env : W; calls : list call }.

Definition NewHotstuffManager (localID : Z) (w : W) : HotstuffManager :=
  mkHotstuffManager localID hs_view_zero w [].

Definition upd_view (f : hs_view -> hs_view) : M HotstuffManager unit :=
  modify (fun s => mkHotstuffManager (localID s) (f (curView s)) (env s) (calls s)).
Definition log_call (c : call) : M HotstuffManager unit :=
  modify (fun s => mkHotstuffManager (localID s) (curView s) (env s) (c :: calls s)).
Definition view : M HotstuffManager hs_view := gets curView.
(** A call of a service. *)
Definition service {A} (m : M W A) : M HotstuffManager A := fun s =>
  let '(r, w) := m (env s) in (r, mkHotstuffManager (localID s) (curView s) w (calls s)).
Definition quorumSize : M HotstuffManager Z := gets (fun s => GetQuorumSize (env s)).

(** hsm.RoleSign(ctx, hsm.localID, hs.CalcHash(b.Hash().Bytes(), phase), types.SigBLS) *)
Definition sign_block (b : RawBlock) (p : PhaseState) : M HotstuffManager Signature :=
  let! id := gets localID in
  let! sig := service (RoleSign id (CalcHash (RawBlock_Hash b) p) SigBLS) in
  do! log_call (CSign b p);
  ret sig.

(** tx.RawBlock{RawHeader: hsm.curView.header, MsgSet: hsm.curView.txs} *)
Definition view_block (v : hs_view) : RawBlock := mkRawBlock (hv_header v) (hv_txs v).

(** hsm.curView.xQuorum.Add(id, sig) *)
Definition quorum_add (p : PhaseState) (id : Z) (sig : Signature) : M HotstuffManager unit :=
  let! v := view in
  let! q := of_outcome (MultiSignature_Add (phase_quorum p v) id sig) in
  upd_view (set_quorum p q).

Definition publish (m : HotstuffMessage) : M HotstuffManager unit := log_call (CPublish m).

Definition OnViewDone (b : SignedBlock) : M HotstuffManager unit :=
  do! log_call (CDone b);
  service (app_OnViewDone b).

(** uint64(time.Now().Unix()-build.BaseTime) / build.SlotDuration *)
Definition slot_of (now : Z) : Z := u64 (i64 (now / 10 ^ 9 - BaseTime)) / SlotDuration.

(** The block of a view that was ended by the clock is handed over if its
    commit quorum is complete. *)
Definition newView_last (now : Z) : M HotstuffManager bool :=
  let! v := view in
  let! n := quorumSize in
  if rh_Slot (hv_header v) <? hv_slot v then
    if negb (bool_decide (hv_phase v = PhaseFinal)) && (n <=? MultiSignature_Len (hv_commitQuorum v)) then
      do! try_err (OnViewDone (mkSignedBlock (view_block v) (hv_commitQuorum v)));
      do! upd_view (set_hv_phase PhaseFinal);
      ret true
    else ret true
  else if rh_Slot (hv_header v) =? hv_slot v then ret false
  else throw "something badly happens, may be not syned".

(** The last block is still being committed: vote for it once more, under the
    new leader. *)
Definition newView_reconsensus (rnd : Z) : M HotstuffManager unit :=
  do! upd_view (set_quorum PhaseCommit (NewMultiSignature SigBLS));
  do! upd_view (set_hv_phase PhaseCommit);
  let! v := view in
  let sp := view_block v in
  let! sig := sign_block sp PhaseCommit in
  let! id := gets localID in
  if hv_leader v =? id then do! try_err (quorum_add PhaseCommit id sig); ret tt
  else
    let! q := try_err (of_outcome (MultiSignature_Add (NewMultiSignature SigBLS) rnd sig)) in
    publish (mkHotstuffMessage id MsgVoteCommit sp sig (default (NewMultiSignature SigBLS) q)).

Definition newView_reset (rh : RawHeader) : M HotstuffManager unit :=
  do! upd_view (set_hv_phase PhaseInit);
  do! upd_view (set_quorum PhaseNew (NewMultiSignature SigBLS));
  do! upd_view (set_quorum PhasePrepare (NewMultiSignature SigBLS));
  do! upd_view (set_quorum PhasePreCommit (NewMultiSignature SigBLS));
  do! upd_view (set_quorum PhaseCommit (NewMultiSignature SigBLS));
  do! upd_view (set_hv_txs MsgSet_zero);
  do! upd_view (set_hv_header rh);
  let! mems := gets (fun s => GetMembers (env s)) in
  do! upd_view (set_hv_members mems);
  let! id := gets localID in
  check (existsb (fun m => m =? id) mems || (Z.of_nat (length mems) <=? 0)) "is not committee member".

Definition newView (now rnd : Z) : M HotstuffManager unit :=
  let slot := slot_of now in
  let! v := view in
  if hv_slot v =? slot then ret tt
  else
    do! upd_view (set_hv_slot slot);
    do! upd_view (set_hv_start now);
    let! go := newView_last now in
    if negb go then ret tt
    else
      let! rh := service (CreateBlockHeader slot) in
      do! upd_view (set_hv_leader (rh_MinerID rh));
      let! v := view in
      if (rh_Height rh <=? rh_Height (hv_header v)) && bool_decide (hv_phase v = PhaseCommit)
         && (slot <? u64 (rh_Slot (hv_header v) + 20))
      then newView_reconsensus rnd
      else newView_reset rh.

(** The genesis block of [NewView]: made by the smallest sender alone. *)
Definition NewView_genesis : M HotstuffManager unit :=
  do! upd_view (set_hv_phase PhaseFinal);
  let! v := view in
  let! txs := service (app_Propose (hv_header v)) in
  let! id := gets localID in
  let mid := foldl (fun mid msg => if m_From (sm_Message msg) <? mid then m_From (sm_Message msg) else mid)
               id (mset_Msgs txs) in
  if negb (mid =? id) then ret tt
  else
    do! upd_view (set_hv_txs txs);
    let! v := view in
    let sp := view_block v in
    let! sig := sign_block sp PhaseCommit in
    let! q := try_err (of_outcome (MultiSignature_Add (NewMultiSignature SigBLS) id sig)) in
    do! try_err (OnViewDone (mkSignedBlock sp (default (NewMultiSignature SigBLS) q)));
    ret tt.

Definition NewView (now rnd : Z) : M HotstuffManager unit :=
  do! newView now rnd;
  let! v := view in
  if bool_decide (hv_phase v = PhaseCommit) then ret tt
  else
    do! check (bool_decide (hv_phase v = PhaseInit)) "phase is wrong";
    if rh_Height (hv_header v) =? 0 then NewView_genesis
    else
      let sp := mkRawBlock (hv_header v) MsgSet_zero in
      do! upd_view (set_hv_phase PhaseNew);
      let! sig := sign_block sp PhaseNew in
      let! id := gets localID in
      if hv_leader v =? id then quorum_add PhaseNew id sig
      else publish (mkHotstuffMessage id MsgNewView sp sig MultiSignature_zero).

(** ** checkView *)

(** The phase whose quorum a leader's message carries. *)
Definition quorum_phase (typ : Z) : PhaseState :=
  if typ =? MsgPrepare then PhaseNew
  else if typ =? MsgPreCommit then PhasePrepare
  else if typ =? MsgCommit then PhasePreCommit
  else if typ =? MsgDecide then PhaseCommit
  else PhaseDecide.

(** The phase a message is signed under. *)
Definition sign_phase (typ : Z) : PhaseState :=
  if typ =? MsgNewView then PhaseNew
  else if (typ =? MsgPrepare) || (typ =? MsgVotePrepare) then PhasePrepare
  else if (typ =? MsgPreCommit) || (typ =? MsgVotePreCommit) then PhasePreCommit
  else if (typ =? MsgCommit) || (typ =? MsgVoteCommit) then PhaseCommit
  else PhaseDecide.

(** What that quorum must have signed. *)
Definition quorum_block (p : PhaseState) (msg : HotstuffMessage) (txs : MsgSet) : RawBlock :=
  mkRawBlock (rb_RawHeader (hm_Data msg))
    (match p with
     | PhasePrepare => rb_MsgSet (hm_Data msg)
     | PhasePreCommit | PhaseCommit => txs
     | _ => MsgSet_zero
     end).

Definition same_header (v : hs_view) (msg : HotstuffMessage) : bool :=
  MsgID_Equal (RawHeader_Hash (hv_header v)) (RawHeader_Hash (rb_RawHeader (hm_Data msg))).

(** "verify multisign" *)
Definition check_quorum (msg : HotstuffMessage) : M HotstuffManager unit :=
  let p := quorum_phase (hm_Type msg) in
  if bool_decide (p = PhaseDecide) then ret tt
  else
    let! n := quorumSize in
    do! check (negb (MultiSignature_Len (hm_Quorum msg) <? n)) "quorum size is not enough";
    let! v := view in
    let h := CalcHash (RawBlock_Hash (quorum_block p msg (hv_txs v))) p in
    let! ok := service (RoleVerifyMulti h (hm_Quorum msg)) in
    do! check ok "quorum sign is invalid";
    log_call (CVerified n h (hm_Quorum msg)).

(** "verify data" *)
Definition check_sign (msg : HotstuffMessage) : M HotstuffManager unit :=
  let p := sign_phase (hm_Type msg) in
  if bool_decide (p = PhaseDecide) then ret tt
  else
    let! ok := service (RoleVerify (hm_From msg) (CalcHash (RawBlock_Hash (hm_Data msg)) p) (hm_Sig msg)) in
    check ok "checkView sign is invalid".

Definition checkView (now rnd : Z) (msg : HotstuffMessage) : M HotstuffManager unit :=
  let! v := view in
  do! (if negb (same_header v msg) then newView now rnd else ret tt);
  let! v := view in
  do! check (same_header v msg) "checkView view not match";
  do! check (existsb (fun m => m =? hm_From msg) (hv_members v)) "is not committee member";
  do! check_quorum msg;
  check_sign msg.

(** [if hsm.curView.phase != p { return err }] *)
Definition expect_phase (p : PhaseState) : M HotstuffManager unit :=
  let! v := view in check (bool_decide (hv_phase v = p)) "phase state wrong".

(** ** The leader's side *)

(** [tryPropose] of the view's phase [PhaseNew] *)
Definition tryPropose : M HotstuffManager unit :=
  do! expect_phase PhaseNew;
  do! upd_view (set_hv_phase PhasePrepare);
  let! v := view in
  let! txs := service (app_Propose (hv_header v)) in
  do! upd_view (set_hv_txs txs);
  let! v := view in
  let sp := view_block v in
  do! log_call (CProposed sp);
  let! sig := sign_block sp PhasePrepare in
  let! id := gets localID in
  do! try_err (quorum_add PhasePrepare id sig);
  let! v := view in
  publish (mkHotstuffMessage id MsgPrepare sp sig (hv_highQuorum v)).

Definition tryPreCommit : M HotstuffManager unit :=
  do! expect_phase PhasePrepare;
  do! upd_view (set_hv_phase PhasePreCommit);
  let! v := view in
  let sp := view_block v in
  let! sig := sign_block sp PhasePreCommit in
  let! id := gets localID in
  do! try_err (quorum_add PhasePreCommit id sig);
  let! v := view in
  publish (mkHotstuffMessage id MsgPreCommit sp sig (hv_prepareQuorum v)).

Definition tryCommit : M HotstuffManager unit :=
  do! expect_phase PhasePreCommit;
  do! upd_view (set_hv_phase PhaseCommit);
  let! v := view in
  let sp := view_block v in
  let! sig := sign_block sp PhaseCommit in
  let! id := gets localID in
  do! try_err (quorum_add PhaseCommit id sig);
  let! v := view in
  publish (mkHotstuffMessage id MsgCommit sp sig (hv_preCommitQuorum v)).

Definition tryDecide : M HotstuffManager unit :=
  do! expect_phase PhaseCommit;
  do! upd_view (set_hv_phase PhaseDecide);
  let! v := view in
  let sp := view_block v in
  let! sig := sign_block sp PhaseDecide in
  let! id := gets localID in
  do! publish (mkHotstuffMessage id MsgDecide sp sig (hv_commitQuorum v));
  do! OnViewDone (mkSignedBlock sp (hv_commitQuorum v));
  upd_view (set_hv_phase PhaseFinal).

Definition handleNewViewVoteMsg (now rnd : Z) (msg : HotstuffMessage) : M HotstuffManager unit :=
  let! v := view in
  let! id := gets localID in
  if negb (hv_leader v =? id) then ret tt
  else
    do! checkView now rnd msg;
    let! v := view in
    do! (if bool_decide (hv_phase v = PhaseInit) then
           do! upd_view (set_hv_phase PhaseNew);
           let! sig := sign_block (mkRawBlock (hv_header v) MsgSet_zero) PhaseNew in
           quorum_add PhaseNew id sig
         else ret tt);
    do! expect_phase PhaseNew;
    do! quorum_add PhaseNew (hm_From msg) (hm_Sig msg);
    let! v := view in
    let! n := quorumSize in
    if n + 1 <=? MultiSignature_Len (hv_highQuorum v) then tryPropose else ret tt.

Definition handlePrepareVoteMsg (now rnd : Z) (msg : HotstuffMessage) : M HotstuffManager unit :=
  let! v := view in
  let! id := gets localID in
  if negb (hv_leader v =? id) then ret tt
  else
    do! checkView now rnd msg;
    do! expect_phase PhasePrepare;
    do! quorum_add PhasePrepare (hm_From msg) (hm_Sig msg);
    let! v := view in
    let! n := quorumSize in
    if n + 1 <=? MultiSignature_Len (hv_prepareQuorum v) then tryPreCommit else ret tt.

Definition handlePreCommitVoteMsg (now rnd : Z) (msg : HotstuffMessage) : M HotstuffManager unit :=
  let! v := view in
  let! id := gets localID in
  if negb (hv_leader v =? id) then ret tt
  else
    do! checkView now rnd msg;
    do! expect_phase PhasePreCommit;
    do! quorum_add PhasePreCommit (hm_From msg) (hm_Sig msg);
    let! v := view in
    let! n := quorumSize in
    if n + 1 <=? MultiSignature_Len (hv_preCommitQuorum v) then tryCommit else ret tt.

Definition handleCommitVoteMsg (now rnd : Z) (msg : HotstuffMessage) : M HotstuffManager unit :=
  let! v := view in
  let! id := gets localID in
  if negb (hv_leader v =? id) then ret tt
  else
    do! checkView now rnd msg;
    do! expect_phase PhaseCommit;
    do! quorum_add PhaseCommit (hm_From msg) (hm_Sig msg);
    let! v := view in
    let! n := quorumSize in
    if n + 1 <=? MultiSignature_Len (hv_commitQuorum v) then tryDecide else ret tt.

(** ** The replicas' side *)

(** What a replica sends back: the leader's message with its own name and
    signature, an empty quorum and the type of the vote. *)
Definition vote (typ : Z) (p : PhaseState) (msg : HotstuffMessage) : M HotstuffManager unit :=
  let! id := gets localID in
  let! sig := sign_block (hm_Data msg) p in
  publish (mkHotstuffMessage id typ (hm_Data msg) sig (NewMultiSignature SigBLS)).

Definition handlePrepareMsg (now rnd : Z) (msg : HotstuffMessage) : M HotstuffManager unit :=
  let! v := view in
  let! id := gets localID in
  if hv_leader v =? id then ret tt
  else
    do! checkView now rnd msg;
    let! v := view in
    if negb (hv_leader v =? hm_From msg) then ret tt
    else
      do! (if bool_decide (hv_phase v = PhaseInit) then upd_view (set_hv_phase PhaseNew) else ret tt);
      do! expect_phase PhaseNew;
      do! (if MEFS_SKIP_CHECK_PROPOSE then ret tt
           else
             do! service (app_OnPropose (mkSignedBlock (hm_Data msg) MultiSignature_zero));
             log_call (CProposed (hm_Data msg)));
      do! upd_view (set_hv_phase PhasePrepare);
      do! upd_view (set_quorum PhaseNew (hm_Quorum msg));
      do! upd_view (set_hv_txs (rb_MsgSet (hm_Data msg)));
      vote MsgVotePrepare PhasePrepare msg.

Definition handlePreCommitMsg (now rnd : Z) (msg : HotstuffMessage) : M HotstuffManager unit :=
  let! v := view in
  let! id := gets localID in
  if hv_leader v =? id then ret tt
  else
    do! checkView now rnd msg;
    let! v := view in
    if negb (hv_leader v =? hm_From msg) then ret tt
    else
      do! expect_phase PhasePrepare;
      do! upd_view (set_hv_phase PhasePreCommit);
      do! upd_view (set_quorum PhasePrepare (hm_Quorum msg));
      vote MsgVotePreCommit PhasePreCommit msg.

Definition handleCommitMsg (now rnd : Z) (msg : HotstuffMessage) : M HotstuffManager unit :=
  let! v := view in
  let! id := gets localID in
  if hv_leader v =? id then ret tt
  else
    do! checkView now rnd msg;
    let! v := view in
    if negb (hv_leader v =? hm_From msg) then ret tt
    else
      do! expect_phase PhasePreCommit;
      do! upd_view (set_hv_phase PhaseCommit);
      do! upd_view (set_quorum PhasePreCommit (hm_Quorum msg));
      vote MsgVoteCommit PhaseCommit msg.

Definition handleDecideMsg (now rnd : Z) (msg : HotstuffMessage) : M HotstuffManager unit :=
  let! v := view in
  let! id := gets localID in
  if hv_leader v =? id then ret tt
  else
    do! checkView now rnd msg;
    let! v := view in
    if negb (hv_leader v =? hm_From msg) then ret tt
    else
      do! expect_phase PhaseCommit;
      do! upd_view (set_hv_phase PhaseDecide);
      do! upd_view (set_quorum PhaseCommit (hm_Quorum msg));
      let! v := view in
      do! OnViewDone (mkSignedBlock (view_block v) (hv_commitQuorum v));
      upd_view (set_hv_phase PhaseFinal).

(** ** Entry points *)

Definition HandleMessage (now rnd : Z) (msg : HotstuffMessage) : M HotstuffManager unit :=
  let t := hm_Type msg in
  if t =? MsgNewView then handleNewViewVoteMsg now rnd msg
  else if t =? MsgPrepare then handlePrepareMsg now rnd msg
  else if t =? MsgVotePrepare then handlePrepareVoteMsg now rnd msg
  else if t =? MsgPreCommit then handlePreCommitMsg now rnd msg
  else if t =? MsgVotePreCommit then handlePreCommitVoteMsg now rnd msg
  else if t =? MsgCommit then handleCommitMsg now rnd msg
  else if t =? MsgVoteCommit then handleCommitVoteMsg now rnd msg
  else if t =? MsgDecide then handleDecideMsg now rnd msg
  else throw "unknown hotstuff message type".

(** The leader moves on without the missing votes once it has a quorum and has
    waited long enough; [since] is the clock at [time.Since]. *)
Definition MineBlock_leader (since : Z) : M HotstuffManager unit :=
  let! v := view in
  let! n := quorumSize in
  let late (p : PhaseState) (sec : Z) :=
    (n <=? MultiSignature_Len (phase_quorum p v)) && (sec * 10 ^ 9 <? since - hv_start v) in
  match hv_phase v with
  | PhaseNew => if late PhaseNew 3 then tryPropose else ret tt
  | PhasePrepare => if late PhasePrepare 15 then tryPreCommit else ret tt
  | PhasePreCommit => if late PhasePreCommit 18 then tryCommit else ret tt
  | PhaseCommit => if late PhaseCommit 20 then tryDecide else ret tt
  | _ => ret tt
  end.

(** One tick of [MineBlock]; errors are only logged. *)
Definition MineBlock_tick (now since now' rnd : Z) : M HotstuffManager unit :=
  let! v := view in
  let! id := gets localID in
  do! try_err
    (if rh_Slot (hv_header v) =? slot_of now then
       if hv_leader v =? id then MineBlock_leader since else ret tt
     else NewView now' rnd);
  ret tt.
End HotStuff.

(** ** consensus/poa/poa.go *)

(** One tick of a lone keeper: the block it hands over and publishes, or
    nothing when a step fails ([continue]). *)
Definition PoA_tick `{!Hashes, !Signatures, !Codec RawBlock} {W} `{!ConsensusApp W, !IRole W}
    (localID : Z) : M W (option SignedBlock) :=
  try_err
    (let! trh := CreateBlockHeader 0 in
     let tb txs q := mkSignedBlock (mkRawBlock trh txs) q in
     let! txs := (if rh_MinerID trh =? localID then app_Propose trh else ret MsgSet_zero) in
     do! app_OnPropose (tb txs (NewMultiSignature SigSecp256k1));
     let! q := (if rh_MinerID trh =? localID then
                  let! sig := RoleSign localID
                    (CalcHash (RawBlock_Hash (mkRawBlock trh txs)) PhaseCommit) SigSecp256k1 in
                  let! q := try_err (of_outcome (MultiSignature_Add (NewMultiSignature SigSecp256k1) localID sig)) in
                  ret (default (NewMultiSignature SigSecp256k1) q)
                else ret (NewMultiSignature SigSecp256k1)) in
     do! app_OnViewDone (tb txs q);
     ret (tb txs q)).
