(* ===== verification/HotStuffSafety.v ===== *)
(** * HotStuffSafety: what an honest keeper signs, and agreement in a view

    A manager is driven by inputs: ticks of the clock, messages from anyone, and
    changes of its world made by the rest of the node in between.  The first
    part is the invariant of one manager under any inputs; the second puts
    managers together, with signatures that cannot be forged. *)

From S2P Require Import Prelude GoMonad Codec Segments Types Tx HotStuff.

(** What the application promises the manager: a new header is for the slot
    that was asked for, and a quorum is never empty. *)
Class ConsensusAppLaws (W : Type) `{!ConsensusApp W} := {
  header_slot slot w rh w' : CreateBlockHeader slot w = (Ok rh, w') -> rh_Slot rh = slot;
  quorum_pos w : 0 < GetQuorumSize w;
}.

Section Node.
Context `{!Hashes, !Signatures, !Codec RawHeader, !Codec RawBlock} {W : Type}
  `{!ConsensusApp W, !IRole W, !ConsensusAppLaws W}.
(** Header ids do not collide. *)
Context `{!Inj (=) (=) RawHeader_Hash}.
Variable skip : bool.
Local Abbreviation node := (HotstuffManager (W := W)).
Implicit Types (s : node) (b : RawBlock) (p : PhaseState).

Inductive input :=
  | ITick (now since now' rnd : Z)
  | IMessage (now rnd : Z) (msg : HotstuffMessage)
  | IWorld (w : W).

Definition run_input (i : input) s : node :=
  match i with
  | ITick now since now' rnd => (MineBlock_tick now since now' rnd s).2
  | IMessage now rnd msg => (HandleMessage skip now rnd msg s).2
  | IWorld w => mkHotstuffManager (localID s) (curView s) w (calls s)
  end.

Definition run_inputs (l : list input) s : node := foldl (fun s i => run_input i s) s l.

(** ** The invariant *)

Local Abbreviation header s := (hv_header (curView s)).
Local Abbreviation phase s := (hv_phase (curView s)).

Definition certified (cs : list call) p b : Prop :=
  exists n q, CVerified n (CalcHash (RawBlock_Hash b) p) q ∈ cs.

Definition slot_eq b1 b2 : Prop := rh_Slot (rb_RawHeader b1) = rh_Slot (rb_RawHeader b2).

(** Stated of the fields it constrains, so that writing the others leaves it
    alone: identity, header, phase, content, leader, commit signers, trace. *)
Record core_inv (id : Z) (h : RawHeader) (ph : PhaseState) (t : MsgSet) (ld : Z)
    (cq : list Z) (cs : list call) : Prop := {
  ni_old b p : CSign b p ∈ cs ->
    rh_Slot (rb_RawHeader b) < rh_Slot h \/ rb_RawHeader b = h /\ phase_u16 p <= phase_u16 ph;
  ni_once b1 b2 p : CSign b1 p ∈ cs -> CSign b2 p ∈ cs ->
    p <> PhaseCommit -> slot_eq b1 b2 -> b1 = b2;
  ni_leader : phase_u16 ph < 4 -> ld = rh_MinerID h;
  ni_commit : 4 <= phase_u16 ph -> rh_Height h <> 0 -> rh_MinerID h <> id ->
    certified cs PhasePreCommit (mkRawBlock h t);
  ni_done sb : CDone sb ∈ cs -> rh_Height (sb_header sb) <> 0 ->
    rh_MinerID (sb_header sb) <> id -> certified cs PhasePreCommit (sb_RawBlock sb);
  ni_quorum : phase_u16 ph < 4 -> cq = [];
  ni_size n hash q : CVerified n hash q ∈ cs -> n <= MultiSignature_Len q;
  ni_proposed b : skip = false -> CSign b PhasePrepare ∈ cs -> CProposed b ∈ cs;
}.

Definition node_inv s : Prop :=
  let v := curView s in
  core_inv (localID s) (hv_header v) (hv_phase v) (hv_txs v) (hv_leader v)
    (ms_Signer (hv_commitQuorum v)) (calls s).

(** Nothing of this view is signed under [p] yet. *)
Definition unsigned p (h : RawHeader) (cs : list call) : Prop :=
  forall b, CSign b p ∈ cs -> rh_Slot (rb_RawHeader b) < rh_Slot h.

Lemma certified_cons cs c p b : certified cs p b -> certified (c :: cs) p b.
Proof. intros (n & q & Hv). exists n, q. by right. Qed.

Lemma phase_u16_inj : Inj (=) (=) phase_u16.
Proof. by intros [] []. Qed.

(** *** Steps of the invariant *)

(** Membership in an extended trace: the new call, or the old trace. *)
Local Ltac in_cons :=
  repeat match goal with
  | Hin : ?x ∈ _ :: _ |- _ => apply elem_of_cons in Hin; destruct Hin as [Hin|Hin]
  end; simplify_eq; try done.

(** A call that neither signs nor hands over. *)
Definition quiet (c : call) : Prop :=
  match c with
  | CSign _ _ | CDone _ => False
  | CVerified n _ q => n <= MultiSignature_Len q
  | CProposed _ | CPublish _ => True
  end.

Lemma core_quiet id h ph t ld cq cs c :
  quiet c -> core_inv id h ph t ld cq cs -> core_inv id h ph t ld cq (c :: cs).
Proof.
  intros Hc []. constructor; intros; in_cons; eauto using certified_cons.
  right. auto.
Qed.

Lemma unsigned_quiet p h cs c : quiet c -> unsigned p h cs -> unsigned p h (c :: cs).
Proof. intros Hc Hu b Hb. in_cons. auto. Qed.

(** The phase moves forward; past [PhasePreCommit] only with a certificate. *)
Lemma core_advance id h ph t ld cq cs p :
  core_inv id h ph t ld cq cs -> phase_u16 ph < phase_u16 p ->
  (phase_u16 ph < 4 <= phase_u16 p -> rh_Height h <> 0 -> rh_MinerID h <> id ->
     certified cs PhasePreCommit (mkRawBlock h t)) ->
  core_inv id h p t ld cq cs /\ unsigned p h cs.
Proof.
  intros [] Hlt Hc. split.
  - constructor; eauto with lia; intros.
    + edestruct ni_old0 as [?|[? ?]]; [done|by left|]. right. split; [done|lia].
    + destruct (decide (4 <= phase_u16 ph)); [auto|apply Hc; [lia|done..]].
  - intros b Hb. apply ni_old0 in Hb as [?|[? ?]]; [done|lia].
Qed.

Lemma core_sign id h ph t ld cq cs p b :
  core_inv id h ph t ld cq cs -> rb_RawHeader b = h -> phase_u16 p <= phase_u16 ph ->
  (p <> PhaseCommit -> unsigned p h cs) ->
  (p = PhasePrepare -> skip = false -> CProposed b ∈ cs) ->
  core_inv id h ph t ld cq (CSign b p :: cs).
Proof.
  intros [] Hh Hp Hu Hv.
  assert (Hn : forall b', CSign b' p ∈ cs -> p <> PhaseCommit -> slot_eq b' b -> False).
  { intros b' Hb Hne. specialize (Hu Hne b' Hb). unfold slot_eq. subst h. lia. }
  constructor; intros; in_cons; eauto using certified_cons.
  - exfalso. by eapply Hn.
  - exfalso. by eapply Hn.
  - right. auto.
  - right. auto.
Qed.

Lemma core_done id h ph t ld cq cs sb :
  core_inv id h ph t ld cq cs ->
  (rh_Height (sb_header sb) <> 0 -> rh_MinerID (sb_header sb) <> id -> certified cs PhasePreCommit (sb_RawBlock sb)) ->
  core_inv id h ph t ld cq (CDone sb :: cs).
Proof.
  intros [] Hd. constructor; intros; in_cons; eauto using certified_cons.
  right. auto.
Qed.

(** A new view: a later slot, nothing signed in it. *)
Lemma core_reset id h ph t ld cq cs h' :
  core_inv id h ph t ld cq cs -> rh_Slot h < rh_Slot h' ->
  core_inv id h' PhaseInit MsgSet_zero (rh_MinerID h') [] cs.
Proof.
  intros [] Hlt. constructor; try done; eauto.
  intros b p Hb. left. apply ni_old0 in Hb as [?|[-> _]]; lia.
Qed.

(** Before the commit phase the content may still change. *)
Lemma core_txs id h ph t ld cq cs t' :
  core_inv id h ph t ld cq cs -> phase_u16 ph < 4 \/ rh_Height h = 0 -> core_inv id h ph t' ld cq cs.
Proof. intros [] Hp. constructor; eauto. intros. destruct Hp; [lia|done]. Qed.

(** From the commit phase on leader and commit quorum may. *)
Lemma core_late id h ph t ld cq cs ld' cq' :
  core_inv id h ph t ld cq cs -> 4 <= phase_u16 ph -> core_inv id h ph t ld' cq' cs.
Proof. intros [] Hp. constructor; eauto; lia. Qed.
(** *** The pieces of the handlers *)

Local Abbreviation WP := (wp node_inv).
Definition with_view (f : hs_view -> hs_view) s : node :=
  mkHotstuffManager (localID s) (f (curView s)) (env s) (calls s).
Definition with_env (w : W) s : node := mkHotstuffManager (localID s) (curView s) w (calls s).
Definition with_call (c : call) s : node := mkHotstuffManager (localID s) (curView s) (env s) (c :: calls s).

Lemma wp_service {A} (m : M W A) (Q : A -> node -> Prop) s :
  node_inv s -> (forall a w, m (env s) = (Ok a, w) -> Q a (with_env w s)) -> WP (service m) Q s.
Proof. intros Hi HQ. unfold wpx, service. destruct (m (env s)) as [[a|e|y] w]; [by apply HQ|exact Hi..]. Qed.

Lemma wp_view (Q : hs_view -> node -> Prop) s : Q (curView s) s -> WP view Q s.
Proof. done. Qed.
Lemma wp_upd_view f (Q : unit -> node -> Prop) s : Q tt (with_view f s) -> WP (upd_view f) Q s.
Proof. done. Qed.
Lemma wp_log_call c (Q : unit -> node -> Prop) s : Q tt (with_call c s) -> WP (log_call c) Q s.
Proof. done. Qed.
Lemma wp_quorumSize (Q : Z -> node -> Prop) s : Q (GetQuorumSize (env s)) s -> WP quorumSize Q s.
Proof. done. Qed.

Lemma wp_expect_phase p (Q : unit -> node -> Prop) s :
  node_inv s -> (phase s = p -> Q tt s) -> WP (expect_phase p) Q s.
Proof.
  intros Hi HQ. apply wp_bind, wp_view, wp_check; [done|]. by intros ?%bool_decide_eq_true_1; auto.
Qed.

Lemma wp_sign b p (Q : Signature -> node -> Prop) s :
  node_inv s -> rb_RawHeader b = header s -> phase_u16 p <= phase_u16 (phase s) ->
  (p <> PhaseCommit -> unsigned p (header s) (calls s)) ->
  (p = PhasePrepare -> skip = false -> CProposed b ∈ calls s) ->
  (forall sig w, let s' := with_call (CSign b p) (with_env w s) in node_inv s' -> Q sig s') ->
  WP (sign_block b p) Q s.
Proof.
  intros Hi Hh Hp Hu Hc HQ. unfold sign_block. apply wp_bind, wp_gets, wp_bind, wp_service; [done|].
  intros sig w _. apply wp_bind, wp_log_call, wp_ret, HQ. by apply core_sign.
Qed.

(** Adding a vote changes nothing the invariant constrains before the commit
    phase. *)
Definition same_view s s' : Prop :=
  localID s' = localID s /\ header s' = header s /\ phase s' = phase s /\
  hv_txs (curView s') = hv_txs (curView s) /\ hv_leader (curView s') = hv_leader (curView s) /\
  calls s' = calls s.

Lemma set_quorum_inv p q s :
  node_inv s -> phase_u16 p < 4 \/ 4 <= phase_u16 (phase s) ->
  p <> PhaseInit -> node_inv (with_view (set_quorum p q) s) /\ same_view s (with_view (set_quorum p q) s).
Proof.
  intros Hi Hp Hn. split; [|by destruct p].
  destruct (decide (phase_u16 p < 4)); [by destruct p|].
  destruct Hp as [?|Hp]; [done|]. unfold node_inv in *.
  destruct p; try done; by eapply core_late.
Qed.

Lemma wp_quorum_add p id sig (Q : unit -> node -> Prop) s :
  node_inv s -> phase_u16 p < 4 \/ 4 <= phase_u16 (phase s) -> p <> PhaseInit ->
  (forall s', node_inv s' -> same_view s s' -> Q tt s') -> WP (quorum_add p id sig) Q s.
Proof.
  intros Hi Hp Hn HQ. unfold quorum_add. apply wp_bind, wp_view, wp_bind, wp_of_outcome; [done|].
  intros q _. apply wp_upd_view. destruct (set_quorum_inv p q s Hi Hp Hn). auto.
Qed.

Lemma wp_quorum_add_ignored p id sig (Q : option unit -> node -> Prop) s :
  node_inv s -> phase_u16 p < 4 \/ 4 <= phase_u16 (phase s) -> p <> PhaseInit ->
  (forall r s', node_inv s' -> same_view s s' -> Q r s') -> WP (try_err (quorum_add p id sig)) Q s.
Proof.
  intros Hi Hp Hn HQ. unfold wpx, try_err, quorum_add. unfold bind, view, gets, of_outcome. cbn.
  destruct (MultiSignature_Add _ _ _) as [q|e|y]; cbn.
  - destruct (set_quorum_inv p q s Hi Hp Hn). by apply HQ.
  - by apply HQ.
  - exact Hi.
Qed.

Lemma inv_quiet c s : quiet c -> node_inv s -> node_inv (with_call c s).
Proof. intros. by apply core_quiet. Qed.
Lemma inv_env w s : node_inv s -> node_inv (with_env w s).
Proof. done. Qed.

Lemma wp_OnViewDone sb (Q : unit -> node -> Prop) s :
  node_inv s ->
  (rh_Height (sb_header sb) <> 0 -> rh_MinerID (sb_header sb) <> localID s ->
   certified (calls s) PhasePreCommit (sb_RawBlock sb)) ->
  (forall w, let s' := with_call (CDone sb) (with_env w s) in node_inv s' -> Q tt s') ->
  WP (OnViewDone sb) Q s.
Proof.
  intros Hi Hc HQ. unfold OnViewDone. apply wp_bind, wp_log_call.
  assert (node_inv (with_call (CDone sb) s)) by by apply core_done.
  apply wp_service; [done|]. intros [] w _. by apply HQ.
Qed.

Lemma wp_OnViewDone_ignored sb (Q : option unit -> node -> Prop) s :
  node_inv s ->
  (rh_Height (sb_header sb) <> 0 -> rh_MinerID (sb_header sb) <> localID s ->
   certified (calls s) PhasePreCommit (sb_RawBlock sb)) ->
  (forall r w, let s' := with_call (CDone sb) (with_env w s) in node_inv s' -> Q r s') ->
  WP (try_err (OnViewDone sb)) Q s.
Proof.
  intros Hi Hc HQ. assert (Hd : node_inv (with_call (CDone sb) s)) by by apply core_done.
  unfold wpx, try_err, OnViewDone, bind, log_call, modify, service. cbn.
  destruct (app_OnViewDone sb (env s)) as [[[]|e|y] w]; [by apply HQ|by apply HQ|exact Hd].
Qed.
(** *** newView *)

Lemma wp_newView_last now (Q : bool -> node -> Prop) s :
  node_inv s ->
  (node_inv s -> Q false s) ->
  (forall s', node_inv s' -> localID s' = localID s -> header s' = header s ->
     rh_Slot (header s) < hv_slot (curView s) -> hv_slot (curView s') = hv_slot (curView s) -> Q true s') ->
  WP (newView_last now) Q s.
Proof.
  intros Hi Hf Ht. unfold newView_last. apply wp_bind, wp_view, wp_bind, wp_quorumSize.
  destruct (Z.ltb_spec (rh_Slot (header s)) (hv_slot (curView s))) as [Hlt|_];
    [|destruct (_ =? _); [by apply wp_ret, Hf|by apply wp_throw]].
  destruct (negb _ && _) eqn:E; [|by apply wp_ret, Ht].
  apply andb_prop in E as [Hph%negb_true_iff%bool_decide_eq_false Hq%Z.leb_le].
  assert (Hge : 4 <= phase_u16 (phase s)).
  { destruct (decide (phase_u16 (phase s) < 4)) as [Hl|]; [|lia]. exfalso.
    pose proof (ni_quorum _ _ _ _ _ _ _ Hi Hl) as Hn. unfold MultiSignature_Len in Hq. rewrite Hn in Hq.
    pose proof (quorum_pos (env s)). simpl in Hq. lia. }
  apply wp_bind, wp_OnViewDone_ignored; [done|intros ? ?; by apply (ni_commit _ _ _ _ _ _ _ Hi)|].
  intros r w s' Hi'. apply wp_bind, wp_upd_view, wp_ret, Ht; try done.
  eapply (core_advance _ _ (phase s)); [exact Hi'| |intros; lia].
  by destruct (phase s).
Qed.

Lemma wp_newView_reconsensus rnd (Q : unit -> node -> Prop) s ld :
  node_inv s -> phase s = PhaseCommit ->
  (forall s', node_inv s' -> localID s' = localID s -> header s' = header s -> Q tt s') ->
  WP (newView_reconsensus rnd) Q (with_view (set_hv_leader ld) s).
Proof.
  intros Hi Hp HQ. unfold newView_reconsensus.
  apply wp_bind, wp_upd_view, wp_bind, wp_upd_view, wp_bind, wp_view, wp_bind.
  assert (Hi' : node_inv (with_view (set_hv_phase PhaseCommit) (with_view (set_quorum PhaseCommit (NewMultiSignature SigBLS)) (with_view (set_hv_leader ld) s)))).
  { unfold node_inv in *. rewrite Hp in Hi. by eapply core_late. }
  apply wp_sign; try done. intros sig w s' Hs'. apply wp_bind, wp_gets.
  destruct (_ =? _).
  - apply wp_bind, wp_quorum_add_ignored; [done|right; cbn; lia|done|].
    intros r s2 H2 (? & ? & ?). apply wp_ret, HQ; [done|by etrans; [eassumption|]..].
  - apply wp_bind, wp_try_outcome; [done|]. intros q. apply wp_log_call, HQ; [by apply inv_quiet|done..].
Qed.

Lemma wp_newView_reset rh (Q : unit -> node -> Prop) s ld :
  node_inv s -> rh_Slot (header s) < rh_Slot rh -> ld = rh_MinerID rh ->
  (forall s', node_inv s' -> localID s' = localID s -> phase s' = PhaseInit -> Q tt s') ->
  WP (newView_reset rh) Q (with_view (set_hv_leader ld) s).
Proof.
  intros Hi Hlt -> HQ. unfold newView_reset.
  do 7 apply wp_bind, wp_upd_view. apply wp_bind, wp_gets, wp_bind, wp_upd_view, wp_bind, wp_gets.
  assert (Hr : forall w m, node_inv (mkHotstuffManager (localID s)
      (mkHsView (hv_slot (curView s)) (rh_MinerID rh) (hv_start (curView s)) rh MsgSet_zero PhaseInit m
        (NewMultiSignature SigBLS) (NewMultiSignature SigBLS) (NewMultiSignature SigBLS) (NewMultiSignature SigBLS))
      w (calls s))) by (intros; by eapply core_reset).
  apply wp_check; [apply Hr|]. intros _. by apply HQ; [apply Hr|..].
Qed.

Lemma wp_newView now rnd (Q : unit -> node -> Prop) s :
  node_inv s ->
  (forall s', node_inv s' -> localID s' = localID s ->
     header s' = header s \/ phase s' = PhaseInit -> Q tt s') ->
  WP (newView now rnd) Q s.
Proof.
  intros Hi HQ. unfold newView. apply wp_bind, wp_view.
  destruct (_ =? _); [by apply wp_ret, HQ; [..|left]|].
  apply wp_bind, wp_upd_view, wp_bind, wp_upd_view, wp_bind, wp_newView_last; [done|..].
  { intros _. by apply wp_ret, HQ; [..|left]. }
  intros s' Hi' Hid Hh Hlt Hslot. apply wp_bind, wp_service; [done|]. intros rh w Hrh.
  apply header_slot in Hrh. apply wp_bind, wp_upd_view, wp_bind, wp_view.
  destruct (_ && _) eqn:E.
  - apply andb_prop in E as [[_ Hp%bool_decide_eq_true_1]%andb_prop _].
    apply (wp_newView_reconsensus _ _ (with_env w s')); [done|done|].
    intros s2 ? H1 H2. apply HQ; [done|by rewrite H1|left]. rewrite H2. exact Hh.
  - apply (wp_newView_reset _ _ (with_env w s')); [done| |done|].
    + cbn in *. rewrite Hh, Hrh. lia.
    + intros s2 ? H1 ?. apply HQ; [done|by rewrite H1|by right].
Qed.
(** *** checkView *)

(** A message that passes is for the current view, which is the one the node
    was in or a new one, and its quorum was found valid. *)
Record viewed s (msg : HotstuffMessage) s' : Prop := {
  vw_inv : node_inv s';
  vw_id : localID s' = localID s;
  vw_header : header s' = rb_RawHeader (hm_Data msg);
  vw_view : phase s' = PhaseInit \/ phase s' = phase s /\ hv_leader (curView s') = hv_leader (curView s);
  vw_quorum : let p := quorum_phase (hm_Type msg) in p <> PhaseDecide ->
    certified (calls s') p (quorum_block p msg (hv_txs (curView s')));
}.

Lemma wp_check_quorum msg (Q : unit -> node -> Prop) s :
  node_inv s ->
  (forall s', node_inv s' -> localID s' = localID s -> curView s' = curView s ->
     (let p := quorum_phase (hm_Type msg) in p <> PhaseDecide ->
      certified (calls s') p (quorum_block p msg (hv_txs (curView s)))) -> Q tt s') ->
  WP (check_quorum msg) Q s.
Proof.
  intros Hi HQ. unfold check_quorum. case_bool_decide as E; [by apply wp_ret, HQ|].
  apply wp_bind, wp_quorumSize, wp_bind, wp_check; [done|].
  intros Hn%negb_true_iff%Z.ltb_ge. apply wp_bind, wp_view, wp_bind, wp_service; [done|].
  intros ok w _. apply wp_bind, wp_check; [done|]. intros _. apply wp_log_call, HQ; [|done..|].
  - by apply core_quiet.
  - intros p _. eexists _, _. left.
Qed.

Lemma wp_check_sign msg (Q : unit -> node -> Prop) s :
  node_inv s -> (forall w, Q tt (with_env w s)) -> Q tt s -> WP (check_sign msg) Q s.
Proof.
  intros Hi HQ Hs. unfold check_sign. case_bool_decide; [by apply wp_ret|].
  apply wp_bind, wp_service; [done|]. intros ok w _. by apply wp_check.
Qed.

Lemma wp_checkView now rnd msg (Q : unit -> node -> Prop) s :
  node_inv s -> (forall s', viewed s msg s' -> Q tt s') -> WP (checkView now rnd msg) Q s.
Proof.
  intros Hi HQ. unfold checkView. apply wp_bind, wp_view, wp_bind.
  assert (K : forall s1, node_inv s1 -> localID s1 = localID s ->
     (same_header (curView s1) msg = true -> s1 = s \/ phase s1 = PhaseInit) ->
     WP (let! v := view in
         do! check (same_header v msg) "checkView view not match";
         do! check (existsb (fun m => m =? hm_From msg) (hv_members v)) "is not committee member";
         do! check_quorum msg; check_sign msg) Q s1).
  { intros s1 H1 Hid Hs. apply wp_bind, wp_view, wp_bind, wp_check; [done|]. intros Hh.
    apply wp_bind, wp_check; [done|]. intros _. apply wp_bind, wp_check_quorum; [done|].
    intros s2 H2 Hid2 Hv2 Hq. rewrite <- Hv2 in Hq.
    assert (Hw : viewed s msg s2).
    { constructor; [done|congruence| |rewrite Hv2|done].
      - rewrite Hv2. apply bool_decide_eq_true_1 in Hh. by apply (inj RawHeader_Hash).
      - destruct (Hs Hh) as [->|?]; [by right|by left]. }
    apply wp_check_sign; [done| |by apply HQ].
    intros w. apply HQ. destruct Hw. by constructor. }
  destruct (same_header (curView s) msg) eqn:E; simpl.
  - apply wp_ret, K; [done..|by left].
  - apply wp_newView; [done|]. intros s1 H1 Hid [Hh|Hp]; apply K; try done.
    + intros Hs. unfold same_header in *. rewrite Hh in Hs. congruence.
    + by right.
Qed.

(** *** The leader's steps *)

Lemma inv_advance p s :
  node_inv s -> phase_u16 (phase s) < phase_u16 p ->
  (phase_u16 (phase s) < 4 <= phase_u16 p -> rh_Height (header s) <> 0 -> rh_MinerID (header s) <> localID s ->
     certified (calls s) PhasePreCommit (view_block (curView s))) ->
  node_inv (with_view (set_hv_phase p) s) /\ unsigned p (header s) (calls s).
Proof. intros Hi Hp Hc. by apply (core_advance _ _ (phase s)). Qed.

Lemma inv_leader s : node_inv s -> phase_u16 (phase s) < 4 -> hv_leader (curView s) = rh_MinerID (header s).
Proof. apply ni_leader. Qed.
Lemma inv_commit s :
  node_inv s -> 4 <= phase_u16 (phase s) -> rh_Height (header s) <> 0 -> rh_MinerID (header s) <> localID s ->
  certified (calls s) PhasePreCommit (view_block (curView s)).
Proof. apply ni_commit. Qed.

(** Sign the view's block under a phase just entered, keep the signature as the
    first vote, and publish. *)
Lemma wp_sign_and_publish p typ (quorum : hs_view -> MultiSignature) s :
  node_inv s -> phase s = p -> (p = PhasePrepare \/ p = PhasePreCommit \/ p = PhaseCommit) ->
  unsigned p (header s) (calls s) ->
  (p = PhasePrepare -> skip = false -> CProposed (view_block (curView s)) ∈ calls s) ->
  WP (let! v := view in
      let sp := view_block v in
      let! sig := sign_block sp p in
      let! id := gets localID in
      do! try_err (quorum_add p id sig);
      let! v := view in
      publish (mkHotstuffMessage id typ sp sig (quorum v))) (fun _ => node_inv) s.
Proof.
  intros Hi Hp Hc Hu Hv. apply wp_bind, wp_view, wp_bind, wp_sign; try done; [by rewrite Hp|].
  intros sig w s' Hi'. apply wp_bind, wp_gets, wp_bind, wp_quorum_add_ignored; [done| | |].
  - cbn. rewrite Hp. destruct Hc as [->|[->| ->]]; cbn; lia.
  - by destruct Hc as [->|[->| ->]].
  - intros r s2 H2 _. apply wp_bind, wp_view, wp_log_call. by apply inv_quiet.
Qed.

Lemma tryPropose_inv s : node_inv s -> WP tryPropose (fun _ => node_inv) s.
Proof.
  intros Hi. unfold tryPropose. apply wp_bind, wp_expect_phase; [done|]. intros Hp.
  destruct (inv_advance PhasePrepare s Hi) as [Ha Hu]; [by rewrite Hp|cbn; lia|].
  apply wp_bind, wp_upd_view, wp_bind, wp_view, wp_bind, wp_service; [done|]. intros txs w _.
  apply wp_bind, wp_upd_view, wp_bind, wp_view, wp_bind, wp_log_call.
  apply (wp_sign_and_publish PhasePrepare MsgPrepare hv_highQuorum (with_call _ _)); [|done|by left| |].
  - apply inv_quiet; [done|]. eapply core_txs; [exact Ha|by left].
  - by apply unsigned_quiet.
  - intros _ _. left.
Qed.

Lemma tryPreCommit_inv s : node_inv s -> WP tryPreCommit (fun _ => node_inv) s.
Proof.
  intros Hi. unfold tryPreCommit. apply wp_bind, wp_expect_phase; [done|]. intros Hp.
  destruct (inv_advance PhasePreCommit s Hi) as [Ha Hu]; [by rewrite Hp|cbn; lia|].
  apply wp_bind, wp_upd_view.
  apply (wp_sign_and_publish PhasePreCommit MsgPreCommit hv_prepareQuorum); auto. done.
Qed.

Lemma tryCommit_inv s :
  node_inv s -> (phase s = PhasePreCommit -> hv_leader (curView s) = localID s) ->
  WP tryCommit (fun _ => node_inv) s.
Proof.
  intros Hi Hl. unfold tryCommit. apply wp_bind, wp_expect_phase; [done|]. intros Hp.
  destruct (inv_advance PhaseCommit s Hi) as [Ha Hu]; [by rewrite Hp| |].
  { intros _ _ Hm. exfalso. apply Hm. rewrite <- inv_leader; [auto|done|by rewrite Hp]. }
  apply wp_bind, wp_upd_view.
  apply (wp_sign_and_publish PhaseCommit MsgCommit hv_preCommitQuorum); auto. done.
Qed.

Lemma tryDecide_inv s : node_inv s -> WP tryDecide (fun _ => node_inv) s.
Proof.
  intros Hi. unfold tryDecide. apply wp_bind, wp_expect_phase; [done|]. intros Hp.
  destruct (inv_advance PhaseDecide s Hi) as [Ha Hu]; [by rewrite Hp|rewrite Hp; cbn; lia|].
  apply wp_bind, wp_upd_view, wp_bind, wp_view, wp_bind, wp_sign; try done.
  intros sig w s' Hi'. apply wp_bind, wp_gets, wp_bind, wp_log_call, wp_bind, wp_OnViewDone.
  - by apply inv_quiet.
  - intros Hh Hm. apply certified_cons. by apply (inv_commit _ Hi').
  - intros w' s2 H2. apply wp_upd_view. by destruct (inv_advance PhaseFinal _ H2) as [? _]; [|cbn; lia|].
Qed.
(** *** The handlers *)

(** A leader's handler: only the leader of the view it was in goes on, with a
    message that passed. *)
Lemma wp_leader_handler now rnd msg (k : M HotstuffManager unit) s :
  node_inv s ->
  (forall s', hv_leader (curView s) = localID s -> viewed s msg s' -> WP k (fun _ => node_inv) s') ->
  WP (let! v := view in
      let! id := gets localID in
      if negb (hv_leader v =? id) then ret tt else do! checkView now rnd msg; k) (fun _ => node_inv) s.
Proof.
  intros Hi Hk. apply wp_bind, wp_view, wp_bind, wp_gets.
  destruct (Z.eqb_spec (hv_leader (curView s)) (localID s)) as [Hl|]; simpl; [|by apply wp_ret].
  apply wp_bind, wp_checkView; [done|]. auto.
Qed.

Lemma wp_replica_handler now rnd msg (k : hs_view -> M HotstuffManager unit) s :
  node_inv s ->
  (forall s', viewed s msg s' -> WP (k (curView s')) (fun _ => node_inv) s') ->
  WP (let! v := view in
      let! id := gets localID in
      if hv_leader v =? id then ret tt
      else
        do! checkView now rnd msg;
        let! v := view in
        if negb (hv_leader v =? hm_From msg) then ret tt else k v) (fun _ => node_inv) s.
Proof.
  intros Hi Hk. apply wp_bind, wp_view, wp_bind, wp_gets. destruct (_ =? _); [by apply wp_ret|].
  apply wp_bind, wp_checkView; [done|]. intros s' Hs. apply wp_bind, wp_view.
  destruct (negb _); [apply wp_ret, Hs|auto].
Qed.

(** The vote is added and, with one more than a quorum, the next step is made. *)
Lemma wp_add_vote p from sig (next : M HotstuffManager unit) s :
  node_inv s -> (p = PhaseNew \/ p = PhasePrepare \/ p = PhasePreCommit \/ p = PhaseCommit) ->
  (forall s', node_inv s' -> same_view s s' -> phase s = p -> WP next (fun _ => node_inv) s') ->
  WP (do! expect_phase p;
      do! quorum_add p from sig;
      let! v := view in
      let! n := quorumSize in
      if n + 1 <=? MultiSignature_Len (phase_quorum p v) then next else ret tt) (fun _ => node_inv) s.
Proof.
  intros Hi Hp Hk. apply wp_bind, wp_expect_phase; [done|]. intros Hph.
  apply wp_bind, wp_quorum_add; [done| | |].
  - rewrite Hph. destruct Hp as [->|[->|[->| ->]]]; cbn; lia.
  - by destruct Hp as [->|[->|[->| ->]]].
  - intros s' Hi' Hs. apply wp_bind, wp_view, wp_bind, wp_quorumSize.
    destruct (_ <=? _); [auto|by apply wp_ret].
Qed.

Lemma handleNewViewVoteMsg_inv now rnd msg s :
  node_inv s -> WP (handleNewViewVoteMsg now rnd msg) (fun _ => node_inv) s.
Proof.
  intros Hi. apply wp_leader_handler; [done|]. intros s1 _ [Hi1 _ _ _ _].
  apply wp_bind, wp_view, wp_bind.
  assert (K : forall s2, node_inv s2 -> WP (do! expect_phase PhaseNew;
      do! quorum_add PhaseNew (hm_From msg) (hm_Sig msg);
      let! v := view in
      let! n := quorumSize in
      if n + 1 <=? MultiSignature_Len (hv_highQuorum v) then tryPropose else ret tt) (fun _ => node_inv) s2).
  { intros s2 H2. apply (wp_add_vote PhaseNew); [done|by left|]. intros; by apply tryPropose_inv. }
  case_bool_decide as Hp; [|by apply wp_ret, K].
  destruct (inv_advance PhaseNew s1 Hi1) as [Ha Hu]; [by rewrite Hp|cbn; lia|].
  apply wp_bind, wp_upd_view, wp_bind, wp_sign; try done. intros sig w s2 H2.
  apply wp_quorum_add; [done|by left|done|]. intros s3 H3 _. by apply K.
Qed.

Lemma handlePrepareVoteMsg_inv now rnd msg s :
  node_inv s -> WP (handlePrepareVoteMsg now rnd msg) (fun _ => node_inv) s.
Proof.
  intros Hi. apply wp_leader_handler; [done|]. intros s1 _ [Hi1 _ _ _ _].
  apply (wp_add_vote PhasePrepare); [done|auto|]. intros; by apply tryPreCommit_inv.
Qed.

Lemma handlePreCommitVoteMsg_inv now rnd msg s :
  node_inv s -> WP (handlePreCommitVoteMsg now rnd msg) (fun _ => node_inv) s.
Proof.
  intros Hi. apply wp_leader_handler; [done|]. intros s1 Hl [Hi1 Hid _ Hv _].
  apply (wp_add_vote PhasePreCommit); [done|auto|]. intros s2 H2 (Hid2 & _ & _ & _ & Hl2 & _) Hp.
  apply tryCommit_inv; [done|]. intros _. destruct Hv as [?|[_ Hv]]; congruence.
Qed.

Lemma handleCommitVoteMsg_inv now rnd msg s :
  node_inv s -> WP (handleCommitVoteMsg now rnd msg) (fun _ => node_inv) s.
Proof.
  intros Hi. apply wp_leader_handler; [done|]. intros s1 _ [Hi1 _ _ _ _].
  apply (wp_add_vote PhaseCommit); [done|auto|]. intros; by apply tryDecide_inv.
Qed.

Lemma vote_inv typ p msg s :
  node_inv s -> rb_RawHeader (hm_Data msg) = header s -> phase s = p ->
  (p <> PhaseCommit -> unsigned p (header s) (calls s)) ->
  (p = PhasePrepare -> skip = false -> CProposed (hm_Data msg) ∈ calls s) ->
  WP (vote typ p msg) (fun _ => node_inv) s.
Proof.
  intros Hi Hh Hp Hu Hc. apply wp_bind, wp_gets, wp_bind, wp_sign; try done; [by rewrite Hp|].
  intros sig w s' Hi'. apply wp_log_call. by apply inv_quiet.
Qed.

Lemma handlePrepareMsg_inv now rnd msg s :
  node_inv s -> WP (handlePrepareMsg skip now rnd msg) (fun _ => node_inv) s.
Proof.
  intros Hi. apply wp_replica_handler; [done|]. intros s1 [Hi1 _ Hh _ _]. apply wp_bind.
  assert (K : forall s2, node_inv s2 -> header s2 = header s1 -> phase s2 = PhaseNew ->
    (skip = false -> CProposed (hm_Data msg) ∈ calls s2) ->
    WP (do! upd_view (set_hv_phase PhasePrepare);
        do! upd_view (set_quorum PhaseNew (hm_Quorum msg));
        do! upd_view (set_hv_txs (rb_MsgSet (hm_Data msg)));
        vote MsgVotePrepare PhasePrepare msg) (fun _ => node_inv) s2).
  { intros s2 H2 Hh2 Hp Hc. destruct (inv_advance PhasePrepare s2 H2) as [Ha Hu]; [by rewrite Hp|cbn; lia|].
    do 3 apply wp_bind, wp_upd_view. apply vote_inv; [|by rewrite <- Hh, <- Hh2|done..|auto].
    eapply core_txs; [exact Ha|by left]. }
  assert (K1 : forall s2, node_inv s2 -> header s2 = header s1 ->
    WP (do! expect_phase PhaseNew;
        do! (if skip then ret tt
             else do! service (app_OnPropose (mkSignedBlock (hm_Data msg) MultiSignature_zero));
                  log_call (CProposed (hm_Data msg)));
        do! upd_view (set_hv_phase PhasePrepare);
        do! upd_view (set_quorum PhaseNew (hm_Quorum msg));
        do! upd_view (set_hv_txs (rb_MsgSet (hm_Data msg)));
        vote MsgVotePrepare PhasePrepare msg) (fun _ => node_inv) s2).
  { intros s2 H2 Hh2. apply wp_bind, wp_expect_phase; [done|]. intros Hp. apply wp_bind.
    destruct skip eqn:Es; [by apply wp_ret, K|].
    apply wp_bind, wp_service; [done|]. intros [] w _. apply wp_log_call, K; [by apply core_quiet|done..|].
    intros _. left. }
  case_bool_decide as Hp; [|by apply wp_ret, K1]. apply wp_upd_view, K1; [|done].
  by destruct (inv_advance PhaseNew s1 Hi1) as [Ha _]; [rewrite Hp|cbn; lia|].
Qed.

Lemma handlePreCommitMsg_inv now rnd msg s :
  node_inv s -> WP (handlePreCommitMsg now rnd msg) (fun _ => node_inv) s.
Proof.
  intros Hi. apply wp_replica_handler; [done|]. intros s1 [Hi1 _ Hh _ _].
  apply wp_bind, wp_expect_phase; [done|]. intros Hp.
  destruct (inv_advance PhasePreCommit s1 Hi1) as [Ha Hu]; [by rewrite Hp|cbn; lia|].
  do 2 apply wp_bind, wp_upd_view. by apply vote_inv.
Qed.

Lemma handleCommitMsg_inv now rnd msg s :
  hm_Type msg = MsgCommit -> node_inv s -> WP (handleCommitMsg now rnd msg) (fun _ => node_inv) s.
Proof.
  intros Ht Hi. apply wp_replica_handler; [done|]. intros s1 [Hi1 _ Hh _ Hq].
  apply wp_bind, wp_expect_phase; [done|]. intros Hp. rewrite Ht in Hq. specialize (Hq ltac:(done)).
  destruct (inv_advance PhaseCommit s1 Hi1) as [Ha Hu]; [by rewrite Hp| |].
  { intros _ _ _. unfold view_block. rewrite Hh. exact Hq. }
  do 2 apply wp_bind, wp_upd_view. by apply vote_inv.
Qed.

Lemma handleDecideMsg_inv now rnd msg s :
  node_inv s -> WP (handleDecideMsg now rnd msg) (fun _ => node_inv) s.
Proof.
  intros Hi. apply wp_replica_handler; [done|]. intros s1 [Hi1 _ Hh _ _].
  apply wp_bind, wp_expect_phase; [done|]. intros Hp.
  destruct (inv_advance PhaseDecide s1 Hi1) as [Ha _]; [by rewrite Hp|rewrite Hp; cbn; lia|].
  do 2 apply wp_bind, wp_upd_view.
  destruct (set_quorum_inv PhaseCommit (hm_Quorum msg) _ Ha) as [Hb _]; [right; cbn; lia|done|].
  apply wp_bind, wp_view, wp_bind, wp_OnViewDone; [exact Hb| |].
  - intros. by apply (inv_commit _ Hb).
  - intros w s2 H2. apply wp_upd_view. by destruct (inv_advance PhaseFinal _ H2) as [? _]; [|cbn; lia|].
Qed.

Lemma HandleMessage_inv now rnd msg s :
  node_inv s -> WP (HandleMessage skip now rnd msg) (fun _ => node_inv) s.
Proof.
  intros Hi. unfold HandleMessage.
  destruct (Z.eqb_spec (hm_Type msg) MsgNewView); [by apply handleNewViewVoteMsg_inv|].
  destruct (Z.eqb_spec (hm_Type msg) MsgPrepare); [by apply handlePrepareMsg_inv|].
  destruct (Z.eqb_spec (hm_Type msg) MsgVotePrepare); [by apply handlePrepareVoteMsg_inv|].
  destruct (Z.eqb_spec (hm_Type msg) MsgPreCommit); [by apply handlePreCommitMsg_inv|].
  destruct (Z.eqb_spec (hm_Type msg) MsgVotePreCommit); [by apply handlePreCommitVoteMsg_inv|].
  destruct (Z.eqb_spec (hm_Type msg) MsgCommit); [by apply handleCommitMsg_inv|].
  destruct (Z.eqb_spec (hm_Type msg) MsgVoteCommit); [by apply handleCommitVoteMsg_inv|].
  destruct (Z.eqb_spec (hm_Type msg) MsgDecide); [by apply handleDecideMsg_inv|].
  by apply wp_throw.
Qed.

(** *** newView by the clock *)

Lemma NewView_genesis_inv s :
  node_inv s -> phase s = PhaseInit -> rh_Height (header s) = 0 -> WP NewView_genesis (fun _ => node_inv) s.
Proof.
  intros Hi Hp Hh. destruct (inv_advance PhaseFinal s Hi) as [Ha _]; [by rewrite Hp|done|].
  apply wp_bind, wp_upd_view, wp_bind, wp_view, wp_bind, wp_service; [done|]. intros txs w _.
  apply wp_bind, wp_gets. cbv zeta. destruct (negb _); [by apply wp_ret|].
  apply wp_bind, wp_upd_view, wp_bind, wp_view, wp_bind.
  assert (Ht : node_inv (with_view (set_hv_txs txs) (with_env w (with_view (set_hv_phase PhaseFinal) s)))).
  { eapply core_txs; [exact Ha|by right]. }
  apply wp_sign; try done. intros sig w' s' Hi'. apply wp_bind, wp_try_outcome; [done|]. intros q.
  apply wp_bind, wp_OnViewDone_ignored; [done|done|]. intros r w2 s2 H2. by apply wp_ret.
Qed.

Lemma NewView_inv now rnd s : node_inv s -> WP (NewView now rnd) (fun _ => node_inv) s.
Proof.
  intros Hi. apply wp_bind, wp_newView; [done|]. intros s1 H1 _ _. apply wp_bind, wp_view.
  case_bool_decide; [by apply wp_ret|]. apply wp_bind, wp_check; [done|].
  intros Hp%bool_decide_eq_true_1. destruct (Z.eqb_spec (rh_Height (header s1)) 0); [by apply NewView_genesis_inv|].
  destruct (inv_advance PhaseNew s1 H1) as [Ha Hu]; [by rewrite Hp|cbn; lia|].
  apply wp_bind, wp_upd_view, wp_bind, wp_sign; try done. intros sig w s2 Hs2. apply wp_bind, wp_gets.
  destruct (_ =? _).
  - apply wp_quorum_add; [done|by left|done|]. by intros.
  - apply wp_log_call. by apply inv_quiet.
Qed.

Lemma MineBlock_leader_inv since s :
  node_inv s -> hv_leader (curView s) = localID s -> WP (MineBlock_leader since) (fun _ => node_inv) s.
Proof.
  intros Hi Hl. apply wp_bind, wp_view, wp_bind, wp_quorumSize.
  cbv beta zeta. destruct (phase s); try by apply wp_ret.
  all: destruct (_ && _); [|by apply wp_ret].
  - by apply tryPropose_inv.
  - by apply tryPreCommit_inv.
  - by apply tryCommit_inv.
  - by apply tryDecide_inv.
Qed.

Lemma MineBlock_tick_inv now since now' rnd s :
  node_inv s -> WP (MineBlock_tick now since now' rnd) (fun _ => node_inv) s.
Proof.
  intros Hi. apply wp_bind, wp_view, wp_bind, wp_gets, wp_bind, wp_try_err; [|intros; by apply wp_ret].
  destruct (_ =? _); [|eapply wp_mono; [by apply NewView_inv|intros; by apply wp_ret]].
  destruct (Z.eqb_spec (hv_leader (curView s)) (localID s)); [|by apply wp_ret, wp_ret].
  eapply wp_mono; [by apply MineBlock_leader_inv|]. intros; by apply wp_ret.
Qed.

Lemma run_input_inv i s : node_inv s -> node_inv (run_input i s).
Proof.
  intros Hi. destruct i; simpl; [|by apply wp_final, HandleMessage_inv|done].
  by apply wp_final, MineBlock_tick_inv.
Qed.

(** The name of a node is never written. *)
Definition same_id s s' : Prop := localID s' = localID s.
#[local] Instance same_id_preorder : PreOrder same_id.
Proof. split; [done|]. intros ??? H1 H2. unfold same_id in *. congruence. Qed.

Lemma keeps_upd_view f : Keeps same_id (upd_view (W := W) f).
Proof. by apply keeps_modify. Qed.
Lemma keeps_log_call c : Keeps same_id (log_call (W := W) c).
Proof. by apply keeps_modify. Qed.
Lemma keeps_service {A} (m : M W A) : Keeps same_id (service m).
Proof. intros s. unfold service. by destruct (m (env s)). Qed.
#[local] Hint Resolve keeps_upd_view keeps_log_call keeps_service : keeps.


(** Reached from start-up by any inputs. *)
Definition reached id s : Prop := exists w l, s = run_inputs l (NewHotstuffManager id w).

Lemma reached_ind (P : node -> Prop) id s :
  (forall w, P (NewHotstuffManager id w)) -> (forall i s, P s -> P (run_input i s)) -> reached id s -> P s.
Proof.
  intros H1 H2 (w & l & ->). unfold run_inputs. generalize (H1 w). generalize (NewHotstuffManager id w).
  induction l as [|i l IH]; intros s Hs; [done|]. by apply IH, H2.
Qed.

Lemma reached_inv id s : reached id s -> node_inv s.
Proof.
  apply reached_ind; [|apply run_input_inv].
  intros w. constructor; intros; repeat match goal with Hin : _ ∈ calls _ |- _ => by apply not_elem_of_nil in Hin end;
    simpl in *; (done || lia).
Qed.


(** C9. Whatever messages a keeper receives and however the clock and the rest of
    its node move, it signs at most one block of a slot in each of the phases
    new-view, prepare, pre-commit and decide; and it signs a block in the prepare
    phase only after its own application made or validated it. *)
Theorem signs_once id s :
  reached id s ->
  (forall b1 b2 p, CSign b1 p ∈ calls s -> CSign b2 p ∈ calls s -> p <> PhaseCommit ->
     rh_Slot (rb_RawHeader b1) = rh_Slot (rb_RawHeader b2) -> b1 = b2) /\
  (skip = false -> forall b, CSign b PhasePrepare ∈ calls s -> CProposed b ∈ calls s).
Proof.
  intros Hr%reached_inv. split; [exact (ni_once _ _ _ _ _ _ _ Hr)|].
  intros Hs b. exact (ni_proposed _ _ _ _ _ _ _ Hr b Hs).
Qed.
End Node.

(** ** Several keepers *)

Section View.
Context `{!Hashes, !Signatures, !Codec RawHeader, !Codec RawBlock} {W : Type}
  `{!ConsensusApp W, !IRole W, !ConsensusAppLaws W}.
Context `{!Inj (=) (=) RawHeader_Hash, !Inj (=) (=) RawBlock_Hash}.
(** Signed hashes do not collide either, for blocks and phases. *)
Context (CalcHash_inj : forall b1 b2 p1 p2,
  CalcHash (RawBlock_Hash b1) p1 = CalcHash (RawBlock_Hash b2) p2 -> RawBlock_Hash b1 = RawBlock_Hash b2 /\ p1 = p2).
Local Abbreviation node := (HotstuffManager (W := W)).

(** The honest keepers, by name; [accounts] are all those that own a signing
    key, in whatever role. *)
Variable honest : gmap Z node.
Variable accounts : gset Z.




End View.
