(* ===== verification/HotStuffLive.v ===== *)
(** * HotStuffLive: a view that completes

    A replica that receives the leader's four messages of a view, with quorums
    and signatures that check, goes through the phases and hands the block over. *)

From S2P Require Import Prelude GoMonad Codec Segments Types Tx HotStuff.

Section Live.
Context `{!Hashes, !Signatures, !Codec RawHeader, !Codec RawBlock} {W : Type} `{!ConsensusApp W, !IRole W}.
Local Abbreviation node := (HotstuffManager (W := W)).
Implicit Types (s : node).

(** A service call that is answered, whatever the state of the services. *)
Definition answers {A} (m : M W A) (P : A -> Prop) : Prop :=
  forall w, exists a w', m w = (Ok a, w') /\ P a.

(** The services of the replica work for the block [b]. *)
Variable b : RawBlock.
Context (sign_works : forall id h, answers (RoleSign id h SigBLS) (fun _ => True))
        (propose_works : answers (app_OnPropose (mkSignedBlock b MultiSignature_zero)) (fun _ => True))
        (done_works : forall q, answers (app_OnViewDone (mkSignedBlock b q)) (fun _ => True)).

Variables (leader : Z) (now rnd : Z).

(** A message of the leader that passes every check of [checkView]. *)
Record good_msg (msg : HotstuffMessage) (typ : Z) : Prop := {
  gm_type : hm_Type msg = typ;
  gm_from : hm_From msg = leader;
  gm_data : hm_Data msg = b;
  gm_size w : GetQuorumSize w <= MultiSignature_Len (hm_Quorum msg);
  gm_quorum : let p := quorum_phase typ in
    answers (RoleVerifyMulti (CalcHash (RawBlock_Hash (quorum_block p msg (rb_MsgSet b))) p) (hm_Quorum msg))
      (eq true);
  gm_sign : answers (RoleVerify leader (CalcHash (RawBlock_Hash b) (sign_phase typ)) (hm_Sig msg)) (eq true);
}.

(** In the view of [b], as a replica, in phase [p]. *)
Record in_view (p : PhaseState) s : Prop := {
  iv_header : hv_header (curView s) = rb_RawHeader b;
  iv_leader : hv_leader (curView s) = leader;
  iv_other : localID s <> leader;
  iv_member : existsb (fun m => m =? leader) (hv_members (curView s)) = true;
  iv_phase : hv_phase (curView s) = p;
  iv_txs : 2 <= phase_u16 p -> hv_txs (curView s) = rb_MsgSet b;
}.

Lemma runs_service {A} (m : M W A) P (Q : A -> node -> Prop) s :
  answers m P ->
  (forall a w, P a -> Q a (mkHotstuffManager (localID s) (curView s) w (calls s))) -> runs (service m) Q s.
Proof.
  intros Hm HQ. destruct (Hm (env s)) as (a & w & E & HP).
  exists a. eexists. unfold service. rewrite E. split; [done|]. by apply HQ.
Qed.

Lemma runs_check_quorum msg typ p (Q : unit -> node -> Prop) s :
  good_msg msg typ -> in_view p s -> (quorum_phase typ = PhaseNew \/ 2 <= phase_u16 p \/ quorum_phase typ = PhaseDecide) ->
  (forall w c, Q tt (mkHotstuffManager (localID s) (curView s) w (c ++ calls s))) ->
  runs (check_quorum msg) Q s.
Proof.
  intros [Ht Hf Hd Hn Hq _] Hv Hp HQ. unfold check_quorum. rewrite Ht. case_bool_decide as E.
  - apply runs_ret. specialize (HQ (env s) []). by destruct s.
  - apply runs_bind, runs_gets, runs_bind, runs_check; [apply negb_true_iff, Z.ltb_ge, Hn|].
    apply runs_bind, runs_gets, runs_bind. eapply (runs_service _ (eq true)).
    { destruct Hp as [Hp|[Hp|Hp]]; [rewrite Hp in *; exact Hq| |done].
      rewrite (iv_txs _ _ Hv Hp). exact Hq. }
    intros ok w <-. apply runs_bind, runs_check; [done|]. apply runs_modify.
    apply (HQ w [CVerified (GetQuorumSize (env s)) _ (hm_Quorum msg)]).
Qed.

Lemma runs_check_sign msg typ (Q : unit -> node -> Prop) s :
  good_msg msg typ -> (forall w, Q tt (mkHotstuffManager (localID s) (curView s) w (calls s))) ->
  runs (check_sign msg) Q s.
Proof.
  intros [Ht Hf Hd _ _ Hs] HQ. unfold check_sign. rewrite Ht. case_bool_decide as E.
  - apply runs_ret. specialize (HQ (env s)). by destruct s.
  - apply runs_bind. eapply (runs_service _ (eq true)).
    { rewrite Hf, Hd. exact Hs. } intros ok w <-. by apply runs_check.
Qed.

Lemma runs_checkView msg typ p (Q : unit -> node -> Prop) s :
  good_msg msg typ -> in_view p s -> (quorum_phase typ = PhaseNew \/ 2 <= phase_u16 p \/ quorum_phase typ = PhaseDecide) ->
  (forall w c, Q tt (mkHotstuffManager (localID s) (curView s) w (c ++ calls s))) ->
  runs (checkView now rnd msg) Q s.
Proof.
  intros Hg Hv Hp HQ.
  assert (Hs : same_header (curView s) msg = true).
  { unfold same_header, MsgID_Equal. rewrite (iv_header _ _ Hv), (gm_data _ _ Hg). by apply bool_decide_eq_true_2. }
  apply runs_bind, runs_gets, runs_bind. rewrite Hs. apply runs_ret, runs_bind, runs_gets, runs_bind, runs_check; [done|].
  apply runs_bind, runs_check; [by rewrite (gm_from _ _ Hg), (iv_member _ _ Hv)|].
  apply runs_bind. eapply runs_check_quorum; [done..|]. intros w c.
  eapply runs_check_sign; [done|]. intros w'. apply HQ.
Qed.

(** A replica's handler gets to its own part. *)
Lemma runs_replica msg typ p (k : hs_view -> M HotstuffManager unit) (Q : unit -> node -> Prop) s :
  good_msg msg typ -> in_view p s -> (quorum_phase typ = PhaseNew \/ 2 <= phase_u16 p \/ quorum_phase typ = PhaseDecide) ->
  (forall s', in_view p s' -> (forall c, c ∈ calls s -> c ∈ calls s') -> runs (k (curView s')) Q s') ->
  runs (let! v := view in
      let! id := gets localID in
      if hv_leader v =? id then ret tt
      else
        do! checkView now rnd msg;
        let! v := view in
        if negb (hv_leader v =? hm_From msg) then ret tt else k v) Q s.
Proof.
  intros Hg Hv Hp Hk. apply runs_bind, runs_gets, runs_bind, runs_gets.
  destruct (Z.eqb_spec (hv_leader (curView s)) (localID s)) as [E|_].
  { destruct (iv_other _ _ Hv). by rewrite <- E, (iv_leader _ _ Hv). }
  apply runs_bind. eapply runs_checkView; [done..|]. intros w c. apply runs_bind, runs_gets. cbn.
  rewrite (gm_from _ _ Hg), (iv_leader _ _ Hv), Z.eqb_refl. cbn.
  apply (Hk (mkHotstuffManager (localID s) (curView s) w (c ++ calls s))); [by destruct Hv|cbn; set_solver].
Qed.

Lemma runs_vote msg typ typ' p (Q : unit -> node -> Prop) s :
  good_msg msg typ' -> (forall w c, Q tt (mkHotstuffManager (localID s) (curView s) w (c ++ calls s))) -> runs (vote typ p msg) Q s.
Proof.
  intros Hg HQ. apply runs_bind, runs_gets, runs_bind, runs_bind, runs_gets, runs_bind.
  eapply runs_service; [apply sign_works|]. intros sig w _. apply runs_bind, runs_modify, runs_ret, runs_modify.
  apply (HQ w [CPublish _; CSign _ _]).
Qed.

(** The leader's message of a step takes the replica to the next phase. *)
Lemma runs_prepare msg p s :
  good_msg msg MsgPrepare -> in_view p s -> p = PhaseInit \/ p = PhaseNew ->
  runs (HandleMessage false now rnd msg) (fun _ s' => in_view PhasePrepare s' /\ CProposed b ∈ calls s') s.
Proof.
  intros Hg Hv Hp. unfold HandleMessage. rewrite (gm_type _ _ Hg). change (MsgPrepare =? MsgNewView) with false.
  change (MsgPrepare =? MsgPrepare) with true. cbv iota beta.
  eapply runs_replica; [done..|by left|]. intros s1 H1 _. apply runs_bind.
  assert (K : forall s2, in_view PhaseNew s2 -> runs
     (do! expect_phase PhaseNew;
      do! (do! service (app_OnPropose (mkSignedBlock (hm_Data msg) MultiSignature_zero)); log_call (CProposed (hm_Data msg)));
      do! upd_view (set_hv_phase PhasePrepare);
      do! upd_view (set_quorum PhaseNew (hm_Quorum msg));
      do! upd_view (set_hv_txs (rb_MsgSet (hm_Data msg)));
      vote MsgVotePrepare PhasePrepare msg) (fun _ s' => in_view PhasePrepare s' /\ CProposed b ∈ calls s') s2).
  { intros s2 H2. apply runs_bind, runs_bind, runs_gets, runs_check; [by apply bool_decide_eq_true_2, H2|].
    apply runs_bind, runs_bind. rewrite (gm_data _ _ Hg). eapply runs_service; [exact propose_works|].
    intros [] w _. apply runs_modify. do 3 apply runs_bind, runs_modify. eapply runs_vote; [exact Hg|].
    intros w' c. split; [by destruct H2; constructor|]. cbn. set_solver. }
  case_bool_decide as E.
  - apply runs_modify, K. destruct H1. by constructor.
  - apply runs_ret, K. destruct Hp as [->| ->]; [|done]. by destruct E; apply H1.
Qed.

Lemma runs_preCommit msg s :
  good_msg msg MsgPreCommit -> in_view PhasePrepare s ->
  runs (HandleMessage false now rnd msg) (fun _ s' => in_view PhasePreCommit s' /\ forall c, c ∈ calls s -> c ∈ calls s') s.
Proof.
  intros Hg Hv. unfold HandleMessage. rewrite (gm_type _ _ Hg).
  change (runs (handlePreCommitMsg now rnd msg) (fun _ s' => in_view PhasePreCommit s' /\ forall c, c ∈ calls s -> c ∈ calls s') s).
  eapply runs_replica; [done..|right; left; cbn; lia|]. intros s1 H1 Hc.
  apply runs_bind, runs_bind, runs_gets, runs_check; [by apply bool_decide_eq_true_2, H1|].
  do 2 apply runs_bind, runs_modify. eapply runs_vote; [exact Hg|]. intros w c. split; [|cbn; set_solver].
  destruct H1 as [? ? ? ? ? Ht]. constructor; try done; intros _; apply Ht; cbn; lia.
Qed.

Lemma runs_commit msg s :
  good_msg msg MsgCommit -> in_view PhasePreCommit s ->
  runs (HandleMessage false now rnd msg) (fun _ s' => in_view PhaseCommit s' /\ forall c, c ∈ calls s -> c ∈ calls s') s.
Proof.
  intros Hg Hv. unfold HandleMessage. rewrite (gm_type _ _ Hg).
  change (runs (handleCommitMsg now rnd msg) (fun _ s' => in_view PhaseCommit s' /\ forall c, c ∈ calls s -> c ∈ calls s') s).
  eapply runs_replica; [done..|right; left; cbn; lia|]. intros s1 H1 Hc.
  apply runs_bind, runs_bind, runs_gets, runs_check; [by apply bool_decide_eq_true_2, H1|].
  do 2 apply runs_bind, runs_modify. eapply runs_vote; [exact Hg|]. intros w c. split; [|cbn; set_solver].
  destruct H1 as [? ? ? ? ? Ht]. constructor; try done; intros _; apply Ht; cbn; lia.
Qed.

Lemma runs_decide msg s :
  good_msg msg MsgDecide -> in_view PhaseCommit s ->
  runs (HandleMessage false now rnd msg)
    (fun _ s' => in_view PhaseFinal s' /\ CDone (mkSignedBlock b (hm_Quorum msg)) ∈ calls s' /\
       forall c, c ∈ calls s -> c ∈ calls s') s.
Proof.
  intros Hg Hv. unfold HandleMessage. rewrite (gm_type _ _ Hg).
  change (runs (handleDecideMsg now rnd msg)
    (fun _ s' => in_view PhaseFinal s' /\ CDone (mkSignedBlock b (hm_Quorum msg)) ∈ calls s' /\
       forall c, c ∈ calls s -> c ∈ calls s') s).
  eapply runs_replica; [done..|right; left; cbn; lia|]. intros s1 H1 Hc.
  apply runs_bind, runs_bind, runs_gets, runs_check; [by apply bool_decide_eq_true_2, H1|].
  do 2 apply runs_bind, runs_modify. apply runs_bind, runs_gets, runs_bind.
  assert (E : view_block (set_quorum PhaseCommit (hm_Quorum msg) (set_hv_phase PhaseDecide (curView s1))) = b).
  { unfold view_block. cbn. rewrite (iv_header _ _ H1), (iv_txs _ _ H1); [by destruct b|cbn; lia]. }
  cbn [curView]. rewrite E.
  apply runs_bind, runs_modify. eapply runs_service; [apply done_works|]. intros [] w _.
  apply runs_modify. split_and!; [|cbn; set_solver..].
  destruct H1 as [? ? ? ? ? Ht]. constructor; try done; intros _; apply Ht; cbn; lia.
Qed.

(** C10. A replica that is in the leader's view and receives its four messages
    for one block, each with a quorum and a signature that check, hands exactly
    that block over with the commit quorum it was sent, and is done with the
    view. *)
Theorem view_completes m1 m2 m3 m4 s :
  good_msg m1 MsgPrepare -> good_msg m2 MsgPreCommit -> good_msg m3 MsgCommit -> good_msg m4 MsgDecide ->
  in_view PhaseInit s \/ in_view PhaseNew s ->
  exists s', for_each [m1; m2; m3; m4] (HandleMessage false now rnd) s = (Ok tt, s') /\
    hv_phase (curView s') = PhaseFinal /\ CProposed b ∈ calls s' /\
    CDone (mkSignedBlock b (hm_Quorum m4)) ∈ calls s'.
Proof.
  intros H1 H2 H3 H4 Hs.
  assert (runs (for_each [m1; m2; m3; m4] (HandleMessage false now rnd))
    (fun _ s' => hv_phase (curView s') = PhaseFinal /\ CProposed b ∈ calls s' /\
       CDone (mkSignedBlock b (hm_Quorum m4)) ∈ calls s') s) as ([] & s' & E & HQ); [|by exists s'].
  assert (exists p, in_view p s /\ (p = PhaseInit \/ p = PhaseNew)) as (p & Hp & Hp') by (destruct Hs; eauto).
  apply runs_bind. eapply runs_mono; [by eapply runs_prepare|]. intros [] s1 [Hv1 Hc1].
  apply runs_bind. eapply runs_mono; [by eapply runs_preCommit|]. intros [] s2 [Hv2 Hc2].
  apply runs_bind. eapply runs_mono; [by eapply runs_commit|]. intros [] s3 [Hv3 Hc3].
  apply runs_bind. eapply runs_mono; [by eapply runs_decide|]. intros [] s4 (Hv4 & Hd & Hc4).
  apply runs_ret. split_and!; [apply Hv4|auto|done].
Qed.
End Live.
