(* ===== verification/HotStuffFork.v ===== *)
(** * HotStuffFork: what a commit vote is given for

    A replica checks the pre-commit quorum of a commit message over the content it
    validated itself, and then signs the content the message carries.  When the view is
    not done by the next slot it votes again, for its own content. *)

From S2P Require Import Prelude GoMonad Codec Segments Types Tx HotStuff HotStuffLive.

Section Fork.
Context `{!Hashes, !Signatures, !Codec RawHeader, !Codec RawBlock} {W : Type} `{!ConsensusApp W, !IRole W}.
Local Abbreviation node := (HotstuffManager (W := W)).
Implicit Types (s : node).

(** The block validated, and another content for its header. *)
Variables (h : RawHeader) (txs other : MsgSet).
Context (sign_works : forall id d, answers (RoleSign (W := W) id d SigBLS) (fun _ => True)).
Variables (leader now rnd : Z).

(** A commit message of the leader: its quorum is over the content that was validated, what
    it carries is the other one. *)
Record commit_for_other (msg : HotstuffMessage) : Prop := {
  co_type : hm_Type msg = MsgCommit;
  co_from : hm_From msg = leader;
  co_data : hm_Data msg = mkRawBlock h other;
  co_size (w : W) : GetQuorumSize w <= MultiSignature_Len (hm_Quorum msg);
  co_quorum : answers (RoleVerifyMulti (W := W) (CalcHash (RawBlock_Hash (mkRawBlock h txs)) PhasePreCommit) (hm_Quorum msg)) (eq true);
  co_sign : answers (RoleVerify (W := W) leader (CalcHash (RawBlock_Hash (mkRawBlock h other)) PhaseCommit) (hm_Sig msg)) (eq true);
}.

Lemma runs_sign b p (Q : Signature -> node -> Prop) s :
  (forall sig w, Q sig (mkHotstuffManager (localID s) (curView s) w (CSign b p :: calls s))) -> runs (sign_block b p) Q s.
Proof.
  intros HQ. apply runs_bind, runs_gets, runs_bind. eapply (runs_service _ _ _ _ (sign_works _ _)). intros sig w _.
  apply runs_bind, runs_modify, runs_ret. apply HQ.
Qed.

Lemma MultiSignature_Add_total q id sig w : MultiSignature_Add q id sig <> Panic w.
Proof. unfold MultiSignature_Add. repeat case_match; done. Qed.
Lemma runs_try_add p id sig (Q : option unit -> node -> Prop) s :
  (forall r v, v = curView s \/ (exists q, v = set_quorum p q (curView s)) -> Q r (mkHotstuffManager (localID s) v (env s) (calls s))) ->
  runs (try_err (quorum_add p id sig)) Q s.
Proof.
  intros HQ. unfold runs, try_err, quorum_add, bind, view, gets, of_outcome. destruct (MultiSignature_Add _ id sig) as [q|e|w] eqn:E.
  - eexists _, _. split; [reflexivity|]. apply HQ. right. by exists q.
  - eexists _, _. split; [reflexivity|]. destruct s as [i v w cs]. apply HQ. by left.
  - by apply MultiSignature_Add_total in E.
Qed.

Lemma runs_commit_other msg s : commit_for_other msg -> in_view (mkRawBlock h txs) leader PhasePreCommit s ->
  runs (HandleMessage false now rnd msg) (fun _ s2 => in_view (mkRawBlock h txs) leader PhaseCommit s2 /\
    hv_commitQuorum (curView s2) = hv_commitQuorum (curView s) /\ hv_slot (curView s2) = hv_slot (curView s) /\
    CSign (mkRawBlock h other) PhaseCommit ∈ calls s2) s.
Proof.
  intros [Ht Hf Hd Hn Hq Hs] Hv. unfold HandleMessage. rewrite Ht. change (runs (handleCommitMsg now rnd msg) (fun _ s2 => in_view (mkRawBlock h txs) leader PhaseCommit s2 /\
    hv_commitQuorum (curView s2) = hv_commitQuorum (curView s) /\ hv_slot (curView s2) = hv_slot (curView s) /\
    CSign (mkRawBlock h other) PhaseCommit ∈ calls s2) s).
  apply runs_bind, runs_gets, runs_bind, runs_gets.
  destruct (Z.eqb_spec (hv_leader (curView s)) (localID s)) as [E|_]; [destruct (iv_other _ _ _ _ Hv); by rewrite <-E, (iv_leader _ _ _ _ Hv)|].
  assert (Hsame : same_header (curView s) msg = true).
  { unfold same_header, MsgID_Equal. rewrite (iv_header _ _ _ _ Hv), Hd. by apply bool_decide_eq_true_2. }
  apply runs_bind, runs_bind, runs_gets, runs_bind. rewrite Hsame. apply runs_ret, runs_bind, runs_gets, runs_bind, runs_check; [done|].
  apply runs_bind, runs_check; [by rewrite Hf, (iv_member _ _ _ _ Hv)|]. apply runs_bind. unfold check_quorum. rewrite Ht.
  apply runs_bind, runs_gets, runs_bind, runs_check; [apply negb_true_iff, Z.ltb_ge, Hn|]. apply runs_bind, runs_gets, runs_bind.
  change (quorum_phase MsgCommit) with PhasePreCommit. rewrite (iv_txs _ _ _ _ Hv) by (cbn; lia).
  assert (Eq : quorum_block PhasePreCommit msg (rb_MsgSet (mkRawBlock h txs)) = mkRawBlock h txs) by (unfold quorum_block; by rewrite Hd). rewrite Eq.
  eapply (runs_service _ _ _ _ Hq). intros ok w <-. apply runs_bind, runs_check; [done|]. apply runs_modify. unfold check_sign. rewrite Ht.
  apply runs_bind. cbn [bool_decide]. rewrite Hf, Hd. eapply (runs_service _ _ _ _ Hs). intros ok w2 <-. apply runs_check; [done|].
  apply runs_bind, runs_gets. cbn [curView]. rewrite (iv_leader _ _ _ _ Hv), Z.eqb_refl. cbn [negb].
  apply runs_bind, runs_bind, runs_gets, runs_check; [by apply bool_decide_eq_true_2, Hv|]. do 2 apply runs_bind, runs_modify.
  apply runs_bind, runs_gets, runs_bind, runs_sign. intros sig w3. apply runs_modify. rewrite Hd. split_and!; try done; [|cbn; set_solver].
  destruct Hv as [? ? ? ? ? Hx]. by constructor.
Qed.

(** In the next slots a replica that has not seen the block done votes once more. *)
Lemma runs_reconsensus now2 rnd2 s : in_view (mkRawBlock h txs) leader PhaseCommit s ->
  (forall w : W, MultiSignature_Len (hv_commitQuorum (curView s)) < GetQuorumSize w) -> hv_slot (curView s) <> slot_of now2 ->
  (exists rh w, CreateBlockHeader (slot_of now2) (env s) = (Ok rh, w) /\ rh_Height rh <= rh_Height h) -> rh_Slot h < slot_of now2 < u64 (rh_Slot h + 20) ->
  runs (NewView now2 rnd2) (fun _ s2 => CSign (mkRawBlock h txs) PhaseCommit ∈ calls s2 /\ forall c, c ∈ calls s -> c ∈ calls s2) s.
Proof.
  intros Hv Hq Hslot (rh & w & Hmake & Hrh) [Hs1 Hs2]. pose proof (iv_header _ _ _ _ Hv) as Hh. cbn [rb_RawHeader] in Hh. pose proof (iv_txs _ _ _ _ Hv ltac:(cbn; lia)) as Ht.
  pose proof (iv_phase _ _ _ _ Hv) as Hp. apply runs_bind.
  apply (runs_mono _ (fun _ s2 => hv_phase (curView s2) = PhaseCommit /\ CSign (mkRawBlock h txs) PhaseCommit ∈ calls s2 /\ forall c, c ∈ calls s -> c ∈ calls s2)).
  2: { intros _ s2 (Hp2 & Hc). apply runs_bind, runs_gets. rewrite Hp2, bool_decide_eq_true_2 by done. by apply runs_ret. }
  destruct s as [id v w0 cs]. cbn [curView localID calls] in *.
  unfold newView. apply runs_bind, runs_gets. cbn [curView]. rewrite (proj2 (Z.eqb_neq _ _) Hslot).
  do 2 apply runs_bind, runs_modify. apply runs_bind. unfold newView_last. apply runs_bind, runs_gets, runs_bind, runs_gets.
  cbn [curView set_hv_slot set_hv_start hv_header hv_slot hv_phase hv_commitQuorum]. rewrite Hh, Hp, (proj2 (Z.ltb_lt _ _) Hs1), (proj2 (Z.leb_gt _ _) (Hq _)), andb_false_r.
  apply runs_ret. cbn [negb]. apply runs_bind. exists rh. eexists. unfold service. cbn [env curView localID calls] in *. rewrite Hmake. split; [reflexivity|]. apply runs_bind, runs_modify, runs_bind, runs_gets.
  cbn [curView set_hv_leader set_hv_slot set_hv_start hv_header hv_phase]. rewrite Hh, Hp, (proj2 (Z.leb_le _ _) Hrh), (proj2 (Z.ltb_lt _ _) Hs2).
  rewrite bool_decide_eq_true_2 by done. cbn [andb]. unfold newView_reconsensus. do 2 apply runs_bind, runs_modify. apply runs_bind, runs_gets.
  apply runs_bind, runs_sign. intros sig w2. unfold view_block. cbn [curView set_hv_phase set_quorum set_hv_leader set_hv_slot set_hv_start hv_header hv_txs]. rewrite Hh, Ht.
  apply runs_bind, runs_gets. cbn [rb_MsgSet localID hv_leader]. destruct (_ =? _).
  - apply runs_bind, runs_try_add. intros r v2 Ev. apply runs_ret. cbn. split; [by destruct Ev as [-> |[q ->]]|]. split; [by left|]. intros c Hc. by right.
  - apply runs_bind, runs_try_outcome; [intros; apply MultiSignature_Add_total|]. intros r. apply runs_modify. cbn. split; [done|].
    split; [by right; left|]. intros c Hc. by do 2 right.
Qed.

(** C39. Two commit votes.  A replica that has prepared a block signs in the commit phase
    whatever content the leader's commit message carries, if only the pre-commit quorum
    is the one over the content the replica has; and when the block is not done by
    one of the next slots, it signs in the commit phase the content it has, too.  So a
    dishonest leader gets commit votes of honest keepers on two blocks of one slot. *)
Theorem commit_equivocates msg now2 rnd2 s :
  commit_for_other msg -> in_view (mkRawBlock h txs) leader PhasePreCommit s ->
  (forall w : W, MultiSignature_Len (hv_commitQuorum (curView s)) < GetQuorumSize w) -> hv_slot (curView s) <> slot_of now2 ->
  (forall s1, HandleMessage false now rnd msg s = (Ok tt, s1) ->
     exists rh w, CreateBlockHeader (slot_of now2) (env s1) = (Ok rh, w) /\ rh_Height rh <= rh_Height h) ->
  rh_Slot h < slot_of now2 < u64 (rh_Slot h + 20) ->
  exists s1 s2, HandleMessage false now rnd msg s = (Ok tt, s1) /\ NewView now2 rnd2 s1 = (Ok tt, s2) /\
    CSign (mkRawBlock h other) PhaseCommit ∈ calls s1 /\
    CSign (mkRawBlock h other) PhaseCommit ∈ calls s2 /\ CSign (mkRawBlock h txs) PhaseCommit ∈ calls s2.
Proof.
  intros Hm Hv Hq Hslot Hmake Hs. destruct (runs_commit_other msg s Hm Hv) as ([] & s1 & E1 & Hv1 & Hq1 & Hs1 & Hc).
  destruct (runs_reconsensus now2 rnd2 s1 Hv1) as ([] & s2 & E2 & Hc2 & Hkept); [by rewrite Hq1|by rewrite Hs1|by apply Hmake|done|].
  exists s1, s2. split_and!; auto.
Qed.
End Fork.
