(* ===== verification/HotStuffRuns.v ===== *)
(** * HotStuffRuns: four keepers

    Keepers 1 to 4 on a toy application and role service: the leader of a slot
    goes round, three signatures are a quorum, hashes are the encodings
    themselves and a signature is the signer's name followed by what it signs.
    The runs are the witnesses of the theorems about views, and three runs in
    which the protocol does not do what it should. *)

From S2P Require Import Prelude GoMonad Codec Segments Types Tx StateTypes Concrete HotStuff HotStuffSafety HotStuffLive HotStuffFork.

#[local] Instance id_hashes : Hashes := {
  mh_sum := Some; mh_Decode_Code _ := None; blake3_Sum256 b := b; keccak256 b := b }.
#[local] Instance append_sigs : Signatures := {
  signature_Verify pk m sg := Some (bool_decide (sg = pk ++ m));
  bls_AggregateSignature a b := Some (a ++ b) }.

(** The world is the height of the next block. *)
Definition block_header (height slot : Z) : RawHeader := mkRawHeader 0 1 height slot (1 + slot mod 4) [].
Definition content (root : string) : MsgSet := mkMsgSet [] [] [] (bytes_of_string root).

#[local] Instance toy_app : ConsensusApp Z := {
  GetMembers _ := [1; 2; 3; 4];
  GetQuorumSize _ := 3;
  CreateBlockHeader slot := let! h := gets (fun h => h) in ret (block_header h slot);
  app_Propose _ := ret (content "right");
  app_OnPropose sb := check (bool_decide (mset_Root (sb_set sb) = bytes_of_string "right")) "wrong state";
  app_OnViewDone _ := modify (fun h => h + 1) }.
#[local] Instance toy_app_laws : ConsensusAppLaws Z.
Proof. split; [|done]. intros slot w rh w'. intros [= <- _]. done. Qed.

Definition signed_by (id : Z) (h : bytes) : bytes := put_be 8 id ++ h.
#[local] Instance toy_role : IRole Z := {
  RoleSign id h typ := ret (mkSignature typ (signed_by id h));
  RoleVerify id h sig := ret (bool_decide (sig_Data sig = signed_by id h));
  RoleVerifyMulti h q := ret (MultiSignature_SanityCheck q &&
    bool_decide (ms_Data q = concat ((fun id => signed_by id h) <$> ms_Signer q)));
  RoleSelf := throw "no role";
  RoleGet _ _ := ret None;
  RoleSanityCheck _ := ret true }.

#[local] Instance id_header_inj : Inj (=) (=) RawHeader_Hash.
Proof. intros x y E. apply (marshal_inj x y (RawHeader_Hash x)); [done|]. by rewrite E. Qed.
#[local] Instance id_block_inj : Inj (=) (=) RawBlock_Hash.
Proof. intros x y E. apply (marshal_inj x y (RawBlock_Hash x)); [done|]. by rewrite E. Qed.

(** ** Messages and runs *)

Definition at_slot (slot : Z) : Z := (BaseTime + SlotDuration * slot) * 10 ^ 9.
Definition hash_of (p : PhaseState) (b : RawBlock) : bytes := CalcHash (RawBlock_Hash b) p.
Definition sig_on (id : Z) (p : PhaseState) (b : RawBlock) : Signature := mkSignature SigBLS (signed_by id (hash_of p b)).
Definition quorum_on (ids : list Z) (p : PhaseState) (b : RawBlock) : MultiSignature :=
  mkMultiSignature SigBLS ids (concat ((fun id => signed_by id (hash_of p b)) <$> ids)).

(** The blocks of slot 1: without content, proposed, and another one. *)
Definition empty_block : RawBlock := mkRawBlock (block_header 5 1) MsgSet_zero.
Definition right_block : RawBlock := mkRawBlock (block_header 5 1) (content "right").
Definition wrong_block : RawBlock := mkRawBlock (block_header 5 1) (content "wrong").

(** The messages of keeper 2, the leader of slot 1. *)
Definition from_leader (typ : Z) (p : PhaseState) (b : RawBlock) (q : MultiSignature) : HotstuffMessage :=
  mkHotstuffMessage 2 typ b (sig_on 2 p b) q.
Definition others : list Z := [1; 3; 4].
Definition prepare_msg := from_leader MsgPrepare PhasePrepare right_block (quorum_on others PhaseNew empty_block).
Definition preCommit_msg := from_leader MsgPreCommit PhasePreCommit right_block (quorum_on others PhasePrepare right_block).
Definition commit_msg := from_leader MsgCommit PhaseCommit right_block (quorum_on others PhasePreCommit right_block).
Definition decide_msg := from_leader MsgDecide PhaseDecide right_block (quorum_on others PhaseCommit right_block).

Definition tick (slot : Z) : input (W := Z) := ITick (at_slot slot) (at_slot slot) (at_slot slot) 0.
Definition deliver (msg : HotstuffMessage) : input (W := Z) := IMessage (at_slot 1) 0 msg.
Definition run_node (id : Z) (l : list input) : HotstuffManager := run_inputs false l (NewHotstuffManager id 5).

Definition signatures (s : HotstuffManager (W := Z)) : list (RawBlock * PhaseState) :=
  omap (fun c => match c with CSign b p => Some (b, p) | _ => None end) (calls s).
Definition published (s : HotstuffManager (W := Z)) : list HotstuffMessage :=
  omap (fun c => match c with CPublish m => Some m | _ => None end) (calls s).

(** ** Findings *)

(** Keeper 2, honest, leads slot 1; keeper 4 votes for a block nobody proposed. *)
Definition vote_of (id typ : Z) (p : PhaseState) (b : RawBlock) : HotstuffMessage :=
  mkHotstuffMessage id typ b (sig_on id p b) (NewMultiSignature SigBLS).
Definition poisoned : HotstuffManager :=
  run_node 2 ([tick 1] ++ ((fun id => deliver (vote_of id MsgNewView PhaseNew empty_block)) <$> others) ++
    [deliver (vote_of 4 MsgVotePrepare PhasePrepare wrong_block);
     deliver (vote_of 1 MsgVotePrepare PhasePrepare right_block);
     deliver (vote_of 3 MsgVotePrepare PhasePrepare right_block)]).
Definition prepared (id : Z) : HotstuffManager := run_node id [tick 1; deliver prepare_msg].

(** One replica stops a view: a leader counts its vote for any block with the
    right header, and the quorum it then sends out is valid for no replica. *)
Theorem vote_poisons_quorum :
  option_map hm_Type (head (published poisoned)) = Some MsgPreCommit /\
  option_map (fun m => MultiSignature_Len (hm_Quorum m)) (head (published poisoned)) = Some 4 /\
  Forall (fun id => option_map (fun m => (HandleMessage false (at_slot 1) 0 m (prepared id)).1) (head (published poisoned))
                    = Some (Err "quorum sign is invalid")) others.
Proof. split_and!; [vm_compute; reflexivity..|repeat constructor; vm_compute; reflexivity]. Qed.

(** A quorum need not consist of keepers: a replica goes on to the next phase
    with three signatures of accounts that are not members. *)
Theorem quorum_of_strangers :
  let s := run_node 1 [tick 1; deliver prepare_msg;
             deliver (from_leader MsgPreCommit PhasePreCommit right_block (quorum_on [101; 102; 103] PhasePrepare right_block))] in
  hv_phase (curView s) = PhasePreCommit /\ hv_members (curView s) = [1; 2; 3; 4] /\
  head (signatures s) = Some (right_block, PhasePreCommit).
Proof. vm_compute. by split_and!. Qed.

(** The leader of the last slot that hears of the next view from another
    keeper before its own clock never votes for that view. *)
Theorem new_view_vote_lost :
  let next := mkRawBlock (block_header 5 2) MsgSet_zero in
  let s := run_node 2 [tick 1; IMessage (at_slot 2) 0 (vote_of 1 MsgNewView PhaseNew next); tick 2] in
  hv_header (curView s) = block_header 5 2 /\ hv_leader (curView s) = 3 /\
  hv_phase (curView s) = PhaseNew /\ published s = [].
Proof. vm_compute. by split_and!. Qed.

(** ** Witnesses *)

Definition good_run (id : Z) : HotstuffManager :=
  run_node id [tick 1; deliver prepare_msg; deliver preCommit_msg; deliver commit_msg; deliver decide_msg].

Lemma reached_run id l : reached false id (run_node id l).
Proof. by exists 5, l. Qed.

Lemma signed_in (s : HotstuffManager (W := Z)) b p k : signatures s !! k = Some (b, p) -> CSign b p ∈ calls s.
Proof.
  intros Hk%list_elem_of_lookup_2. apply list_elem_of_omap in Hk as ([] & Hc & [= -> ->]). done.
Qed.

Lemma signs_once_witness : CProposed right_block ∈ calls (good_run 1).
Proof.
  apply (signs_once false 1 (good_run 1) (reached_run _ _)); [done|].
  apply (signed_in _ _ _ 2). vm_compute. reflexivity.
Defined.









Definition decided : SignedBlock := mkSignedBlock right_block (quorum_on others PhaseCommit right_block).


Local Ltac answered := unfold answers; intros; match goal with w : Z |- _ => exists true, w; split; [vm_compute|]; reflexivity end.
Local Ltac good := split; try done; answered.

Lemma view_completes_witness :
  exists s', for_each [prepare_msg; preCommit_msg; commit_msg; decide_msg] (HandleMessage false (at_slot 1) 0)
      (run_node 1 [tick 1]) = (Ok tt, s') /\ hv_phase (curView s') = PhaseFinal /\
    CProposed right_block ∈ calls s' /\ CDone decided ∈ calls s'.
Proof.
  apply (view_completes right_block) with (leader := 2).
  - intros id h w. by eexists _, _.
  - intros w. by exists tt, w.
  - intros q w. by exists tt, (w + 1).
  - good.
  - good.
  - good.
  - good.
  - right. split; try (vm_compute; reflexivity); [vm_compute; discriminate|by intros []].
Defined.

(** The leader asks for commit votes on the wrong block. *)
Definition commit_wrong : HotstuffMessage := from_leader MsgCommit PhaseCommit wrong_block (quorum_on others PhasePreCommit right_block).
Definition pre_committed : HotstuffManager := run_node 1 [tick 1; deliver prepare_msg; deliver preCommit_msg].

Lemma commit_equivocates_witness : right_block <> wrong_block /\
  exists s1 s2, HandleMessage false (at_slot 1) 0 commit_wrong pre_committed = (Ok tt, s1) /\ NewView (at_slot 2) 0 s1 = (Ok tt, s2) /\
    CSign wrong_block PhaseCommit ∈ calls s1 /\ CSign wrong_block PhaseCommit ∈ calls s2 /\ CSign right_block PhaseCommit ∈ calls s2.
Proof.
  split; [done|]. apply (commit_equivocates (block_header 5 1) (content "right") (content "wrong")) with (leader := 2).
  - intros id d w. by eexists _, _.
  - good.
  - split; try (vm_compute; reflexivity). vm_compute. discriminate.
  - intros w. vm_compute. reflexivity.
  - vm_compute. discriminate.
  - intros s1 E. assert (E1 : env s1 = 5) by (change s1 with ((Ok tt, s1).2); rewrite <-E; vm_compute; reflexivity).
    rewrite E1. eexists _, _. split; [reflexivity|]. apply Z.le_refl.
  - vm_compute. done.
Defined.
