(* ===== verification/RoleMgr.v ===== *)
(** * RoleMgr: who is who, and whose signature is whose

    [submodule/role]: the accounts of the group as the settlement chain
    registers them, kept in memory and in the node's store, and the signatures
    made and checked under their keys.  It implements [api.IRole].  What the
    settlement chain answers is a field of the state, so that it may change
    between calls; the wallet and key aggregation are interfaces. *)

From S2P Require Import Prelude GoMonad Codec Keys Segments Types Tx TxStore HotStuff.

Class Wallet := {
  (** [WalletSign(ctx, addr, msg)]; an address is the public key *)
  WalletSign : bytes -> bytes -> option bytes;
  (** [bls.AggregatePublicKey(pubs...)] *)
  bls_AggregatePublicKey : list bytes -> option bytes;
}.

Definition Secp256k1 := 1.
Definition BLS := 2.
Definition SignatureSize : nat := 65.

Section RoleMgr.
Context `{!Signatures, !Wallet, !Codec RoleInfo}.

Record RoleMgr := mkRoleMgr {
  rm_roleID : Z; rm_groupID : Z;
  rm_infos : gmap Z RoleInfo;
  rm_users : list Z; rm_keepers : list Z; rm_providers : list Z;
  rm_ds : gmap bytes bytes;
  (** what [SettleGetRoleInfoAt] answers; [None] is an error *)
  rm_is : Z -> option RoleInfo }.
Implicit Types (s : RoleMgr) (ri : RoleInfo).

Definition set_infos f s := mkRoleMgr (rm_roleID s) (rm_groupID s) (f (rm_infos s)) (rm_users s) (rm_keepers s) (rm_providers s) (rm_ds s) (rm_is s).
Definition set_rm_users f s := mkRoleMgr (rm_roleID s) (rm_groupID s) (rm_infos s) (f (rm_users s)) (rm_keepers s) (rm_providers s) (rm_ds s) (rm_is s).
Definition set_rm_keepers f s := mkRoleMgr (rm_roleID s) (rm_groupID s) (rm_infos s) (rm_users s) (f (rm_keepers s)) (rm_providers s) (rm_ds s) (rm_is s).
Definition set_rm_providers f s := mkRoleMgr (rm_roleID s) (rm_groupID s) (rm_infos s) (rm_users s) (rm_keepers s) (f (rm_providers s)) (rm_ds s) (rm_is s).
Definition set_rm_ds f s := mkRoleMgr (rm_roleID s) (rm_groupID s) (rm_infos s) (rm_users s) (rm_keepers s) (rm_providers s) (f (rm_ds s)) (rm_is s).

(** ** submodule/role/info.go *)

Definition RoleInfoKey (id : Z) := NewKey [KMetaType pb.MetaType_RoleInfoKey; KUint64 id].
Definition RoleListKey (group : Z) (typ : string) :=
  NewKey [KMetaType pb.MetaType_RoleInfoKey; KUint64 group; KString typ].

(** A new account also goes to the list of its type; one of no known type is
    not even stored. *)
Definition addRoleInfo ri (save : bool) : M RoleMgr unit :=
  let! s := gets (fun s => s) in
  let known := bool_decide (is_Some (rm_infos s !! ri_RoleID ri)) in
  do! modify (set_infos <[ri_RoleID ri := ri]>);
  let store :=
    if save then
      match marshal ri with
      | None => ret tt
      | Some pbyte => modify (set_rm_ds <[RoleInfoKey (ri_RoleID ri) := pbyte]>)
      end
    else ret tt in
  if known then store
  else if ri_Type ri =? RoleInfo_Keeper then do! modify (set_rm_keepers (fun l => l ++ [ri_RoleID ri])); store
  else if ri_Type ri =? RoleInfo_Provider then do! modify (set_rm_providers (fun l => l ++ [ri_RoleID ri])); store
  else if ri_Type ri =? RoleInfo_User then do! modify (set_rm_users (fun l => l ++ [ri_RoleID ri])); store
  else ret tt.

(** From memory, then from the store, then from the settlement chain.  For an
    account of another group the log line dereferences the pointer that is nil
    unless the store had an entry that could not be decoded. *)
Definition rm_get (roleID : Z) : M RoleMgr RoleInfo :=
  let! s := gets (fun s => s) in
  match rm_infos s !! roleID with
  | Some ri => ret ri
  | None =>
      let from_chain :=
        let! pri := of_option (rm_is s roleID) "settle" in
        if negb (ri_GroupID pri =? rm_groupID s) then
          match rm_ds s !! RoleInfoKey roleID with
          | None => panic "nil pointer dereference"
          | Some _ => throw "not my group"
          end
        else do! addRoleInfo pri true; ret pri in
      match rm_ds s !! RoleInfoKey roleID ≫= decode with
      | Some ri => do! addRoleInfo ri false; ret ri
      | None => from_chain
      end
  end.

Definition New_RoleMgr (roleID groupID : Z) (ds : gmap bytes bytes) (settle : Z -> option RoleInfo) : option RoleMgr :=
  match settle roleID with
  | None => None
  | Some ri =>
      let ri := mkRoleInfo (ri_Type ri) (ri_RoleID ri) groupID (ri_ChainVerifyKey ri) (ri_BlsVerifyKey ri)
                  (ri_Extra ri) (ri_Desc ri) (ri_State ri) in
      Some (addRoleInfo ri true (mkRoleMgr roleID groupID ∅ [] [] [] ds settle)).2
  end.

(** The ids of a stored list; the error of [rm.get] is ignored. *)
Definition rm_load_list (typ : string) : M RoleMgr bool :=
  let! s := gets (fun s => s) in
  match rm_ds s !! RoleListKey (rm_groupID s) typ with
  | None => ret false
  | Some val =>
      do! for_each (seq 0 (length val / 8)) (fun i =>
            do! try_err (rm_get (get_be (slice (8 * i) (8 * (i + 1)) val))); ret tt);
      ret true
  end.
Definition rm_load : M RoleMgr unit :=
  let! ok := rm_load_list "Keeper" in
  if ok then let! _ := rm_load_list "Provider" in ret tt else ret tt.

Definition rm_save : M RoleMgr unit :=
  do! modify (fun s => set_rm_ds <[RoleListKey (rm_groupID s) "Keeper" := concat (put_be 8 <$> rm_keepers s)]> s);
  modify (fun s => set_rm_ds <[RoleListKey (rm_groupID s) "Provider" := concat (put_be 8 <$> rm_providers s)]> s).

(** The accounts [cnt .. acnt]; the number of the first that was not read. *)
Fixpoint syncFromChain (ids : list Z) (next : Z) : M RoleMgr Z :=
  match ids with
  | [] => ret next
  | i :: ids =>
      let! s := gets (fun s => s) in
      match rm_is s i with
      | None => ret i
      | Some pri =>
          do! (if negb (ri_GroupID pri =? rm_groupID s) then ret tt else addRoleInfo pri true);
          syncFromChain ids (u64 (i + 1))
      end
  end.

(** The accounts [from .. acnt]; [acnt] is what the settlement chain counts, far
    from the largest number. *)
Definition sync_range (from acnt : Z) : M RoleMgr Z := syncFromChain (u64_range_list from (acnt + 1)) from.

(** How far the last run got, and a tick of the loop [sync]. *)
Definition sync_start : M RoleMgr Z :=
  let! s := gets (fun s => s) in
  ret (match rm_ds s !! NewKey [KMetaType pb.MetaType_RoleInfoKey] with
       | Some val => if (length val =? 8)%nat then get_be val else 0
       | None => 0
       end).
Definition sync_tick (cnt acnt : Z) : M RoleMgr Z :=
  let! s := gets (fun s => s) in
  if rm_groupID s =? 0 then ret cnt
  else if acnt >? cnt then
    let! cnt := sync_range (u64 (cnt + 1)) acnt in
    do! modify (set_rm_ds <[NewKey [KMetaType pb.MetaType_RoleInfoKey] := put_be 8 cnt]>);
    ret cnt
  else ret cnt.

(** [RoleExpand], of info_api.go *)
Definition RoleExpand (acnt : Z) : M RoleMgr unit := do! sync_range 1 acnt; ret tt.

Definition GetPubKey (roleID typ : Z) : M RoleMgr bytes :=
  let! ri := rm_get roleID in
  if typ =? Secp256k1 then ret (ri_ChainVerifyKey ri)
  else if typ =? BLS then ret (ri_BlsVerifyKey ri)
  else throw "key not supported".

(** ** submodule/role/info_api.go *)

Definition rm_RoleSelf : M RoleMgr RoleInfo :=
  let! id := gets rm_roleID in rm_get id.

(** For an account of another group the result is a nil pointer without error. *)
Definition rm_RoleGet (id : Z) (update : bool) : M RoleMgr (option RoleInfo) :=
  let! cached := (if update then ret None else try_err (rm_get id)) in
  match cached with
  | Some ri => ret (Some ri)
  | None =>
      let! s := gets (fun s => s) in
      let! pri := of_option (rm_is s id) "settle" in
      if negb (ri_GroupID pri =? rm_groupID s) then ret None
      else do! addRoleInfo pri true; ret (Some pri)
  end.

Definition RoleGetRelated (typ : Z) : M RoleMgr (list Z) :=
  if typ =? RoleInfo_Keeper then gets rm_keepers
  else if typ =? RoleInfo_Provider then gets rm_providers
  else if typ =? RoleInfo_User then gets rm_users
  else throw "roleinfo not supported".

Definition rm_RoleSign (id : Z) (msg : bytes) (typ : Z) : M RoleMgr Signature :=
  if (typ =? SigSecp256k1) || (typ =? SigBLS) then
    let! addr := GetPubKey id (if typ =? SigSecp256k1 then Secp256k1 else BLS) in
    let! sig := of_option (WalletSign addr msg) "sign" in
    ret (mkSignature typ sig)
  else throw "sign type not supported".

Definition rm_RoleVerify (id : Z) (msg : bytes) (sig : Signature) : M RoleMgr bool :=
  if (sig_Type sig =? SigSecp256k1) || (sig_Type sig =? SigBLS) then
    let! pub := GetPubKey id (if sig_Type sig =? SigSecp256k1 then Secp256k1 else BLS) in
    do! check (negb (length pub =? 0)%nat) "local has no pubkey";
    of_option (signature_Verify pub msg (sig_Data sig)) "verify"
  else throw "sign type not supported".

(** The loop over the signers of a concatenated signature: the [i]-th slice
    belongs to the [i]-th signer. *)
Fixpoint verify_slices (msg data : bytes) (i : nat) (signers : list Z) : M RoleMgr bool :=
  match signers with
  | [] => ret true
  | id :: signers =>
      do! check (negb (length data <? (i + 1) * SignatureSize)%nat) "sign size wrong";
      let! pub := GetPubKey id Secp256k1 in
      let! ok := of_option (signature_Verify pub msg (slice (i * SignatureSize) ((i + 1) * SignatureSize) data)) "verify" in
      if ok then verify_slices msg data (S i) signers else ret false
  end.

Fixpoint pub_keys (signers : list Z) : M RoleMgr (list bytes) :=
  match signers with
  | [] => ret []
  | id :: signers =>
      let! pub := GetPubKey id BLS in
      let! rest := pub_keys signers in
      ret (pub :: rest)
  end.

Definition rm_RoleVerifyMulti (msg : bytes) (sig : MultiSignature) : M RoleMgr bool :=
  do! check (MultiSignature_SanityCheck sig) "duplicate signers";
  if ms_Type sig =? SigSecp256k1 then verify_slices msg (ms_Data sig) 0 (ms_Signer sig)
  else if ms_Type sig =? SigBLS then
    let! apub := pub_keys (ms_Signer sig) in
    let! apk := of_option (bls_AggregatePublicKey apub) "aggregate" in
    of_option (signature_Verify apk msg (ms_Data sig)) "verify"
  else throw "sign type not supported".

(** The type an account must have to send a message of a method. *)
Definition method_role (method : Z) : option Z :=
  if existsb (fun m => m =? method) [UpdateChalEpoch; ConfirmPostIncome; ConfirmDataOrder] then Some RoleInfo_Keeper
  else if existsb (fun m => m =? method) [CreateFs; CreateBucket; PreDataOrder; AddDataOrder; CommitDataOrder] then Some RoleInfo_User
  else if existsb (fun m => m =? method) [SegmentProof; SegmentFault; SubDataOrder] then Some RoleInfo_Provider
  else None.

Definition rm_RoleSanityCheck (sm : SignedMessage) : M RoleMgr bool :=
  let m := sm_Message sm in
  do! check (Z.of_nat (length (m_Params m)) <? MsgMaxLen) "msg length too long";
  let! ri := rm_get (m_From m) in
  do! check (match method_role (m_Method m) with Some t => ri_Type ri =? t | None => true end) "role type wrong";
  do! check (negb (m_Method m =? DataTxErr)) "unsupported type";
  ret true.

#[export] Instance RoleMgr_IRole : IRole RoleMgr := {
  RoleSign := rm_RoleSign;
  RoleVerify := rm_RoleVerify;
  RoleVerifyMulti := rm_RoleVerifyMulti;
  RoleSelf := rm_RoleSelf;
  RoleGet := rm_RoleGet;
  RoleSanityCheck := rm_RoleSanityCheck }.
End RoleMgr.

(** ** Theorems *)

Lemma sanity_loop_spec seen l : sanity_loop seen l = true <-> NoDup l /\ forall x, x ∈ l -> x ∉ seen.
Proof.
  revert seen. induction l as [|x l IH]; intros seen; simpl.
  { split; [|done]. intros _. split; [constructor|set_solver]. }
  case_bool_decide as E.
  - split; [done|]. intros [_ H]. destruct (H x); set_solver.
  - rewrite IH, NoDup_cons. split; intros [H1 H2]; split_and!; try set_solver; naive_solver set_solver.
Qed.

Section RoleProps.
Context `{!Signatures, !Wallet, !Codec RoleInfo}.
Implicit Types (s : RoleMgr).

(** The signature of one known account over [msg], of the size the scheme has. *)
Definition signs s (msg : bytes) (e : Z * Signature) : Prop :=
  sig_Type e.2 = SigSecp256k1 /\ length (sig_Data e.2) = SignatureSize /\
  exists ri, rm_infos s !! e.1 = Some ri /\ signature_Verify (ri_ChainVerifyKey ri) msg (sig_Data e.2) = Some true.

(** [Add] of one signature after the other. *)
Fixpoint add_all (ms : MultiSignature) (l : list (Z * Signature)) : outcome MultiSignature :=
  match l with
  | [] => Ok ms
  | (id, sig) :: l =>
      match MultiSignature_Add ms id sig with
      | Ok ms => add_all ms l
      | e => e
      end
  end.

Lemma add_all_Ok l : forall ms, ms_Type ms = SigSecp256k1 -> Forall (fun e => sig_Type e.2 = SigSecp256k1) l ->
  NoDup (ms_Signer ms ++ l.*1) ->
  add_all ms l = Ok (mkMultiSignature SigSecp256k1 (ms_Signer ms ++ l.*1) (ms_Data ms ++ concat ((sig_Data ∘ snd) <$> l))).
Proof.
  induction l as [|[id sig] l IH]; intros ms Ht Hs Hn; simpl in *.
  { destruct ms. simpl in *. subst. by rewrite !app_nil_r. }
  apply Forall_cons in Hs as [Hsig Hs]. simpl in Hsig. unfold MultiSignature_Add. rewrite Ht, Hsig. simpl.
  replace (existsb (fun sid => sid =? id) (ms_Signer ms)) with false.
  - rewrite IH; simpl; [by rewrite <- !app_assoc|done..|by rewrite <- app_assoc].
  - symmetry. apply not_true_iff_false. intros (x & Hx & ->%Z.eqb_eq)%existsb_exists.
    apply list_elem_of_In in Hx. apply NoDup_app in Hn as (_ & Hd & _). apply (Hd id Hx). left.
Qed.

Lemma verify_slices_true s msg l : Forall (signs s msg) l -> forall i pre,
  length pre = (i * SignatureSize)%nat ->
  verify_slices msg (pre ++ concat ((sig_Data ∘ snd) <$> l)) i l.*1 s = (Ok true, s).
Proof.
  intros Hl. induction Hl as [|[id sig] l (Ht & Hlen & ri & Hri & Hv) Hl IH]; intros i pre Hpre; [done|].
  simpl in Hlen, Hri, Hv. set (rest := concat ((sig_Data ∘ snd) <$> l)) in IH.
  change (concat ((sig_Data ∘ snd) <$> (id, sig) :: l)) with (sig_Data sig ++ rest).
  change (((id, sig) :: l).*1) with (id :: l.*1). cbn [verify_slices].
  assert (Hlong : (length (pre ++ sig_Data sig ++ rest) <? (i + 1) * SignatureSize)%nat = false).
  { apply Nat.ltb_ge. rewrite !length_app, Hpre, Hlen. lia. }
  rewrite (bind_run _ _ s tt s) by (unfold check; by rewrite Hlong).
  rewrite (bind_run _ _ s (ri_ChainVerifyKey ri) s).
  2:{ unfold GetPubKey, rm_get. rewrite bind_assoc, (bind_run _ _ _ _ _ (eq_refl : gets _ _ = _)). by rewrite Hri. }
  assert (Hslice : slice (i * SignatureSize) ((i + 1) * SignatureSize) (pre ++ sig_Data sig ++ rest) = sig_Data sig).
  { unfold slice. rewrite <- Hpre, drop_app_length. apply take_app_length'. lia. }
  rewrite Hslice, (bind_run _ _ s true s) by (unfold of_option; by rewrite Hv). cbv iota.
  rewrite app_assoc. apply IH. rewrite length_app, Hpre, Hlen. lia.
Qed.

(** Signatures of different known accounts that each verify, put together in
    any order, make a quorum that verifies, and looking the keys up changes
    nothing. *)
Theorem quorum_verifies s msg l :
  Forall (signs s msg) l -> NoDup l.*1 ->
  exists ms, add_all (NewMultiSignature SigSecp256k1) l = Ok ms /\ ms_Signer ms = l.*1 /\
    RoleVerifyMulti msg ms s = (Ok true, s).
Proof.
  intros Hl Hn. exists (mkMultiSignature SigSecp256k1 l.*1 (concat ((sig_Data ∘ snd) <$> l))). split_and!; [|done|].
  - apply add_all_Ok; [done| |done]. eapply Forall_impl; [exact Hl|]. by intros e [? _].
  - cbn [RoleVerifyMulti RoleMgr_IRole]. unfold rm_RoleVerifyMulti.
    rewrite (bind_run _ _ s tt s).
    + cbn [ms_Type ms_Data ms_Signer]. by apply (verify_slices_true s msg l Hl 0 []).
    + unfold check, MultiSignature_SanityCheck. cbn [ms_Signer].
      by rewrite (proj2 (sanity_loop_spec ∅ _)) by (split; [done|set_solver]).
Qed.

(** Asking for an account of another group that the node does not know yet
    does not return the error that is meant: the node panics. *)
Theorem other_group_panics s id pri msg sig :
  rm_infos s !! id = None -> rm_ds s !! RoleInfoKey id = None ->
  rm_is s id = Some pri -> ri_GroupID pri <> rm_groupID s -> sig_Type sig = SigSecp256k1 ->
  RoleVerify id msg sig s = (Panic "nil pointer dereference", s).
Proof.
  intros Hi Hd Hs Hg Ht. cbn [RoleVerify RoleMgr_IRole]. unfold rm_RoleVerify, GetPubKey, rm_get. rewrite Ht. simpl.
  unfold bind, gets. rewrite Hi, Hd. simpl. rewrite Hs. simpl. by rewrite (proj2 (Z.eqb_neq _ _) Hg).
Qed.
End RoleProps.
