(* ===== verification/SyncPool.v ===== *)
(** * SyncPool: from blocks heard of to blocks applied

    [submodule/txPool/sync.go]: blocks come from the network in any order, are
    checked and stored, are linked backwards through their [PrevID], and are
    applied one height after the other by [handleBlock].  The pool embeds the
    transaction store, the role service and the state manager, each of which
    [zoom] runs on its part.  [fetch] is what the network answers.

    A tick of a loop is one step; [time.Sleep] and the background refresh of a
    role ([go sp.RoleGet]) are left out, and a channel is the list of what was
    sent to it. *)

From S2P Require Import Prelude GoMonad Codec Keys Segments SegmentID Types Tx Fr StateTypes State Roles Chunks Orders Challenge Pay Validate Block Propose TxStore HotStuff.

Record MessageDigest := mkMessageDigest { md_ID : MsgID; md_From : Z; md_Nonce : Z }.
Record blkDigest := mkBlkDigest { bd_height : Z; bd_msgs : list MessageDigest }.
(** api.SyncInfo, without the API version *)
Record SyncInfo := mkSyncInfo { si_Status : bool; si_SyncedHeight : Z; si_RemoteHeight : Z }.

Section SyncPool.
Context `{!StateEnv, !Base58, !Codec Message, !Codec SignedBlock} {T R : Type} `{!Store T, !IRole R}.

Record SyncPool := mkSyncPool {
  sp_store : T; sp_role : R; sp_state : StateMgr;
  sp_thre : Z; sp_groupID : Z; sp_nextHeight : Z; sp_remoteHeight : Z;
  sp_blks : gmap Z MsgID; sp_ready : bool;
  sp_inPush : bool; sp_inProcess : bool;
  sp_msgDone : list blkDigest; sp_blkDone : list blkDigest; sp_msgChan : list SignedMessage }.
Implicit Types (p : SyncPool).

Definition set_sp_store x p := mkSyncPool x (sp_role p) (sp_state p) (sp_thre p) (sp_groupID p) (sp_nextHeight p) (sp_remoteHeight p) (sp_blks p) (sp_ready p) (sp_inPush p) (sp_inProcess p) (sp_msgDone p) (sp_blkDone p) (sp_msgChan p).
Definition set_sp_role x p := mkSyncPool (sp_store p) x (sp_state p) (sp_thre p) (sp_groupID p) (sp_nextHeight p) (sp_remoteHeight p) (sp_blks p) (sp_ready p) (sp_inPush p) (sp_inProcess p) (sp_msgDone p) (sp_blkDone p) (sp_msgChan p).
Definition set_sp_state x p := mkSyncPool (sp_store p) (sp_role p) x (sp_thre p) (sp_groupID p) (sp_nextHeight p) (sp_remoteHeight p) (sp_blks p) (sp_ready p) (sp_inPush p) (sp_inProcess p) (sp_msgDone p) (sp_blkDone p) (sp_msgChan p).
Definition set_nextHeight x p := mkSyncPool (sp_store p) (sp_role p) (sp_state p) (sp_thre p) (sp_groupID p) x (sp_remoteHeight p) (sp_blks p) (sp_ready p) (sp_inPush p) (sp_inProcess p) (sp_msgDone p) (sp_blkDone p) (sp_msgChan p).
Definition set_remoteHeight x p := mkSyncPool (sp_store p) (sp_role p) (sp_state p) (sp_thre p) (sp_groupID p) (sp_nextHeight p) x (sp_blks p) (sp_ready p) (sp_inPush p) (sp_inProcess p) (sp_msgDone p) (sp_blkDone p) (sp_msgChan p).
Definition set_blks f p := mkSyncPool (sp_store p) (sp_role p) (sp_state p) (sp_thre p) (sp_groupID p) (sp_nextHeight p) (sp_remoteHeight p) (f (sp_blks p)) (sp_ready p) (sp_inPush p) (sp_inProcess p) (sp_msgDone p) (sp_blkDone p) (sp_msgChan p).
Definition set_ready x p := mkSyncPool (sp_store p) (sp_role p) (sp_state p) (sp_thre p) (sp_groupID p) (sp_nextHeight p) (sp_remoteHeight p) (sp_blks p) x (sp_inPush p) (sp_inProcess p) (sp_msgDone p) (sp_blkDone p) (sp_msgChan p).
Definition set_inPush x p := mkSyncPool (sp_store p) (sp_role p) (sp_state p) (sp_thre p) (sp_groupID p) (sp_nextHeight p) (sp_remoteHeight p) (sp_blks p) (sp_ready p) x (sp_inProcess p) (sp_msgDone p) (sp_blkDone p) (sp_msgChan p).
Definition set_inProcess x p := mkSyncPool (sp_store p) (sp_role p) (sp_state p) (sp_thre p) (sp_groupID p) (sp_nextHeight p) (sp_remoteHeight p) (sp_blks p) (sp_ready p) (sp_inPush p) x (sp_msgDone p) (sp_blkDone p) (sp_msgChan p).
Definition set_msgDone f p := mkSyncPool (sp_store p) (sp_role p) (sp_state p) (sp_thre p) (sp_groupID p) (sp_nextHeight p) (sp_remoteHeight p) (sp_blks p) (sp_ready p) (sp_inPush p) (sp_inProcess p) (f (sp_msgDone p)) (sp_blkDone p) (sp_msgChan p).
Definition set_blkDone f p := mkSyncPool (sp_store p) (sp_role p) (sp_state p) (sp_thre p) (sp_groupID p) (sp_nextHeight p) (sp_remoteHeight p) (sp_blks p) (sp_ready p) (sp_inPush p) (sp_inProcess p) (sp_msgDone p) (f (sp_blkDone p)) (sp_msgChan p).
Definition set_msgChan f p := mkSyncPool (sp_store p) (sp_role p) (sp_state p) (sp_thre p) (sp_groupID p) (sp_nextHeight p) (sp_remoteHeight p) (sp_blks p) (sp_ready p) (sp_inPush p) (sp_inProcess p) (sp_msgDone p) (sp_blkDone p) (f (sp_msgChan p)).

(** Methods of the embedded parts. *)
Definition on_store {A} (m : M T A) : M SyncPool A := zoom sp_store set_sp_store m.
Definition on_role {A} (m : M R A) : M SyncPool A := zoom sp_role set_sp_role m.
Definition on_state {A} (m : M StateMgr A) : M SyncPool A := zoom sp_state set_sp_state m.

Definition NewSyncPool (groupID thre : Z) (st : StateMgr) (ts : T) (ir : R) : SyncPool :=
  mkSyncPool ts ir st thre groupID 0 0 ∅ false false false [] [] [].

(** [sp.load()], with [s.GetHeight] of the state *)
Definition sync_load : M SyncPool unit :=
  let! p := gets (fun p => p) in
  let ht := v_height (cur (sp_state p)) in
  do! modify (set_nextHeight ht);
  modify (set_remoteHeight ht).

Definition SyncGetInfo : M SyncPool SyncInfo :=
  gets (fun p => mkSyncInfo (sp_ready p) (sp_nextHeight p) (sp_remoteHeight p)).

(** ** A block arrives *)

Definition raise_remote (height : Z) : M SyncPool unit :=
  modify (fun p => if height >=? sp_remoteHeight p then set_remoteHeight (u64 (height + 1)) p else p).

Definition verify_msgs (msgs : list SignedMessage) : M SyncPool unit :=
  for_each msgs (fun sm =>
    let! ok := on_role (RoleVerify (m_From (sm_Message sm)) (Message_Hash (sm_Message sm)) (sm_Signature sm)) in
    check ok "msg sign is invalid").

(** What a block must have to be stored. *)
Definition check_block (tb : SignedBlock) : M SyncPool unit :=
  let h := sb_header tb in
  let! p := gets (fun p => p) in
  do! check (rh_GroupID h =? sp_groupID p) "wrong block, group";
  do! check (negb ((0 <? rh_Height h) && (MultiSignature_Len (sb_MultiSignature tb) <? sp_thre p))) "block has not enough signers";
  let! r := on_role (RoleGet (rh_MinerID h) false) in
  let! ri := deref r in
  do! check (ri_Type ri =? RoleInfo_Keeper) "miner is not keeper";
  do! check (ri_GroupID ri =? rh_GroupID h) "miner group is different";
  let! ok := on_role (RoleVerifyMulti (CalcHash (RawBlock_Hash (sb_RawBlock tb)) PhaseCommit) (sb_MultiSignature tb)) in
  do! check ok "block sign is invalid";
  verify_msgs (mset_Msgs (sb_set tb)).

Definition SyncAddTxBlock (tb : SignedBlock) : M SyncPool unit :=
  let h := sb_header tb in
  let! p := gets (fun p => p) in
  do! check (negb (rh_Height h <? sp_nextHeight p)) "height expected";
  do! (if rh_Height h >=? sp_remoteHeight p then modify (set_ready true) else ret tt);
  let bid := RawBlock_Hash (sb_RawBlock tb) in
  let! has := on_store (HasTxBlock bid) in
  if has then raise_remote (rh_Height h)
  else
    do! check_block tb;
    let! _ := on_store (PutTxBlock tb) in
    do! modify (fun p =>
      if rh_Height h >=? sp_nextHeight p then
        let p := set_blks <[rh_Height h := bid]> p in
        if rh_Height h >? sp_nextHeight p then set_blks <[u64 (rh_Height h - 1) := rh_PrevID h]> p else p
      else p);
    raise_remote (rh_Height h).

(** ** Blocks asked for *)

Section Network.
Variable fetch : bytes -> option bytes.

Definition RemoteBlockKey (bid : MsgID) := NewKey [KString "tx"; KMetaType pb.MetaType_TX_BlockKey; KString (base58_Encode bid)].
Definition RemoteHeightKey (ht : Z) := NewKey [KString "tx"; KMetaType pb.MetaType_Tx_BlockHeightKey; KUint64 ht].

Definition getTxBlockRemote (bid : MsgID) : M SyncPool unit :=
  let! res := of_option (fetch (RemoteBlockKey bid)) "fetch" in
  let! tb := of_option (decode (A := SignedBlock) res) "deserialize" in
  SyncAddTxBlock tb.

Definition getTxBlockByHeight (ht : Z) : M SyncPool unit :=
  let! local := try_err (on_store (GetTxBlockByHeight ht)) in
  let bid := match local with
             | Some bid => Some bid
             | None => fetch (RemoteHeightKey ht) ≫= MsgID_FromBytes
             end in
  match bid with
  | None => ret tt
  | Some bid =>
      let! has := try_err (on_store (HasTxBlock bid)) in
      match has with
      | Some true => ret tt
      | _ => do! try_err (getTxBlockRemote bid); ret tt
      end
  end.

(** A tick of [receiveBlock]: far behind, every missing height is asked for. *)
Definition receiveBlock : M SyncPool unit :=
  let! p := gets (fun p => p) in
  if sp_remoteHeight p >? u64 (sp_nextHeight p + 128) then
    for_each (u64_range_list (sp_nextHeight p) (sp_remoteHeight p)) getTxBlockByHeight
  else ret tt.

(** One height on the way back; [false] is [break]. *)
Definition link_height (i : Z) : M SyncPool bool :=
  let! p := gets (fun p => p) in
  let fetch_block bid :=
    let! blk := try_err (on_store (GetTxBlock bid)) in
    match blk with
    | None => do! try_err (getTxBlockRemote bid); ret true
    | Some blk =>
        let h := sb_header blk in
        do! modify (set_blks <[rh_Height h := bid]>);
        do! (if 0 <? rh_Height h then modify (set_blks <[rh_Height h - 1 := rh_PrevID h]>) else ret tt);
        ret true
    end in
  match sp_blks p !! i with
  | None =>
      let! nbid := try_err (on_store (GetTxBlockByHeight i)) in
      match nbid with
      | None => ret false
      | Some bid => fetch_block bid
      end
  | Some bid =>
      if (0 <? i) && (i >? sp_nextHeight p) && bool_decide (is_Some (sp_blks p !! (i - 1)))
      then ret true
      else fetch_block bid
  end.

(** for ... { if !body(i) { break } } *)
Fixpoint loop_while (l : list Z) (body : Z -> M SyncPool bool) : M SyncPool unit :=
  match l with
  | [] => ret tt
  | i :: l => let! go := body i in if go then loop_while l body else ret tt
  end.

Definition link_blocks : M SyncPool unit :=
  let! p := gets (fun p => p) in
  if u64 (sp_remoteHeight p - sp_nextHeight p) <=? 128
  then loop_while (rev (u64_range_list (sp_nextHeight p) (sp_remoteHeight p))) link_height
  else ret tt.

(** ** A block is applied *)

(** The state, then the outcome of every message; a block that is refused stops
    the node. *)
Definition processTxBlock (sb : SignedBlock) : M SyncPool unit :=
  let bid := RawBlock_Hash (sb_RawBlock sb) in
  let h := sb_header sb in
  let! r := try_err (on_state (ApplyBlock (Some sb))) in
  match r with
  | None =>
      do! try_err (on_store (DeleteTxBlock bid));
      do! try_err (on_store (DeleteTxBlockHeight (rh_Height h)));
      do! (if 0 <? rh_Height h then do! try_err (on_store (DeleteTxBlockHeight (rh_Height h - 1))); ret tt else ret tt);
      panic "check version, storage space left(>1GB), then restart"
  | Some _ =>
      let! mds := for_fold (imap pair (mset_Msgs (sb_set sb))) [] (fun acc '(i, sm) =>
        match mset_Receipts (sb_set sb) !! i with
        | None => panic "index out of range"
        | Some r =>
            let mid := Message_Hash (sm_Message sm) in
            do! try_err (on_store (PutTxMsgState mid (mkMsgState bid (rh_Height h) r)));
            ret (acc ++ [mkMessageDigest mid (m_From (sm_Message sm)) (m_Nonce (sm_Message sm))])
        end) in
      let bd := mkBlkDigest (rh_Height h) mds in
      do! modify (fun p => if sp_inPush p then set_msgDone (fun l => l ++ [bd]) p else p);
      modify (fun p => if sp_inProcess p then set_blkDone (fun l => l ++ [bd]) p else p)
  end.

(** One height on the way forward; the error branch of [processTxBlock] is not
    reached, since it panics. *)
Definition process_height (i : Z) : M SyncPool bool :=
  let! p := gets (fun p => p) in
  if negb (i <? sp_remoteHeight p) then ret false
  else
    let! known := (match sp_blks p !! i with
                   | Some bid => ret (Some bid)
                   | None =>
                       let! nbid := try_err (on_store (GetTxBlockByHeight i)) in
                       match nbid with
                       | None => ret None
                       | Some bid => do! modify (set_blks <[i := bid]>); ret (Some bid)
                       end
                   end) in
    match known with
    | None => ret false
    | Some bid =>
        let! r := try_err (on_store (GetTxBlock bid)) in
        match r with
        | None => ret false
        | Some sb =>
            if negb (rh_Height (sb_header sb) =? i) then do! modify (set_blks (delete i)); ret false
            else
              let! done := try_err (processTxBlock sb) in
              match done with
              | None =>
                  do! modify (fun p => set_blks (fun m => foldl (fun m j => delete j m) m (u64_range_list i (sp_remoteHeight p))) p);
                  do! modify (set_remoteHeight i);
                  ret false
              | Some _ =>
                  do! modify (set_blks (delete i));
                  do! modify (fun p => set_nextHeight (u64 (sp_nextHeight p + 1)) p);
                  ret true
              end
        end
    end.

(** A tick of [handleBlock]. *)
Definition handleBlock : M SyncPool unit :=
  let! p := gets (fun p => p) in
  if sp_remoteHeight p =? sp_nextHeight p then ret tt
  else
    do! link_blocks;
    let! p := gets (fun p => p) in
    do! loop_while (u64_range_list (sp_nextHeight p) (sp_remoteHeight p)) process_height;
    modify (fun p => if sp_nextHeight p >? sp_remoteHeight p then set_remoteHeight (sp_nextHeight p) p else p).
End Network.

(** ** Messages *)

Definition SyncGetTxMsgStatus (fuel : nat) (mid : MsgID) : M SyncPool MsgState := on_store (GetTxMsgState fuel mid).

Definition SyncAddTxMessage (msg : SignedMessage) : M SyncPool unit :=
  let m := sm_Message msg in
  let! nonce := on_state (StateGetNonce (m_From m)) in
  do! check (negb (m_Nonce m <? nonce)) "nonce expected no less";
  let mid := Message_Hash m in
  let! has := try_err (on_store (HasTxMsg mid)) in
  match has with
  | Some true => ret tt
  | _ =>
      let! valid := on_role (RoleSanityCheck msg) in
      do! check valid "msg is invalid";
      let! ok := on_role (RoleVerify (m_From m) mid (sm_Signature msg)) in
      do! check ok "tx msg sign invalid";
      on_store (PutTxMsg msg false)
  end.
End SyncPool.
