(* ===== verification/SyncPoolProps.v ===== *)
(** * SyncPoolProps: what the pool applies is a chain

    Whatever arrives, in whatever order, the state of the pool is what applying
    one block after the other makes of the state it started with, and the height
    it announces is the state's; and a pool that has every block up to the height
    it heard of applies them all. *)

From S2P Require Import Prelude GoMonad Codec Keys Segments SegmentID Types Tx Fr StateTypes State Roles Chunks Orders Challenge Pay Validate Block Chain Propose TxStore HotStuff SyncPool.

Section Chain.
Context `{!StateEnv, !SMTLaws, !Base58, !Codec Message, !Codec SignedBlock} {T R : Type} `{!Store T, !IRole R}.
Notation SyncPool := (SyncPool (T := T) (R := R)).
Implicit Types (p : SyncPool) (tb blk : SignedBlock).

(** ** What never moves the chain *)

Record same_chain p p' : Prop := mkSameChain {
  sc_state : sp_state p' = sp_state p;
  sc_next : sp_nextHeight p' = sp_nextHeight p;
  sc_push : sp_inPush p' = sp_inPush p;
  sc_done : sp_msgDone p' = sp_msgDone p;
  sc_process : sp_inProcess p' = sp_inProcess p;
  sc_blkDone : sp_blkDone p' = sp_blkDone p;
}.
#[export] Instance same_chain_PreOrder : PreOrder same_chain.
Proof. split; [by intros p|]. intros ? ? ? [] []. split; etransitivity; eassumption. Qed.

Lemma keeps_on_store {A} (m : M T A) : Keeps same_chain (on_store m).
Proof. by apply keeps_zoom. Qed.
Lemma keeps_on_role {A} (m : M R A) : Keeps same_chain (on_role m).
Proof. by apply keeps_zoom. Qed.
Lemma keeps_set_blks f : Keeps same_chain (modify (set_blks f)).
Proof. by apply keeps_modify. Qed.
#[local] Hint Resolve keeps_on_store keeps_on_role keeps_set_blks : keeps.
#[local] Hint Extern 2 (Keeps _ (modify _)) =>
  apply keeps_modify; intros; repeat case_match; done : keeps.

Lemma keeps_verify_msgs msgs : Keeps same_chain (verify_msgs msgs).
Proof. unfold verify_msgs. keeps. Qed.
#[local] Hint Resolve keeps_verify_msgs : keeps.
Lemma keeps_check_block tb : Keeps same_chain (check_block tb).
Proof. unfold check_block. keeps. Qed.
#[local] Hint Resolve keeps_check_block : keeps.
Lemma keeps_SyncAddTxBlock tb : Keeps same_chain (SyncAddTxBlock tb).
Proof. unfold SyncAddTxBlock, raise_remote. keeps. Qed.
#[local] Hint Resolve keeps_SyncAddTxBlock : keeps.
Lemma keeps_getTxBlockRemote fetch bid : Keeps same_chain (getTxBlockRemote fetch bid).
Proof. unfold getTxBlockRemote. keeps. Qed.
#[local] Hint Resolve keeps_getTxBlockRemote : keeps.
Lemma keeps_getTxBlockByHeight fetch ht : Keeps same_chain (getTxBlockByHeight fetch ht).
Proof. unfold getTxBlockByHeight. keeps. Qed.
#[local] Hint Resolve keeps_getTxBlockByHeight : keeps.
Lemma keeps_receiveBlock fetch : Keeps same_chain (receiveBlock fetch).
Proof. unfold receiveBlock. keeps. Qed.
Lemma keeps_link_height fetch i : Keeps same_chain (link_height fetch i).
Proof. unfold link_height. keeps. Qed.
Lemma keeps_loop_while l body : (forall i, Keeps same_chain (body i)) -> Keeps same_chain (loop_while l body).
Proof. intros Hb. induction l as [|i l IH]; simpl; [apply keeps_ret, _|]. keeps. Qed.
Lemma keeps_link_blocks fetch : Keeps same_chain (link_blocks fetch).
Proof. unfold link_blocks. pose proof (keeps_link_height fetch). keeps. by apply keeps_loop_while. Qed.
Lemma keeps_SyncAddTxMessage sm : Keeps same_chain (SyncAddTxMessage sm).
Proof.
  unfold SyncAddTxMessage. apply keeps_bind; [typeclasses eauto| |intros; keeps].
  apply keeps_zoom_eq; [typeclasses eauto|by intros []|]. unfold StateGetNonce, loadVal, get. keeps.
Qed.

(** ** What applies a block *)

(** What a subscriber is told of an applied block. *)
Definition digest blk : blkDigest :=
  mkBlkDigest (rh_Height (sb_header blk))
    ((fun sm => mkMessageDigest (Message_Hash (sm_Message sm)) (m_From (sm_Message sm)) (m_Nonce (sm_Message sm)))
       <$> mset_Msgs (sb_set blk)).

(** From the pool [p0], [blks] were applied; the counter may be behind. *)
Record applied p0 (behind : bool) (blks : list SignedBlock) p : Prop := mkApplied {
  ap_chain : apply_chain blks (sp_state p0) = (Ok tt, sp_state p);
  ap_tds : tds (sp_state p) = None;
  ap_next : v_height (cur (sp_state p)) = if behind then u64 (sp_nextHeight p + 1) else sp_nextHeight p;
  ap_push : sp_inPush p = sp_inPush p0;
  ap_done : sp_msgDone p = sp_msgDone p0 ++ if sp_inPush p0 then digest <$> blks else [];
  ap_process : sp_inProcess p = sp_inProcess p0;
  ap_blkDone : sp_blkDone p = sp_blkDone p0 ++ if sp_inProcess p0 then digest <$> blks else [];
}.
Definition on_chain p0 p : Prop := exists blks, applied p0 false blks p.

Lemma applied_same p0 b blks p p' : same_chain p p' -> applied p0 b blks p -> applied p0 b blks p'.
Proof. intros [E1 E2 E3 E4 E5 E6] []. split; by rewrite ?E1, ?E2, ?E3, ?E4, ?E5, ?E6. Qed.
Lemma on_chain_same p0 p p' : same_chain p p' -> on_chain p0 p -> on_chain p0 p'.
Proof. intros Hs [blks ?]. exists blks. by eapply applied_same. Qed.

(** The computation is a piece of a pool that stays on its chain; a panic is the end. *)
Notation stays p0 := (wpx (on_chain p0) (fun _ => True)).

Lemma stays_keeps {A} p0 (m : M SyncPool A) p :
  Keeps same_chain m -> on_chain p0 p -> stays p0 m (fun _ => on_chain p0) p.
Proof. intros Hm Hp. apply (wpx_keeps same_chain); [done| |done]. intros p' Hs. by eapply on_chain_same. Qed.

Lemma apply_chain_snoc blks blk s s1 s2 :
  apply_chain blks s = (Ok tt, s1) -> ApplyBlock (Some blk) s1 = (Ok tt, s2) ->
  apply_chain (blks ++ [blk]) s = (Ok tt, s2).
Proof.
  unfold apply_chain. revert s. induction blks as [|b blks IH]; intros s; cbn [for_each app].
  - intros [= ->] E. apply bind_Ok. by exists tt, s2.
  - intros (u & s' & E & Hr)%bind_Ok E2. destruct u. rewrite (bind_run _ _ _ _ _ E). by apply IH.
Qed.

Lemma fmap_imap_snd {A B} (g : A -> B) (l : list A) : (fun x : nat * A => g x.2) <$> imap pair l = g <$> l.
Proof. apply list_eq. intros i. rewrite !list_lookup_fmap, list_lookup_imap. by destruct (l !! i). Qed.

Lemma for_fold_digests (bid : MsgID) (h : Z) (rs : list Receipt) l p (acc : list MessageDigest) Q :
  (forall p', same_chain p p' -> Q (acc ++ ((fun x : nat * SignedMessage => mkMessageDigest (Message_Hash (sm_Message x.2)) (m_From (sm_Message x.2)) (m_Nonce (sm_Message x.2))) <$> l)) p') ->
  wpx (fun _ => False) (fun _ => True)
    (for_fold l acc (fun acc '(i, sm) =>
        match rs !! i with
        | None => panic "index out of range"
        | Some r =>
            let mid := Message_Hash (sm_Message sm) in
            do! try_err (on_store (PutTxMsgState mid (mkMsgState bid h r)));
            ret (acc ++ [mkMessageDigest mid (m_From (sm_Message sm)) (m_Nonce (sm_Message sm))])
        end)) Q p.
Proof.
  revert acc p. induction l as [|[i sm] l IH]; intros acc p HQ; simpl.
  - apply wp_ret. specialize (HQ p). rewrite fmap_nil, app_nil_r in HQ. by apply HQ.
  - apply wp_bind. destruct (rs !! i) as [r|]; [|done]. cbv zeta. apply wp_bind.
    assert (K : Keeps same_chain (on_store (PutTxMsgState (Message_Hash (sm_Message sm)) (mkMsgState bid h r))))
      by apply keeps_on_store.
    specialize (K p). unfold wpx, try_err in *.
    destruct (on_store _ p) as [[u|e|w] p1]; simpl in *; [|..]; try done;
      (apply IH; intros p' Hp'; rewrite <-app_assoc; apply HQ; by etransitivity).
Qed.

Lemma applied_step p0 blks sb p s1 p' :
  applied p0 false blks p -> ApplyBlock (Some sb) (sp_state p) = (Ok tt, s1) ->
  same_chain (set_sp_state s1 p) p' ->
  let p' := if sp_inPush p' then set_msgDone (fun l => l ++ [digest sb]) p' else p' in
  applied p0 true (blks ++ [sb]) (if sp_inProcess p' then set_blkDone (fun l => l ++ [digest sb]) p' else p').
Proof.
  intros [] E [S1 S2 S3 S4 S5 S6]. simpl in *. destruct (ApplyBlock_Ok _ _ _ ap_tds0 E) as [].
  assert (HC : apply_chain (blks ++ [sb]) (sp_state p0) = (Ok tt, s1)) by by eapply apply_chain_snoc.
  rewrite S3, ap_push0. replace (sp_inProcess (if sp_inPush p0 then _ else _)) with (sp_inProcess p0)
    by (destruct (sp_inPush p0); simpl; congruence).
  destruct (sp_inPush p0) eqn:Ep, (sp_inProcess p0) eqn:Eq; split; rewrite ?Ep, ?Eq; simpl; try congruence.
  all: rewrite ?S4, ?S6, ?ap_done0, ?ap_blkDone0, ?app_nil_r, ?fmap_app, <-?app_assoc; congruence || done.
Qed.

(** The pool hands the block to the state, or stops; it returns no error. *)
Lemma processTxBlock_wp p0 blks sb p :
  applied p0 false blks p ->
  wpx (fun _ => False) (fun _ => True) (processTxBlock sb) (fun _ => applied p0 true (blks ++ [sb])) p.
Proof.
  intros Hp. unfold processTxBlock. apply wp_bind. unfold wpx at 1, try_err, on_state, zoom.
  destruct (ApplyBlock (Some sb) (sp_state p)) as [[[]|e|w] s1] eqn:E; [| |done].
  - apply wp_bind, for_fold_digests. intros p' Hs. apply wp_bind, wp_modify, wp_modify.
    cbn [app]. rewrite fmap_imap_snd with (g := fun sm => mkMessageDigest (Message_Hash (sm_Message sm)) (m_From (sm_Message sm)) (m_Nonce (sm_Message sm))).
    by apply (applied_step p0 blks sb p s1).
  - apply wp_try_then. intros _ ?. apply wp_try_then. intros _ ?. apply wp_bind.
    destruct (0 <? rh_Height (sb_header sb)); [apply wp_try_then; intros _ ?|]; by apply wp_ret, wp_panic.
Qed.

Lemma wp_loop_while p0 l body :
  (forall i p, on_chain p0 p -> stays p0 (body i) (fun _ => on_chain p0) p) ->
  forall p, on_chain p0 p -> stays p0 (loop_while l body) (fun _ => on_chain p0) p.
Proof.
  intros Hb. induction l as [|i l IH]; intros p Hp; simpl; [by apply wp_ret|].
  apply wp_bind. eapply wp_mono; [by apply Hb|]. intros [] p' Hp'; [by apply IH|by apply wp_ret].
Qed.

Lemma process_height_wp p0 i p : on_chain p0 p -> stays p0 (process_height i) (fun _ => on_chain p0) p.
Proof.
  intros Hp. unfold process_height. apply wp_bind, wp_gets. destruct (negb _); [by apply wp_ret|].
  apply wp_bind. eapply wp_mono; [apply stays_keeps; [keeps|done]|]. intros [bid|] p1 Hp1; [|by apply wp_ret].
  apply wp_bind. eapply wp_mono; [apply stays_keeps; [keeps|done]|]. intros [sb|] p2 [blks Hp2]; [|by apply wp_ret; exists blks].
  destruct (negb _); [by apply wp_bind, wp_modify, wp_ret; exists blks; destruct Hp2|].
  apply wp_bind, wp_try_never.
  eapply wp_mono; [by apply processTxBlock_wp|]. intros _ p3 []. simpl.
  apply wp_bind, wp_modify, wp_bind, wp_modify, wp_ret. by exists (blks ++ [sb]).
Qed.

Lemma handleBlock_wp p0 fetch p : on_chain p0 p -> stays p0 (handleBlock fetch) (fun _ => on_chain p0) p.
Proof.
  intros Hp. unfold handleBlock. apply wp_bind, wp_gets. case_match; [by apply wp_ret|].
  apply wp_bind. eapply wp_mono; [by apply stays_keeps; [apply keeps_link_blocks|]|]. intros ? p1 Hp1.
  apply wp_bind, wp_gets, wp_bind. eapply wp_mono; [by apply wp_loop_while; [apply process_height_wp|]|].
  intros ? p2 Hp2. apply wp_modify. case_match; [|done]. destruct Hp2 as [blks []]. by exists blks.
Qed.

(** ** Any events *)

Inductive pool_event :=
  | EvAddBlock (tb : SignedBlock)
  | EvAddMessage (sm : SignedMessage)
  | EvReceive (fetch : bytes -> option bytes)
  | EvHandle (fetch : bytes -> option bytes).
Definition run_event (e : pool_event) : M SyncPool unit :=
  match e with
  | EvAddBlock tb => SyncAddTxBlock tb
  | EvAddMessage sm => SyncAddTxMessage sm
  | EvReceive fetch => receiveBlock fetch
  | EvHandle fetch => handleBlock fetch
  end.
(** One after the other; an error is returned to whoever sent the event. *)
Definition run_events (l : list pool_event) : M SyncPool unit :=
  for_each l (fun e => do! try_err (run_event e); ret tt).

Lemma run_event_wp p0 e p : on_chain p0 p -> stays p0 (run_event e) (fun _ => on_chain p0) p.
Proof.
  intros Hp. destruct e; cbn [run_event]; [| | |by apply handleBlock_wp]; apply stays_keeps; try done.
  - apply keeps_SyncAddTxBlock.
  - apply keeps_SyncAddTxMessage.
  - apply keeps_receiveBlock.
Qed.

(** C27. Whatever the network sends and in whatever order, what a running pool
    has applied is a chain: its state is exactly what applying some blocks one
    after the other makes of the state it was started on, the height it works
    at is that state's, and the message pools that listen were told of those
    blocks, each once and in that order. *)
Theorem sync_pool_chain groupID thre st (ts : T) (ir : R) push process events p
    (p0 := set_inProcess process (set_inPush push (sync_load (NewSyncPool groupID thre st ts ir)).2)) :
  tds st = None -> run_events events p0 = (Ok tt, p) ->
  exists blks, apply_chain blks st = (Ok tt, sp_state p) /\
    sp_nextHeight p = v_height (cur (sp_state p)) /\
    sp_msgDone p = (if push then digest <$> blks else []) /\
    sp_blkDone p = if process then digest <$> blks else [].
Proof.
  intros Ht Hr. assert (H0' : on_chain p0 p0).
  { exists []. split; try done; simpl; [by destruct push|by destruct process]. }
  assert (Hw : stays p0 (run_events events) (fun _ => on_chain p0) p0).
  { apply wp_for_each; [|done]. intros e p' Hp'. apply wp_bind, wp_try_err; intros; [|by apply wp_ret].
    eapply wp_mono; [by apply run_event_wp|]. intros. by apply wp_ret. }
  destruct (wp_Ok _ _ _ _ _ _ _ Hw Hr) as [blks []]. by exists blks.
Qed.
End Chain.
