(* ===== verification/SyncPoolLive.v ===== *)
(** * SyncPoolLive: a pool that has the blocks catches up *)

From S2P Require Import Prelude GoMonad Codec Keys Segments SegmentID Types Tx Fr StateTypes State Roles Chunks Orders Challenge Pay Validate Block Chain Propose TxStore HotStuff SyncPool.

Section Live.
Context `{!StateEnv, !SMTLaws, !Base58, !Codec Message, !Codec SignedBlock} {T R : Type} `{!Store T, !StoreLaws T, !IRole R}.
Notation SyncPool := (SyncPool (T := T) (R := R)).
Implicit Types (p : SyncPool) (tb blk : SignedBlock) (blks : list SignedBlock).

Definition id_of blk : MsgID := RawBlock_Hash (sb_RawBlock blk).

Lemma apply_msgs_receipts msgs rs s s' : apply_msgs msgs rs s = (Ok tt, s') -> (length msgs <= length rs)%nat.
Proof.
  revert rs s. induction msgs as [|m msgs IH]; intros [|r rs] s Hr; simpl in *; try lia; [done|].
  apply bind_Ok in Hr as (? & s1 & _ & Hr). apply IH in Hr. lia.
Qed.

Lemma ApplyBlock_receipts blk s s' : ApplyBlock (Some blk) s = (Ok tt, s') ->
  (length (mset_Msgs (sb_set blk)) <= length (mset_Receipts (sb_set blk)))%nat.
Proof.
  unfold ApplyBlock. intros ([] & s0 & _ & (s1 & Hr & _)%with_txn_Ok)%bind_Ok.
  apply bind_Ok in Hr as ([] & s2 & _ & Hr). apply bind_Ok in Hr as (b & s3 & _ & Hr).
  apply bind_Ok in Hr as ([] & s4 & Hb & _). unfold applyBlock_body in Hb.
  do 3 apply bind_Ok in Hb as ([] & ? & _ & Hb). apply bind_Ok in Hb as ([] & ? & Hb & _).
  by apply apply_msgs_receipts in Hb.
Qed.

(** A chain: consecutive heights, each block naming the one before. *)
Lemma apply_chain_links blks s s' i blk : tds s = None ->
  apply_chain blks s = (Ok tt, s') -> blks !! i = Some blk ->
  v_height (cur s) + Z.of_nat (length blks) < 2 ^ 64 -> 0 <= v_height (cur s) ->
  rh_Height (sb_header blk) = v_height (cur s) + Z.of_nat i /\
  forall j prev, i = S j -> blks !! j = Some prev -> rh_PrevID (sb_header blk) = id_of prev.
Proof.
  revert s i blk. induction blks as [|b blks IH]; intros s i blk Ht Hr Hi Hlt Hpos; [done|].
  cbn [length] in Hlt. unfold apply_chain in Hr. cbn [for_each] in Hr.
  apply bind_Ok in Hr as ([] & s1 & E & Hr). destruct (ApplyBlock_Ok _ _ _ Ht E) as [].
  rewrite u64_id in bk_height' by (unfold is_u64; lia).
  destruct i as [|i]; simpl in Hi; [injection Hi as <-; split; [lia|done]|].
  destruct (IH s1 i blk) as [Hh Hp]; try done; [lia..|]. split; [lia|].
  intros j prev [= ->] Hj. destruct j as [|j]; simpl in Hj; [|by eapply Hp].
  injection Hj as <-. destruct blks as [|b2 blks]; [done|]. injection Hi as ->.
  apply bind_Ok in Hr as ([] & s2 & E2 & _). destruct (ApplyBlock_Ok _ _ _ bk_tds E2) as []. unfold id_of. congruence.
Qed.

(** ** Ready to catch up *)

(** [blks] are the blocks from height [n] on; [p] has all of them, and the heights
    from [n + k] on point at them. *)
Record ready n blks (k : nat) p : Prop := mkReady {
  rd_store i blk : blks !! i = Some blk -> holds (sp_store p) (id_of blk) blk;
  rd_known i blk : blks !! i = Some blk -> (k <= i)%nat -> sp_blks p !! (n + Z.of_nat i) = Some (id_of blk);
  rd_agree i blk id : blks !! i = Some blk -> sp_blks p !! (n + Z.of_nat i) = Some id -> id = id_of blk;
}.

(** The state and the heights. *)
Definition at_heights (s : StateMgr) next remote p : Prop :=
  sp_state p = s /\ sp_nextHeight p = next /\ sp_remoteHeight p = remote.

Section Chain.
Variables (n : Z) (blks : list SignedBlock).
(** The heights and the links of the blocks, as [apply_chain_links] gives them. *)
Context (Hn : 0 <= n) (Hlt : n + Z.of_nat (length blks) < 2 ^ 64).
Context (Hheight : forall i blk, blks !! i = Some blk -> rh_Height (sb_header blk) = n + Z.of_nat i).
Context (Hprev : forall i blk prev, blks !! S i = Some blk -> blks !! i = Some prev -> rh_PrevID (sb_header blk) = id_of prev).

Lemma GetTxBlock_ready k p bid blk i : ready n blks k p -> blks !! i = Some blk -> bid = id_of blk ->
  exists t', on_store (R := R) (GetTxBlock bid) p = (Ok blk, set_sp_store t' p) /\ ready n blks k (set_sp_store t' p).
Proof.
  intros [] Hi ->. destruct (GetTxBlock_holds _ _ _ (rd_store0 i blk Hi)) as (t' & E & Ht').
  exists t'. unfold on_store, zoom. rewrite E. split; [done|]. by split; simpl; eauto.
Qed.

Lemma ready_set k k' h id p : ready n blks k p ->
  (forall j b, blks !! j = Some b -> h = n + Z.of_nat j -> id = id_of b) ->
  (forall j, (k' <= j)%nat -> (k <= j)%nat \/ h = n + Z.of_nat j) ->
  ready n blks k' (set_blks <[h := id]> p).
Proof.
  intros [] Hid Hk. split; simpl; [done| |].
  - intros j b Hj Hle. destruct (decide (h = n + Z.of_nat j)) as [->|Hne].
    + rewrite lookup_insert_eq. f_equal. by apply (Hid j b).
    + rewrite lookup_insert_ne by done. destruct (Hk j Hle); [by apply rd_known0|done].
  - intros j b id' Hj. destruct (decide (h = n + Z.of_nat j)) as [->|Hne].
    + rewrite lookup_insert_eq. intros [= <-]. by apply (Hid j b).
    + rewrite lookup_insert_ne by done. by apply rd_agree0.
Qed.

(** Going back from a block, the one before becomes known. *)
Lemma link_height_run fetch s remote i p : (i < length blks)%nat -> at_heights s n remote p -> ready n blks i p ->
  runs (link_height fetch (n + Z.of_nat i)) (fun go p' => go = true /\ at_heights s n remote p' /\ ready n blks (i - 1) p') p.
Proof.
  intros Hi Ha Hr. destruct (lookup_lt_is_Some_2 blks i) as [blk Hb]; [lia|].
  unfold link_height. apply runs_bind, runs_gets. rewrite (rd_known _ _ _ _ Hr i blk Hb) by lia.
  destruct (_ && _) eqn:Eskip.
  - apply runs_ret. split_and!; [done..|]. apply andb_prop in Eskip as [Eskip Hk%bool_decide_eq_true_1].
    apply andb_prop in Eskip as [_ Hi0%Z.gtb_lt]. destruct Ha as (_ & E & _). rewrite E in Hi0.
    destruct Hr as []. split; [done| |done]. intros j b Hj Hle. destruct (decide (j = i - 1)%nat) as [->|]; [|apply rd_known0; [done|lia]].
    destruct Hk as [id Hid]. replace (n + Z.of_nat (i - 1)) with (n + Z.of_nat i - 1) in * by lia.
    rewrite Hid. f_equal. apply (rd_agree0 (i - 1)%nat); [done|]. by replace (n + Z.of_nat (i - 1)) with (n + Z.of_nat i - 1) by lia.
  - destruct (GetTxBlock_ready i p (id_of blk) blk i Hr Hb eq_refl) as (t' & E & Hr').
    apply runs_bind. exists (Some blk), (set_sp_store t' p). split; [unfold try_err; by rewrite E|].
    cbv zeta. rewrite (Hheight i blk Hb). destruct Ha as (A1 & A2 & A3).
    apply runs_bind, runs_modify, runs_bind.
    assert (R1 : ready n blks i (set_blks <[n + Z.of_nat i := id_of blk]> (set_sp_store t' p))).
    { apply (ready_set i); [done| |by left]. intros j b Hj Ej. assert (i = j) as <- by lia. congruence. }
    destruct (Z.ltb_spec 0 (n + Z.of_nat i)) as [Hp|Hp].
    + apply runs_modify, runs_ret. split_and!; [done..|].
      apply (ready_set i); [done| |intros; lia].
      intros j b Hj Ej. assert (i = S j) as -> by lia. by eapply Hprev.
    + apply runs_ret, runs_ret. split_and!; [done..|]. by replace (i - 1)%nat with i by lia.
Qed.

Lemma link_loop_run fetch s remote k p : (k <= length blks)%nat -> at_heights s n remote p -> ready n blks (k - 1) p ->
  runs (loop_while (rev (seqZ n (Z.of_nat k))) (link_height fetch)) (fun _ p' => at_heights s n remote p' /\ ready n blks 0 p') p.
Proof.
  revert p. induction k as [|k IH]; intros p Hk Ha Hr; [by apply runs_ret|].
  rewrite seqZ_S, rev_app_distr. cbn [rev app loop_while]. apply runs_bind.
  eapply runs_mono; [apply link_height_run; [done|done|by replace k with (S k - 1)%nat by lia]|].
  intros go p' (-> & Ha' & Hr'). apply IH; [lia|done|done].
Qed.

(** Only blocks were lost, none that was needed. *)
Definition keeps_blocks p p' : Prop :=
  sp_blks p' = sp_blks p /\ sp_nextHeight p' = sp_nextHeight p /\ sp_remoteHeight p' = sp_remoteHeight p /\
  forall bid tb, holds (sp_store p) bid tb -> holds (sp_store p') bid tb.

Lemma ready_keeps k p p' : keeps_blocks p p' -> ready n blks k p -> ready n blks k p'.
Proof. intros (E & _ & _ & Hh) []. split; rewrite ?E; eauto. Qed.

Lemma store_outcomes_run (bid : MsgID) (h : Z) (rs : list Receipt) l p (acc : list MessageDigest) :
  (forall i sm, (i, sm) ∈ l -> is_Some (rs !! i)) ->
  runs (for_fold l acc (fun acc '(i, sm) =>
        match rs !! i with
        | None => panic "index out of range"
        | Some r =>
            let mid := Message_Hash (sm_Message sm) in
            do! try_err (on_store (PutTxMsgState mid (mkMsgState bid h r)));
            ret (acc ++ [mkMessageDigest mid (m_From (sm_Message sm)) (m_Nonce (sm_Message sm))])
        end)) (fun _ p' => keeps_blocks p p' /\ sp_state p' = sp_state p) p.
Proof.
  revert acc p. induction l as [|[i sm] l IH]; intros acc p Hl; [by apply runs_ret|].
  cbn [for_fold]. apply runs_bind. destruct (Hl i sm) as [r ->]; [by left|]. cbv zeta. apply runs_bind.
  destruct (PutTxMsgState_holds (sp_store p) (Message_Hash (sm_Message sm)) (mkMsgState bid h r)) as (o & t' & E & Ho & Hh).
  assert (Ht : exists ox, try_err (on_store (R := R) (PutTxMsgState (Message_Hash (sm_Message sm)) (mkMsgState bid h r))) p
                          = (Ok ox, set_sp_store t' p)).
  { unfold try_err, on_store, zoom. rewrite E. destruct o as [u|e|w]; eauto. by destruct (Ho w). }
  destruct Ht as [ox Ht]. exists ox, (set_sp_store t' p). split; [done|]. apply runs_ret.
  eapply runs_mono; [apply IH; intros; apply (Hl i0 sm0); by right|].
  intros _ p' [(E1 & E2 & E3 & E4) E5]. split; [|done]. split_and!; try done. auto.
Qed.

Lemma processTxBlock_run blk s1 p :
  ApplyBlock (Some blk) (sp_state p) = (Ok tt, s1) ->
  runs (processTxBlock blk) (fun _ p' => keeps_blocks p p' /\ sp_state p' = s1) p.
Proof.
  intros E. pose proof (ApplyBlock_receipts _ _ _ E) as Hlen. unfold processTxBlock.
  apply runs_bind. exists (Some tt), (set_sp_state s1 p).
  split; [unfold try_err, on_state, zoom; by rewrite E|]. apply runs_bind.
  eapply runs_mono; [apply store_outcomes_run|].
  - intros i sm Hin. apply lookup_lt_is_Some_2. apply elem_of_lookup_imap in Hin as (j & y & [= -> ->] & Hj).
    apply lookup_lt_Some in Hj. lia.
  - intros mds p' [Hk Hs]. apply runs_bind, runs_modify, runs_modify.
    destruct (sp_inPush p'); simpl; case_match; (split; [exact Hk|done]).
Qed.

Lemma process_height_run i blk s1 p :
  at_heights (sp_state p) (n + Z.of_nat i) (n + Z.of_nat (length blks)) p -> ready n blks i p ->
  blks !! i = Some blk -> ApplyBlock (Some blk) (sp_state p) = (Ok tt, s1) ->
  runs (process_height (n + Z.of_nat i)) (fun go p' => go = true /\
    at_heights s1 (n + Z.of_nat (S i)) (n + Z.of_nat (length blks)) p' /\ ready n blks (S i) p') p.
Proof.
  intros (A1 & A2 & A3) Hr Hb E. pose proof (lookup_lt_Some _ _ _ Hb) as Hi.
  unfold process_height. apply runs_bind, runs_gets.
  replace (n + Z.of_nat i <? sp_remoteHeight p) with true by (symmetry; apply Z.ltb_lt; lia). cbn [negb].
  apply runs_bind. rewrite (rd_known _ _ _ _ Hr i blk Hb) by lia. apply runs_ret.
  destruct (GetTxBlock_ready i p (id_of blk) blk i Hr Hb eq_refl) as (t' & Eg & Hr').
  apply runs_bind. exists (Some blk), (set_sp_store t' p). split; [unfold try_err; by rewrite Eg|].
  rewrite (Hheight i blk Hb), Z.eqb_refl. cbn [negb].
  apply runs_bind. unfold try_err. destruct (processTxBlock_run blk s1 (set_sp_store t' p) E) as (u & p2 & E2 & Hk & Hs).
  exists (Some u), p2. rewrite E2. split; [done|]. apply runs_bind, runs_modify, runs_bind, runs_modify, runs_ret.
  split; [done|]. pose proof (ready_keeps _ _ _ Hk Hr') as []. destruct Hk as (_ & K2 & K3 & _). simpl in K2, K3.
  split; [unfold at_heights; split_and!; simpl; [done| |congruence]|].
  - rewrite K2, A2. rewrite u64_id by (unfold is_u64; lia). lia.
  - split; simpl; [done| |].
    + intros j b Hj Hle. rewrite lookup_delete_ne by lia. apply rd_known0; [done|lia].
    + intros j b id Hj [_ Hl]%lookup_delete_Some. by eapply rd_agree0.
Qed.

Lemma process_loop_run s' rest k p :
  drop k blks = rest -> tds (sp_state p) = None -> apply_chain rest (sp_state p) = (Ok tt, s') ->
  at_heights (sp_state p) (n + Z.of_nat k) (n + Z.of_nat (length blks)) p -> ready n blks k p -> (k <= length blks)%nat ->
  runs (loop_while (seqZ (n + Z.of_nat k) (Z.of_nat (length rest))) process_height)
    (fun _ => at_heights s' (n + Z.of_nat (length blks)) (n + Z.of_nat (length blks))) p.
Proof.
  revert k p. induction rest as [|blk rest IH]; intros k p Hd Ht Hc Ha Hr Hk.
  - assert (length (drop k blks) = 0%nat) as Hl by by rewrite Hd. rewrite length_drop in Hl.
    replace k with (length blks) in * by lia. unfold apply_chain in Hc. cbn [for_each] in Hc. injection Hc as <-.
    by apply runs_ret.
  - assert (Hb : blks !! k = Some blk) by (rewrite <-(Nat.add_0_r k), <-lookup_drop, Hd; done).
    pose proof (lookup_lt_Some _ _ _ Hb) as Hi.
    unfold apply_chain in Hc. cbn [for_each] in Hc. apply bind_Ok in Hc as ([] & s1 & E & Hc).
    rewrite seqZ_cons by (simpl; lia). cbn [loop_while length].
    apply runs_bind. eapply runs_mono; [by eapply process_height_run|].
    intros go p' (-> & Ha' & Hr'). destruct (ApplyBlock_Ok _ _ _ Ht E) as [].
    pose proof Ha' as (<- & _ & _).
    replace (Z.succ (n + Z.of_nat k)) with (n + Z.of_nat (S k)) by lia.
    replace (Z.pred (Z.of_nat (S (length rest)))) with (Z.of_nat (length rest)) by lia.
    apply IH; [|done..|lia]. by rewrite (drop_S _ _ _ Hb) in Hd; injection Hd.
Qed.
End Chain.

(** C28. A pool that holds blocks that can be applied one after the other, at most 128 of
    them, up to the height it heard of, the last one announced to it under its height
    and no other block announced for one of their heights: in one round of
    [handleBlock], without asking the network, it applies all of them and ends on the
    state they lead to and at the height it heard of.  A block that cannot be applied
    stops the node instead ([PoolRuns.strangers_stop_node]). *)
Theorem handleBlock_catches_up fetch blks p s' (n := v_height (cur (sp_state p))) last :
  tds (sp_state p) = None -> apply_chain blks (sp_state p) = (Ok tt, s') -> is_u64 n ->
  n + Z.of_nat (length blks) < 2 ^ 64 -> (length blks <= 128)%nat ->
  sp_nextHeight p = n -> sp_remoteHeight p = n + Z.of_nat (length blks) ->
  (forall i blk, blks !! i = Some blk -> holds (sp_store p) (id_of blk) blk) ->
  blks !! (length blks - 1)%nat = Some last -> sp_blks p !! (sp_remoteHeight p - 1) = Some (id_of last) ->
  (forall i blk id, blks !! i = Some blk -> sp_blks p !! (n + Z.of_nat i) = Some id -> id = id_of blk) ->
  exists p', handleBlock fetch p = (Ok tt, p') /\
    sp_state p' = s' /\ sp_nextHeight p' = sp_remoteHeight p /\ sp_remoteHeight p' = sp_remoteHeight p.
Proof.
  intros Ht Hc Hn Hlt H128 Hnext Hremote Hstore Hlast Hknown Hagree.
  pose proof (lookup_lt_Some _ _ _ Hlast) as Hpos.
  assert (Hheight : forall i blk, blks !! i = Some blk -> rh_Height (sb_header blk) = n + Z.of_nat i)
    by (intros; eapply apply_chain_links; eauto; apply Hn).
  assert (Hprev : forall i blk prev, blks !! S i = Some blk -> blks !! i = Some prev -> rh_PrevID (sb_header blk) = id_of prev)
    by (intros; eapply apply_chain_links; eauto; apply Hn).
  assert (Hr : ready n blks (length blks - 1) p).
  { split; [done| |done]. intros i blk Hi Hle. apply lookup_lt_Some in Hi as Hi'.
    assert (i = length blks - 1)%nat as -> by lia. rewrite Hlast in Hi. injection Hi as <-.
    rewrite <-Hknown. f_equal. lia. }
  assert (Hrun : runs (handleBlock fetch) (fun _ => at_heights s' (sp_remoteHeight p) (sp_remoteHeight p)) p).
  { unfold handleBlock. apply runs_bind, runs_gets. rewrite (proj2 (Z.eqb_neq _ _)) by lia.
    apply runs_bind. unfold link_blocks. apply runs_bind, runs_gets.
    rewrite (u64_id (_ - _)), (proj2 (Z.leb_le _ _)) by (unfold is_u64 in *; lia).
    unfold u64_range_list at 1. rewrite Hremote, Hnext.
    replace (n + Z.of_nat (length blks) - n) with (Z.of_nat (length blks)) by lia.
    eapply runs_mono; [eapply (link_loop_run n blks); [by apply Hn|done..|by split_and!|done]|].
    intros _ p1 [(A1 & A2 & A3) Hr1]. apply runs_bind, runs_gets, runs_bind. unfold u64_range_list. rewrite A2, A3.
    replace (n + Z.of_nat (length blks) - n) with (Z.of_nat (length blks)) by lia.
    replace n with (n + Z.of_nat 0) at 1 by lia.
    eapply runs_mono; [eapply (process_loop_run n blks); [by apply Hn|done..|by rewrite A1|by rewrite A1| |done|lia]|].
    - split_and!; [done| |done]. lia.
    - intros _ p2 (B1 & B2 & B3). apply runs_modify. rewrite B2, B3. by rewrite Z.gtb_ltb, Z.ltb_irrefl. }
  destruct Hrun as ([] & p' & E & ? & ? & ?). by exists p'.
Qed.
End Live.
