(* ===== verification/PushPool.v ===== *)
(** * PushPool: the node's own messages on their way to the chain

    [submodule/txPool/push.go]: the nonce of a message is handed out here, the
    message is signed, kept until a block carries it, and published again from
    time to time.

    The pool's mutex is the field [pp_locked]: [Lock] on a mutex that is held
    never returns, which is the outcome [Panic "deadlock"], since between two
    calls nobody is left who would unlock it.  Every reading of the clock is the
    next value of [clock], in nanoseconds; [publish] is whether the network
    takes a message; [order] is the order in which a map is iterated.

    A pending message is a pointer that the process pool holds too; it changes
    only when it is published again under a new gas price, and that the process
    pool then sees the new price is not modelled. *)

From S2P Require Import Prelude GoMonad Codec Keys Segments SegmentID Types Tx Fr StateTypes State Roles Chunks Orders Challenge Pay Validate Block Propose TxStore HotStuff SyncPool.

Record msgTo := mkMsgTo { mt_ctime : Z; mt_mtime : Z; mt_msgID : MsgID; mt_msg : SignedMessage }.
Record pendingMsg := mkPendingMsg { pm_chainNonce : Z; pm_nonce : Z; pm_msgto : gmap Z msgTo }.

Definition set_chainNonce x (lp : pendingMsg) := mkPendingMsg x (pm_nonce lp) (pm_msgto lp).
Definition set_pm_nonce x (lp : pendingMsg) := mkPendingMsg (pm_chainNonce lp) x (pm_msgto lp).
Definition set_msgto f (lp : pendingMsg) := mkPendingMsg (pm_chainNonce lp) (pm_nonce lp) (f (pm_msgto lp)).

Definition Second : Z := 1000000000.
Definition Minute : Z := 60 * Second.
Definition Hour : Z := 60 * Minute.

Definition set_m_Nonce x (m : Message) : Message :=
  mkMessage (m_Version m) (m_From m) (m_To m) x (m_Value m) (m_GasLimit m) (m_GasPrice m) (m_Method m) (m_Params m).
Definition set_m_GasPrice x (m : Message) : Message :=
  mkMessage (m_Version m) (m_From m) (m_To m) (m_Nonce m) (m_Value m) (m_GasLimit m) x (m_Method m) (m_Params m).

Section PushPool.
Context `{!StateEnv, !Base58, !Codec Message, !Codec SignedBlock} {T R : Type} `{!Store T, !IRole R}.
Notation SyncPool := (SyncPool (T := T) (R := R)).
Variables (clock : nat -> Z) (publish : SignedMessage -> bool) (order : gmap Z msgTo -> list Z).

Record PushPool := mkPushPool {
  pp_sync : SyncPool;
  pp_locked : bool;
  pp_localID : Z; pp_locals : list Z; pp_pending : gmap Z pendingMsg; pp_ready : bool;
  (** readings of the clock so far; what was published *)
  pp_reads : nat; pp_published : list SignedMessage }.
Implicit Types (p : PushPool).

Definition set_pp_sync x p := mkPushPool x (pp_locked p) (pp_localID p) (pp_locals p) (pp_pending p) (pp_ready p) (pp_reads p) (pp_published p).
Definition set_locked x p := mkPushPool (pp_sync p) x (pp_localID p) (pp_locals p) (pp_pending p) (pp_ready p) (pp_reads p) (pp_published p).
Definition set_locals f p := mkPushPool (pp_sync p) (pp_locked p) (pp_localID p) (f (pp_locals p)) (pp_pending p) (pp_ready p) (pp_reads p) (pp_published p).
Definition set_pending f p := mkPushPool (pp_sync p) (pp_locked p) (pp_localID p) (pp_locals p) (f (pp_pending p)) (pp_ready p) (pp_reads p) (pp_published p).
Definition set_pp_ready x p := mkPushPool (pp_sync p) (pp_locked p) (pp_localID p) (pp_locals p) (pp_pending p) x (pp_reads p) (pp_published p).
Definition set_reads f p := mkPushPool (pp_sync p) (pp_locked p) (pp_localID p) (pp_locals p) (pp_pending p) (pp_ready p) (f (pp_reads p)) (pp_published p).
Definition set_published f p := mkPushPool (pp_sync p) (pp_locked p) (pp_localID p) (pp_locals p) (pp_pending p) (pp_ready p) (pp_reads p) (f (pp_published p)).

Definition on_sync {A} (m : M SyncPool A) : M PushPool A := zoom pp_sync set_pp_sync m.

Definition NewPushPool (sp : SyncPool) : PushPool :=
  let '(self, r) := RoleSelf (sp_role sp) in
  mkPushPool (set_sp_role r sp) false (match self with Ok pri => ri_RoleID pri | _ => 0 end) [] ∅ false 0 [].

(** [time.Now()], and the reading in [time.Since] *)
Definition now : M PushPool Z :=
  let! k := gets pp_reads in
  do! modify (set_reads S);
  ret (clock k).

Definition Lock : M PushPool unit :=
  let! held := gets pp_locked in
  if held then panic "deadlock" else modify (set_locked true).
Definition Unlock : M PushPool unit := modify (set_locked false).

(** [pp.INetService.PublishTxMsg] *)
Definition PublishTxMsg (sm : SignedMessage) : M PushPool unit :=
  do! modify (set_published (fun l => l ++ [sm]));
  check (publish sm) "publish".

(** A fresh entry; an error of the state unlocks first. *)
Definition new_pending (id : Z) : M PushPool pendingMsg :=
  let! cNonce := try_err (on_sync (on_state (StateGetNonce id))) in
  match cNonce with
  | None => do! Unlock; throw "get nonce"
  | Some cNonce => ret (mkPendingMsg cNonce cNonce ∅)
  end.

(** ** The calls *)

Definition PushSignedMessage (sm : SignedMessage) : M PushPool MsgID :=
  let m := sm_Message sm in
  let mid := Message_Hash m in
  let! valid := on_sync (on_role (RoleVerify (m_From m) mid (sm_Signature sm))) in
  do! check valid "invalid sign";
  do! Lock;
  let! pending := gets pp_pending in
  let known := pending !! m_From m in
  let! lp := (match known with
              | Some lp => ret lp
              | None =>
                  let! lp := new_pending (m_From m) in
                  do! modify (set_pending <[m_From m := lp]>);
                  ret lp
              end) in
  do! check (negb (m_Nonce m <? pm_chainNonce lp)) "nonce should be no less than chain nonce";
  do! (if m_Nonce m =? pm_nonce lp
       then modify (set_pending (alter (set_pm_nonce (u64 (pm_nonce lp + 1))) (m_From m)))
       else check (negb (m_Nonce m >? pm_nonce lp)) "nonce should be no larger");
  let! ctime := now in
  let! mtime := now in
  do! modify (set_pending (alter (set_msgto <[m_Nonce m := mkMsgTo ctime mtime mid sm]>) (m_From m)));
  do! Unlock;
  do! (match known with None => on_sync (on_store (PutTxMsg sm true)) | Some _ => ret tt end);
  do! modify (fun p => if sp_inProcess (pp_sync p) then set_pp_sync (set_msgChan (fun l => l ++ [sm]) (pp_sync p)) p else p);
  do! PublishTxMsg sm;
  ret mid.

Definition PushMessage (mes : Message) : M PushPool MsgID :=
  do! Lock;
  let! p := gets (fun p => p) in
  if negb (pp_ready p) then do! Unlock; throw "push pool is not ready"
  else
    let! lp := (match pp_pending p !! m_From mes with
                | Some lp => ret lp
                | None =>
                    let! lp := new_pending (m_From mes) in
                    do! modify (set_locals (fun l => l ++ [m_From mes]));
                    do! modify (set_pending <[m_From mes := lp]>);
                    ret lp
                end) in
    let mes := set_m_Nonce (pm_nonce lp) mes in
    do! modify (set_pending (alter (set_pm_nonce (u64 (pm_nonce lp + 1))) (m_From mes)));
    do! Unlock;
    let mid := Message_Hash mes in
    let! sig := on_sync (on_role (RoleSign (m_From mes) mid SigSecp256k1)) in
    PushSignedMessage (mkSignedMessage mes sig).

Definition PushGetPendingNonce (id : Z) : M PushPool Z :=
  do! Lock;
  let! pending := gets pp_pending in
  match pending !! id with
  | Some lp => do! Unlock; ret (pm_nonce lp)
  | None =>
      let! lp := new_pending id in
      do! modify (set_locals (fun l => l ++ [id]));
      do! modify (set_pending <[id := lp]>);
      do! Unlock;
      ret (pm_nonce lp)
  end.

(** [make] already fills the slice, the ids come after. *)
Definition GetPendingMsg (id : Z) : M PushPool (list MsgID) :=
  do! Lock;
  let! pending := gets pp_pending in
  do! Unlock;
  ret (match pending !! id with
       | Some lp => replicate (size (pm_msgto lp)) MsgIDUndef ++ omap (fun nc => mt_msgID <$> pm_msgto lp !! nc) (order (pm_msgto lp))
       | None => []
       end).

(** ** The loop [syncPush] *)

(** Once the node is in step the pool opens. *)
Definition syncPush_wait : M PushPool unit :=
  let! si := on_sync SyncGetInfo in
  if (si_SyncedHeight si =? si_RemoteHeight si) && si_Status si
  then do! modify (set_pp_ready true); modify (fun p => set_pp_sync (set_inPush true (pp_sync p)) p)
  else ret tt.

Definition entry_done (md : MessageDigest) (lp : pendingMsg) : pendingMsg :=
  let lp := set_msgto (delete (md_Nonce md)) lp in
  if pm_chainNonce lp <=? md_Nonce md then set_chainNonce (u64 (md_Nonce md + 1)) lp else lp.
Definition msg_done (md : MessageDigest) : M PushPool unit :=
  modify (set_pending (alter (entry_done md) (md_From md))).

(** [case bh := <-pp.msgDone] *)
Definition syncPush_done : M PushPool unit :=
  let! p := gets (fun p => p) in
  match sp_msgDone (pp_sync p) with
  | [] => ret tt
  | bh :: rest =>
      do! modify (set_pp_sync (set_msgDone (fun _ => rest) (pp_sync p)));
      do! Lock;
      do! for_each (bd_msgs bh) msg_done;
      Unlock
  end.

Definition set_mt (f : msgTo -> msgTo) (lid nc : Z) : M PushPool unit :=
  modify (set_pending (alter (set_msgto (alter f nc)) lid)).
Definition drop_mt (lid nc : Z) : M PushPool unit := modify (set_pending (alter (set_msgto (delete nc)) lid)).
Definition touch_mt (lid nc : Z) : M PushPool unit :=
  let! t := now in set_mt (fun x => mkMsgTo (mt_ctime x) t (mt_msgID x) (mt_msg x)) lid nc.

(** The same message with a higher gas price. *)
Definition replace_msg (lid nc : Z) (pmsg : msgTo) : M PushPool unit :=
  let sm := mt_msg pmsg in
  let m := set_m_GasPrice (Some (10 + default 0 (m_GasPrice (sm_Message sm)))) (sm_Message sm) in
  let mid := Message_Hash m in
  do! set_mt (fun x => mkMsgTo (mt_ctime x) (mt_mtime x) mid (mkSignedMessage m (sm_Signature sm))) lid nc;
  let! sig := try_err (on_sync (on_role (RoleSign (m_From m) mid SigSecp256k1))) in
  match sig with
  | None => ret tt
  | Some sig =>
      let sm := mkSignedMessage m sig in
      do! set_mt (fun x => mkMsgTo (mt_ctime x) (mt_mtime x) mid sm) lid nc;
      do! try_err (PublishTxMsg sm);
      do! touch_mt lid nc;
      do! try_err (on_sync (on_store (PutTxMsgState (mt_msgID pmsg) (mkMsgState mid MaxUint64 (mkReceipt 0 [])))));
      ret tt
  end.

Definition tick_msg (lid nc : Z) : M PushPool unit :=
  let! p := gets (fun p => p) in
  match pp_pending p !! lid with
  | None => ret tt
  | Some lp =>
      match pm_msgto lp !! nc with
      | None => ret tt
      | Some pmsg =>
          if m_Nonce (sm_Message (mt_msg pmsg)) <? pm_chainNonce lp then drop_mt lid nc
          else
            let! t := now in
            if t - mt_ctime pmsg >? Hour then drop_mt lid nc
            else if negb (nc =? pp_localID p) then do! try_err (PublishTxMsg (mt_msg pmsg)); touch_mt lid nc
            else
              let! t := now in
              if t - mt_mtime pmsg >? 10 * Minute then replace_msg lid nc pmsg else ret tt
      end
  end.

(** Fifteen seconds after [nt] the loops stop. *)
Fixpoint tick_msgs (nt lid : Z) (res : list Z) : M PushPool unit :=
  match res with
  | [] => ret tt
  | nc :: res =>
      let! t := now in
      if t - nt >? 15 * Second then ret tt else do! tick_msg lid nc; tick_msgs nt lid res
  end.
Fixpoint tick_locals (nt : Z) (locals : list Z) : M PushPool unit :=
  match locals with
  | [] => ret tt
  | lid :: locals =>
      let! t := now in
      if t - nt >? 15 * Second then ret tt
      else
        let! pending := gets pp_pending in
        do! (match pending !! lid with
             | Some lp => tick_msgs nt lid (replicate (size (pm_msgto lp)) 0 ++ order (pm_msgto lp))
             | None => ret tt
             end);
        tick_locals nt locals
  end.

(** [case <-tc.C] *)
Definition syncPush_tick : M PushPool unit :=
  let! nt := now in
  do! Lock;
  let! locals := gets pp_locals in
  do! tick_locals nt locals;
  Unlock.
End PushPool.
