(* ===== verification/PushPoolProps.v ===== *)
(** * PushPoolProps: the nonces of the node's own messages

    What an accepted message does to the pool, and how a message of the same
    account from elsewhere stops the pool for good. *)

From S2P Require Import Prelude GoMonad Codec Keys Segments SegmentID Types Tx Fr StateTypes State Roles Chunks Orders Challenge Pay Validate Block Frame Propose TxStore HotStuff SyncPool PushPool.

Section PushPoolProps.
Context `{!StateEnv, !Base58, !Codec Message, !Codec SignedBlock} {T R : Type} `{!Store T, !IRole R}.
Variables (clock : nat -> Z) (publish : SignedMessage -> bool) (order : gmap Z msgTo -> list Z).
Notation SyncPool := (SyncPool (T := T) (R := R)).
Notation PushPool := (PushPool (T := T) (R := R)).
Implicit Types (p : PushPool) (sp : SyncPool).

(** The entry of an account: a new one starts at the nonce of the chain. *)
Definition entry p (id : Z) : pendingMsg :=
  default (let n := nonce_of Applied (sp_state (pp_sync p)) id in mkPendingMsg n n ∅) (pp_pending p !! id).

Lemma set_sp_state_id sp : set_sp_state (sp_state sp) sp = sp.
Proof. by destruct sp. Qed.
Lemma set_pp_sync_id p : set_pp_sync (pp_sync p) p = p.
Proof. by destruct p. Qed.

Lemma new_pending_run id p : pp_pending p !! id = None -> new_pending id p = (Ok (entry p id), p).
Proof.
  intros Hn. unfold new_pending, entry. rewrite Hn. simpl.
  rewrite (bind_run _ _ p (Some (nonce_of Applied (sp_state (pp_sync p)) id)) p); [done|].
  unfold try_err, on_sync, on_state, zoom. by rewrite StateGetNonce_run, set_sp_state_id, set_pp_sync_id.
Qed.

Lemma Lock_run p : pp_locked p = false -> Lock p = (Ok tt, set_locked true p).
Proof. unfold Lock, bind, gets. by intros ->. Qed.
Lemma Lock_held {A} p (k : unit -> M PushPool A) : pp_locked p = true -> bind Lock k p = (Panic "deadlock", p).
Proof. unfold Lock, bind, gets. by intros ->. Qed.

Lemma bind_check {A} b e (k : unit -> M PushPool A) p : b = true -> bind (check b e) k p = k tt p.
Proof. by intros ->. Qed.

(** The account's entry after [PushMessage] took a nonce. *)
Definition taken p (mes : Message) : PushPool :=
  let p1 := match pp_pending p !! m_From mes with
            | Some _ => p
            | None => set_pending <[m_From mes := entry p (m_From mes)]> (set_locals (fun l => l ++ [m_From mes]) p)
            end in
  set_pending (alter (set_pm_nonce (u64 (pm_nonce (entry p (m_From mes)) + 1))) (m_From mes)) p1.

(** Up to the signature, [PushMessage] hands out the nonce. *)
Lemma PushMessage_run mes p : pp_locked p = false -> pp_ready p = true ->
  PushMessage clock publish mes p =
    (let mes := set_m_Nonce (pm_nonce (entry p (m_From mes))) mes in
     let! sig := on_sync (on_role (RoleSign (m_From mes) (Message_Hash mes) SigSecp256k1)) in
     PushSignedMessage clock publish (mkSignedMessage mes sig)) (taken p mes).
Proof.
  intros Hl Hr. unfold PushMessage. rewrite (bind_run _ _ _ _ _ (Lock_run p Hl)).
  rewrite (bind_run _ _ _ _ _ (eq_refl : gets _ _ = _)).
  change (pp_ready (set_locked true p)) with (pp_ready p). rewrite Hr. cbn [negb].
  change (pp_pending (set_locked true p)) with (pp_pending p).
  unfold taken, entry. destruct (pp_pending p !! m_From mes) as [lp|] eqn:E.
  - simpl. rewrite (bind_run _ _ _ _ _ (eq_refl : ret _ _ = _)).
    rewrite (bind_run _ _ _ _ _ (eq_refl : modify _ _ = _)), (bind_run _ _ _ _ _ (eq_refl : Unlock _ = _)).
    destruct p. simpl in *. by subst.
  - rewrite bind_assoc, (bind_run _ _ _ _ _ (new_pending_run (m_From mes) (set_locked true p) E)).
    unfold entry. change (pp_pending (set_locked true p)) with (pp_pending p). rewrite E. simpl.
    rewrite !bind_assoc, (bind_run _ _ _ _ _ (eq_refl : modify _ _ = _)), bind_assoc, (bind_run _ _ _ _ _ (eq_refl : modify _ _ = _)).
    rewrite (bind_run _ _ _ _ _ (eq_refl : ret _ _ = _)).
    rewrite (bind_run _ _ _ _ _ (eq_refl : modify _ _ = _)), (bind_run _ _ _ _ _ (eq_refl : Unlock _ = _)).
    destruct p. simpl in *. by subst.
Qed.

Lemma taken_pending mes p : pp_pending (taken p mes) !! m_From mes =
  Some (set_pm_nonce (u64 (pm_nonce (entry p (m_From mes)) + 1)) (entry p (m_From mes))).
Proof.
  unfold taken. simpl. rewrite lookup_alter_eq. unfold entry.
  destruct (pp_pending p !! m_From mes) as [lp|] eqn:E; simpl; [by rewrite E|by rewrite lookup_insert_eq].
Qed.
Lemma taken_other mes p id : id <> m_From mes -> pp_pending (taken p mes) !! id = pp_pending p !! id.
Proof.
  intros Hne. unfold taken. simpl. rewrite lookup_alter_ne by done.
  destruct (pp_pending p !! m_From mes); simpl; [done|by rewrite lookup_insert_ne].
Qed.
Lemma taken_same mes p : pp_sync (taken p mes) = pp_sync p /\ pp_locked (taken p mes) = pp_locked p /\
  pp_reads (taken p mes) = pp_reads p /\ pp_published (taken p mes) = pp_published p /\
  pp_localID (taken p mes) = pp_localID p.
Proof. unfold taken. by destruct (pp_pending p !! m_From mes). Qed.

Lemma on_role_run {A} (m : M R A) p a r : m (sp_role (pp_sync p)) = (Ok a, r) ->
  on_sync (on_role m) p = (Ok a, set_pp_sync (set_sp_role r (pp_sync p)) p).
Proof. intros E. unfold on_sync, on_role, zoom. by rewrite E. Qed.

(** A message of a known account whose signature verifies, up to its nonce. *)
Lemma PushSignedMessage_known sm lp r p :
  RoleVerify (m_From (sm_Message sm)) (Message_Hash (sm_Message sm)) (sm_Signature sm) (sp_role (pp_sync p)) = (Ok true, r) ->
  pp_locked p = false -> pp_pending p !! m_From (sm_Message sm) = Some lp ->
  let m := sm_Message sm in
  let p1 := set_pp_sync (set_sp_role r (pp_sync p)) p in
  PushSignedMessage clock publish sm p =
    (do! check (negb (m_Nonce m <? pm_chainNonce lp)) "nonce should be no less than chain nonce";
     do! (if m_Nonce m =? pm_nonce lp
          then modify (set_pending (alter (set_pm_nonce (u64 (pm_nonce lp + 1))) (m_From m)))
          else check (negb (m_Nonce m >? pm_nonce lp)) "nonce should be no larger");
     let! ctime := now clock in
     let! mtime := now clock in
     do! modify (set_pending (alter (set_msgto <[m_Nonce m := mkMsgTo ctime mtime (Message_Hash m) sm]>) (m_From m)));
     do! Unlock;
     do! ret tt;
     do! modify (fun p => if sp_inProcess (pp_sync p) then set_pp_sync (set_msgChan (fun l => l ++ [sm]) (pp_sync p)) p else p);
     do! PublishTxMsg publish sm;
     ret (Message_Hash m)) (set_locked true p1).
Proof.
  intros Hv Hl Hp m p1. unfold PushSignedMessage.
  rewrite (bind_run _ _ _ _ _ (on_role_run _ p true r Hv)), (bind_run _ _ _ _ _ (eq_refl : check true _ _ = _)).
  rewrite (bind_run _ _ _ _ _ (Lock_run p1 Hl)), (bind_run _ _ _ _ _ (eq_refl : gets _ _ = _)).
  change (pp_pending (set_locked true p1)) with (pp_pending p). by rewrite Hp, (bind_run _ _ _ _ _ (eq_refl : ret _ _ = _)).
Qed.

(** A ready pool whose nonce for the account is not behind the chain accepts
    a message that its keys can sign: it gets the next nonce of the account,
    which is then used up, the message is kept under it, handed to the process
    pool if that runs, and published; no other account's messages are touched
    and the pool is open for the next call. *)
Theorem PushMessage_accepts mes p sig r1 r2
    (lp := entry p (m_From mes)) (mes' := set_m_Nonce (pm_nonce lp) mes) (mid := Message_Hash mes') (sm := mkSignedMessage mes' sig) :
  pp_locked p = false -> pp_ready p = true -> pm_chainNonce lp <= pm_nonce lp -> 0 <= pm_nonce lp < 2 ^ 64 - 1 ->
  RoleSign (m_From mes) mid SigSecp256k1 (sp_role (pp_sync p)) = (Ok sig, r1) ->
  RoleVerify (m_From mes) mid sig r1 = (Ok true, r2) -> publish sm = true ->
  exists p', PushMessage clock publish mes p = (Ok mid, p') /\ pp_locked p' = false /\
    pp_pending p' !! m_From mes = Some (mkPendingMsg (pm_chainNonce lp) (pm_nonce lp + 1)
      (<[pm_nonce lp := mkMsgTo (clock (pp_reads p)) (clock (S (pp_reads p))) mid sm]> (pm_msgto lp))) /\
    (forall id, id <> m_From mes -> pp_pending p' !! id = pp_pending p !! id) /\
    pp_published p' = pp_published p ++ [sm] /\
    sp_msgChan (pp_sync p') = sp_msgChan (pp_sync p) ++ (if sp_inProcess (pp_sync p) then [sm] else []) /\
    sp_state (pp_sync p') = sp_state (pp_sync p).
Proof.
  intros Hl Hr Hc Hn Hs Hv Hpub. rewrite PushMessage_run by done. cbv zeta. fold lp. fold mes'.
  destruct (taken_same mes p) as (T1 & T2 & T3 & T4 & _).
  rewrite (bind_run _ _ _ sig (set_pp_sync (set_sp_role r1 (pp_sync p)) (taken p mes))).
  2:{ rewrite <-T1. apply on_role_run. by rewrite T1. }
  cbv beta. fold sm. set (p1 := set_pp_sync _ _).
  rewrite (PushSignedMessage_known sm (set_pm_nonce (u64 (pm_nonce lp + 1)) lp) r2 p1 Hv); [|by rewrite <-T2 in Hl|exact (taken_pending mes p)].
  cbn [sm_Message sm m_Nonce mes' set_m_Nonce pm_nonce pm_chainNonce set_pm_nonce].
  rewrite bind_check by (apply negb_true_iff, Z.ltb_ge; lia).
  rewrite u64_id by (unfold is_u64; lia). rewrite (proj2 (Z.eqb_neq _ _)) by lia.
  rewrite bind_check by (rewrite Z.gtb_ltb; apply negb_true_iff, Z.ltb_ge; lia).
  unfold now, PublishTxMsg, Unlock. rewrite !bind_assoc.
  pose proof (taken_pending mes p) as T5. pose proof (taken_other mes p) as T6. fold lp in T5.
  subst p1. set (pt := taken p mes) in *. clearbody pt.
  eexists. split; [unfold bind, gets, modify, ret, check; simpl; rewrite Hpub; reflexivity|].
  rewrite T3. rewrite u64_id in T5 by (unfold is_u64; lia).
  split_and!; destruct (sp_inProcess (pp_sync p)); simpl; rewrite ?T4, ?app_nil_r; try done.
  1,2: rewrite lookup_alter_eq, T5; done.
  all: intros id Hid; rewrite lookup_alter_ne by done; by apply T6.
Qed.

(** ** The lock that is kept *)

(** Every call and every turn of the loop that needs the lock waits for ever. *)
Definition stuck p : Prop :=
  (forall mes, (PushMessage clock publish mes p).1 = Panic "deadlock") /\
  (forall sm r, RoleVerify (m_From (sm_Message sm)) (Message_Hash (sm_Message sm)) (sm_Signature sm) (sp_role (pp_sync p)) = (Ok true, r) ->
    (PushSignedMessage clock publish sm p).1 = Panic "deadlock") /\
  (forall id, (PushGetPendingNonce id p).1 = Panic "deadlock") /\
  (forall id, (GetPendingMsg order id p).1 = Panic "deadlock") /\
  (sp_msgDone (pp_sync p) <> [] -> (syncPush_done p).1 = Panic "deadlock") /\
  (syncPush_tick clock publish order p).1 = Panic "deadlock".

Lemma locked_stuck p : pp_locked p = true -> stuck p.
Proof.
  intros Hl. unfold stuck. split_and!.
  - intros mes. unfold PushMessage. by rewrite Lock_held.
  - intros sm r Hv. unfold PushSignedMessage. rewrite (bind_run _ _ _ _ _ (on_role_run _ p true r Hv)), bind_check by done.
    by rewrite Lock_held.
  - intros id. unfold PushGetPendingNonce. by rewrite Lock_held.
  - intros id. unfold GetPendingMsg. by rewrite Lock_held.
  - intros Hd. unfold syncPush_done. rewrite (bind_run _ _ _ _ _ (eq_refl : gets _ _ = _)).
    destruct (sp_msgDone (pp_sync p)); [done|]. rewrite (bind_run _ _ _ _ _ (eq_refl : modify _ _ = _)). by rewrite Lock_held.
  - unfold syncPush_tick, now. rewrite bind_assoc, (bind_run _ _ _ _ _ (eq_refl : gets _ _ = _)), bind_assoc.
    rewrite (bind_run _ _ _ _ _ (eq_refl : modify _ _ = _)), (bind_run _ _ _ _ _ (eq_refl : ret _ _ = _)). by rewrite Lock_held.
Qed.

(** What a block's messages do to an account's entry: its own nonce stays. *)
Lemma entry_done_spec md lp : 0 <= md_Nonce md < 2 ^ 64 - 1 ->
  pm_nonce (entry_done md lp) = pm_nonce lp /\ pm_chainNonce lp <= pm_chainNonce (entry_done md lp) /\
  md_Nonce md < pm_chainNonce (entry_done md lp).
Proof.
  intros Hn. unfold entry_done. simpl. destruct (Z.leb_spec (pm_chainNonce lp) (md_Nonce md)); simpl; [|lia].
  rewrite u64_id by (unfold is_u64; lia). lia.
Qed.

Lemma msgs_done_run msgs p : (forall md, md ∈ msgs -> 0 <= md_Nonce md < 2 ^ 64 - 1) -> exists pending,
  for_each msgs msg_done p = (Ok tt, set_pending (fun _ => pending) p) /\
  forall id lp, pp_pending p !! id = Some lp -> exists lp', pending !! id = Some lp' /\ pm_nonce lp' = pm_nonce lp /\
    pm_chainNonce lp <= pm_chainNonce lp' /\
    forall md, md ∈ msgs -> md_From md = id -> md_Nonce md < pm_chainNonce lp'.
Proof.
  revert p. induction msgs as [|md msgs IH]; intros p Hb.
  { exists (pp_pending p). split; [by destruct p|]. intros id lp E. exists lp. split_and!; [done..|lia|set_solver]. }
  cbn [for_each]. unfold msg_done at 1. rewrite (bind_run _ _ _ _ _ (eq_refl : modify _ _ = _)). cbv beta.
  destruct (IH (set_pending (alter (entry_done md) (md_From md)) p)) as (pending & E & H2); [intros; apply Hb; by right|].
  exists pending. split; [rewrite E; by destruct p|].
  assert (Hs : forall lp, _) by (intros lp; exact (entry_done_spec md lp (Hb md ltac:(left)))). simpl in H2.
  intros id lp Hlp. destruct (decide (id = md_From md)) as [->|Hne].
  - destruct (H2 (md_From md) (entry_done md lp)) as (lp' & ? & ? & ? & Hmd); [by rewrite lookup_alter_eq, Hlp|].
    destruct (Hs lp) as (? & ? & ?). exists lp'. split_and!; [done|congruence|lia|].
    intros md' [->|Hin]%elem_of_cons Hf; [lia|auto].
  - destruct (H2 id lp) as (lp' & ? & ? & ? & Hmd); [by rewrite lookup_alter_ne|].
    exists lp'. split_and!; [done..|]. intros md' [->|Hin]%elem_of_cons Hf; [congruence|auto].
Qed.

(** C37. A message of one of the pool's accounts that was sent from elsewhere stops
    the pool: once a block carries a nonce the pool has not handed out yet, the
    next message it hands a nonce to is refused after the lock was taken, and
    from then on no call returns and no block is noticed. *)
Theorem foreign_message_deadlocks mes p bh rest lp md r1 r2 sig :
  pp_locked p = false -> pp_ready p = true -> pp_pending p !! m_From mes = Some lp ->
  sp_msgDone (pp_sync p) = bh :: rest -> (forall md, md ∈ bd_msgs bh -> 0 <= md_Nonce md < 2 ^ 64 - 1) ->
  md ∈ bd_msgs bh -> md_From md = m_From mes -> 0 <= pm_nonce lp <= md_Nonce md ->
  let mes' := set_m_Nonce (pm_nonce lp) mes in
  RoleSign (m_From mes) (Message_Hash mes') SigSecp256k1 (sp_role (pp_sync p)) = (Ok sig, r1) ->
  RoleVerify (m_From mes) (Message_Hash mes') sig r1 = (Ok true, r2) ->
  exists p1 p2, syncPush_done p = (Ok tt, p1) /\
    PushMessage clock publish mes p1 = (Err "nonce should be no less than chain nonce", p2) /\ stuck p2.
Proof.
  intros Hl Hr Hlp Hd Hb Hmd Hf Hn mes' Hs Hv.
  set (q := set_locked true (set_pp_sync (set_msgDone (fun _ => rest) (pp_sync p)) p)).
  destruct (msgs_done_run (bd_msgs bh) q Hb) as (pending & E & He).
  destruct (He _ _ Hlp) as (lp' & Hlp' & Hn' & _ & Hgt). specialize (Hgt md Hmd Hf).
  exists (set_locked false (set_pending (fun _ => pending) q)). eexists. split; [|split].
  - unfold syncPush_done. rewrite (bind_run _ _ _ _ _ (eq_refl : gets _ _ = _)), Hd.
    rewrite (bind_run _ _ _ _ _ (eq_refl : modify _ _ = _)), (bind_run _ _ _ _ _ (Lock_run (set_pp_sync (set_msgDone (fun _ => rest) (pp_sync p)) p) Hl)).
    fold q. by rewrite (bind_run _ _ _ _ _ E).
  - set (p1 := set_locked false _).
    assert (Ee : entry p1 (m_From mes) = lp') by (unfold entry; simpl; by rewrite Hlp').
    rewrite PushMessage_run by done. cbv zeta. rewrite Ee, Hn'. fold mes'.
    destruct (taken_same mes p1) as (T1 & T2 & _).
    rewrite (bind_run _ _ _ sig (set_pp_sync (set_sp_role r1 (pp_sync p1)) (taken p1 mes))).
    2:{ rewrite <-T1. apply on_role_run. by rewrite T1. }
    cbv beta. rewrite (PushSignedMessage_known (mkSignedMessage mes' sig) (set_pm_nonce (u64 (pm_nonce lp' + 1)) lp') r2); [|exact Hv|exact T2|].
    + cbn [sm_Message m_Nonce mes' set_m_Nonce pm_chainNonce set_pm_nonce].
      unfold bind at 1, check at 1. rewrite (proj2 (Z.ltb_lt _ _)) by lia. reflexivity.
    + rewrite <-Ee at 1 2. exact (taken_pending mes p1).
  - by apply locked_stuck.
Qed.
End PushPoolProps.
