(* ===== verification/InPool.v ===== *)
(** * InPool: the pool a keeper makes blocks from

    [submodule/txPool/process.go]: messages received or pushed wait here by
    sender and nonce; the consensus asks for a header, for the messages of a
    block and for a verdict on the block of another keeper, and hands the
    finished block back.  The pool is the consensus' [ConsensusApp].

    [publish] is whether the network takes a block.  [take] is the order in which
    the map of senders is iterated, with the number of messages of each that the
    size and time limits let the loop of [Propose] reach; before the genesis
    block there is no limit, and only the order counts. *)

From S2P Require Import Prelude GoMonad Codec Keys Segments SegmentID Types Tx Fr StateTypes State Roles Chunks Orders Challenge Pay Validate Block Propose TxStore HotStuff SyncPool.

Record msgSet := mkMsgSetIn { ms_nextDelete : Z; ms_info : gmap Z SignedMessage }.

(** api.StateInfo *)
Record StateInfo := mkStateInfo { sgi_Version : Z; sgi_Height : Z; sgi_Slot : Z; sgi_Epoch : Z; sgi_Root : MsgID; sgi_BlockID : MsgID }.

Section InPool.
Context `{!StateEnv, !Base58, !Codec Message, !Codec SignedBlock} {T R : Type} `{!Store T, !IRole R}.
Notation SyncPool := (SyncPool (T := T) (R := R)).
Variables (publish : SignedBlock -> bool) (take : gmap Z msgSet -> list (Z * nat)).

Record InPool := mkInPool {
  ip_sync : SyncPool; ip_minerID : Z; ip_pending : gmap Z msgSet; ip_published : list SignedBlock }.
Implicit Types (p : InPool).

Definition set_ip_sync x p := mkInPool x (ip_minerID p) (ip_pending p) (ip_published p).
Definition set_ip_pending f p := mkInPool (ip_sync p) (ip_minerID p) (f (ip_pending p)) (ip_published p).
Definition set_ip_published f p := mkInPool (ip_sync p) (ip_minerID p) (ip_pending p) (f (ip_published p)).

Definition ip_on_sync {A} (m : M SyncPool A) : M InPool A := zoom ip_sync set_ip_sync m.
Definition ip_on_state {A} (m : M StateMgr A) : M InPool A := ip_on_sync (on_state m).
Definition ip_on_role {A} (m : M R A) : M InPool A := ip_on_sync (on_role m).

Definition NewInPool (localID : Z) (sp : SyncPool) : InPool := mkInPool sp localID ∅ [].

(** [mp.INetService.PublishTxBlock] *)
Definition PublishTxBlock (tb : SignedBlock) : M InPool unit :=
  do! modify (set_ip_published (fun l => l ++ [tb]));
  check (publish tb) "publish".

(** ** The loop [process] *)

Definition add_msg (m : SignedMessage) (ms : msgSet) : msgSet :=
  if ms_nextDelete ms <=? m_Nonce (sm_Message m)
  then mkMsgSetIn (ms_nextDelete ms) (<[m_Nonce (sm_Message m) := m]> (ms_info ms)) else ms.

(** [case m := <-mp.msgChan] *)
Definition process_msg : M InPool unit :=
  let! p := gets (fun p => p) in
  match sp_msgChan (ip_sync p) with
  | [] => ret tt
  | m :: rest =>
      let from := m_From (sm_Message m) in
      do! modify (set_ip_sync (set_msgChan (fun _ => rest) (ip_sync p)));
      match ip_pending p !! from with
      | Some ms => modify (set_ip_pending <[from := add_msg m ms]>)
      | None =>
          let! cNonce := try_err (ip_on_state (StateGetNonce from)) in
          match cNonce with
          | None => ret tt
          | Some cNonce => modify (set_ip_pending <[from := add_msg m (mkMsgSetIn cNonce ∅)]>)
          end
      end
  end.

Definition del_msg (md : MessageDigest) (ms : msgSet) : msgSet :=
  mkMsgSetIn (u64 (md_Nonce md + 1)) (delete (md_Nonce md) (ms_info ms)).
Definition del_msgs (mds : list MessageDigest) (pending : gmap Z msgSet) : gmap Z msgSet :=
  foldl (fun pending md => alter (del_msg md) (md_From md) pending) pending mds.

(** [case bh := <-mp.blkDone] *)
Definition process_blk : M InPool unit :=
  let! p := gets (fun p => p) in
  match sp_blkDone (ip_sync p) with
  | [] => ret tt
  | bh :: rest =>
      do! modify (set_ip_sync (set_blkDone (fun _ => rest) (ip_sync p)));
      modify (set_ip_pending (del_msgs (bd_msgs bh)))
  end.

Definition pool_SyncAddTxMessage (m : SignedMessage) : M InPool unit :=
  do! ip_on_sync (SyncAddTxMessage m);
  ip_on_sync (modify (set_msgChan (fun l => l ++ [m]))).

(** ** What the consensus calls *)

(** [s.StateGetInfo] *)
Definition StateGetInfo (s : StateMgr) : StateInfo :=
  mkStateInfo (v_version (cur s)) (v_height (cur s)) (v_slot (cur s)) (ci_epoch (v_ceInfo (cur s))) (v_root (cur s)) (blkID s).

Definition pool_GetMembers p : list Z := keepers (sp_state (ip_sync p)).

Definition pool_GetLeader (slot : Z) p : Z :=
  let mems := pool_GetMembers p in
  match mems with
  | [] => ip_minerID p
  | _ => default 0 (mems !! Z.to_nat (slot mod Z.of_nat (length mems)))
  end.

Definition pool_GetQuorumSize p : Z := getThreshold (sp_state (ip_sync p)).

Definition pool_CreateBlockHeader (slot : Z) : M InPool RawHeader :=
  let! si := ip_on_sync SyncGetInfo in
  do! check (negb (si_SyncedHeight si <? si_RemoteHeight si)) "sync height expected";
  let! p := gets (fun p => p) in
  let sgi := StateGetInfo (sp_state (ip_sync p)) in
  do! check (sgi_Height sgi =? si_SyncedHeight si) "create block state height is not equal";
  do! check (negb (sgi_Slot sgi >=? slot)) "create new block time is not up";
  ret (mkRawHeader (sgi_Version sgi) (sp_groupID (ip_sync p)) (sgi_Height sgi) slot (pool_GetLeader slot p) (sgi_BlockID sgi)).

(** The messages of one sender for the genesis block, and how many are valid:
    registrations of keepers, up to the first that is something else. *)
Fixpoint genesis_msgs (ms : list SignedMessage) : M InPool (list SignedMessage * list Receipt * Z) :=
  match ms with
  | [] => ret ([], [], 0)
  | m :: ms =>
      if negb (m_Method (sm_Message m) =? AddRole) then ret ([], [], 0)
      else
        let! r := try_err (ip_on_role (RoleGet (m_From (sm_Message m)) false)) in
        match r with
        | None => ret ([], [], 0)
        | Some ri =>
            let! ri := deref ri in
            if negb (ri_Type ri =? RoleInfo_Keeper) then ret ([], [], 0)
            else
              let! tr := ip_on_state (propose_msg m) in
              let! rest := genesis_msgs ms in
              ret (m :: rest.1.1, tr :: rest.1.2, (if r_Err tr =? 0 then 1 else 0) + rest.2)
        end
  end.

(** The keys of a map are fewer than its size + 1, so that many turns end every
    loop over consecutive nonces. *)
Fixpoint genesis_pending (senders : list (Z * msgSet)) : M InPool (list SignedMessage * list Receipt * Z) :=
  match senders with
  | [] => ret ([], [], 0)
  | (from, ms) :: senders =>
      let! nc := ip_on_state (StateGetNonce from) in
      let! one := genesis_msgs (take_run (ms_info ms) nc (S (size (ms_info ms)))) in
      let! rest := genesis_pending senders in
      ret (one.1.1 ++ rest.1.1, one.1.2 ++ rest.1.2, one.2 + rest.2)
  end.

Definition pool_Propose (rh : RawHeader) : M InPool MsgSet :=
  let! pending := gets ip_pending in
  let senders := omap (fun '(from, n) => (fun ms => (from, ms, n)) <$> pending !! from) (take pending) in
  if rh_Height rh =? 0 then
    do! ip_on_state (ValidateBlock None);
    let! p := gets (fun p => p) in
    let oldRoot := v_root (vld (sp_state (ip_sync p))) in
    do! ip_on_state (ValidateBlock (Some (mkSignedBlock (mkRawBlock rh MsgSet_zero) MultiSignature_zero)));
    let! g := genesis_pending senders.*1 in
    let! p := gets (fun p => p) in
    do! check (negb (g.2 <? pool_GetQuorumSize p)) "not have enough keepers";
    ret (mkMsgSet g.1.1 g.1.2 oldRoot (v_root (vld (sp_state (ip_sync p)))))
  else ip_on_state (Propose rh ((fun '(from, ms, n) => mkPend from (ms_info ms) n) <$> senders)).

(** The loop of [OnPropose], on the pool. *)
Fixpoint pool_onPropose_msgs (ms : list SignedMessage) (rs : list Receipt) : M InPool unit :=
  match ms with
  | [] => ret tt
  | sm :: ms =>
      let! v := try_err (ip_on_role (RoleVerify (m_From (sm_Message sm)) (Message_Hash (sm_Message sm)) (sm_Signature sm))) in
      let! ok := of_option v "wrong message" in
      do! check ok "invalid sign";
      let! r := try_err (ip_on_state (ValidateMsg (Some (sm_Message sm)))) in
      match rs with
      | [] => panic "index out of range"
      | tr :: rs =>
          do! (match r with
               | None => check (negb (r_Err tr =? 0)) "fail to validate message, shoule be right"
               | Some _ => check (r_Err tr =? 0) "fail to validate message, shoule be wrong"
               end);
          pool_onPropose_msgs ms rs
      end
  end.

Definition pool_root p : MsgID := v_root (vld (sp_state (ip_sync p))).

Definition pool_OnPropose (sb : SignedBlock) : M InPool unit :=
  do! ip_on_state (ValidateBlock None);
  let! oRoot := gets pool_root in
  do! check (MsgID_Equal oRoot (mset_ParentRoot (sb_set sb))) "OnPropose wrong state";
  do! ip_on_state (ValidateBlock (Some sb));
  do! pool_onPropose_msgs (mset_Msgs (sb_set sb)) (mset_Receipts (sb_set sb));
  let! newRoot := gets pool_root in
  check (MsgID_Equal newRoot (mset_Root (sb_set sb))) "OnPropose has wrong state".

Definition pool_OnViewDone (tb : SignedBlock) : M InPool unit :=
  do! ip_on_sync (SyncAddTxBlock tb);
  PublishTxBlock tb.

#[export] Instance InPool_ConsensusApp : ConsensusApp InPool := {
  GetMembers := pool_GetMembers;
  GetQuorumSize := pool_GetQuorumSize;
  CreateBlockHeader := pool_CreateBlockHeader;
  app_Propose := pool_Propose;
  app_OnPropose := pool_OnPropose;
  app_OnViewDone := pool_OnViewDone }.

(** The role service is shared with the pool. *)
#[export] Instance InPool_IRole : IRole InPool := {
  RoleSign id msg typ := ip_on_role (RoleSign id msg typ);
  RoleVerify id msg sig := ip_on_role (RoleVerify id msg sig);
  RoleVerifyMulti msg sig := ip_on_role (RoleVerifyMulti msg sig);
  RoleSelf := ip_on_role RoleSelf;
  RoleGet id update := ip_on_role (RoleGet id update);
  RoleSanityCheck m := ip_on_role (RoleSanityCheck m) }.

(** ** Starting, and when nothing moves *)

(** The block of a height, when it is stored. *)
Definition stored_block (ht : Z) : M InPool (option SignedBlock) :=
  let! bid := try_err (ip_on_sync (on_store (GetTxBlockByHeight ht))) in
  match bid with
  | None => ret None
  | Some bid => try_err (ip_on_sync (on_store (GetTxBlock bid)))
  end.

(** The last block is handed over again: it may not have left the node. *)
Definition Start : M InPool unit :=
  let! si := ip_on_sync SyncGetInfo in
  let done o := match o with Some sb => do! try_err (pool_OnViewDone sb); ret tt | None => ret tt end in
  do! (if 0 <? si_SyncedHeight si then let! o := stored_block (si_SyncedHeight si - 1) in done o else ret tt);
  let! o := stored_block (si_SyncedHeight si) in
  done o.

(** One of the turns that wait for the node to be in step, the [retry]th; [true]
    ends the waiting. *)
Definition Start_wait (retry : nat) : M InPool bool :=
  let! si := ip_on_sync SyncGetInfo in
  let finish := ip_on_sync (modify (set_inProcess true)) in
  if (si_SyncedHeight si =? si_RemoteHeight si) && si_Status si then do! finish; ret true
  else if (10 <? retry)%nat then do! ip_on_sync (modify (set_ready true)); do! finish; ret true
  else ret false.

(** A tick of [rebroadcast], which remembers [si]. *)
Definition rebroadcast_tick (si : SyncInfo) : M InPool SyncInfo :=
  let! nsi := ip_on_sync SyncGetInfo in
  if (si_RemoteHeight nsi =? si_SyncedHeight nsi) && (si_SyncedHeight nsi =? si_SyncedHeight si) && (0 <? si_SyncedHeight si) then
    let! o := stored_block (si_SyncedHeight si - 1) in
    do! (match o with Some sb => do! try_err (PublishTxBlock sb); ret tt | None => ret tt end);
    ret si
  else ret nsi.
End InPool.
