(* ===== verification/InPoolProps.v ===== *)
(** * InPoolProps: what a keeper's pool offers the consensus

    The pool follows the chain its sync pool applies, and no message the chain is
    past stays in it, whatever the interleaving. *)

From S2P Require Import Prelude GoMonad Codec Keys Segments SegmentID Types Tx Fr StateTypes State Roles Chunks Orders Challenge Pay Validate Block Handlers Frame Chain Propose TxStore HotStuff SyncPool SyncPoolProps InPool.

Section Pending.
Context `{!StateEnv, !Codec Message}.
Implicit Types (pending : gmap Z msgSet) (f : Z -> Z).

(** Nothing below [f] waits in the pool, and nothing below it will be let in. *)
Definition above f pending : Prop :=
  forall id ms, pending !! id = Some ms -> f id <= ms_nextDelete ms /\ forall nc, is_Some (ms_info ms !! nc) -> f id <= nc.

Lemma above_ext f g pending : (forall id, f id = g id) -> above f pending -> above g pending.
Proof. intros E Ha id ms Hms. rewrite <-E. by apply Ha. Qed.

Lemma above_add f m pending ms : f (m_From (sm_Message m)) <= ms_nextDelete ms ->
  (forall nc, is_Some (ms_info ms !! nc) -> f (m_From (sm_Message m)) <= nc) ->
  above f pending -> above f (<[m_From (sm_Message m) := add_msg m ms]> pending).
Proof.
  intros Hd Hi Ha id ms' [[<- <-]|[Hne Hl]]%lookup_insert_Some; [|by apply Ha].
  unfold add_msg. destruct (Z.leb_spec (ms_nextDelete ms) (m_Nonce (sm_Message m))); [|done].
  simpl. split; [done|]. intros nc [<-|[_ Hl]]%lookup_insert_is_Some; [lia|auto].
Qed.

Lemma above_step f m pending mid :
  0 <= f (m_From (sm_Message m)) -> m_Nonce (sm_Message m) = f (m_From (sm_Message m)) ->
  above f pending ->
  above (bump f (m_From (sm_Message m)))
    (del_msgs [mkMessageDigest mid (m_From (sm_Message m)) (m_Nonce (sm_Message m))] pending).
Proof.
  intros H0 Hn Ha id ms. unfold del_msgs. cbn [foldl md_From]. unfold bump.
  destruct (Z.eqb_spec id (m_From (sm_Message m))) as [->|Hne].
  - rewrite lookup_alter_eq. intros (ms0 & Hms & ->)%fmap_Some. destruct (Ha _ _ Hms) as [_ Hi].
    unfold del_msg. simpl. rewrite Hn. split; [done|]. intros nc [Hne Hl]%lookup_delete_is_Some.
    specialize (Hi nc Hl). unfold u64. pose proof (Z.mod_le (f (m_From (sm_Message m)) + 1) (2 ^ 64)). lia.
  - rewrite lookup_alter_ne by done. apply Ha.
Qed.

(** The messages of a block, in order, with the nonces that are due. *)
Lemma above_block f (msgs : list SignedMessage) pending : nonces_ok f msgs = true -> (forall id, 0 <= f id) ->
  above f pending ->
  above (nonces_after f msgs) (del_msgs ((fun sm => mkMessageDigest (Message_Hash (sm_Message sm)) (m_From (sm_Message sm)) (m_Nonce (sm_Message sm))) <$> msgs) pending).
Proof.
  revert f pending. induction msgs as [|m msgs IH]; intros f pending Hn Hb Ha; [done|].
  cbn [nonces_ok] in Hn. apply andb_prop in Hn as [Hm%Z.eqb_eq Hn].
  rewrite fmap_cons. unfold del_msgs, nonces_after. cbn [foldl]. apply IH; [done| |].
  - intros id. unfold bump. case_match; [|done]. apply u64_range.
  - by apply (above_step f m pending (Message_Hash (sm_Message m))).
Qed.

Lemma nonces_after_le f (msgs : list SignedMessage) id :
  (forall id, 0 <= f id /\ f id + Z.of_nat (length msgs) < 2 ^ 64) -> f id <= nonces_after f msgs id.
Proof.
  revert f. induction msgs as [|m msgs IH]; intros f Hb; [done|]. cbn [length] in Hb.
  unfold nonces_after. cbn [foldl].
  assert (Hbump : forall id, f id <= bump f (m_From (sm_Message m)) id <= f id + 1).
  { intros id'. unfold bump. destruct (Hb id'). case_match; [|lia]. rewrite u64_id by (unfold is_u64; lia). lia. }
  etransitivity; [apply (Hbump id)|]. apply (IH (bump f (m_From (sm_Message m)))). intros id'.
  destruct (Hb id'), (Hbump id'). lia.
Qed.
End Pending.

Section InPoolProps.
Context `{!StateEnv, !SMTLaws, !Base58, !Codec Message, !Codec SignedBlock} {T R : Type} `{!Store T, !IRole R}.
Notation SyncPool := (SyncPool (T := T) (R := R)).
Notation InPool := (InPool (T := T) (R := R)).
Variables (publish : SignedBlock -> bool) (take : gmap Z msgSet -> list (Z * nat)).
Implicit Types (p : InPool) (sp : SyncPool) (blks : list SignedBlock).

(** ** Events of the pool, in any order *)

Inductive inpool_event :=
  | EvSync (e : pool_event)
  | EvReceiveMsg (m : SignedMessage)
  | EvViewDone (tb : SignedBlock)
  | EvMsg
  | EvBlk.
Definition run_inpool_event (e : inpool_event) : M InPool unit :=
  match e with
  | EvSync e => ip_on_sync (run_event e)
  | EvReceiveMsg m => pool_SyncAddTxMessage m
  | EvViewDone tb => pool_OnViewDone publish tb
  | EvMsg => process_msg
  | EvBlk => process_blk
  end.
Definition run_inpool_events (l : list inpool_event) : M InPool unit :=
  for_each l (fun e => do! try_err (run_inpool_event e); ret tt).

(** From [st], the blocks of [seen] were applied and noticed, those of [queued]
    were applied. *)
Record follows st p seen queued : Prop := mkFollows {
  fo_chain : apply_chain (seen ++ queued) st = (Ok tt, sp_state (ip_sync p));
  fo_tds : tds (sp_state (ip_sync p)) = None;
  fo_next : v_height (cur (sp_state (ip_sync p))) = sp_nextHeight (ip_sync p);
  fo_process : sp_inProcess (ip_sync p) = true;
  fo_queue : sp_blkDone (ip_sync p) = digest <$> queued;
  fo_above : (forall id, 0 <= nonce_of Applied st id /\
                nonce_of Applied st id + Z.of_nat (length (chain_msgs (seen ++ queued))) < 2 ^ 64) ->
             above (nonces_after (nonce_of Applied st) (chain_msgs seen)) (ip_pending p);
}.
Definition following st p : Prop := exists seen queued, follows st p seen queued.

(** The computation may stop the node, and else keeps the pool following. *)
Notation stays st := (wpx (following st) (fun _ => True)).

Lemma apply_chain_app l1 l2 s s1 : apply_chain l1 s = (Ok tt, s1) -> apply_chain (l1 ++ l2) s = apply_chain l2 s1.
Proof.
  unfold apply_chain. revert s. induction l1 as [|b l1 IH]; intros s; cbn [for_each app]; [by intros [= ->]|].
  intros ([] & s2 & E & Hr)%bind_Ok. rewrite (bind_run _ _ _ _ _ E). by apply IH.
Qed.

Lemma chain_msgs_app l1 l2 : chain_msgs (l1 ++ l2) = chain_msgs l1 ++ chain_msgs l2.
Proof. unfold chain_msgs. by rewrite fmap_app, concat_app. Qed.

(** Anything the sync pool does. *)
Lemma stays_sync st (m : M SyncPool unit) p :
  (forall sp, on_chain sp sp -> wpx (on_chain sp) (fun _ => True) m (fun _ => on_chain sp) sp) ->
  following st p -> stays st (ip_on_sync m) (fun _ => following st) p.
Proof.
  intros Hm (seen & queued & []).
  assert (Hself : on_chain (ip_sync p) (ip_sync p)).
  { exists []. split; try done; by case_match; rewrite app_nil_r. }
  specialize (Hm _ Hself). unfold wpx, ip_on_sync, zoom in *.
  assert (HF : forall sp', on_chain (ip_sync p) sp' -> following st (set_ip_sync sp' p)).
  { intros sp' [blks []]. exists seen, (queued ++ blks). rewrite fo_process0 in *. split; simpl; try done.
    - rewrite app_assoc. by rewrite (apply_chain_app _ _ _ _ fo_chain0).
    - by rewrite ap_blkDone, fo_queue0, fmap_app.
    - intros Hb. apply fo_above0. intros id. destruct (Hb id). split; [done|].
      rewrite !chain_msgs_app, !length_app in *. lia. }
  destruct (m (ip_sync p)) as [[[]|e|w] sp']; auto.
Qed.

Lemma nonces_after_app f (l1 l2 : list SignedMessage) : nonces_after f (l1 ++ l2) = nonces_after (nonces_after f l1) l2.
Proof. unfold nonces_after. apply foldl_app. Qed.

Lemma apply_chain_nonce_of blks s s' id : tds s = None -> apply_chain blks s = (Ok tt, s') ->
  nonce_of Applied s' id = nonces_after (nonce_of Applied s) (chain_msgs blks) id.
Proof.
  revert s. induction blks as [|b blks IH]; intros s Ht Hr; [by injection Hr as <-|].
  unfold apply_chain in Hr. cbn [for_each] in Hr. apply bind_Ok in Hr as ([] & s1 & E & Hr).
  destruct (ApplyBlock_Ok _ _ _ Ht E) as []. rewrite (IH s1) by done.
  change (chain_msgs (b :: blks)) with (mset_Msgs (sb_set b) ++ chain_msgs blks). rewrite nonces_after_app.
  by apply nonces_after_ext.
Qed.

(** What the pool has noticed is not ahead of the state. *)
Lemma follows_le st p seen queued id : tds st = None -> follows st p seen queued ->
  (forall id, 0 <= nonce_of Applied st id /\
     nonce_of Applied st id + Z.of_nat (length (chain_msgs (seen ++ queued))) < 2 ^ 64) ->
  nonces_after (nonce_of Applied st) (chain_msgs seen) id <= nonce_of Applied (sp_state (ip_sync p)) id.
Proof.
  intros Ht [] Hb. rewrite (apply_chain_nonce_of _ _ _ id Ht fo_chain0), chain_msgs_app, nonces_after_app.
  rewrite chain_msgs_app, length_app in Hb. apply nonces_after_le.
  clear -Hb. remember (nonce_of Applied st) as f eqn:Ef. clear Ef. revert f Hb.
  induction (chain_msgs seen) as [|m l IH]; intros f Hb id; [apply Hb|].
  unfold nonces_after. cbn [foldl length] in *. apply IH. intros id'. destruct (Hb id').
  unfold bump. case_match; [|lia]. rewrite u64_id by (unfold is_u64; lia). lia.
Qed.

Lemma process_msg_stays st p : tds st = None -> following st p -> stays st process_msg (fun _ => following st) p.
Proof.
  intros Ht (seen & queued & Hf). unfold process_msg. apply wp_bind, wp_gets.
  destruct (sp_msgChan (ip_sync p)) as [|m rest]; [by apply wp_ret; exists seen, queued|].
  apply wp_bind, wp_modify. set (q := set_ip_sync _ p).
  assert (Hq : follows st q seen queued) by by destruct Hf.
  destruct (ip_pending p !! m_From (sm_Message m)) as [ms|] eqn:E.
  - apply wp_modify. exists seen, queued. destruct Hq. split; try done. intros Hb.
    specialize (fo_above0 Hb). destruct (fo_above0 _ _ E). by apply above_add.
  - apply wp_bind. unfold wpx at 1, try_err, ip_on_state, ip_on_sync, on_state, zoom. rewrite StateGetNonce_run.
    set (q' := set_ip_sync _ q). assert (Hq' : follows st q' seen queued) by by destruct Hq.
    apply wp_modify. exists seen, queued. pose proof (follows_le st q' seen queued (m_From (sm_Message m)) Ht Hq') as Hle.
    destruct Hq'. split; try done. intros Hb. apply above_add; [by apply Hle| |by apply fo_above0].
    simpl. intros nc. rewrite lookup_empty. by intros [].
Qed.

Lemma process_blk_stays st p : tds st = None -> following st p -> stays st process_blk (fun _ => following st) p.
Proof.
  intros Ht (seen & queued & Hf). unfold process_blk. apply wp_bind, wp_gets. pose proof Hf as [].
  destruct queued as [|b queued]; rewrite fo_queue0; [by apply wp_ret; exists seen, []|].
  cbn [fmap list_fmap]. apply wp_bind, wp_modify, wp_modify. exists (seen ++ [b]), queued.
  split; try done; rewrite <-app_assoc; [done|]. intros Hb.
  change (chain_msgs (seen ++ [b] ++ queued)) with (chain_msgs (seen ++ b :: queued)) in Hb.
  pose proof (apply_chain_nonces _ _ _ Ht fo_chain0) as Hn.
  rewrite chain_msgs_app in *. change (chain_msgs (b :: queued)) with (mset_Msgs (sb_set b) ++ chain_msgs queued) in *.
  rewrite !nonces_ok_app in Hn. apply andb_prop in Hn as [Hn1 [Hn2 _]%andb_prop].
  change (chain_msgs [b]) with (mset_Msgs (sb_set b) ++ []). rewrite app_nil_r, nonces_after_app.
  apply above_block; [done| |by apply fo_above0].
  intros id. generalize (chain_msgs seen). intros l.
  assert (Hpos : forall id, 0 <= nonce_of Applied st id) by apply Hb. revert Hpos. generalize (nonce_of Applied st).
  induction l as [|m l IH]; intros f Hpos; [apply Hpos|]. unfold nonces_after. cbn [foldl]. apply IH.
  intros id'. unfold bump. case_match; [|done]. apply u64_range.
Qed.

Lemma run_inpool_event_stays st e p : tds st = None -> following st p ->
  stays st (run_inpool_event e) (fun _ => following st) p.
Proof.
  intros Ht Hp. destruct e as [e|m|tb| |]; cbn [run_inpool_event].
  - apply stays_sync; [|done]. intros sp Hsp. by apply run_event_wp.
  - apply wp_bind. eapply wp_mono.
    + apply stays_sync; [|exact Hp]. intros sp Hsp. apply stays_keeps; [apply keeps_SyncAddTxMessage|done].
    + intros ? p' (seen & queued & []). by exists seen, queued.
  - apply wp_bind. eapply wp_mono.
    + apply stays_sync; [|exact Hp]. intros sp Hsp. apply stays_keeps; [apply keeps_SyncAddTxBlock|done].
    + intros ? p' (seen & queued & []). apply wp_bind, wp_modify, wp_check; intros; by exists seen, queued.
  - by apply process_msg_stays.
  - by apply process_blk_stays.
Qed.

(** C29. However blocks, messages and the turns of the pool's loop interleave,
    the pool is only behind by the blocks it was told of and has not got to:
    up to those, every message that waits carries a nonce the chain has not
    used, and none that it has used is let in any more; so when it has caught
    up, everything that waits can still be applied. *)
Theorem inpool_no_stale st events p0 p :
  tds st = None -> sp_state (ip_sync p0) = st -> sp_nextHeight (ip_sync p0) = v_height (cur st) ->
  sp_inProcess (ip_sync p0) = true -> sp_blkDone (ip_sync p0) = [] -> ip_pending p0 = ∅ ->
  run_inpool_events events p0 = (Ok tt, p) ->
  exists seen queued, apply_chain (seen ++ queued) st = (Ok tt, sp_state (ip_sync p)) /\
    sp_blkDone (ip_sync p) = digest <$> queued /\
    ((forall id, 0 <= nonce_of Applied st id /\
        nonce_of Applied st id + Z.of_nat (length (chain_msgs (seen ++ queued))) < 2 ^ 64) ->
     forall s id ms, apply_chain seen st = (Ok tt, s) -> ip_pending p !! id = Some ms ->
       nonce_of Applied s id <= ms_nextDelete ms /\
       forall nc, is_Some (ms_info ms !! nc) -> nonce_of Applied s id <= nc).
Proof.
  intros Ht Hs Hn Hin Hd Hp Hr.
  assert (H0' : following st p0).
  { exists [], []. split; [by rewrite Hs|by rewrite Hs|by rewrite Hs|done..|]. intros _ id ms. by rewrite Hp. }
  assert (Hw : stays st (run_inpool_events events) (fun _ => following st) p0).
  { apply wp_for_each; [|done]. intros e p' Hp'. apply wp_bind, wp_try_err; intros; [|by apply wp_ret].
    eapply wp_mono; [by apply run_inpool_event_stays|]. intros. by apply wp_ret. }
  destruct (wp_Ok _ _ _ _ _ _ _ Hw Hr) as (seen & queued & []). exists seen, queued. split_and!; [done..|].
  intros Hb s id ms Hc Hms. rewrite (apply_chain_nonce_of _ _ _ id Ht Hc). by apply fo_above0.
Qed.
End InPoolProps.

