(* ===== verification/KeeperNode.v ===== *)
(** * KeeperNode: the consensus on top of the pool

    The pool of a group with a positive threshold satisfies the laws the theorems
    about [HotstuffManager] ask of the application, so they hold of a keeper that
    runs the code of both; and what becomes of [PoAManager] on the pool. *)

From S2P Require Import Prelude GoMonad Codec Keys Segments SegmentID Types Tx Fr StateTypes State Roles Chunks Orders Challenge Pay Validate Block Handlers Frame Chain Propose TxStore HotStuff HotStuffSafety SyncPool SyncPoolProps InPool.

Section KeeperNode.
Context `{!StateEnv, !SMTLaws, !Base58, !Codec Message, !Codec SignedBlock} {T R : Type} `{!Store T, !IRole R}.
Notation SyncPool := (SyncPool (T := T) (R := R)).
Notation InPool := (InPool (T := T) (R := R)).
Variables (publish : SignedBlock -> bool) (take : gmap Z msgSet -> list (Z * nat)).
Implicit Types (p : InPool).
#[local] Instance app : ConsensusApp InPool := InPool_ConsensusApp publish take.
#[local] Existing Instance InPool_IRole.

(** ** Headers *)

Lemma SyncGetInfo_run p : ip_on_sync SyncGetInfo p =
  (Ok (mkSyncInfo (sp_ready (ip_sync p)) (sp_nextHeight (ip_sync p)) (sp_remoteHeight (ip_sync p))), p).
Proof. unfold ip_on_sync, zoom, SyncGetInfo, gets. by destruct p. Qed.

(** A pool in step makes the header of the next height. *)
Lemma CreateBlockHeader_run slot p (s := sp_state (ip_sync p)) :
  sp_remoteHeight (ip_sync p) <= sp_nextHeight (ip_sync p) -> v_height (cur s) = sp_nextHeight (ip_sync p) ->
  v_slot (cur s) < slot ->
  CreateBlockHeader slot p = (Ok (mkRawHeader (v_version (cur s)) (sp_groupID (ip_sync p)) (v_height (cur s)) slot
    (pool_GetLeader slot p) (blkID s)), p).
Proof.
  intros Hr Hh Hs. cbn [CreateBlockHeader app InPool_ConsensusApp]. unfold pool_CreateBlockHeader.
  rewrite (bind_run _ _ _ _ _ (SyncGetInfo_run p)). cbn [si_SyncedHeight si_RemoteHeight].
  unfold bind, check, gets. rewrite (proj2 (Z.ltb_ge _ _) Hr). simpl. fold s.
  rewrite Hh, Z.eqb_refl. simpl. rewrite Z.geb_leb, (proj2 (Z.leb_gt _ _) Hs). reflexivity.
Qed.

(** A header is only made by a pool in step with what it heard of, for the
    height, after the slot and on top of the block its state is at, and its
    miner is the keeper whose turn the slot is. *)
Theorem CreateBlockHeader_next slot p rh p' :
  CreateBlockHeader slot p = (Ok rh, p') ->
  let s := sp_state (ip_sync p) in
  p' = p /\ rh_GroupID rh = sp_groupID (ip_sync p) /\ rh_Height rh = v_height (cur s) /\ rh_Slot rh = slot /\
  v_slot (cur s) < slot /\ rh_PrevID rh = blkID s /\ rh_Version rh = v_version (cur s) /\
  sp_remoteHeight (ip_sync p) <= sp_nextHeight (ip_sync p) /\ sp_nextHeight (ip_sync p) = v_height (cur s) /\
  (keepers s <> [] -> keepers s !! Z.to_nat (slot mod Z.of_nat (length (keepers s))) = Some (rh_MinerID rh)).
Proof.
  cbn [CreateBlockHeader app InPool_ConsensusApp]. unfold pool_CreateBlockHeader.
  rewrite (bind_run _ _ _ _ _ (SyncGetInfo_run p)). intros Hr. go_inv. simpl in *.
  repeat match goal with
  | H : negb (_ <? _) = true |- _ => apply negb_true_iff, Z.ltb_ge in H
  | H : negb (_ >=? _) = true |- _ => rewrite Z.geb_leb in H; apply negb_true_iff, Z.leb_gt in H
  | H : (_ =? _) = true |- _ => apply Z.eqb_eq in H
  end.
  split_and!; try done. unfold pool_GetLeader, pool_GetMembers. intros Hne.
  destruct (keepers (sp_state (ip_sync p))) as [|k l] eqn:E; [done|]. rewrite <-E.
  pose proof (Z.mod_pos_bound slot (Z.of_nat (length (keepers (sp_state (ip_sync p)))))) as Hb.
  destruct (lookup_lt_is_Some_2 (keepers (sp_state (ip_sync p))) (Z.to_nat (slot mod Z.of_nat (length (keepers (sp_state (ip_sync p))))))) as [leader Hld].
  - rewrite E in *. cbn [length] in *. lia.
  - by rewrite Hld.
Qed.

(** A group of one keeper never gets a block: [PoAManager] asks for a header of
    slot zero, which is never after the slot of the state, so no tick makes,
    signs or publishes anything. *)
Theorem PoA_never_mines localID p :
  0 <= v_slot (cur (sp_state (ip_sync p))) -> PoA_tick localID p = (Ok None, p).
Proof.
  intros Hs. assert (He : exists e, CreateBlockHeader 0 p = (Err e, p)).
  { cbn [CreateBlockHeader app InPool_ConsensusApp]. unfold pool_CreateBlockHeader.
    rewrite (bind_run _ _ _ _ _ (SyncGetInfo_run p)).
    cbn [si_SyncedHeight si_RemoteHeight]. unfold bind, check, gets. destruct (negb (_ <? _)); [|by eexists]. simpl.
    destruct (_ =? _); [|by eexists]. simpl. rewrite Z.geb_leb, (proj2 (Z.leb_le _ _)) by done. by eexists. }
  destruct He as [e He]. unfold PoA_tick, try_err, bind at 1. by rewrite He.
Qed.

(** ** The group's threshold *)

Definition same_threshold s s' : Prop := threshold s' = threshold s.
#[local] Instance same_threshold_PreOrder : PreOrder same_threshold.
Proof. split; [by intros s|]. unfold same_threshold. intros ???. congruence. Qed.

Lemma keeps_threshold_of_frame {A} (m : M StateMgr A) : Keeps (frame Validating) m -> Keeps same_threshold m.
Proof. intros Hm s. apply (fr_threshold _ _ _ (Hm s)). Qed.

#[local] Hint Extern 2 (Keeps same_threshold (modify _)) => by apply keeps_modify : keeps.
Lemma keeps_threshold_newValidateRoot b : Keeps same_threshold (newValidateRoot b).
Proof. unfold newValidateRoot. keeps. Qed.
#[local] Hint Resolve keeps_threshold_newValidateRoot : keeps.
Lemma keeps_threshold_ValidateBlock ob : Keeps same_threshold (ValidateBlock ob).
Proof. unfold ValidateBlock, reset. keeps. Qed.
Lemma keeps_threshold_roleOf id : Keeps same_threshold (roleOf Validating id).
Proof. apply keeps_threshold_of_frame, keeps_roleOf. Qed.
#[local] Hint Resolve keeps_threshold_ValidateBlock keeps_threshold_roleOf : keeps.
Lemma keeps_threshold_validate_method msg : Keeps same_threshold (validate_method msg).
Proof. apply keeps_threshold_of_frame, (keeps_validate_method (frame Validating)). Qed.
#[local] Hint Resolve keeps_threshold_validate_method : keeps.
Lemma keeps_threshold_ValidateMsg om : Keeps same_threshold (ValidateMsg om).
Proof. unfold ValidateMsg, validate_role. keeps. Qed.
#[local] Hint Resolve keeps_threshold_ValidateMsg : keeps.
Lemma keeps_threshold_propose_msg m : Keeps same_threshold (propose_msg m).
Proof.
  intros s. pose proof (keeps_threshold_ValidateMsg (Some (sm_Message m)) s) as H'. unfold propose_msg.
  by destruct (ValidateMsg _ s) as [[?|?|?] ?].
Qed.
Lemma keeps_threshold_StateGetNonce id : Keeps same_threshold (StateGetNonce id).
Proof. unfold StateGetNonce, loadVal, get. keeps. Qed.
#[local] Hint Resolve keeps_threshold_propose_msg keeps_threshold_StateGetNonce : keeps.
Lemma keeps_threshold_propose_msgs ms : Keeps same_threshold (propose_msgs ms).
Proof. induction ms; simpl; keeps. Qed.
#[local] Hint Resolve keeps_threshold_propose_msgs : keeps.
Lemma keeps_threshold_propose_pending l : Keeps same_threshold (propose_pending l).
Proof. induction l; simpl; keeps. Qed.
#[local] Hint Resolve keeps_threshold_propose_pending : keeps.
Lemma keeps_threshold_Propose rh l : Keeps same_threshold (Propose rh l).
Proof. unfold Propose. keeps. Qed.

Definition pool_threshold p p' : Prop := same_threshold (sp_state (ip_sync p)) (sp_state (ip_sync p')).
#[local] Instance pool_threshold_PreOrder : PreOrder pool_threshold.
Proof. split; [by intros p|]. unfold pool_threshold, same_threshold. intros ???. congruence. Qed.

Lemma keeps_ip_on_state {A} (m : M StateMgr A) : Keeps same_threshold m -> Keeps pool_threshold (ip_on_state m).
Proof.
  intros Hm p. specialize (Hm (sp_state (ip_sync p))). unfold ip_on_state, ip_on_sync, on_state, zoom.
  by destruct (m (sp_state (ip_sync p))).
Qed.
Lemma keeps_ip_on_chain {A} (m : M SyncPool A) : Keeps same_chain m -> Keeps pool_threshold (ip_on_sync m).
Proof.
  intros Hm p. specialize (Hm (ip_sync p)). unfold ip_on_sync, zoom. destruct (m (ip_sync p)).
  destruct Hm as [E _]. simpl in *. unfold pool_threshold, same_threshold. simpl. by rewrite E.
Qed.
Lemma keeps_ip_on_role {A} (m : M R A) : Keeps pool_threshold (ip_on_role m).
Proof. apply keeps_ip_on_chain, keeps_on_role. Qed.
#[local] Hint Resolve keeps_ip_on_role : keeps.
#[local] Hint Extern 2 (Keeps pool_threshold (ip_on_state _)) => apply keeps_ip_on_state; eauto 2 with keeps typeclass_instances : keeps.
#[local] Hint Extern 2 (Keeps pool_threshold (modify _)) => by apply keeps_modify : keeps.
#[local] Hint Resolve keeps_threshold_Propose : keeps.

Lemma keeps_threshold_genesis_msgs ms : Keeps pool_threshold (genesis_msgs (T := T) (R := R) ms).
Proof. induction ms; simpl; keeps. Qed.
#[local] Hint Resolve keeps_threshold_genesis_msgs : keeps.
Lemma keeps_threshold_genesis_pending l : Keeps pool_threshold (genesis_pending (T := T) (R := R) l).
Proof. induction l as [|[from ms] l IH]; simpl; keeps. Qed.
#[local] Hint Resolve keeps_threshold_genesis_pending : keeps.
Lemma keeps_threshold_onPropose_msgs ms : forall rs, Keeps pool_threshold (pool_onPropose_msgs (T := T) (R := R) ms rs).
Proof. induction ms; intros rs; cbn [pool_onPropose_msgs]; keeps. Qed.
#[local] Hint Resolve keeps_threshold_onPropose_msgs : keeps.

Lemma pool_Propose_threshold rh : Keeps pool_threshold (app_Propose rh).
Proof. cbn [app_Propose app InPool_ConsensusApp]. unfold pool_Propose. keeps. Qed.
Lemma pool_OnPropose_threshold sb : Keeps pool_threshold (app_OnPropose sb).
Proof. cbn [app_OnPropose app InPool_ConsensusApp]. unfold pool_OnPropose. keeps. Qed.
Lemma pool_OnViewDone_threshold tb : Keeps pool_threshold (app_OnViewDone tb).
Proof.
  cbn [app_OnViewDone app InPool_ConsensusApp]. unfold pool_OnViewDone, PublishTxBlock.
  apply keeps_bind; [typeclasses eauto| |intros; keeps]. apply keeps_ip_on_chain, keeps_SyncAddTxBlock.
Qed.
Lemma pool_CreateBlockHeader_threshold slot : Keeps pool_threshold (CreateBlockHeader slot).
Proof.
  cbn [CreateBlockHeader app InPool_ConsensusApp]. unfold pool_CreateBlockHeader.
  apply keeps_bind; [typeclasses eauto| |intros; keeps]. apply keeps_ip_on_chain. unfold SyncGetInfo. keeps.
Qed.

(** A pool of a group whose threshold is positive, as the settlement chain makes them. *)
Record KeeperPool := mkKeeperPool { kp_pool : InPool; kp_threshold : 0 < threshold (sp_state (ip_sync kp_pool)) }.

Lemma threshold_kept {A} (m : M InPool A) p : Keeps pool_threshold m ->
  0 < threshold (sp_state (ip_sync p)) -> 0 < threshold (sp_state (ip_sync (m p).2)).
Proof. intros Hm. specialize (Hm p). unfold pool_threshold, same_threshold in Hm. by rewrite Hm. Qed.

Definition lift {A} (m : M InPool A) (K : Keeps pool_threshold m) : M KeeperPool A := fun w =>
  ((m (kp_pool w)).1, mkKeeperPool (m (kp_pool w)).2 (threshold_kept m (kp_pool w) K (kp_threshold w))).

#[local] Instance KeeperPool_ConsensusApp : ConsensusApp KeeperPool := {
  GetMembers w := GetMembers (kp_pool w);
  GetQuorumSize w := GetQuorumSize (kp_pool w);
  CreateBlockHeader slot := lift (CreateBlockHeader slot) (pool_CreateBlockHeader_threshold slot);
  app_Propose rh := lift (app_Propose rh) (pool_Propose_threshold rh);
  app_OnPropose sb := lift (app_OnPropose sb) (pool_OnPropose_threshold sb);
  app_OnViewDone tb := lift (app_OnViewDone tb) (pool_OnViewDone_threshold tb) }.

#[local] Instance KeeperPool_IRole : IRole KeeperPool := {
  RoleSign id msg typ := lift (RoleSign id msg typ) (keeps_ip_on_role _);
  RoleVerify id msg sig := lift (RoleVerify id msg sig) (keeps_ip_on_role _);
  RoleVerifyMulti msg sig := lift (RoleVerifyMulti msg sig) (keeps_ip_on_role _);
  RoleSelf := lift RoleSelf (keeps_ip_on_role _);
  RoleGet id update := lift (RoleGet id update) (keeps_ip_on_role _);
  RoleSanityCheck m := lift (RoleSanityCheck m) (keeps_ip_on_role _) }.

#[export] Instance KeeperPool_Laws : ConsensusAppLaws KeeperPool.
Proof.
  split.
  - intros slot w rh w' Hr. assert (Hp : (pool_CreateBlockHeader slot (kp_pool w)).1 = Ok rh)
      by exact (f_equal fst Hr).
    destruct (pool_CreateBlockHeader slot (kp_pool w)) as [o p'] eqn:E. simpl in Hp. subst o.
    unfold pool_CreateBlockHeader in E. by go_inv.
  - intros w. cbn [GetQuorumSize KeeperPool_ConsensusApp app InPool_ConsensusApp].
    unfold pool_GetQuorumSize, getThreshold. pose proof (kp_threshold w). case_match; [lia|done].
Qed.
End KeeperNode.
