(* ===== verification/PoolRuns.v ===== *)
(** * PoolRuns: the pools on the small chain

    The transaction store, the role service and the three pools on concrete
    libraries: base-58 without encoding, caches that forget nothing, a wallet
    that signs as the toy scheme verifies, and a settlement chain that knows
    keepers 5 and 6, user 7, provider 9 and account 30 of another group.  The
    runs are the witnesses of the theorems about the pools. *)

From S2P Require Import Prelude GoMonad Codec Keys Segments SegmentID Types Tx Fr StateTypes Concrete State Roles Chunks Orders Challenge Pay Validate Block Frame Chain Scenario Propose TxStore HotStuff HotStuffSafety RoleMgr SyncPool SyncPoolProps SyncPoolLive PushPool PushPoolProps InPool InPoolProps KeeperNode.

#[export] Instance toy_base58 : Base58 := { base58_Encode := String.string_of_list_ascii }.
#[export] Instance toy_base58_laws : Base58Laws.
Proof. constructor. intros x y E. change (String.string_of_list_ascii x = String.string_of_list_ascii y) in E. by rewrite <-(String.list_ascii_of_string_of_list_ascii x), E, String.list_ascii_of_string_of_list_ascii. Qed.

#[export] Instance map_cache K V `{Countable K} : Cache K V := {
  cache := gmap K V; c_new := ∅; c_look := lookup; c_touch _ c := c; c_add := insert; c_remove := delete }.
#[export] Instance map_cache_laws K V `{Countable K} : CacheLaws K V.
Proof.
  constructor; simpl; intros.
  - apply lookup_empty.
  - done.
  - apply lookup_insert_eq.
  - by rewrite lookup_insert_ne in *.
  - apply lookup_delete_eq.
  - match goal with E : delete _ _ !! _ = Some _ |- _ => by apply lookup_delete_Some in E as [_ E] end.
Qed.

#[export] Instance wire_MsgState : Wire MsgState.
Proof.
  refine (wire_iso (fun r => (mst_BlockID r, mst_Height r, mst_Status r))
    (fun '(a0, a1, a2) => mkMsgState a0 a1 a2) _).
  by intros [].
Defined.

#[export] Instance wire_SignedBlock : Wire SignedBlock.
Proof.
  refine (wire_iso (fun r => (sb_RawBlock r, sb_MultiSignature r)) (fun '(a0, a1) => mkSignedBlock a0 a1) _).
  by intros [].
Defined.

(** A key signs by itself; keys are aggregated one after the other. *)
#[export] Instance toy_wallet : Wallet := {
  WalletSign addr msg := Some (addr ++ msg);
  bls_AggregatePublicKey l := Some (concat l) }.

(** ** Accounts *)

Definition settle (id : Z) : option RoleInfo :=
  if (id =? 5) || (id =? 6) then Some (role_of RoleInfo_Keeper id [])
  else if id =? 7 then Some (role_of RoleInfo_User id [])
  else if id =? 9 then Some (role_of RoleInfo_Provider id [])
  else if id =? 30 then Some (mkRoleInfo RoleInfo_User 30 2 [] [] [] [] "")
  else None.
Definition roles : RoleMgr :=
  mkRoleMgr 5 1 (list_to_map ((fun id => (id, default (role_of 0 0 []) (settle id))) <$> [5; 6; 7; 9])) [7] [5; 6] [9] ∅ settle.

(** The signatures of the roles' keys. *)
Definition signed (m : Message) : SignedMessage := mkSignedMessage m (sig_of (m_From m) (Message_Hash m)).
Definition block_hash (b : RawBlock) : bytes := CalcHash (RawBlock_Hash b) PhaseCommit.
Definition sealed (ids : list Z) (b : RawBlock) : SignedBlock :=
  mkSignedBlock b (mkMultiSignature SigBLS ids (concat (put_be 8 <$> ids) ++ block_hash b)).
(** The block keeper 5 makes on [s], signed by [ids]. *)
Definition make_block (s : StateMgr) (slot : Z) (ids : list Z) (msgs : list Message) (errs : list Z) : SignedBlock :=
  let h := mkRawHeader 0 1 (v_height (cur s)) slot 5 (blkID s) in
  let root := foldl (fun r m => next_root r (m_Params m)) (next_root (v_root (cur s)) (enc h)) msgs in
  sealed ids (mkRawBlock h (mkMsgSet (signed <$> msgs) ((fun e => mkReceipt e []) <$> errs) (v_root (cur s)) root)).

(** The accounts of the group sign and verify. *)
Definition in_group (id : Z) : Prop := exists ri, rm_infos roles !! id = Some ri /\ ri_ChainVerifyKey ri = put_be 8 id.
Lemma pubkey_run id : in_group id -> GetPubKey id Secp256k1 roles = (Ok (put_be 8 id), roles).
Proof.
  intros (ri & Hr & Hk). unfold GetPubKey, rm_get. rewrite bind_assoc, (bind_run _ _ _ _ _ (eq_refl : gets _ _ = _)), Hr.
  by rewrite <-Hk.
Qed.
Lemma sign_run id msg : in_group id -> RoleSign id msg SigSecp256k1 roles = (Ok (sig_of id msg), roles).
Proof.
  intros Hg. cbn [RoleSign RoleMgr_IRole]. unfold rm_RoleSign. cbn [orb Z.eqb SigSecp256k1 Pos.eqb].
  by rewrite (bind_run _ _ _ _ _ (pubkey_run id Hg)).
Qed.
Lemma verify_run id msg : in_group id -> RoleVerify id msg (sig_of id msg) roles = (Ok true, roles).
Proof.
  intros Hg. cbn [RoleVerify RoleMgr_IRole]. unfold rm_RoleVerify. cbn [orb sig_of sig_Type sig_Data Z.eqb SigSecp256k1 Pos.eqb].
  rewrite (bind_run _ _ _ _ _ (pubkey_run id Hg)). unfold check. rewrite length_put_be. cbn.
  by rewrite bool_decide_eq_true_2.
Qed.
Lemma user_in_group : in_group 7.
Proof. by eexists. Qed.

(** ** The store *)

Definition small_block : SignedBlock := sealed [5] (mkRawBlock (mkRawHeader 0 1 1 2 5 []) MsgSet_zero).

Lemma block_store_witness :
  (GetTxBlock (block_id small_block) (NewTxStore (ts_ds (PutTxBlock small_block (NewTxStore ∅)).2))).1 = Ok small_block.
Proof.
  destruct (block_store [] small_block (Z.of_nat (length (enc small_block))) (PutTxBlock small_block (NewTxStore ∅)).2) as [_ H].
  apply H; [reflexivity|reflexivity|by eexists|done|by right].
Defined.

(** ** Roles *)

(** A message that makes a signature as long as the scheme has it. *)
Definition long_msg : bytes := replicate 57 "x"%char.

Lemma quorum_verifies_witness : exists ms, ms_Signer ms = [5; 6] /\ (RoleVerifyMulti long_msg ms roles).1 = Ok true.
Proof.
  destruct (quorum_verifies roles long_msg [(5, sig_of 5 long_msg); (6, sig_of 6 long_msg)]) as (ms & _ & Hs & Hv).
  - repeat constructor; simpl; eexists; split; reflexivity.
  - by apply (bool_decide_unpack (NoDup [5; 6])).
  - exists ms. by rewrite Hv.
Defined.

Lemma other_group_panics_witness : (RoleVerify 30 [] (mkSignature SigSecp256k1 []) roles).1 = Panic "nil pointer dereference".
Proof. rewrite (other_group_panics roles 30 (mkRoleInfo RoleInfo_User 30 2 [] [] [] [] "")); done. Defined.

(** ** Blocks *)

Definition nothing : bytes -> option bytes := fun _ => None.
Definition pool_on (s : StateMgr) : SyncPool (T := TxStoreImpl) (R := RoleMgr) :=
  (sync_load (NewSyncPool 1 2 s (NewTxStore ∅) roles)).2.
Definition pool1 : SyncPool := set_inProcess true (set_inPush true (pool_on st1)).

Lemma run_final {S} (m : M S unit) s : is_Ok (m s).1 = true -> m s = (Ok tt, (m s).2).
Proof. by destruct (m s) as [[[]|?|?] ?]. Qed.

(** User 7 registers. *)
Definition next_block : SignedBlock := Eval vm_compute in make_block st1 2 [5; 6] [addRole_msg RoleInfo_User 7 0 user_key] [0].
Definition st2' : StateMgr := Eval vm_compute in final (ApplyBlock (Some next_block)) st1.
Definition next_id : MsgID := Eval vm_compute in id_of next_block.

Lemma st2'_run : apply_chain [next_block] st1 = (Ok tt, st2').
Proof. vm_cast_no_check (eq_refl (Ok (A := unit) tt, st2')). Qed.

(** A block that comes too late, then a turn with nothing to do. *)
Lemma idle_run : run_events [EvAddBlock small_block; EvHandle nothing] (pool_on st2') = (Ok tt, pool_on st2').
Proof. reflexivity. Qed.

Lemma sync_pool_chain_witness : exists blks, apply_chain blks st2' = (Ok tt, sp_state (pool_on st2')) /\ sp_nextHeight (pool_on st2') = 2.
Proof.
  destruct (sync_pool_chain 1 2 st2' (NewTxStore ∅) roles false false [EvAddBlock small_block; EvHandle nothing] (pool_on st2'))
    as (blks & Hc & Hn & _); [reflexivity|exact idle_run|].
  exists blks. split; [exact Hc|rewrite Hn; reflexivity].
Defined.

(** The pool that was told of the next block. *)
Definition told1 : SyncPool :=
  set_remoteHeight 2 (set_blks <[1 := next_id]> (set_sp_store (R := RoleMgr)
    (mkTxStoreImpl {[ BlockKey next_id := enc next_block ]} ∅ {[ next_id := next_block ]} {[ 1 := next_id ]}) pool1)).

Lemma handleBlock_catches_up_witness : exists p, handleBlock nothing told1 = (Ok tt, p) /\ sp_state p = st2' /\ sp_nextHeight p = 2.
Proof.
  assert (Hid : next_id = id_of next_block) by (vm_compute; reflexivity).
  destruct (handleBlock_catches_up nothing [next_block] told1 st2' next_block) as (p & Hr & Hs & Hn & _).
  - reflexivity.
  - exact st2'_run.
  - vm_compute. split; [discriminate|reflexivity].
  - vm_compute. reflexivity.
  - simpl. lia.
  - reflexivity.
  - reflexivity.
  - intros [|i] blk Hb; [injection Hb as <-|done]. rewrite <-Hid. split.
    + exists (enc next_block). split; [reflexivity|]. apply lookup_singleton_eq.
    + intros tb Hl. apply (lookup_singleton_Some next_id next_id next_block tb) in Hl as [_ Hl]. by symmetry.
  - reflexivity.
  - rewrite <-Hid. reflexivity.
  - intros [|i] blk id Hb Hl; [injection Hb as <-|done]. rewrite <-Hid. change (Some next_id = Some id) in Hl. congruence.
  - exists p. split_and!; [exact Hr|exact Hs|rewrite Hn; reflexivity].
Defined.

(** A block on [st1] that names keeper 5 as its miner and is signed by a user and
    a provider. *)
Definition strangers_block : SignedBlock := Eval vm_compute in make_block st1 2 [7; 9] [] [].

(** Two accounts that are not keepers stop every node: a block that they sign
    and that names a keeper as its miner passes the checks of [SyncAddTxBlock],
    which count the signers without asking who they are, and when its turn comes
    [ApplyBlock], which does ask, refuses it and the node panics. *)
Theorem strangers_stop_node :
  (SyncAddTxBlock strangers_block pool1).1 = Ok tt /\
  (handleBlock nothing (SyncAddTxBlock strangers_block pool1).2).1
    = Panic "check version, storage space left(>1GB), then restart" /\
  (ApplyBlock (Some strangers_block) st1).1 = Err "apply block not have enough valid signer".
Proof. split_and!; vm_compute; reflexivity. Qed.

(** ** Messages on their way in *)

Definition clock0 : nat -> Z := fun k => Z.of_nat k.
Definition accepts {A} : A -> bool := fun _ => true.
Definition keys_of (m : gmap Z msgTo) : list Z := (map_to_list m).*1.

(** User 7 creates its file system. *)
Definition fs_msg : Message := msg_of 7 0 CreateFs user_key.
Definition open_pool : PushPool (T := TxStoreImpl) (R := RoleMgr) := mkPushPool (pool_on st2') false 7 [] ∅ true 0 [].
Definition fs_msg1 : Message := Eval vm_compute in set_m_Nonce 1 fs_msg.
Definition fs_sig : Signature := sig_of 7 (Message_Hash fs_msg1).

Lemma PushMessage_accepts_witness : exists p, PushMessage clock0 accepts fs_msg open_pool = (Ok (Message_Hash fs_msg1), p) /\
  pp_locked p = false /\ pp_published p = [mkSignedMessage fs_msg1 fs_sig].
Proof.
  destruct (PushMessage_accepts clock0 accepts fs_msg open_pool fs_sig roles roles) as (p & Hr & Hl & _ & _ & Hp & _).
  - reflexivity.
  - reflexivity.
  - vm_compute. discriminate.
  - vm_compute. split; [discriminate|reflexivity].
  - apply sign_run, user_in_group.
  - apply verify_run, user_in_group.
  - reflexivity.
  - exists p. split_and!; [exact Hr|exact Hl|exact Hp].
Defined.

(** A block carried a message of user 7 with the nonce the pool is about to use. *)
Definition elsewhere : PushPool (T := TxStoreImpl) (R := RoleMgr) :=
  mkPushPool (set_msgDone (fun _ => [mkBlkDigest 2 [mkMessageDigest [] 7 1]]) (pool_on st2')) false 7 [7]
    {[ 7 := mkPendingMsg 1 1 ∅ ]} true 0 [].

Lemma foreign_message_deadlocks_witness : exists p1 p2, syncPush_done elsewhere = (Ok tt, p1) /\
  (PushMessage clock0 accepts fs_msg p1).1 = Err "nonce should be no less than chain nonce" /\
  (PushGetPendingNonce (T := TxStoreImpl) (R := RoleMgr) 7 p2).1 = Panic "deadlock".
Proof.
  destruct (foreign_message_deadlocks clock0 accepts keys_of fs_msg elsewhere (mkBlkDigest 2 [mkMessageDigest [] 7 1]) []
    (mkPendingMsg 1 1 ∅) (mkMessageDigest [] 7 1) roles roles fs_sig) as (p1 & p2 & Hd & Hp & _ & _ & Hn & _).
  - reflexivity.
  - reflexivity.
  - reflexivity.
  - reflexivity.
  - intros md Hmd. apply list_elem_of_singleton in Hmd as ->. simpl. lia.
  - by apply list_elem_of_singleton.
  - reflexivity.
  - simpl. lia.
  - apply sign_run, user_in_group.
  - apply verify_run, user_in_group.
  - exists p1, p2. split_and!; [exact Hd|by rewrite Hp|exact (Hn 7)].
Defined.

(** ** A keeper *)

Definition all_takes (m : gmap Z msgSet) : list (Z * nat) := (fun kv => (kv.1, size (ms_info kv.2))) <$> map_to_list m.
Definition keeper5 : InPool (T := TxStoreImpl) (R := RoleMgr) :=
  mkInPool (set_inProcess true (set_msgChan (fun _ => [mkSignedMessage fs_msg1 fs_sig]) (pool_on st2'))) 5 ∅ [].
Definition keeper5_got : InPool (T := TxStoreImpl) (R := RoleMgr) := (run_inpool_events accepts [EvMsg; EvBlk] keeper5).2.

Lemma inpool_no_stale_witness : exists seen queued,
  apply_chain (seen ++ queued) st2' = (Ok tt, sp_state (ip_sync keeper5_got)) /\ sp_blkDone (ip_sync keeper5_got) = digest <$> queued.
Proof.
  destruct (inpool_no_stale accepts st2' [EvMsg; EvBlk] keeper5 keeper5_got) as (seen & queued & Hc & Hq & _).
  - reflexivity.
  - reflexivity.
  - reflexivity.
  - reflexivity.
  - reflexivity.
  - reflexivity.
  - refine (run_final (run_inpool_events accepts [EvMsg; EvBlk]) keeper5 _). vm_compute. reflexivity.
  - exists seen, queued. split; [exact Hc|exact Hq].
Defined.

Definition header5 : RawHeader := mkRawHeader (v_version (cur st2')) 1 (v_height (cur st2')) 9 (pool_GetLeader 9 keeper5) (blkID st2').
Lemma header5_run : CreateBlockHeader (ConsensusApp := KeeperNode.app accepts all_takes) 9 keeper5 = (Ok header5, keeper5).
Proof. apply (CreateBlockHeader_run accepts all_takes 9 keeper5); vm_compute; done. Qed.

Lemma CreateBlockHeader_next_witness : rh_Height header5 = v_height (cur (sp_state (ip_sync keeper5))) /\ rh_Slot header5 = 9.
Proof.
  destruct (CreateBlockHeader_next accepts all_takes 9 keeper5 header5 keeper5 header5_run) as (_ & _ & Hh & Hs & _).
  split; [exact Hh|exact Hs].
Defined.

Lemma PoA_never_mines_witness : PoA_tick (IRole0 := InPool_IRole) (ConsensusApp0 := KeeperNode.app accepts all_takes) 5 keeper5 = (Ok None, keeper5).
Proof. apply (PoA_never_mines accepts all_takes 5 keeper5). vm_compute. discriminate. Defined.
