(* ===== verification/Restrict.v ===== *)
(** * Restrict: the list of users a provider serves

    [submodule/control/access.go]: an on/off switch and a list of accounts, both
    kept in memory and in the node's store under the prefix [restrict]
    ([lib/backend/wrap/kv.go]); [New] reads them back.  With the switch off
    everybody is served. *)

From S2P Require Import Prelude GoMonad Keys.

(** ** lib/backend/wrap/kv.go *)

(** [convertKey]: leading slashes are dropped; a key that is one slash becomes
    the bare prefix. *)
Fixpoint convertKey (prefix key : bytes) : bytes :=
  match key with
  | [] => prefix ++ [KeyDelimiter]
  | c :: key' =>
      if bool_decide (c = KeyDelimiter) then
        match key' with [] => prefix | _ => convertKey prefix key' end
      else prefix ++ KeyDelimiter :: key
  end.

(** ** submodule/control/access.go *)

Definition wl_prefix : bytes := bytes_of_string "restrict".
Definition eflag : bytes := bytes_of_string "enable".

Record wl := mkWl { wl_enable : bool; wl_list : gset Z; wl_ds : gmap bytes bytes }.

Definition enable_key : bytes := convertKey wl_prefix (NewKey [KSlice eflag]).
Definition wl_user_key (uid : Z) : bytes := convertKey wl_prefix (NewKey [KUint64 uid]).

(** The callback [add] of [Iter]: values that are not eight bytes are skipped. *)
Definition wl_entry (value : bytes) : gset Z :=
  if (length value =? 8)%nat then {[ get_be value ]} else ∅.

(** [w.ds.Iter]: the entries whose key starts with the converted empty key. *)
Definition wl_load (ds : gmap bytes bytes) : gset Z :=
  map_fold (fun key value l =>
    if bool_decide (convertKey wl_prefix [] `prefix_of` key) then wl_entry value ∪ l else l) ∅ ds.

Definition wl_New (ds : gmap bytes bytes) : wl :=
  mkWl (bool_decide (ds !! enable_key = Some eflag)) (wl_load ds) ds.

Definition wl_Enable (ea : bool) : M wl unit :=
  modify (fun w => mkWl ea (wl_list w)
    (if ea then <[enable_key := eflag]> (wl_ds w) else delete enable_key (wl_ds w))).

Definition wl_Stat : M wl bool := gets wl_enable.

Definition wl_Add (uid : Z) : M wl unit :=
  let! w := gets (fun w => w) in
  do! check (wl_enable w) "enable restrict first";
  modify (fun w => mkWl (wl_enable w) ({[ uid ]} ∪ wl_list w) (<[wl_user_key uid := put_be 8 uid]> (wl_ds w))).

Definition wl_Delete (uid : Z) : M wl unit :=
  let! w := gets (fun w => w) in
  do! check (wl_enable w) "enable restrict first";
  modify (fun w => mkWl (wl_enable w) (wl_list w ∖ {[ uid ]}) (delete (wl_user_key uid) (wl_ds w))).

Definition wl_Has (uid : Z) (w : wl) : bool :=
  if negb (wl_enable w) then true else bool_decide (uid ∈ wl_list w).

Definition wl_List (w : wl) : list Z := elements (wl_list w).

(** ** What is remembered *)

Inductive wl_call : wl -> wl -> Prop :=
  | call_Enable ea w : wl_call w (wl_Enable ea w).2
  | call_Add uid w : is_u64 uid -> wl_call w (wl_Add uid w).2
  | call_Delete uid w : is_u64 uid -> wl_call w (wl_Delete uid w).2.

(** The store holds exactly the list and the switch. *)
Definition wl_stored (w : wl) : Prop :=
  (wl_enable w = bool_decide (wl_ds w !! enable_key = Some eflag)) /\
  (forall uid, uid ∈ wl_list w -> is_u64 uid /\ wl_ds w !! wl_user_key uid = Some (put_be 8 uid)) /\
  (forall key value, wl_ds w !! key = Some value -> convertKey wl_prefix [] `prefix_of` key ->
     (key = enable_key /\ value = eflag) \/
     exists uid, uid ∈ wl_list w /\ key = wl_user_key uid /\ value = put_be 8 uid).

Lemma wl_user_key_eq uid : wl_user_key uid = convertKey wl_prefix [] ++ format10 uid.
Proof.
  unfold wl_user_key. cbn [NewKey key_part_bytes]. pose proof (format10_no_delim uid) as Hd.
  destruct (format10 uid) as [|c l] eqn:E.
  - by rewrite app_nil_r.
  - cbn [convertKey]. rewrite bool_decide_false by set_solver. by rewrite <-app_assoc.
Qed.

Lemma wl_user_key_inj u v : wl_user_key u = wl_user_key v -> u = v.
Proof. rewrite !wl_user_key_eq. intros E%app_inv_head. by apply (inj format10). Qed.

Lemma format10_digits z : 0 <= z -> Forall is_digit (format10 z).
Proof.
  intros Hz. unfold format10. assert (forall n : N, Forall is_digit (bytes_of_string (pretty n))) as Hn.
  { intros n. unfold pretty, pretty_N. case_decide.
    - apply Forall_singleton. unfold is_digit. simpl. set_solver.
    - apply pretty_N_go_digits. constructor. }
  destruct z as [|p|p]; [apply (Hn 0%N)|apply (Hn (N.pos p))|lia].
Qed.

Lemma wl_user_key_enable uid : 0 <= uid -> wl_user_key uid <> enable_key.
Proof.
  intros Hu E. rewrite wl_user_key_eq in E.
  change enable_key with (convertKey wl_prefix [] ++ eflag) in E. apply app_inv_head in E.
  pose proof (format10_digits uid Hu) as Hd. rewrite E in Hd.
  apply Forall_cons in Hd as [Hc _]. unfold is_digit in Hc. simpl in Hc. set_solver.
Qed.

Lemma wl_load_spec ds u :
  u ∈ wl_load ds <-> exists key value, ds !! key = Some value /\ convertKey wl_prefix [] `prefix_of` key /\
                       length value = 8%nat /\ get_be value = u.
Proof.
  unfold wl_load. revert ds.
  refine (map_fold_weak_ind (fun l ds => u ∈ l <-> _) _ _ _ _).
  - split; [set_solver|]. intros (k & v & Hk & _). by rewrite lookup_empty in Hk.
  - intros key value ds l Hk IH.
    assert ((exists k v, <[key := value]> ds !! k = Some v /\ convertKey wl_prefix [] `prefix_of` k /\
               length v = 8%nat /\ get_be v = u) <->
            (convertKey wl_prefix [] `prefix_of` key /\ length value = 8%nat /\ get_be value = u) \/ u ∈ l) as ->.
    { rewrite IH. split.
      - intros (k & v & E & Hr). apply lookup_insert_Some in E as [[<- <-]|[_ E]]; eauto 6.
      - intros [Hr|(k & v & E & Hr)]; [exists key, value; by rewrite lookup_insert_eq|].
        exists k, v. split; [|done]. apply lookup_insert_Some. right. split; [congruence|done]. }
    unfold wl_entry. case_bool_decide as Hp; [|naive_solver].
    destruct (length value =? 8)%nat eqn:E8.
    + apply Nat.eqb_eq in E8. set_solver.
    + apply Nat.eqb_neq in E8. set_solver.
Qed.

Lemma wl_call_stored w w' : wl_call w w' -> wl_stored w -> wl_stored w'.
Proof.
  intros Hc (He & Hin & Hds). destruct Hc as [ea w|uid w Hu|uid w Hu].
  - unfold wl_Enable, modify. cbn [snd]. unfold wl_stored. cbn [wl_enable wl_list wl_ds]. destruct ea.
    + rewrite lookup_insert_eq. rewrite bool_decide_true by done. split_and!; [done| |].
      * intros u [Hr E]%Hin. split; [done|]. rewrite lookup_insert_ne; [done|].
        intros E'. by apply (wl_user_key_enable u); [apply Hr|].
      * intros key value E Hp. apply lookup_insert_Some in E as [[<- <-]|[_ E]]; eauto.
    + rewrite lookup_delete_eq, bool_decide_false by done. split_and!; [done| |].
      * intros u [Hr E]%Hin. split; [done|]. rewrite lookup_delete_ne; [done|].
        intros E'. by apply (wl_user_key_enable u); [apply Hr|].
      * intros key value [_ E]%lookup_delete_Some Hp. eauto.
  - unfold wl_Add, bind, gets, check, ret, throw, modify. destruct (wl_enable w) eqn:En; cbn [snd]; [|unfold wl_stored; by rewrite En].
    unfold wl_stored. cbn [wl_enable wl_list wl_ds]. rewrite ?En.
    rewrite lookup_insert_ne by (apply wl_user_key_enable, Hu). split_and!; [done| |].
    + intros u [->%elem_of_singleton|[Hr E]%Hin]%elem_of_union; [by rewrite lookup_insert_eq|].
      split; [done|]. destruct (decide (uid = u)) as [->|Hne]; [by rewrite lookup_insert_eq|].
      rewrite lookup_insert_ne; [done|]. intros E'. by apply Hne, wl_user_key_inj.
    + intros key value E Hp. apply lookup_insert_Some in E as [[<- <-]|[_ E]].
      * right. exists uid. set_solver.
      * destruct (Hds _ _ E Hp) as [?|(u & ? & ?)]; [by left|right; exists u; set_solver].
  - unfold wl_Delete, bind, gets, check, ret, throw, modify. destruct (wl_enable w) eqn:En; cbn [snd]; [|unfold wl_stored; by rewrite En].
    unfold wl_stored. cbn [wl_enable wl_list wl_ds]. rewrite ?En.
    rewrite lookup_delete_ne by (apply wl_user_key_enable, Hu). split_and!; [done| |].
    + intros u [[Hr E]%Hin Hne]%elem_of_difference. split; [done|]. rewrite lookup_delete_ne; [done|].
      intros E'. apply Hne, elem_of_singleton. by apply wl_user_key_inj.
    + intros key value [Hk E]%lookup_delete_Some Hp.
      destruct (Hds _ _ E Hp) as [?|(u & Hu' & -> & ->)]; [by left|right; exists u].
      split_and!; [|done..]. apply elem_of_difference. split; [done|]. intros ->%elem_of_singleton. done.
Qed.

(** The access list survives a restart: after any calls of Enable, Add and
    Delete, which may fail, on a list opened on a store with no entry under the
    prefix, New on the store they left is the running node's list and switch. *)
Theorem restrict_restart ds w :
  (forall key, convertKey wl_prefix [] `prefix_of` key -> ds !! key = None) ->
  rtc wl_call (wl_New ds) w -> wl_New (wl_ds w) = w.
Proof.
  intros Hnone Hrun. assert (wl_stored w) as (He & Hin & Hds).
  { assert (wl_stored (wl_New ds)) as H0.
    { split_and!; [done| |].
      - intros u Hu. apply wl_load_spec in Hu as (k & v & E & Hp & _). by rewrite Hnone in E.
      - intros k v E Hp. cbn [wl_New wl_ds] in E. by rewrite Hnone in E. }
    clear Hnone. induction Hrun as [|w1 w2 w3 Hc _ IH]; [done|]. by eapply IH, wl_call_stored. }
  unfold wl_New. rewrite <-He. destruct w as [en l d]. cbn [wl_enable wl_list wl_ds] in *. f_equal.
  apply set_eq. intros u. rewrite wl_load_spec. split.
  - intros (k & v & E & Hp & Hl & <-). destruct (Hds _ _ E Hp) as [[-> ->]|(u & Hu & -> & ->)].
    + by apply (f_equal id) in Hl.
    + rewrite get_put_be8; [done|]. by apply Hin.
  - intros Hu. destruct (Hin u Hu) as [Hr E]. exists (wl_user_key u), (put_be 8 u). split_and!; [done| |apply length_put_be|by apply get_put_be8].
    rewrite wl_user_key_eq. by eexists.
Qed.

(** Enabling, adding account 7 and disabling, then starting again. *)
Lemma restrict_restart_witness :
  let w0 := wl_New ∅ in
  let w := (wl_Enable false (wl_Add 7 (wl_Enable true w0).2).2).2 in
  rtc wl_call w0 w /\ wl_New (wl_ds w) = w /\ wl_Has 8 w = true /\ 7 ∈ wl_list w.
Proof.
  intros w0 w.
  assert (rtc wl_call w0 w) as Hrun.
  { eapply rtc_l; [apply (call_Enable true)|]. eapply rtc_l; [apply (call_Add 7); done|].
    eapply rtc_l; [apply (call_Enable false)|]. apply rtc_refl. }
  split; [exact Hrun|]. split; [|split; [reflexivity|]].
  - apply (restrict_restart ∅); [|exact Hrun]. intros key _. apply lookup_empty.
  - unfold w. cbn. apply elem_of_union. left. by apply elem_of_singleton.
Defined.
