(* ===== verification/ProOrder.v ===== *)
(** * ProOrder: the order service of a provider

    [service/provider/order]: for each user, the order the provider has
    acknowledged, the sequence of segments being received, and the provider's
    counter-signatures.  The manager keeps an entry per user in memory and saves
    its parts in the node's store; [getOrder] reads them back.  The chain state,
    the settlement chain, the data service, the pdp verifier and the role service
    are interfaces; the access list is [Restrict].

    A handler locks the user's entry and works on it and on the store, so its body
    is a computation on [ordCtx]; [with_order] runs it on the manager.  Readings of
    the clock are an argument, numbered in the order the handler takes them. *)

From S2P Require Import Prelude GoMonad Codec Keys Segments SegmentID Types Tx Fr StateTypes HotStuff Restrict.

(** ** lib/types/order.go, api/types.go, service/provider/order/common.go *)

Definition types_Hour := 3600.
Definition orderMaxSize := 10 * 1024 * 1024 * 1024 * 1024.
Definition seqMaxSize := 1024 * 1024 * 1024 * 1024.
Definition DefaultPiecePrice := 2 * 1000 * 1000.   (** build/common.go *)

Record Quotation := mkQuotation {
  qu_ProID : Z; qu_TokenIndex : Z; qu_SegPrice : option Z; qu_PiecePrice : option Z }.

Record OrderPayInfo := mkOrderPayInfo {
  opi_ID : Z; opi_Size : Z; opi_ConfirmSize : Z; opi_OnChainSize : Z; opi_ExpireSize : Z;
  opi_NeedPay : option Z; opi_Paid : option Z; opi_Balance : option Z }.

Record DataInfo := mkDataInfo {
  di_OrderPayInfo : OrderPayInfo; di_Received : Z; di_ConfirmedNonce : Z; di_SubNonce : Z }.

Record StoreInfo := mkStoreInfo {
  si_Time : Z; si_Nonce : Z; si_SubNonce : Z; si_Size : Z; si_Price : option Z }.

(** ** service/provider/order/order.go: the states

    The states are strings, as in the source: a stored one may be any string. *)

Abbreviation OrderState := string (only parsing).
Definition Order_Init : OrderState := "init".
Definition Order_Ack : OrderState := "ack".
Definition Order_Done : OrderState := "done".

Abbreviation OrderSeqState := string (only parsing).
Definition OrderSeq_Init : OrderSeqState := "init".
Definition OrderSeq_Ack : OrderSeqState := "ack".
Definition OrderSeq_Done : OrderSeqState := "done".

Record NonceState := mkNonceState { nst_Nonce : Z; nst_Time : Z; nst_State : OrderState }.
Record SeqState := mkSeqState { sst_Number : Z; sst_Time : Z; sst_State : OrderSeqState }.

(** ** Interfaces *)

(** [pdpcommon.DataVerifier] and its constructor [pdp.NewDataVerifier(pk, nil)] *)
Class DataVerifierOps `{!FrOps, !PDP} (DV : Type) := {
  NewDataVerifier : PublicKey -> option DV;
  dv_Add : bytes -> bytes -> bytes -> M DV unit;   (** index, segment, tag *)
  dv_Result : DV -> outcome bool;
  dv_Reset : DV -> DV;
}.

(** [api.IDataService]; the error of [HasSegment] is ignored. *)
Class IDataService (W : Type) := {
  PutSegmentToLocal : BaseSegment -> M W unit;
  GetSegmentFromLocal : bytes -> M W BaseSegment;
  HasSegment : bytes -> W -> bool;
}.

(** [api.IChainState] *)
Class IChainState (W : Type) := {
  StateGetPDPPublicKey : Z -> M W bytes;
  StateGetOrderNonce : Z -> Z -> Z -> M W NonceSeq;
  StateGetOrder : Z -> Z -> Z -> M W OrderFull;
  StateGetUsersAt : Z -> M W (list Z);
}.

(** [api.ISettle] *)
Class ISettle (W : Type) := {
  SettleGetStoreInfo : Z -> Z -> M W StoreInfo;
}.

(** ** [*big.Int] methods that write their receiver *)

Section Big.
Context {S : Type}.
(** [z.Set(x)] does nothing when both are the same pointer *)
Definition big_Set (z x : option Z) : M S (option Z) :=
  match z, x with
  | None, None => ret None
  | Some _, Some v => ret (Some v)
  | _, _ => panic "nil pointer dereference"
  end.
Definition big_Add (x y : option Z) : M S (option Z) :=
  let! x := deref x in let! y := deref y in ret (Some (x + y)).
(** [x.Cmp(y) == 0] *)
Definition big_eq (x y : option Z) : M S bool :=
  match x, y with
  | None, None => ret true
  | Some a, Some b => ret (a =? b)
  | _, _ => panic "nil pointer dereference"
  end.
End Big.

Section ProOrder.
Context `{!StateEnv} {DV W : Type} `{!DataVerifierOps DV, !IRole W, !IDataService W, !IChainState W, !ISettle W}.
Context `{!Codec NonceState, !Codec SeqState, !Codec DataInfo, !Codec Quotation}.

(** ** The state *)

(** The provider's struct [OrderFull]; [active] is never read. *)
Record proOrder := mkProOrder {
  po_localID : Z; po_userID : Z; po_fsID : bytes; po_availTime : Z;
  po_base : option SignedOrder; po_orderTime : Z; po_orderState : OrderState;
  po_seq : option SignedOrderSeq; po_seqTime : Z; po_seqState : OrderSeqState;
  po_nonce : Z; po_seqNum : Z;
  po_dv : option DV; po_di : DataInfo; po_ready : bool; po_pause : bool }.

Record OrderMgr := mkOrderMgr {
  om_localID : Z; om_quo : Quotation; om_di : DataInfo;
  om_users : list Z; om_orders : gmap Z proOrder;
  om_ds : gmap bytes bytes;
  om_restrict : wl;          (** its part of the store is under its own prefix *)
  om_spawned : list Z;       (** the goroutines [go m.createOrder(or)] not yet run *)
  om_env : W }.

(** What a handler holding the entry's lock works on. *)
Record ordCtx := mkOrdCtx { oc_or : proOrder; oc_ds : gmap bytes bytes; oc_env : W }.

Definition set_opi_Size f (p : OrderPayInfo) := mkOrderPayInfo (opi_ID p) (f (opi_Size p)) (opi_ConfirmSize p) (opi_OnChainSize p) (opi_ExpireSize p) (opi_NeedPay p) (opi_Paid p) (opi_Balance p).
Definition set_opi_ConfirmSize f (p : OrderPayInfo) := mkOrderPayInfo (opi_ID p) (opi_Size p) (f (opi_ConfirmSize p)) (opi_OnChainSize p) (opi_ExpireSize p) (opi_NeedPay p) (opi_Paid p) (opi_Balance p).
Definition set_opi_OnChainSize f (p : OrderPayInfo) := mkOrderPayInfo (opi_ID p) (opi_Size p) (opi_ConfirmSize p) (f (opi_OnChainSize p)) (opi_ExpireSize p) (opi_NeedPay p) (opi_Paid p) (opi_Balance p).
Definition set_opi_ExpireSize f (p : OrderPayInfo) := mkOrderPayInfo (opi_ID p) (opi_Size p) (opi_ConfirmSize p) (opi_OnChainSize p) (f (opi_ExpireSize p)) (opi_NeedPay p) (opi_Paid p) (opi_Balance p).
Definition set_opi_NeedPay f (p : OrderPayInfo) := mkOrderPayInfo (opi_ID p) (opi_Size p) (opi_ConfirmSize p) (opi_OnChainSize p) (opi_ExpireSize p) (f (opi_NeedPay p)) (opi_Paid p) (opi_Balance p).
Definition set_di_OrderPayInfo f (d : DataInfo) := mkDataInfo (f (di_OrderPayInfo d)) (di_Received d) (di_ConfirmedNonce d) (di_SubNonce d).
Definition set_di_Received f (d : DataInfo) := mkDataInfo (di_OrderPayInfo d) (f (di_Received d)) (di_ConfirmedNonce d) (di_SubNonce d).
Definition set_di_ConfirmedNonce f (d : DataInfo) := mkDataInfo (di_OrderPayInfo d) (di_Received d) (f (di_ConfirmedNonce d)) (di_SubNonce d).
Definition set_di_SubNonce f (d : DataInfo) := mkDataInfo (di_OrderPayInfo d) (di_Received d) (di_ConfirmedNonce d) (f (di_SubNonce d)).
Definition set_po_fsID f (o : proOrder) := mkProOrder (po_localID o) (po_userID o) (f (po_fsID o)) (po_availTime o) (po_base o) (po_orderTime o) (po_orderState o) (po_seq o) (po_seqTime o) (po_seqState o) (po_nonce o) (po_seqNum o) (po_dv o) (po_di o) (po_ready o) (po_pause o).
Definition set_po_availTime f (o : proOrder) := mkProOrder (po_localID o) (po_userID o) (po_fsID o) (f (po_availTime o)) (po_base o) (po_orderTime o) (po_orderState o) (po_seq o) (po_seqTime o) (po_seqState o) (po_nonce o) (po_seqNum o) (po_dv o) (po_di o) (po_ready o) (po_pause o).
Definition set_po_base f (o : proOrder) := mkProOrder (po_localID o) (po_userID o) (po_fsID o) (po_availTime o) (f (po_base o)) (po_orderTime o) (po_orderState o) (po_seq o) (po_seqTime o) (po_seqState o) (po_nonce o) (po_seqNum o) (po_dv o) (po_di o) (po_ready o) (po_pause o).
Definition set_po_orderTime f (o : proOrder) := mkProOrder (po_localID o) (po_userID o) (po_fsID o) (po_availTime o) (po_base o) (f (po_orderTime o)) (po_orderState o) (po_seq o) (po_seqTime o) (po_seqState o) (po_nonce o) (po_seqNum o) (po_dv o) (po_di o) (po_ready o) (po_pause o).
Definition set_po_orderState f (o : proOrder) := mkProOrder (po_localID o) (po_userID o) (po_fsID o) (po_availTime o) (po_base o) (po_orderTime o) (f (po_orderState o)) (po_seq o) (po_seqTime o) (po_seqState o) (po_nonce o) (po_seqNum o) (po_dv o) (po_di o) (po_ready o) (po_pause o).
Definition set_po_seq f (o : proOrder) := mkProOrder (po_localID o) (po_userID o) (po_fsID o) (po_availTime o) (po_base o) (po_orderTime o) (po_orderState o) (f (po_seq o)) (po_seqTime o) (po_seqState o) (po_nonce o) (po_seqNum o) (po_dv o) (po_di o) (po_ready o) (po_pause o).
Definition set_po_seqTime f (o : proOrder) := mkProOrder (po_localID o) (po_userID o) (po_fsID o) (po_availTime o) (po_base o) (po_orderTime o) (po_orderState o) (po_seq o) (f (po_seqTime o)) (po_seqState o) (po_nonce o) (po_seqNum o) (po_dv o) (po_di o) (po_ready o) (po_pause o).
Definition set_po_seqState f (o : proOrder) := mkProOrder (po_localID o) (po_userID o) (po_fsID o) (po_availTime o) (po_base o) (po_orderTime o) (po_orderState o) (po_seq o) (po_seqTime o) (f (po_seqState o)) (po_nonce o) (po_seqNum o) (po_dv o) (po_di o) (po_ready o) (po_pause o).
Definition set_po_nonce f (o : proOrder) := mkProOrder (po_localID o) (po_userID o) (po_fsID o) (po_availTime o) (po_base o) (po_orderTime o) (po_orderState o) (po_seq o) (po_seqTime o) (po_seqState o) (f (po_nonce o)) (po_seqNum o) (po_dv o) (po_di o) (po_ready o) (po_pause o).
Definition set_po_seqNum f (o : proOrder) := mkProOrder (po_localID o) (po_userID o) (po_fsID o) (po_availTime o) (po_base o) (po_orderTime o) (po_orderState o) (po_seq o) (po_seqTime o) (po_seqState o) (po_nonce o) (f (po_seqNum o)) (po_dv o) (po_di o) (po_ready o) (po_pause o).
Definition set_po_dv f (o : proOrder) := mkProOrder (po_localID o) (po_userID o) (po_fsID o) (po_availTime o) (po_base o) (po_orderTime o) (po_orderState o) (po_seq o) (po_seqTime o) (po_seqState o) (po_nonce o) (po_seqNum o) (f (po_dv o)) (po_di o) (po_ready o) (po_pause o).
Definition set_po_di f (o : proOrder) := mkProOrder (po_localID o) (po_userID o) (po_fsID o) (po_availTime o) (po_base o) (po_orderTime o) (po_orderState o) (po_seq o) (po_seqTime o) (po_seqState o) (po_nonce o) (po_seqNum o) (po_dv o) (f (po_di o)) (po_ready o) (po_pause o).
Definition set_po_ready f (o : proOrder) := mkProOrder (po_localID o) (po_userID o) (po_fsID o) (po_availTime o) (po_base o) (po_orderTime o) (po_orderState o) (po_seq o) (po_seqTime o) (po_seqState o) (po_nonce o) (po_seqNum o) (po_dv o) (po_di o) (f (po_ready o)) (po_pause o).
Definition set_po_pause f (o : proOrder) := mkProOrder (po_localID o) (po_userID o) (po_fsID o) (po_availTime o) (po_base o) (po_orderTime o) (po_orderState o) (po_seq o) (po_seqTime o) (po_seqState o) (po_nonce o) (po_seqNum o) (po_dv o) (po_di o) (po_ready o) (f (po_pause o)).
Definition set_om_di f (s : OrderMgr) := mkOrderMgr (om_localID s) (om_quo s) (f (om_di s)) (om_users s) (om_orders s) (om_ds s) (om_restrict s) (om_spawned s) (om_env s).
Definition set_om_users f (s : OrderMgr) := mkOrderMgr (om_localID s) (om_quo s) (om_di s) (f (om_users s)) (om_orders s) (om_ds s) (om_restrict s) (om_spawned s) (om_env s).
Definition set_om_orders f (s : OrderMgr) := mkOrderMgr (om_localID s) (om_quo s) (om_di s) (om_users s) (f (om_orders s)) (om_ds s) (om_restrict s) (om_spawned s) (om_env s).
Definition set_om_ds f (s : OrderMgr) := mkOrderMgr (om_localID s) (om_quo s) (om_di s) (om_users s) (om_orders s) (f (om_ds s)) (om_restrict s) (om_spawned s) (om_env s).
Definition set_om_restrict f (s : OrderMgr) := mkOrderMgr (om_localID s) (om_quo s) (om_di s) (om_users s) (om_orders s) (om_ds s) (f (om_restrict s)) (om_spawned s) (om_env s).
Definition set_om_spawned f (s : OrderMgr) := mkOrderMgr (om_localID s) (om_quo s) (om_di s) (om_users s) (om_orders s) (om_ds s) (om_restrict s) (f (om_spawned s)) (om_env s).
Definition set_om_env f (s : OrderMgr) := mkOrderMgr (om_localID s) (om_quo s) (om_di s) (om_users s) (om_orders s) (om_ds s) (om_restrict s) (om_spawned s) (f (om_env s)).
Definition set_oc_or f (c : ordCtx) := mkOrdCtx (f (oc_or c)) (oc_ds c) (oc_env c).
Definition set_oc_ds f (c : ordCtx) := mkOrdCtx (oc_or c) (f (oc_ds c)) (oc_env c).
Definition set_oc_env f (c : ordCtx) := mkOrdCtx (oc_or c) (oc_ds c) (f (oc_env c)).

Implicit Types (s : OrderMgr) (c : ordCtx) (o : proOrder) (userID localID nonce : Z) (clock : nat -> Z).

(** Fields of embedded structs, and assignments through the pointers [base] and [seq]. *)
Definition set_di_pay f (d : DataInfo) := set_di_OrderPayInfo f d.
Definition set_so_Size f (b : SignedOrder) := mkSignedOrder (so_OrderBase b) (f (so_Size b)) (so_Price b) (so_Usign b) (so_Psign b).
Definition set_so_Price f (b : SignedOrder) := mkSignedOrder (so_OrderBase b) (so_Size b) (f (so_Price b)) (so_Usign b) (so_Psign b).
Definition set_so_Psign f (b : SignedOrder) := mkSignedOrder (so_OrderBase b) (so_Size b) (so_Price b) (so_Usign b) (f (so_Psign b)).
Definition set_sos_OrderSeq f (q : SignedOrderSeq) := mkSignedOrderSeq (f (sos_OrderSeq q)) (sos_UserDataSig q) (sos_ProDataSig q) (sos_UserSig q) (sos_ProSig q).
Definition set_os_amounts (size : Z) (price : option Z) (q : OrderSeq) := mkOrderSeq (os_UserID q) (os_ProID q) (os_Nonce q) (os_SeqNum q) size price (os_Segments q).
Definition set_os_Segments f (q : OrderSeq) := mkOrderSeq (os_UserID q) (os_ProID q) (os_Nonce q) (os_SeqNum q) (os_Size q) (os_Price q) (f (os_Segments q)).

Definition on_env {A} (m : M W A) : M ordCtx A := zoom oc_env (fun w => set_oc_env (fun _ => w)) m.
Definition on_or (f : proOrder -> proOrder) : M ordCtx unit := modify (set_oc_or f).
Definition the_or : M ordCtx proOrder := gets oc_or.
Definition the_base : M ordCtx SignedOrder := let! o := the_or in deref (po_base o).
Definition the_seq : M ordCtx SignedOrderSeq := let! o := the_or in deref (po_seq o).
Definition on_base (f : SignedOrder -> SignedOrder) : M ordCtx unit := on_or (set_po_base (fmap f)).
Definition on_seq (f : SignedOrderSeq -> SignedOrderSeq) : M ordCtx unit := on_or (set_po_seq (fmap f)).
Definition ds_Put (key value : bytes) : M ordCtx unit := modify (set_oc_ds <[key := value]>).
(** val, err := ds.Get(key); x.Deserialize(val), both errors returned *)
Definition ds_decode {A} `{!Codec A} (key : bytes) : M ordCtx A :=
  let! ds := gets oc_ds in
  let! val := of_option (ds !! key) "not found" in
  of_option (decode val) "deserialize".
Definition dv_reset : M ordCtx unit :=
  let! o := the_or in
  let! dv := deref (po_dv o) in
  on_or (set_po_dv (fun _ => Some (dv_Reset dv))).
Definition dv_add (index segment tag : bytes) : M ordCtx unit :=
  let! o := the_or in
  let! dv := deref (po_dv o) in
  let r := dv_Add index segment tag dv in
  do! on_or (set_po_dv (fun _ => Some r.2));
  of_outcome r.1.

Definition with_order {A} userID (m : M ordCtx A) : M OrderMgr A := fun s =>
  match om_orders s !! userID with
  | None => (Panic "nil pointer dereference", s)
  | Some o =>
      let '(r, c) := m (mkOrdCtx o (om_ds s) (om_env s)) in
      (r, set_om_env (fun _ => oc_env c) (set_om_ds (fun _ => oc_ds c) (set_om_orders <[userID := oc_or c]> s)))
  end.
Definition mgr_env {A} (m : M W A) : M OrderMgr A := zoom om_env (fun w => set_om_env (fun _ => w)) m.

(** ** Keys *)

Definition PayInfoKey localID userID := NewKey [KMetaType pb.MetaType_OrderPayInfoKey; KUint64 localID; KUint64 userID].
Definition TotalInfoKey localID := NewKey [KMetaType pb.MetaType_OrderPayInfoKey; KUint64 localID].
Definition ProNonceKey localID userID := NewKey [KMetaType pb.MetaType_OrderNonceKey; KUint64 localID; KUint64 userID].
Definition ProBaseKey localID userID nonce :=
  NewKey [KMetaType pb.MetaType_OrderBaseKey; KUint64 localID; KUint64 userID; KUint64 nonce].
Definition ProSeqNumKey localID userID nonce :=
  NewKey [KMetaType pb.MetaType_OrderSeqNumKey; KUint64 localID; KUint64 userID; KUint64 nonce].
Definition ProSeqKey localID userID nonce (seqNum : Z) :=
  NewKey [KMetaType pb.MetaType_OrderSeqKey; KUint64 localID; KUint64 userID; KUint64 nonce; KUint32 seqNum].

(** ** Saving *)

Definition saveOrderBase : M ordCtx unit :=
  let! o := the_or in
  let! base := the_base in
  let! data := of_option (marshal base) "serialize" in
  ds_Put (ProBaseKey (po_localID o) (po_userID o) (ob_Nonce (so_OrderBase base))) data.

Definition pro_saveOrderState : M ordCtx unit :=
  let! o := the_or in
  let! base := the_base in
  let! val := of_option (marshal (mkNonceState (ob_Nonce (so_OrderBase base)) (po_orderTime o) (po_orderState o))) "serialize" in
  ds_Put (ProNonceKey (po_localID o) (po_userID o)) val.

Definition saveOrderSeq : M ordCtx unit :=
  let! o := the_or in
  let! base := the_base in
  let! seq := the_seq in
  let! data := of_option (marshal seq) "serialize" in
  ds_Put (ProSeqKey (po_localID o) (po_userID o) (ob_Nonce (so_OrderBase base)) (os_SeqNum (sos_OrderSeq seq))) data.

Definition saveSeqState : M ordCtx unit :=
  let! o := the_or in
  let! base := the_base in
  let! seq := the_seq in
  let! val := of_option (marshal (mkSeqState (os_SeqNum (sos_OrderSeq seq)) (po_seqTime o) (po_seqState o))) "serialize" in
  ds_Put (ProSeqNumKey (po_localID o) (po_userID o) (ob_Nonce (so_OrderBase base))) val.

(** val, _ := or.di.Serialize(); m.ds.Put(key, val): a failed encoding stores nothing much *)
Definition savePayInfo localID : M ordCtx unit :=
  let! o := the_or in
  ds_Put (PayInfoKey localID (po_userID o)) (default [] (marshal (po_di o))).

(** ** getOrder *)

(** The verifier of the user's public key, as [getOrder] and [createOrder] set it up. *)
Definition set_verifier (pkData : bytes) : M ordCtx unit :=
  let! pk := of_option (pdp_DeserializePublicKey pkData) "deserialize" in
  do! on_or (set_po_dv (fun _ => NewDataVerifier pk));
  let! _ := of_option (NewDataVerifier pk) "data verifier" in
  do! on_or (set_po_fsID (fun _ => vk_Hash (pk_VerifyKey pk)));
  on_or (set_po_ready (fun _ => true)).

Definition createOrder_run : M ordCtx unit :=
  let! o := the_or in
  let! pkData := on_env (StateGetPDPPublicKey (po_userID o)) in
  set_verifier pkData.

(** [if of.di.Size < of.di.ConfirmSize]; the test on Received that follows it in
    the source assigns what is already there. *)
Definition raise_size (d : DataInfo) : DataInfo :=
  let p := di_OrderPayInfo d in
  if opi_Size p <? opi_ConfirmSize p then set_di_pay (set_opi_Size (fun _ => opi_ConfirmSize p)) d else d.

Definition load_info localID userID : M ordCtx unit :=
  let! ds := gets oc_ds in
  do! match ds !! PayInfoKey localID userID with
      | Some val => on_or (set_po_di (fun d => (unmarshal d val).1))
      | None => ret tt
      end;
  on_or (set_po_di raise_size).

(** An error stands for the source's [return op]. *)
Definition getOrder_load localID userID : M ordCtx unit :=
  let! pkData := try_err (on_env (StateGetPDPPublicKey userID)) in
  do! match pkData with Some d => set_verifier d | None => ret tt end;
  do! load_info localID userID;
  let! dns := on_env (StateGetOrderNonce userID localID MaxUint64) in
  let! ds := gets oc_ds in
  let! ns := match ds !! ProNonceKey localID userID with
             | Some val => of_option (decode val) "deserialize"
             | None => ret (mkNonceState (ns_Nonce dns) 0 Order_Init)
             end in
  let! ob := ds_decode (A := SignedOrder) (ProBaseKey localID userID (nst_Nonce ns)) in
  do! on_or (fun o => set_po_nonce (fun _ => u64 (nst_Nonce ns + 1)) (set_po_orderTime (fun _ => nst_Time ns)
               (set_po_orderState (fun _ => nst_State ns) (set_po_base (fun _ => Some ob) o))));
  let! ss := match ds !! ProSeqNumKey localID userID (nst_Nonce ns) with
             | Some val => of_option (decode val) "deserialize"
             | None => ret (mkSeqState (ns_SeqNum dns) 0 OrderSeq_Init)
             end in
  let! os := ds_decode (A := SignedOrderSeq) (ProSeqKey localID userID (nst_Nonce ns) (sst_Number ss)) in
  do! on_or (fun o => set_po_seqNum (fun _ => u32 (sst_Number ss + 1)) (set_po_seqState (fun _ => sst_State ss)
               (set_po_seqTime (fun _ => sst_Time ss) (set_po_seq (fun _ => Some os) o))));
  if (0 <? sst_Number ss) && (so_Size ob =? 0) then
    let! os := ds_decode (A := SignedOrderSeq) (ProSeqKey localID userID (nst_Nonce ns) (sst_Number ss - 1)) in
    do! on_base (set_so_Size (fun _ => os_Size (sos_OrderSeq os)));
    let! price := big_Set (so_Price ob) (os_Price (sos_OrderSeq os)) in
    on_base (set_so_Price (fun _ => price))
  else ret tt.

Definition DataInfo_user userID : DataInfo :=
  mkDataInfo (mkOrderPayInfo userID 0 0 0 0 (Some 0) (Some 0) None) 0 0 0.
Definition newOrder localID userID : proOrder :=
  mkProOrder localID userID [] 0 None 0 Order_Init None 0 OrderSeq_Init 0 0 None (DataInfo_user userID) false false.

Definition getOrder userID : M OrderMgr unit :=
  let! s := gets (fun s => s) in
  match om_orders s !! userID with
  | Some _ => ret tt
  | None =>
      do! modify (set_om_users (fun l => l ++ [userID]));
      do! modify (set_om_orders <[userID := newOrder (om_localID s) userID]>);
      let! _ := try_err (with_order userID (getOrder_load (om_localID s) userID)) in
      ret tt
  end.

(** The goroutine started for a user. *)
Definition createOrder_go : M OrderMgr unit :=
  let! s := gets (fun s => s) in
  match om_spawned s with
  | [] => ret tt
  | userID :: rest =>
      do! modify (set_om_spawned (fun _ => rest));
      let! _ := try_err (with_order userID createOrder_run) in
      ret tt
  end.

(** if !or.ready { return err }, for the handlers that only refuse *)
Definition check_ready userID : M OrderMgr unit :=
  with_order userID (let! o := the_or in check (po_ready o) "order service not ready").

(** ** HandleData *)

Definition one_segment (sid : bytes) : AggSegs :=
  mkAggSegs (GetBucketID sid) (GetStripeID sid) 1 (GetChunkID sid).
Definition segs_have (segs : list AggSegs) (sid : bytes) : bool :=
  AggSegsQueue_Has segs (GetBucketID sid) (GetStripeID sid) (GetChunkID sid).

(** or.seq.Price.Add(or.seq.Price, or.base.SegPrice); or.seq.Size += DefaultSegSize *)
Definition add_segment_price : M ordCtx unit :=
  let! base := the_base in
  let! seq := the_seq in
  let! price := big_Add (os_Price (sos_OrderSeq seq)) (ob_SegPrice (so_OrderBase base)) in
  on_seq (set_sos_OrderSeq (fun q => set_os_amounts (u64 (os_Size q + DefaultSegSize)) price q)).

Definition HandleData_body clock localID (seg : BaseSegment) : M ordCtx unit :=
  let! o := the_or in
  do! check (po_ready o) "order service not ready";
  let! base := of_option (po_base o) "no order base" in
  let! seq := of_option (po_seq o) "no order seq" in
  do! check (negb (u64 (os_Size (sos_OrderSeq seq) - so_Size base) >? seqMaxSize)) "sub size is larger";
  do! on_or (set_po_availTime (fun _ => clock 0%nat));
  do! check (bool_decide (po_orderState o = Order_Ack) && bool_decide (po_seqState o = OrderSeq_Ack)) "fail handle add data";
  let sid := bs_segID seg in
  do! check (negb (segs_have (os_Segments (sos_OrderSeq seq)) sid)) "already has seg";
  let! has := gets (fun c => HasSegment sid (oc_env c)) in
  do! check (negb has) "already has seg in local";
  let! da := of_option (BaseSegment_Content seg) "content wrong" in
  let! tags := of_option (BaseSegment_Tags seg) "tag wrong" in
  let! tag := deref (head tags) in
  do! dv_add sid da tag;
  do! on_env (PutSegmentToLocal seg);
  do! on_seq (set_sos_OrderSeq (set_os_Segments (fun q => Merge (Push q (one_segment sid)))));
  do! add_segment_price;
  let! _ := try_err saveOrderSeq in
  do! on_or (set_po_di (set_di_Received (fun x => u64 (x + DefaultSegSize))));
  savePayInfo localID.

Definition HandleData clock userID (seg : BaseSegment) : M OrderMgr unit :=
  let! s := gets (fun s => s) in
  do! check (wl_Has userID (om_restrict s)) "disable service for user";
  do! getOrder userID;
  with_order userID (HandleData_body clock (om_localID s) seg).

Definition HandleQuotation userID : M OrderMgr bytes :=
  let! s := gets (fun s => s) in
  do! check (wl_Has userID (om_restrict s)) "disable service for user";
  of_option (marshal (om_quo s)) "serialize".

(** ** HandleCreateOrder *)

(** The checks on the order itself; [nt] is the time. *)
Definition createOrder_check (quo : Quotation) (nt : Z) (ob : SignedOrder) : outcome unit :=
  let b := so_OrderBase ob in
  if i64 (ob_End b - ob_Start b) <? OrderMin then Err "order duration is short"
  else if negb (so_Size ob =? 0) then Err "order size should be zero"
  else match so_Price ob with
  | None => Panic "nil pointer dereference"
  | Some price =>
      if negb (price =? 0) then Err "order price should be zero"
      else match CheckOrder b with
      | Err e => Err e
      | Panic w => Panic w
      | Ok _ =>
          if negb (ob_TokenIndex b =? qu_TokenIndex quo) then Err "seg token index is wrong"
          else match ob_SegPrice b, qu_SegPrice quo with
          | Some p, Some q =>
              if p <? q then Err "seg price is lower than expected"
              else if (ob_Start b <? nt) && (i64 (nt - ob_Start b) >? types_Hour) then Err "order start is far"
              else if (ob_Start b >? nt) && (i64 (ob_Start b - nt) >? types_Hour) then Err "order start is far"
              else Ok tt
          | _, _ => Panic "nil pointer dereference"
          end
      end
  end.

(** The order becomes the current one: no sequence yet, a clean verifier, the
    provider's signature, and the two entries of the store. *)
Definition accept_order (t : Z) localID (ob : SignedOrder) : M ordCtx bytes :=
  do! on_or (fun o => set_po_seqState (fun _ => OrderSeq_Init) (set_po_seqNum (fun _ => 0)
               (set_po_nonce (fun _ => u64 (ob_Nonce (so_OrderBase ob) + 1)) (set_po_orderTime (fun _ => t)
               (set_po_orderState (fun _ => Order_Ack) (set_po_base (fun _ => Some ob) o))))));
  do! dv_reset;
  let! base := the_base in
  let! h := deref (SignedOrder_Hash base) in
  let! psig := on_env (RoleSign localID h SigSecp256k1) in
  do! on_base (set_so_Psign (fun _ => psig));
  do! saveOrderBase;
  do! pro_saveOrderState;
  let! base := the_base in
  of_option (marshal base) "serialize".

(** Closing the previous order. *)
Definition close_previous (t : Z) : M ordCtx unit :=
  let! o := the_or in
  match po_base o with
  | Some base =>
      if bool_decide (po_orderState o = Order_Ack) then
        do! on_or (fun o => set_po_orderTime (fun _ => t) (set_po_orderState (fun _ => Order_Done) o));
        do! pro_saveOrderState;
        do! check (negb (so_Size base =? 0)) "prevous order is empty";
        on_or (fun o => set_po_orderState (fun _ => Order_Init) (set_po_base (fun _ => None) o))
      else ret tt
  | None => ret tt
  end.

(** if or.nonce == ob.Nonce { ... }: the answer, unless the order is in no state to accept it. *)
Definition next_order clock localID (ob : SignedOrder) : M ordCtx (option bytes) :=
  let! o := the_or in
  if po_nonce o =? ob_Nonce (so_OrderBase ob) then
    do! close_previous (clock 2%nat);
    do! on_or (fun o => if bool_decide (po_orderState o = Order_Done)
                        then set_po_orderState (fun _ => Order_Init) o else o);
    let! o := the_or in
    if bool_decide (po_orderState o = Order_Init)
    then let! data := accept_order (clock 3%nat) localID ob in ret (Some data)
    else ret None
  else ret None.

(** A repeated request is answered again; another order replaces an empty one. *)
Definition same_order clock localID (ob : SignedOrder) : M ordCtx bytes :=
  let! o := the_or in
  match po_base o with
  | Some base =>
      if (ob_Nonce (so_OrderBase base) =? ob_Nonce (so_OrderBase ob)) && bool_decide (po_orderState o = Order_Ack) then
        let! h1 := deref (SignedOrder_Hash ob) in
        let! h2 := deref (SignedOrder_Hash base) in
        if bool_decide (h1 = h2) then of_option (marshal base) "serialize"
        else if (so_Size base =? 0) && match po_seq o with None => true | Some q => os_Size (sos_OrderSeq q) =? 0 end
        then accept_order (clock 4%nat) localID ob
        else throw "fail create order"
      else throw "fail create order"
  | None => throw "fail create order"
  end.

Definition HandleCreateOrder_body clock localID (ob : SignedOrder) : M ordCtx bytes :=
  let! o := the_or in
  do! check (negb (po_pause o)) "order service pause";
  do! on_or (set_po_availTime (fun _ => clock 1%nat));
  let! data := next_order clock localID ob in
  match data with
  | Some data => ret data
  | None => same_order clock localID ob
  end.

Definition HandleCreateOrder clock (b : bytes) : M OrderMgr bytes :=
  let! ob := of_option (decode (A := SignedOrder) b) "deserialize" in
  let userID := ob_UserID (so_OrderBase ob) in
  let! s := gets (fun s => s) in
  do! of_outcome (createOrder_check (om_quo s) (clock 0%nat) ob);
  do! getOrder userID;
  let! o := with_order userID the_or in
  if negb (po_ready o) then
    do! modify (set_om_spawned (fun l => l ++ [userID]));
    throw "order service not ready"
  else with_order userID (HandleCreateOrder_body clock (om_localID s) ob).

(** ** HandleCreateSeq *)

Definition HandleCreateSeq_body clock (os : SignedOrderSeq) : M ordCtx bytes :=
  let so := sos_OrderSeq os in
  do! on_or (set_po_availTime (fun _ => clock 0%nat));
  let! o := the_or in
  let! base := of_option (po_base o) "fail create seq" in
  do! check (bool_decide (po_orderState o = Order_Ack)) "fail create seq";
  do! check (ob_Nonce (so_OrderBase base) =? os_Nonce so) "fail create seq";
  if (po_seqNum o =? os_SeqNum so)
     && (bool_decide (po_seqState o = OrderSeq_Init) || bool_decide (po_seqState o = OrderSeq_Done)) then
    let! same := big_eq (os_Price so) (so_Price base) in
    do! check (same && (os_Size so =? so_Size base)) "wrong size";
    do! check (negb (so_Size base >? orderMaxSize)) "large size";
    do! on_or (fun o => set_po_seqNum (fun n => u32 (n + 1)) (set_po_seqTime (fun _ => clock 1%nat)
                 (set_po_seqState (fun _ => OrderSeq_Ack) (set_po_seq (fun _ => Some os) o))));
    do! saveOrderSeq;
    do! saveSeqState;
    let! seq := the_seq in
    of_option (marshal seq) "serialize"
  else
    match po_seq o with
    | Some seq =>
        if (os_SeqNum (sos_OrderSeq seq) =? os_SeqNum so) && bool_decide (po_seqState o = OrderSeq_Ack)
        then of_option (marshal seq) "serialize"
        else throw "fail create seq"
    | None => throw "fail create seq"
    end.

Definition HandleCreateSeq clock userID (b : bytes) : M OrderMgr bytes :=
  let! os := of_option (decode (A := SignedOrderSeq) b) "deserialize" in
  do! getOrder userID;
  do! check_ready userID;
  with_order userID (HandleCreateSeq_body clock os).

(** ** HandleFinishSeq *)

(** One segment of the list the user sent; the [continue]s skip it. *)
Definition refetch_one (sid : bytes) : M ordCtx unit :=
  let! segmt := on_env (GetSegmentFromLocal sid) in
  match BaseSegment_Content segmt, BaseSegment_Tags segmt with
  | Some data, Some tags =>
      let! tag := deref (head tags) in
      let! r := try_err (dv_add (bs_segID segmt) data tag) in
      match r with Some _ => add_segment_price | None => ret tt end
  | _, _ => ret tt
  end.

(** sid, as the two nested loops leave it, is the identifier of the segment. *)
Definition refetch (fsID : bytes) (segs : list AggSegs) : M ordCtx unit :=
  let! sid := of_option (NewSegmentID fsID 0 0 0) "segment id" in
  do! dv_reset;
  for_each segs (fun seg =>
    for_each (u64_range_list (as_Start seg) (run_end seg)) (fun j =>
      refetch_one (SetStripeID j (SetChunkID (as_ChunkID seg) (SetBucketID (as_BucketID seg) sid))))).

(** The hash both sides agree on: the local sequence is taken from the user's
    list of segments when the lists differ. *)
Definition finish_hash (os : SignedOrderSeq) : M ordCtx bytes :=
  do! on_seq (set_sos_OrderSeq (set_os_Segments Merge));
  let! seq := the_seq in
  let rHash := SignedOrderSeq_Hash os in
  let lHash := SignedOrderSeq_Hash seq in
  if MsgID_Equal rHash lHash || AggSegsQueue_Equal (os_Segments (sos_OrderSeq seq)) (os_Segments (sos_OrderSeq os))
  then ret lHash
  else
    let! base := the_base in
    let! price := big_Set (os_Price (sos_OrderSeq seq)) (so_Price base) in
    do! on_seq (set_sos_OrderSeq (set_os_amounts (so_Size base) price));
    let! o := the_or in
    do! refetch (po_fsID o) (os_Segments (sos_OrderSeq os));
    do! on_seq (set_sos_OrderSeq (set_os_Segments (fun _ => os_Segments (sos_OrderSeq os))));
    let! seq := the_seq in
    let lHash := SignedOrderSeq_Hash seq in
    do! check (MsgID_Equal rHash lHash) "segments are not equal";
    ret lHash.

Definition role_verify userID (h : bytes) (sig : Signature) (e : string) : M ordCtx unit :=
  let! ok := on_env (RoleVerify userID h sig) in check ok e.

(** The user's two signatures are checked and the provider's two are made; the
    order's size and price are advanced before the second check. *)
Definition finish_sign localID userID (lHash : bytes) (os : SignedOrderSeq) : M ordCtx (Signature * Signature) :=
  do! role_verify userID lHash (sos_UserDataSig os) "order seq sign is wrong";
  let! ssig := on_env (RoleSign localID lHash SigSecp256k1) in
  let! seq := the_seq in
  let! base := the_base in
  do! on_base (set_so_Size (fun _ => os_Size (sos_OrderSeq seq)));
  let! price := big_Set (so_Price base) (os_Price (sos_OrderSeq seq)) in
  do! on_base (set_so_Price (fun _ => price));
  let! base := the_base in
  let! sHash := deref (SignedOrder_Hash base) in
  do! role_verify userID sHash (sos_UserSig os) "order sign is wrong";
  let! osig := on_env (RoleSign localID sHash SigSecp256k1) in
  ret (ssig, osig).

Definition finish_ack clock localID userID (os : SignedOrderSeq) : M ordCtx bytes :=
  let! lHash := finish_hash os in
  let! o := the_or in
  let! dv := deref (po_dv o) in
  let! ok := of_outcome (dv_Result dv) in
  do! check ok "data verify is wrong";
  let! sigs := finish_sign localID userID lHash os in
  do! on_seq (fun q => mkSignedOrderSeq (sos_OrderSeq q) (sos_UserDataSig os) sigs.1 (sos_UserSig os) sigs.2);
  let! seq := the_seq in
  do! on_or (fun o => set_po_seqTime (fun _ => clock 1%nat) (set_po_seqState (fun _ => OrderSeq_Done) o));
  do! on_or (set_po_di (set_di_pay (set_opi_Size (fun x =>
        u64 (x + u64 (u64 (Size (os_Segments (sos_OrderSeq seq))) * DefaultSegSize))))));
  do! saveOrderBase;
  do! saveOrderSeq;
  do! saveSeqState;
  do! savePayInfo localID;
  let! seq := the_seq in
  of_option (marshal seq) "serialize".

Definition HandleFinishSeq_body clock localID userID (os : SignedOrderSeq) : M ordCtx bytes :=
  let so := sos_OrderSeq os in
  do! on_or (set_po_availTime (fun _ => clock 0%nat));
  let! o := the_or in
  (* the error message dereferences or.base, which may be what is nil *)
  let! base := deref (po_base o) in
  do! check (bool_decide (po_orderState o = Order_Ack)) "fail finish seq";
  do! check (ob_Nonce (so_OrderBase base) =? os_Nonce so) "fail finish seq";
  match po_seq o with
  | Some seq =>
      if os_SeqNum (sos_OrderSeq seq) =? os_SeqNum so then
        if bool_decide (po_seqState o = OrderSeq_Ack) then finish_ack clock localID userID os
        else if bool_decide (po_seqState o = OrderSeq_Done) then
          do! check (MsgID_Equal (SignedOrderSeq_Hash os) (SignedOrderSeq_Hash seq)) "done segments are not equal";
          of_option (marshal seq) "serialize"
        else throw "fail finish seq"
      else throw "fail finish seq"
  | None => throw "fail finish seq"
  end.

Definition HandleFinishSeq clock userID (b : bytes) : M OrderMgr bytes :=
  let! s := gets (fun s => s) in
  let! os := of_option (decode (A := SignedOrderSeq) b) "deserialize" in
  do! getOrder userID;
  do! check_ready userID;
  with_order userID (HandleFinishSeq_body clock (om_localID s) userID os).

(** ** HandleFixSeq *)

Definition mgr_get {A} `{!Codec A} (key : bytes) : M OrderMgr A :=
  let! s := gets (fun s => s) in
  let! val := of_option (om_ds s !! key) "not found" in
  of_option (decode val) "deserialize".
Definition mgr_put (key value : bytes) : M OrderMgr unit := modify (set_om_ds <[key := value]>).

(** The segments of the stored sequence the user's list does not hold, each
    once, and their number. *)
Definition fix_one (remote : list AggSegs) (acc : Z * list AggSegs) (sid : bytes) : Z * list AggSegs :=
  if segs_have acc.2 sid then acc
  else if segs_have remote sid then acc
  else (acc.1 + 1, Merge (Push acc.2 (one_segment sid))).
Definition fix_segments (sid : bytes) (stored remote : list AggSegs) : Z * list AggSegs :=
  foldl (fun acc seg =>
    foldl (fun acc j =>
      fix_one remote acc (SetStripeID j (SetChunkID (as_ChunkID seg) (SetBucketID (as_BucketID seg) sid))))
      acc (u64_range_list (as_Start seg) (run_end seg))) (0, []) stored.

(** Size and price the fixed sequence starts from: those after the previous one. *)
Definition fix_previous localID userID (so : OrderSeq) : M OrderMgr (Z * option Z) :=
  if 0 <? os_SeqNum so then
    let! pr := mgr_get (A := SignedOrderSeq) (ProSeqKey localID userID (os_Nonce so) (os_SeqNum so - 1)) in
    let! price := big_Set (Some 0) (os_Price (sos_OrderSeq pr)) in
    ret (os_Size (sos_OrderSeq pr), price)
  else ret (0, Some 0).

(** ok, err := m.ir.RoleVerify(...); if err != nil || !ok *)
Definition fix_verify userID (h : bytes) (sig : Signature) (e : string) : M OrderMgr unit :=
  let! ok := try_err (mgr_env (RoleVerify userID h sig)) in
  check (default false ok) e.

Definition HandleFixSeq userID (b : bytes) : M OrderMgr bytes :=
  let! os := of_option (decode (A := SignedOrderSeq) b) "deserialize" in
  let so := sos_OrderSeq os in
  do! check (os_UserID so =? userID) "wrong user";
  let! s := gets (fun s => s) in
  let localID := om_localID s in
  let! ob := mgr_get (A := SignedOrder) (ProBaseKey localID userID (os_Nonce so)) in
  let! sos := mgr_get (A := SignedOrderSeq) (ProSeqKey localID userID (os_Nonce so) (os_SeqNum so)) in
  do! check (Signature_Equal (sos_ProDataSig os) (sos_ProDataSig sos)) "data sig not equal";
  do! check (Signature_Equal (sos_ProSig os) (sos_ProSig sos)) "sig not equal";
  let sso := sos_OrderSeq sos in
  do! getOrder (os_UserID sso);
  let! o := with_order (os_UserID sso) the_or in
  let! sid := of_option (NewSegmentID (po_fsID o) 0 0 0) "invalid user fsID" in
  let fixed := fix_segments sid (os_Segments sso) (os_Segments so) in
  let! previous := fix_previous localID userID so in
  let! segPrice := deref (ob_SegPrice (so_OrderBase ob)) in
  let! price := big_Add previous.2 (Some (segPrice * i64 fixed.1)) in
  let nseq := mkOrderSeq (os_UserID sso) (os_ProID sso) (os_Nonce sso) (os_SeqNum sso)
                (u64 (previous.1 + u64 (u64 fixed.1 * DefaultSegSize))) price fixed.2 in
  let! obPrice := big_Set (so_Price ob) price in
  let ob := set_so_Price (fun _ => obPrice) (set_so_Size (fun _ => os_Size nseq) ob) in
  let unsigned := mkSignature 0 [] in
  let dHash := SignedOrderSeq_Hash (mkSignedOrderSeq nseq unsigned unsigned unsigned unsigned) in
  do! fix_verify (os_UserID so) dHash (sos_UserDataSig os) "invalid user data sign";
  let! oHash := deref (SignedOrder_Hash ob) in
  do! fix_verify (os_UserID so) oHash (sos_UserSig os) "invalid user sign";
  let! ssig := mgr_env (RoleSign localID dHash SigSecp256k1) in
  let! osig := mgr_env (RoleSign localID oHash SigSecp256k1) in
  let! data := of_option (marshal (mkSignedOrderSeq nseq unsigned ssig unsigned osig)) "serialize" in
  do! mgr_put (ProSeqKey localID userID (os_Nonce so) (os_SeqNum so)) data;
  let! data := of_option (marshal ob) "serialize" in
  do! mgr_put (ProBaseKey localID userID (os_Nonce so)) data;
  of_option (marshal (mkSignedOrderSeq so (sos_UserDataSig os) ssig (sos_UserSig os) osig)) "serialize".

(** ** check: following the chains *)

(** The orders the data chain has closed since the last time; a failed read
    leaves the loop.  Each turn raises [ConfirmedNonce] by one, so the distance to
    [nonce] is fuel enough. *)
Fixpoint check_confirm (fuel : nat) localID userID (nonce : Z) : M ordCtx unit :=
  match fuel with
  | O => ret tt
  | S fuel =>
      let! o := the_or in
      let n := di_ConfirmedNonce (po_di o) in
      if n <? nonce then
        let! ofull := try_err (on_env (StateGetOrder userID localID n)) in
        match ofull with
        | None => ret tt
        | Some ofull =>
            let so := of_SignedOrder ofull in
            let b := so_OrderBase so in
            let! price := deref (so_Price so) in
            let pay := i64 (ob_End b - ob_Start b) * price in
            do! on_or (set_po_di (set_di_pay (set_opi_ConfirmSize (fun x => u64 (x + so_Size so)))));
            let! need := big_Add (opi_NeedPay (di_OrderPayInfo (po_di o))) (Some pay) in
            do! on_or (set_po_di (set_di_pay (set_opi_NeedPay (fun _ => need))));
            do! on_or (set_po_di (set_di_ConfirmedNonce (fun x => u64 (x + 1))));
            check_confirm fuel localID userID nonce
        end
      else ret tt
  end.

(** The orders that have expired on the settlement chain. *)
Fixpoint check_expire (fuel : nat) localID userID (subNonce : Z) : M ordCtx unit :=
  match fuel with
  | O => ret tt
  | S fuel =>
      let! o := the_or in
      let n := di_SubNonce (po_di o) in
      if n <? subNonce then
        let! ofull := try_err (on_env (StateGetOrder userID localID n)) in
        match ofull with
        | None => ret tt
        | Some ofull =>
            do! on_or (set_po_di (set_di_pay (set_opi_ExpireSize (fun x => u64 (x + so_Size (of_SignedOrder ofull))))));
            do! on_or (set_po_di (set_di_SubNonce (fun x => u64 (x + 1))));
            check_expire fuel localID userID subNonce
        end
      else ret tt
  end.

(** One user: the entry's figures, or nothing where the source [continue]s. *)
Definition check_user localID userID : M ordCtx (option OrderPayInfo) :=
  let! o := the_or in
  if negb (po_ready o) then ret None else
  let! ns := try_err (on_env (StateGetOrderNonce userID localID MaxUint64)) in
  match ns with
  | None => ret None
  | Some ns =>
      do! check_confirm (Z.to_nat (ns_Nonce ns - di_ConfirmedNonce (po_di o))) localID userID (ns_Nonce ns);
      do! on_or (set_po_di raise_size);
      let! oi := try_err (on_env (SettleGetStoreInfo userID localID)) in
      match oi with
      | None => do! savePayInfo localID; ret None
      | Some oi =>
          do! check_expire (Z.to_nat (si_SubNonce oi - di_SubNonce (po_di o))) localID userID (si_SubNonce oi);
          do! on_or (set_po_di (set_di_pay (set_opi_OnChainSize (fun _ => si_Size oi))));
          let! o := the_or in
          let! _ := deref (opi_NeedPay (di_OrderPayInfo (po_di o))) in
          do! savePayInfo localID;
          let behind := (u64 (ns_Nonce ns + 1) <? po_nonce o) || (u64 (si_Nonce oi + 2) <? po_nonce o) in
          do! on_or (set_po_pause (fun _ => behind));
          ret (Some (di_OrderPayInfo (po_di o)))
      end
  end.

(** The totals over the users that were read. *)
Definition add_totals (t p : OrderPayInfo) : option OrderPayInfo :=
  match opi_NeedPay t, opi_NeedPay p with
  | Some n, Some m =>
      Some (mkOrderPayInfo (opi_ID t) (u64 (opi_Size t + opi_Size p)) (u64 (opi_ConfirmSize t + opi_ConfirmSize p))
              (u64 (opi_OnChainSize t + opi_OnChainSize p)) (u64 (opi_ExpireSize t + opi_ExpireSize p))
              (Some (n + m)) (opi_Paid t) (opi_Balance t))
  | _, _ => None
  end.

Definition check_orders : M OrderMgr unit :=
  let! s := gets (fun s => s) in
  let! t := for_fold (om_users s) (mkOrderPayInfo 0 0 0 0 0 (Some 0) None None) (fun t userID =>
    let! p := with_order userID (check_user (om_localID s) userID) in
    match p with None => ret t | Some p => deref (add_totals t p) end) in
  let! s := gets (fun s => s) in
  let! need := big_Set (opi_NeedPay (di_OrderPayInfo (om_di s))) (opi_NeedPay t) in
  do! modify (set_om_di (fun d => set_di_Received (fun _ => opi_Size t) (set_di_pay (fun p =>
        mkOrderPayInfo (opi_ID p) (opi_Size t) (opi_ConfirmSize t) (opi_OnChainSize t) (opi_ExpireSize t)
          need (opi_Paid p) (opi_Balance p)) d)));
  let! s := gets (fun s => s) in
  mgr_put (TotalInfoKey (om_localID s)) (default [] (marshal (om_di s))).

(** ** Starting *)

Definition NewOrderMgr localID (price : Z) (ds : gmap bytes bytes) (restrict : wl) (env : W) : OrderMgr :=
  mkOrderMgr localID (mkQuotation localID 0 (Some price) (Some DefaultPiecePrice))
    (mkDataInfo (mkOrderPayInfo 0 0 0 0 0 (Some 0) (Some 0) (Some 0)) 0 0 0)
    [] ∅ ds restrict [] env.

Definition OrderMgr_Start : M OrderMgr unit :=
  let! s := gets (fun s => s) in
  do! match om_ds s !! TotalInfoKey (om_localID s) with
      | Some val => modify (set_om_di (fun d => (unmarshal d val).1))
      | None => ret tt
      end;
  let! users := try_err (mgr_env (StateGetUsersAt (om_localID s))) in
  match users with
  | Some users => for_each users getOrder
  | None => ret tt
  end.
End ProOrder.
