(* ===== verification/ProOrderProps.v ===== *)
(** * ProOrderProps: what the provider signs

    Whatever requests arrive, in whatever order and however they fail, the price
    of the order a provider has open is that of its segments, and what it signs
    when a sequence ends is what the data chain accepts for that many segments. *)

From S2P Require Import Prelude GoMonad Codec Keys Segments SegmentID Types Tx Fr StateTypes State Orders HotStuff Restrict ProOrder.

Section ProOrderProps.
Context `{!StateEnv} {DV W : Type} `{!DataVerifierOps DV, !IRole W, !IDataService W, !IChainState W, !ISettle W}.
Context `{!Codec NonceState, !Codec SeqState, !Codec DataInfo, !Codec Quotation}.
Notation proOrder := (proOrder (DV := DV)).
Notation ordCtx := (ordCtx (DV := DV) (W := W)).
Notation OrderMgr := (OrderMgr (DV := DV) (W := W)).
Implicit Types (s : OrderMgr) (c : ordCtx) (o : proOrder) (userID localID nonce : Z) (clock : nat -> Z).
Variable quo : Quotation.

(** ** The invariant of an entry *)

(** Size and price are those of some number of segments, at no less than the quoted price. *)
Definition priced (b : SignedOrder) : Prop :=
  exists k p q, 0 <= k /\ ob_SegPrice (so_OrderBase b) = Some p /\ qu_SegPrice quo = Some q /\ q <= p /\
    so_Price b = Some (k * p) /\ so_Size b = u64 (k * DefaultSegSize).

(** The sequence adds [n] segments to the order. *)
Definition above (n : Z) (b : SignedOrder) (q : OrderSeq) : Prop :=
  exists p P, ob_SegPrice (so_OrderBase b) = Some p /\ so_Price b = Some P /\
    os_Price q = Some (P + n * p) /\ os_Size q = u64 (so_Size b + n * DefaultSegSize).

Definition seq_open (o : proOrder) (b : SignedOrder) : Prop :=
  exists q n, po_seq o = Some q /\ os_Nonce (sos_OrderSeq q) = ob_Nonce (so_OrderBase b) /\
    po_seqNum o = u32 (os_SeqNum (sos_OrderSeq q) + 1) /\ 0 <= n /\ above n b (sos_OrderSeq q).

Definition good (o : proOrder) : Prop := forall b, po_base o = Some b ->
  priced b /\ (po_orderState o = Order_Ack -> po_nonce o = u64 (ob_Nonce (so_OrderBase b) + 1)) /\
  (po_seqState o <> OrderSeq_Init -> seq_open o b).

Definition Good c : Prop := good (oc_or c).
Definition keepsGood c c' : Prop := Good c -> Good c'.

#[local] Instance keepsGood_preorder : PreOrder keepsGood.
Proof. split; [intros c Hg; exact Hg|]. intros c1 c2 c3 Ha Hb Hg. by apply Hb, Ha. Qed.

Lemma keeps_of_wp {A} (m : M ordCtx A) :
  (forall c, Good c -> wp Good m (fun _ => Good) c) -> Keeps keepsGood m.
Proof. intros Hm c Hg. specialize (Hm c Hg). unfold wpx in Hm. by destruct (m c) as [[?|?|?] ?]. Qed.
Lemma wp_of_keeps {A} (m : M ordCtx A) c : Keeps keepsGood m -> Good c -> wp Good m (fun _ => Good) c.
Proof. intros Hm Hg. eapply wpx_keeps; [done|..]; intros c' Hc; by apply Hc. Qed.

Lemma wp_the_base (I P : ordCtx -> Prop) (Q : SignedOrder -> ordCtx -> Prop) c :
  P c -> (forall b, po_base (oc_or c) = Some b -> Q b c) -> wpx I P the_base Q c.
Proof. intros HP HQ. unfold the_base, the_or. apply wp_bind, wp_gets, wp_deref; auto. Qed.
Lemma wp_the_seq (I P : ordCtx -> Prop) (Q : SignedOrderSeq -> ordCtx -> Prop) c :
  P c -> (forall q, po_seq (oc_or c) = Some q -> Q q c) -> wpx I P the_seq Q c.
Proof. intros HP HQ. unfold the_seq, the_or. apply wp_bind, wp_gets, wp_deref; auto. Qed.

(** One step of a weakest precondition on an entry. *)
Ltac wp_ctx_step :=
  match goal with
  | |- wpx _ _ (bind _ _) _ _ => apply wp_bind
  | |- wpx _ _ (ret _) _ _ => apply wp_ret
  | |- wpx _ _ (throw _) _ _ => apply wp_throw
  | |- wpx _ _ (panic _) _ _ => apply wp_panic
  | |- wpx _ _ (gets _) _ _ => apply wp_gets
  | |- wpx _ _ the_or _ _ => apply wp_gets
  | |- wpx _ _ the_base _ _ => apply wp_the_base; [try assumption|intros ? ?]
  | |- wpx _ _ the_seq _ _ => apply wp_the_seq; [try assumption|intros ? ?]
  | |- wpx _ _ (deref _) _ _ => apply wp_deref; [try assumption|intros ? ?]
  | |- wpx _ _ (of_option _ _) _ _ => apply wp_of_option; [try assumption|intros ? ?]
  | |- wpx _ _ (check _ _) _ _ => apply wp_check; [try assumption|intros ?]
  | |- wpx _ _ (modify _) _ _ => apply wp_modify
  | |- wpx _ _ (on_or _) _ _ => apply wp_modify
  | |- wpx _ _ (on_base _) _ _ => apply wp_modify
  | |- wpx _ _ (on_seq _) _ _ => apply wp_modify
  end.
Ltac wp_ctx := repeat wp_ctx_step.

Lemma keeps_on_env (R : ordCtx -> ordCtx -> Prop) {A} (m : M W A) :
  (forall c w, R c (set_oc_env (fun _ => w) c)) -> Keeps R (on_env m).
Proof. intros HR. apply keeps_zoom. apply HR. Qed.

Lemma keeps_the_or (R : ordCtx -> ordCtx -> Prop) `{!PreOrder R} : Keeps R the_or.
Proof. unfold the_or. keeps. Qed.
Lemma keeps_the_base (R : ordCtx -> ordCtx -> Prop) `{!PreOrder R} : Keeps R the_base.
Proof. unfold the_base, the_or. keeps. Qed.
Lemma keeps_the_seq (R : ordCtx -> ordCtx -> Prop) `{!PreOrder R} : Keeps R the_seq.
Proof. unfold the_seq, the_or. keeps. Qed.
#[local] Hint Resolve keeps_the_or keeps_the_base keeps_the_seq : keeps.

Lemma Good_env {A} (m : M W A) : Keeps keepsGood (on_env m).
Proof. apply keeps_on_env. intros c w Hg. exact Hg. Qed.
Lemma Good_put key value : Keeps keepsGood (ds_Put key value).
Proof. apply keeps_modify. intros c Hg. exact Hg. Qed.

(** Writes that leave alone what the invariant is about. *)
Lemma Good_or f : (forall o, good o -> good (f o)) -> Keeps keepsGood (on_or f).
Proof. intros Hf. apply keeps_modify. intros c. unfold keepsGood, Good. cbn [set_oc_or oc_or]. apply Hf. Qed.

#[local] Hint Extern 1 (Keeps keepsGood (on_env _)) => apply Good_env : keeps.
#[local] Hint Extern 1 (Keeps keepsGood (ds_Put _ _)) => apply Good_put : keeps.
#[local] Hint Extern 2 (Keeps keepsGood (on_or _)) => apply Good_or; intros o0 Hg0; exact Hg0 : keeps.

Lemma saveOrderBase_good : Keeps keepsGood saveOrderBase.
Proof. unfold saveOrderBase, the_base, the_or. keeps. Qed.
Lemma pro_saveOrderState_good : Keeps keepsGood pro_saveOrderState.
Proof. unfold pro_saveOrderState, the_base, the_or. keeps. Qed.
Lemma saveOrderSeq_good : Keeps keepsGood saveOrderSeq.
Proof. unfold saveOrderSeq, the_base, the_seq, the_or. keeps. Qed.
Lemma saveSeqState_good : Keeps keepsGood saveSeqState.
Proof. unfold saveSeqState, the_base, the_seq, the_or. keeps. Qed.
Lemma savePayInfo_good localID : Keeps keepsGood (savePayInfo localID).
Proof. unfold savePayInfo, the_or. keeps. Qed.
Lemma dv_reset_good : Keeps keepsGood dv_reset.
Proof. unfold dv_reset, the_or. keeps. Qed.
Lemma dv_add_good i seg t : Keeps keepsGood (dv_add i seg t).
Proof. unfold dv_add, the_or. keeps. Qed.
Lemma set_verifier_good pk : Keeps keepsGood (set_verifier pk).
Proof. unfold set_verifier. keeps. Qed.
#[local] Hint Resolve saveOrderBase_good pro_saveOrderState_good saveOrderSeq_good saveSeqState_good
  savePayInfo_good dv_reset_good dv_add_good set_verifier_good : keeps.

Lemma createOrder_run_good : Keeps keepsGood createOrder_run.
Proof. unfold createOrder_run, the_or. keeps. Qed.

(** ** Segments *)

Lemma on_seq_good f :
  (forall q, os_Nonce (sos_OrderSeq (f q)) = os_Nonce (sos_OrderSeq q) /\ os_SeqNum (sos_OrderSeq (f q)) = os_SeqNum (sos_OrderSeq q) /\
     os_Size (sos_OrderSeq (f q)) = os_Size (sos_OrderSeq q) /\ os_Price (sos_OrderSeq (f q)) = os_Price (sos_OrderSeq q)) ->
  Keeps keepsGood (on_seq f).
Proof.
  intros Hf. apply Good_or. intros o Hg b Hb. destruct (Hg b Hb) as (Hp & Hn & Hs). split_and!; [done|done|].
  intros Hst. destruct (Hs Hst) as (q & n & Hq & E1 & E2 & Hn0 & p & P & E3 & E4 & E5 & E6).
  destruct (Hf q) as (F1 & F2 & F3 & F4).
  exists (f q), n. cbn [set_po_seq po_seq po_seqNum]. rewrite Hq, F1, F2. split_and!; [done..|].
  exists p, P. by rewrite F3, F4.
Qed.

Lemma above_next n b q p x :
  above n b q -> ob_SegPrice (so_OrderBase b) = Some p -> os_Price q = Some x ->
  above (n + 1) b (set_os_amounts (u64 (os_Size q + DefaultSegSize)) (Some (x + p)) q).
Proof.
  intros (p' & P & E1 & E2 & E3 & E4) Hp Hx. exists p, P. cbn. split_and!; [done|done|..].
  - f_equal. assert (p' = p) as -> by congruence. assert (x = P + n * p) as -> by congruence. lia.
  - rewrite E4. unfold u64. rewrite Zplus_mod_idemp_l. f_equal. lia.
Qed.

Lemma add_segment_price_good : Keeps keepsGood add_segment_price.
Proof.
  apply keeps_of_wp. intros c Hg. unfold add_segment_price, big_Add. wp_ctx.
  intros b' Hb'. cbn in Hb'. destruct (Hg b' Hb') as (Hpr & Hn & Hs). split_and!; [done|done|].
  intros Hst. destruct (Hs Hst) as (q' & n & Hq' & E1 & E2 & Hn0 & Ha). cbn in Hst.
  simplify_eq. eexists _, (n + 1). cbn. match goal with E : po_seq _ = Some _ |- _ => rewrite E end. cbn. split_and!; [done..|lia|]. by apply above_next.
Qed.
#[local] Hint Resolve add_segment_price_good : keeps.
#[local] Hint Extern 2 (Keeps keepsGood (on_seq _)) => apply on_seq_good; intros ?; by split_and! : keeps.

Lemma HandleData_body_good clock localID seg : Keeps keepsGood (HandleData_body clock localID seg).
Proof. unfold HandleData_body, the_or. keeps. Qed.

Lemma refetch_good fsID segs : Keeps keepsGood (refetch fsID segs).
Proof. unfold refetch, refetch_one. keeps. Qed.
#[local] Hint Resolve refetch_good : keeps.

(** ** Orders *)

(** What [createOrder_check] lets through starts with no segments at an agreed price. *)
Lemma createOrder_check_priced nt ob : createOrder_check quo nt ob = Ok tt -> priced ob.
Proof.
  unfold createOrder_check. intros E.
  destruct (i64 _ <? OrderMin); [done|]. destruct (so_Size ob =? 0) eqn:Es; [|done]. apply Z.eqb_eq in Es.
  destruct (so_Price ob) as [price|] eqn:Ep; [|done]. destruct (price =? 0) eqn:E0; [|done]. apply Z.eqb_eq in E0 as ->.
  simpl in E. destruct (CheckOrder (so_OrderBase ob)); [|done|done].
  destruct (ob_TokenIndex _ =? _); [|done]. simpl in E.
  destruct (ob_SegPrice _) as [p|] eqn:Hp; [|done]. destruct (qu_SegPrice quo) as [q|] eqn:Hq; [|done].
  destruct (p <? q) eqn:Hlt; [done|]. apply Z.ltb_ge in Hlt.
  exists 0, p, q. split_and!; [done..|]. by rewrite Es.
Qed.

Lemma priced_Psign f b : priced b -> priced (set_so_Psign f b).
Proof. intros (k & p & q & Hr). by exists k, p, q. Qed.
Lemma above_Psign f n b q : above n b q -> above n (set_so_Psign f b) q.
Proof. intros (p & P & Hr). by exists p, P. Qed.

Lemma on_Psign_good f : Keeps keepsGood (on_base (set_so_Psign f)).
Proof.
  apply Good_or. intros o Hg b Hb. cbn in Hb. destruct (po_base o) as [b0|] eqn:E0; [|done]. injection Hb as <-.
  destruct (Hg b0 E0) as (Hp & Hn & Hs). split_and!; [by apply priced_Psign|done|].
  intros Hst. destruct (Hs Hst) as (q & n & E1 & E2 & E3 & E4 & E5). exists q, n.
  split_and!; [done..|by apply above_Psign].
Qed.
#[local] Hint Resolve on_Psign_good : keeps.

Lemma accept_order_good t localID ob : priced ob -> Keeps keepsGood (accept_order t localID ob).
Proof.
  intros Hp. unfold accept_order, the_base, the_or. apply keeps_bind; [typeclasses eauto| |].
  - apply Good_or. intros o _ b [= <-]. split_and!; [done|done|]. intros Hn. by destruct Hn.
  - intros _. keeps.
Qed.

Lemma close_previous_good t : Keeps keepsGood (close_previous t).
Proof.
  unfold close_previous, the_or. keeps.
  - apply Good_or. intros o' Hg b' Hb'. destruct (Hg b' Hb') as (Hp & Hn & Hs). split_and!; [done|done|].
    intros Hst. by apply Hs.
  - apply Good_or. intros o' Hg b' Hb'. done.
Qed.

Lemma next_order_good clock localID ob : priced ob -> Keeps keepsGood (next_order clock localID ob).
Proof.
  intros Hp. pose proof (fun t => accept_order_good t localID ob Hp). pose proof close_previous_good.
  unfold next_order, the_or. keeps. apply Good_or. intros o Hg. case_bool_decide as Hd; [|done].
  intros b Hb. destruct (Hg b Hb) as (? & ? & Hs). split_and!; [done|done|]. intros Hst. by apply Hs.
Qed.

Lemma HandleCreateOrder_body_good clock localID ob : priced ob -> Keeps keepsGood (HandleCreateOrder_body clock localID ob).
Proof.
  intros Hp. pose proof (fun t => accept_order_good t localID ob Hp). pose proof (next_order_good clock localID ob Hp).
  unfold HandleCreateOrder_body, same_order, the_or. keeps.
Qed.

(** ** Sequences *)

Lemma HandleCreateSeq_body_good clock os : Keeps keepsGood (HandleCreateSeq_body clock os).
Proof.
  apply keeps_of_wp. intros c Hg. unfold HandleCreateSeq_body. do 5 wp_ctx_step. apply wp_of_option; [exact Hg|].
  intros b Hb. wp_ctx_step. apply wp_check; [exact Hg|]. intros Hack.
  wp_ctx_step. apply wp_check; [exact Hg|]. intros Hnonce%Z.eqb_eq.
  match goal with |- context [if ?x then _ else _] => destruct x eqn:Hopen end.
  - apply andb_true_iff in Hopen as [Hnum%Z.eqb_eq _]. wp_ctx_step.
    assert (exists P, so_Price b = Some P) as [P HP].
    { destruct (Hg b Hb) as ((k & p & q & _ & _ & _ & _ & E & _) & _). eauto. }
    unfold big_eq. rewrite HP. destruct (os_Price (sos_OrderSeq os)) as [x|] eqn:Hx; [|by apply wp_panic].
    apply wp_ret. wp_ctx_step. apply wp_check; [exact Hg|]. intros [->%Z.eqb_eq Hsz%Z.eqb_eq]%andb_true_iff.
    wp_ctx_step. apply wp_check; [exact Hg|]. intros _. wp_ctx_step. apply wp_modify.
    apply wp_of_keeps; [keeps|]. intros b' Hb'. cbn in Hb', Hb. assert (b' = b) as -> by congruence.
    destruct (Hg b Hb) as ((k & p & q & ? & Hsp & ? & ? & Hpr & Hsize) & Hn & _).
    split_and!; [by exists k, p, q|done|]. intros _. exists os, 0. cbn. cbn in Hnum.
    split_and!; [done|done|by rewrite Hnum|done|]. exists p, P. rewrite Hx, Hsz, Hsp, HP.
    split_and!; [done|done|f_equal; lia|]. rewrite Z.mul_0_l, Z.add_0_r, u64_id; [done|].
    rewrite Hsize. apply u64_range.
  - apply wp_of_keeps; [keeps|exact Hg].
Qed.

(** Starting the sequence again from the order. *)
Lemma reset_seq_good b q o :
  po_base o = Some b -> po_seq o = Some q -> good o ->
  good (set_po_seq (fmap (set_sos_OrderSeq (set_os_amounts (so_Size b) (so_Price b)))) o).
Proof.
  intros Hb Hq Hg b' Hb'. cbn in Hb'. assert (b' = b) as -> by congruence.
  destruct (Hg b Hb) as ((k & p & qp & ? & Hsp & ? & ? & Hpr & Hsize) & Hn & Hs).
  split_and!; [by exists k, p, qp|done|]. intros Hst. cbn in Hst.
  destruct (Hs Hst) as (q' & n & E1 & E2 & E3 & E4 & E5). assert (q' = q) as -> by congruence.
  eexists _, 0. cbn. rewrite Hq. cbn. split_and!; [done..|]. exists p, (k * p).
  split_and!; [done|done|..]; cbn; rewrite ?Hpr.
  - f_equal. lia.
  - rewrite Z.mul_0_l, Z.add_0_r, u64_id; [done|]. rewrite Hsize. apply u64_range.
Qed.

Lemma finish_hash_good os : Keeps keepsGood (finish_hash os).
Proof.
  apply keeps_of_wp. intros c Hg. unfold finish_hash. apply wp_bind.
  eapply wp_mono; [apply wp_of_keeps; [keeps|exact Hg]|]. intros [] c1 Hg1. apply wp_bind, wp_the_seq; [exact Hg1|].
  intros q Hq. cbv zeta. destruct (_ || _); [by apply wp_ret|].
  apply wp_bind, wp_the_base; [exact Hg1|]. intros b Hb. apply wp_bind.
  assert (exists P, so_Price b = Some P) as [P HP].
  { destruct (Hg1 b Hb) as ((k & p & ? & _ & _ & _ & _ & E & _) & _). eauto. }
  unfold big_Set. rewrite HP. destruct (os_Price _) as [x|]; [|by apply wp_panic].
  apply wp_ret. apply wp_bind, wp_modify. rewrite <-HP. apply wp_of_keeps; [keeps|].
  by apply (reset_seq_good b q).
Qed.

(** The order takes the size and price of its sequence. *)
Definition advanced (b : SignedOrder) (q : OrderSeq) : SignedOrder :=
  mkSignedOrder (so_OrderBase b) (os_Size q) (os_Price q) (so_Usign b) (so_Psign b).

Lemma advanced_good b q o :
  po_base o = Some b -> po_seq o = Some q -> po_seqState o <> OrderSeq_Init -> good o ->
  good (set_po_base (fun _ => Some (advanced b (sos_OrderSeq q))) o).
Proof.
  intros Hb Hq Hst Hg b' [= <-].
  destruct (Hg b Hb) as ((k & p & qp & Hk & Hsp & Hqp & Hle & Hpr & Hsize) & Hn & Hs).
  destruct (Hs Hst) as (q' & n & E1 & E2 & E3 & E4 & p' & P & F1 & F2 & F3 & F4).
  assert (q' = q) as -> by congruence. assert (p' = p) as -> by congruence. assert (P = k * p) as -> by congruence.
  split_and!; [|done|].
  - exists (k + n), p, qp. cbn. split_and!; [lia|done|done|done|rewrite F3; f_equal; lia|].
    rewrite F4, Hsize. unfold u64. rewrite Zplus_mod_idemp_l. f_equal. lia.
  - intros _. exists q, 0. split_and!; [done..|]. exists p, (k * p + n * p). cbn.
    split_and!; [done|done|rewrite F3; f_equal; lia|].
    rewrite Z.mul_0_l, Z.add_0_r, u64_id; [done|]. rewrite F4. apply u64_range.
Qed.

(** The signature was made by the role service under the account's key, or
    accepted by it. *)
Definition Signs (id : Z) (h : bytes) (sig : Signature) : Prop :=
  exists w w', RoleSign id h SigSecp256k1 w = (Ok sig, w').
Definition Verifies (id : Z) (h : bytes) (sig : Signature) : Prop :=
  exists w w', RoleVerify id h sig w = (Ok true, w').

Lemma wp_on_env (I P : ordCtx -> Prop) {A} (m : M W A) (Q : A -> ordCtx -> Prop) c :
  (forall w, I (set_oc_env (fun _ => w) c)) -> (forall w, P (set_oc_env (fun _ => w) c)) ->
  (forall a w, m (oc_env c) = (Ok a, w) -> Q a (set_oc_env (fun _ => w) c)) -> wpx I P (on_env m) Q c.
Proof. intros HI HP HQ. unfold wpx, on_env, zoom. destruct (m (oc_env c)) as [[a|e|w] w'] eqn:E; eauto. Qed.

Lemma wp_role_verify (I : ordCtx -> Prop) userID h sig e (Q : unit -> ordCtx -> Prop) c :
  (forall w, I (set_oc_env (fun _ => w) c)) -> (forall w, Verifies userID h sig -> Q tt (set_oc_env (fun _ => w) c)) ->
  wp I (role_verify userID h sig e) Q c.
Proof.
  intros HI HQ. unfold role_verify. apply wp_bind, wp_on_env; [done..|]. intros ok w E.
  apply wp_check; [done|]. intros ->. apply HQ. by exists (oc_env c), w.
Qed.

(** The context after [finish_sign]: only the order moved. *)
Definition advance_ctx b q w c : ordCtx :=
  mkOrdCtx (set_po_base (fun _ => Some (advanced b (sos_OrderSeq q))) (oc_or c)) (oc_ds c) w.

Definition signed (localID userID : Z) (lHash : bytes) (b : SignedOrder) (q : OrderSeq) (os : SignedOrderSeq)
    (sigs : Signature * Signature) : Prop :=
  Verifies userID lHash (sos_UserDataSig os) /\ Signs localID lHash sigs.1 /\
  exists h, SignedOrder_Hash (advanced b q) = Some h /\ Verifies userID h (sos_UserSig os) /\ Signs localID h sigs.2.

(** An error of [finish_sign] leaves the order as it was or already advanced. *)
Lemma finish_sign_wp (I : ordCtx -> Prop) (Q : Signature * Signature -> ordCtx -> Prop) localID userID lHash os b q c P x :
  po_base (oc_or c) = Some b -> po_seq (oc_or c) = Some q -> so_Price b = Some P -> os_Price (sos_OrderSeq q) = Some x ->
  (forall w, I (set_oc_env (fun _ => w) c)) -> (forall w, I (advance_ctx b q w c)) ->
  (forall sigs w, signed localID userID lHash b (sos_OrderSeq q) os sigs -> Q sigs (advance_ctx b q w c)) ->
  wp I (finish_sign localID userID lHash os) Q c.
Proof.
  intros Hb Hq HP Hx HI HI' HQ. unfold finish_sign. apply wp_bind, wp_role_verify; [done|]. intros w1 Hv1.
  apply wp_bind, wp_on_env; [intros; apply HI..|]. intros ssig w2 Hs1. cbn [oc_env set_oc_env] in Hs1.
  apply wp_bind. unfold wpx at 1, the_seq, the_or. cbn. rewrite Hq. cbn.
  apply wp_bind. unfold wpx at 1, the_base, the_or. cbn. rewrite Hb. cbn.
  apply wp_bind, wp_modify. apply wp_bind. unfold big_Set. rewrite HP, Hx. apply wp_ret.
  apply wp_bind, wp_modify.
  assert (forall w, set_oc_or (set_po_base (fmap (set_so_Price (fun _ => Some x))))
    (set_oc_or (set_po_base (fmap (set_so_Size (fun _ => os_Size (sos_OrderSeq q))))) (set_oc_env (fun _ => w) (set_oc_env (fun _ => w1) c)))
    = advance_ctx b q w c) as Hadv.
  { intros w. unfold advance_ctx, advanced, set_oc_or, set_oc_env, set_po_base. cbn. rewrite Hb, <-Hx. done. }
  rewrite Hadv. apply wp_bind, wp_the_base; [apply HI'|]. intros b' [= <-].
  apply wp_bind, wp_deref; [apply HI'|]. intros h Hh.
  apply wp_bind, wp_role_verify; [intros; apply (HI' w)|]. intros w3 Hv2.
  apply wp_bind, wp_on_env; [intros; apply (HI' w)..|]. intros osig w4 Hs2.
  apply wp_ret. apply (HQ (ssig, osig) w4). split_and!; [done|by exists (oc_env (set_oc_env (fun _ => w1) c)), w2|].
  exists h. split_and!; [done|done|]. by eexists _, w4.
Qed.

(** ** What a sequence does not touch *)

Definition head_of o := (po_base o, po_orderState o, po_nonce o, (po_seqState o, po_seqNum o), (po_localID o, po_userID o)).
Definition sameHead c c' : Prop := head_of (oc_or c') = head_of (oc_or c).
#[local] Instance sameHead_preorder : PreOrder sameHead.
Proof. split; [by intros c|]. intros c1 c2 c3 E1 E2. unfold sameHead in *. congruence. Qed.

Lemma same_env {A} (m : M W A) : Keeps sameHead (on_env m).
Proof. by apply keeps_on_env. Qed.
Lemma same_or f : (forall o, head_of (f o) = head_of o) -> Keeps sameHead (on_or f).
Proof. intros Hf. apply keeps_modify. intros c. apply Hf. Qed.
#[local] Hint Extern 1 (Keeps sameHead (on_env _)) => apply same_env : keeps.
#[local] Hint Extern 2 (Keeps sameHead (on_or _)) => by apply same_or : keeps.
#[local] Hint Extern 2 (Keeps sameHead (on_seq _)) => by apply same_or : keeps.

Lemma dv_reset_same : Keeps sameHead dv_reset.
Proof. unfold dv_reset. keeps. Qed.
Lemma dv_add_same i seg t : Keeps sameHead (dv_add i seg t).
Proof. unfold dv_add. keeps. Qed.
Lemma add_segment_price_same : Keeps sameHead add_segment_price.
Proof. unfold add_segment_price, big_Add. keeps. Qed.
#[local] Hint Resolve dv_reset_same dv_add_same add_segment_price_same : keeps.
Lemma refetch_same fsID segs : Keeps sameHead (refetch fsID segs).
Proof. unfold refetch, refetch_one. keeps. Qed.
#[local] Hint Resolve refetch_same : keeps.
Lemma finish_hash_same os : Keeps sameHead (finish_hash os).
Proof. unfold finish_hash, big_Set. keeps. Qed.

(** The hash [finish_hash] returns is that of the sequence it leaves. *)
Lemma finish_hash_current os c lHash c' :
  finish_hash os c = (Ok lHash, c') -> exists q, po_seq (oc_or c') = Some q /\ lHash = SignedOrderSeq_Hash q.
Proof.
  unfold finish_hash. intros Hr. apply bind_Ok in Hr as ([] & c1 & _ & Hr).
  apply bind_Ok in Hr as (q & c2 & Hq & Hr). unfold the_seq, the_or in Hq. go_inv.
  destruct (_ || _).
  - go_inv. eauto.
  - apply bind_Ok in Hr as (b & c3 & _ & Hr). apply bind_Ok in Hr as (pr & c4 & _ & Hr).
    apply bind_Ok in Hr as ([] & c5 & _ & Hr). apply bind_Ok in Hr as (o & c6 & _ & Hr).
    apply bind_Ok in Hr as ([] & c7 & _ & Hr). apply bind_Ok in Hr as ([] & c8 & _ & Hr).
    unfold the_seq, the_or in Hr. go_inv. eauto.
Qed.

(** Saving does not touch the entry. *)
Definition sameOr c c' : Prop := oc_or c' = oc_or c.
#[local] Instance sameOr_preorder : PreOrder sameOr.
Proof. split; [by intros c|]. intros c1 c2 c3 E1 E2. unfold sameOr in *. congruence. Qed.
#[local] Hint Extern 1 (Keeps sameOr (ds_Put _ _)) => by apply keeps_modify : keeps.
Definition finish_saves localID : M ordCtx bytes :=
  do! saveOrderBase; do! saveOrderSeq; do! saveSeqState; do! savePayInfo localID;
  let! seq := the_seq in of_option (marshal seq) "serialize".
Lemma finish_saves_same localID : Keeps sameOr (finish_saves localID).
Proof. unfold finish_saves, saveOrderBase, saveOrderSeq, saveSeqState, savePayInfo. keeps. Qed.

(** The answer is the sequence of the entry. *)
Lemma finish_saves_wp localID (Q : bytes -> ordCtx -> Prop) c q :
  Good c -> po_seq (oc_or c) = Some q ->
  (forall data c', marshal q = Some data -> oc_or c' = oc_or c -> Q data c') -> wp Good (finish_saves localID) Q c.
Proof.
  intros Hg Hq HQ. pose proof (finish_saves_same localID c) as Hs. unfold wpx.
  destruct (finish_saves localID c) as [[data|e|e] c'] eqn:E; cbn [snd] in Hs; unfold sameOr in Hs.
  - apply HQ; [|done]. unfold finish_saves in E. apply bind_Ok in E as ([] & c1 & E1 & E).
    apply bind_Ok in E as ([] & c2 & E2 & E). apply bind_Ok in E as ([] & c3 & E3 & E).
    apply bind_Ok in E as ([] & c4 & E4 & E). apply bind_Ok in E as (q' & c5 & E5 & E). 
    unfold the_seq, the_or in E5. go_inv. congruence.
  - unfold Good. by rewrite Hs.
  - unfold Good. by rewrite Hs.
Qed.

Lemma wp_current {A} (m : M ordCtx A) (Q : A -> ordCtx -> Prop) c :
  Keeps keepsGood m -> Keeps sameHead m -> Good c ->
  (forall a c', m c = (Ok a, c') -> Good c' -> sameHead c c' -> Q a c') -> wp Good m Q c.
Proof.
  intros Hk Hs Hg HQ. specialize (Hk c Hg). specialize (Hs c). unfold wpx.
  destruct (m c) as [[a|e|w] c'] eqn:E; eauto.
Qed.

(** What a finished sequence is: [n] segments on top of the order, signed by both. *)
Definition finished (localID userID : Z) (b : SignedOrder) (os q : SignedOrderSeq) : Prop :=
  exists n, 0 <= n /\ above n b (sos_OrderSeq q) /\
  sos_UserDataSig q = sos_UserDataSig os /\ sos_UserSig q = sos_UserSig os /\
  signed localID userID (SignedOrderSeq_Hash q) b (sos_OrderSeq q) os (sos_ProDataSig q, sos_ProSig q).

Lemma finish_ack_wp clock localID userID os b c :
  Good c -> po_base (oc_or c) = Some b -> po_seqState (oc_or c) = OrderSeq_Ack ->
  wp Good (finish_ack clock localID userID os) (fun data c' => Good c' /\
    exists q, marshal q = Some data /\ finished localID userID b os q /\
      po_seq (oc_or c') = Some q /\ po_base (oc_or c') = Some (advanced b (sos_OrderSeq q)) /\
      po_seqState (oc_or c') = OrderSeq_Done) c.
Proof.
  intros Hg Hb Hst. unfold finish_ack. apply wp_bind, wp_current; [apply finish_hash_good|apply finish_hash_same|done|].
  intros lHash c1 E Hg1 Hsame. destruct (finish_hash_current _ _ _ _ E) as (q & Hq & ->).
  assert (po_base (oc_or c1) = Some b /\ po_seqState (oc_or c1) = OrderSeq_Ack) as [Hb1 Hst1].
  { unfold sameHead, head_of in Hsame. split; congruence. }
  apply wp_bind, wp_gets, wp_bind, wp_deref; [done|]. intros dv Hdv.
  apply wp_bind, wp_of_outcome; [done|]. intros ok Hok. apply wp_bind, wp_check; [done|]. intros ->.
  destruct (Hg1 b Hb1) as ((k & p & qp & Hk & Hsp & Hqp & Hle & Hpr & Hsize) & Hn & Hs).
  assert (po_seqState (oc_or c1) <> OrderSeq_Init) as Hni by (rewrite Hst1; discriminate).
  destruct (Hs Hni) as (q' & n & E1 & E2 & E3 & Hn0 & Hab). assert (q' = q) as -> by congruence.
  assert (Hab' := Hab). destruct Hab' as (p' & P & F1 & F2 & F3 & F4).
  assert (forall w, Good (advance_ctx b q w c1)) as HI' by (intros w; by apply advanced_good).
  apply wp_bind. eapply (finish_sign_wp Good _ _ _ _ _ b q c1 _ _ Hb1 Hq F2 F3); [intros w; exact Hg1|exact HI'|].
  intros sigs w Hsig. apply wp_bind, wp_modify.
  set (q1 := mkSignedOrderSeq (sos_OrderSeq q) (sos_UserDataSig os) sigs.1 (sos_UserSig os) sigs.2).
  apply wp_bind, wp_the_seq; [|intros q2 Hq2].
  { apply (on_seq_good (fun q => mkSignedOrderSeq (sos_OrderSeq q) (sos_UserDataSig os) sigs.1 (sos_UserSig os) sigs.2)); [done|apply HI']. }
  cbn in Hq2. rewrite Hq in Hq2. injection Hq2 as <-.
  do 2 apply wp_bind, wp_modify.
  match goal with |- wpx _ _ _ _ ?x => set (c2 := x) end.
  assert (po_seq (oc_or c2) = Some q1) as Hq2 by (cbn; by rewrite Hq).
  assert (Good c2) as Hg2.
  { pose proof (on_seq_good (fun q => mkSignedOrderSeq (sos_OrderSeq q) (sos_UserDataSig os) sigs.1 (sos_UserSig os) sigs.2)
      ltac:(done) (advance_ctx b q w c1) (HI' w)) as Hg2.
    intros b' Hb'. destruct (Hg2 b' Hb') as (? & ? & Hs2). split_and!; [done|done|]. intros _. by apply Hs2. }
  change (wp Good (finish_saves localID) (fun data c' => Good c' /\ exists q, marshal q = Some data /\
    finished localID userID b os q /\ po_seq (oc_or c') = Some q /\ po_base (oc_or c') = Some (advanced b (sos_OrderSeq q)) /\
    po_seqState (oc_or c') = OrderSeq_Done) c2).
  apply (finish_saves_wp _ _ _ q1); [done..|]. intros data c' Hm Hc'. unfold Good. rewrite Hc'.
  split; [done|]. exists q1. split_and!; [done| |done|done|done]. exists n. by split_and!.
Qed.

(** The answer of HandleFinishSeq: the sequence just finished, or the one that
    was, when the request is repeated. *)
Definition finish_answer localID userID c (os : SignedOrderSeq) (data : bytes) c' : Prop :=
  exists b q, po_base (oc_or c) = Some b /\ po_orderState (oc_or c) = Order_Ack /\
    marshal q = Some data /\ po_seq (oc_or c') = Some q /\ po_seqState (oc_or c') = OrderSeq_Done /\
    ((po_seqState (oc_or c) = OrderSeq_Ack /\ finished localID userID b os q /\ po_base (oc_or c') = Some (advanced b (sos_OrderSeq q))) \/
     (po_seqState (oc_or c) = OrderSeq_Done /\ po_seq (oc_or c) = Some q /\ SignedOrderSeq_Hash os = SignedOrderSeq_Hash q)).

Lemma HandleFinishSeq_body_wp clock localID userID os c :
  Good c -> wp Good (HandleFinishSeq_body clock localID userID os)
    (fun data c' => Good c' /\ finish_answer localID userID c os data c') c.
Proof.
  intros Hg. unfold HandleFinishSeq_body. apply wp_bind, wp_modify, wp_bind, wp_gets.
  apply wp_bind, wp_deref; [exact Hg|]. intros b Hb. cbn in Hb. apply wp_bind, wp_check; [exact Hg|].
  intros Hack%bool_decide_eq_true. cbn in Hack. apply wp_bind, wp_check; [exact Hg|]. intros _.
  destruct (po_seq _) as [q|] eqn:Hq; [|by apply wp_throw]. cbn in Hq.
  destruct (os_SeqNum _ =? _); [|by apply wp_throw]. case_bool_decide as Hst; cbn in Hst.
  - eapply wp_mono; [by apply (finish_ack_wp _ _ _ _ b)|]. intros data c' (Hg' & q' & Hm & Hf & Hq' & Hb' & Hst').
    split; [done|]. exists b, q'. split_and!; [done..|]. left. by split_and!.
  - case_bool_decide as Hst2; cbn in Hst2; [|by apply wp_throw]. apply wp_bind, wp_check; [exact Hg|].
    intros Heq%bool_decide_eq_true. apply wp_of_option; [exact Hg|]. intros data Hm. split; [done|].
    exists b, q. split_and!; [done..|]. right. by split_and!.
Qed.

Lemma HandleFinishSeq_body_good clock localID userID os : Keeps keepsGood (HandleFinishSeq_body clock localID userID os).
Proof. apply keeps_of_wp. intros c Hg. eapply wp_mono; [by apply HandleFinishSeq_body_wp|]. by intros data c' [? _]. Qed.

(** ** The manager *)

Section Manager.
Variable localID : Z.

(** A handler of user [u] writes no order base of another user. *)
Definition mine u c c' : Prop :=
  po_localID (oc_or c) = localID -> po_userID (oc_or c) = u ->
  po_localID (oc_or c') = localID /\ po_userID (oc_or c') = u /\
  forall v n, v <> u -> oc_ds c' !! ProBaseKey localID v n = oc_ds c !! ProBaseKey localID v n.
#[local] Instance mine_preorder u : PreOrder (mine u).
Proof.
  split; [by intros c ? ?|]. intros c1 c2 c3 E1 E2 Hl Hu. destruct (E1 Hl Hu) as (Hl2 & Hu2 & Hd).
  destruct (E2 Hl2 Hu2) as (Hl3 & Hu3 & Hd'). split_and!; [done..|]. intros v n Hv. by rewrite Hd', Hd.
Qed.

Lemma mine_env u {A} (m : M W A) : Keeps (mine u) (on_env m).
Proof. apply keeps_on_env. by intros c w Hl Hu. Qed.
Lemma mine_or u f : (forall o, po_localID (f o) = po_localID o /\ po_userID (f o) = po_userID o) -> Keeps (mine u) (on_or f).
Proof. intros Hf. apply keeps_modify. intros c Hl Hu. cbn. destruct (Hf (oc_or c)) as [-> ->]. done. Qed.
Lemma mine_put u key value : (forall v n, v <> u -> key <> ProBaseKey localID v n) -> Keeps (mine u) (ds_Put key value).
Proof.
  intros Hk. apply keeps_modify. intros c Hl Hu. cbn. split_and!; [done..|]. intros v n Hv.
  apply lookup_insert_ne. by apply Hk.
Qed.
#[local] Hint Extern 1 (Keeps (mine _) (on_env _)) => apply mine_env : keeps.
#[local] Hint Extern 2 (Keeps (mine _) (on_or _)) => by apply mine_or; intros o0; (try case_bool_decide); split : keeps.
#[local] Hint Extern 2 (Keeps (mine _) (on_seq _)) => by apply mine_or : keeps.
#[local] Hint Extern 2 (Keeps (mine _) (on_base _)) => by apply mine_or : keeps.
#[local] Hint Extern 2 (Keeps (mine _) (ds_Put _ _)) => apply mine_put; intros v0 n0 _; by apply NewKey_tag_ne : keeps.

Lemma ProBaseKey_inj u n v m : ProBaseKey localID u n = ProBaseKey localID v m -> u = v /\ n = m.
Proof.
  intros E. apply NewKey_num_inj in E; [by injection E as -> ->| | |done..]; repeat constructor; by eexists.
Qed.

Lemma saveOrderBase_mine u : Keeps (mine u) saveOrderBase.
Proof.
  intros c. unfold saveOrderBase, the_base, the_or. unfold bind, gets, deref, ret, panic, of_option, throw.
  destruct (po_base (oc_or c)) as [b|]; [|reflexivity]. destruct (marshal b) as [data|]; [|reflexivity].
  intros Hl Hu. cbn [snd ds_Put modify oc_ds oc_or set_oc_ds]. split_and!; [done..|]. intros v n Hv.
  apply lookup_insert_ne. rewrite Hl, Hu. intros [E _]%ProBaseKey_inj. congruence.
Qed.
#[local] Hint Resolve saveOrderBase_mine : keeps.

Lemma saveOrderState_mine u : Keeps (mine u) pro_saveOrderState.
Proof. unfold pro_saveOrderState. keeps. Qed.
Lemma saveOrderSeq_mine u : Keeps (mine u) saveOrderSeq.
Proof. unfold saveOrderSeq. keeps. Qed.
Lemma saveSeqState_mine u : Keeps (mine u) saveSeqState.
Proof. unfold saveSeqState. keeps. Qed.
Lemma savePayInfo_mine u id : Keeps (mine u) (savePayInfo id).
Proof. unfold savePayInfo. keeps. Qed.
Lemma dv_reset_mine u : Keeps (mine u) dv_reset.
Proof. unfold dv_reset. keeps. Qed.
Lemma dv_add_mine u i seg t : Keeps (mine u) (dv_add i seg t).
Proof. unfold dv_add. keeps. Qed.
Lemma add_segment_price_mine u : Keeps (mine u) add_segment_price.
Proof. unfold add_segment_price, big_Add. keeps. Qed.
Lemma set_verifier_mine u pk : Keeps (mine u) (set_verifier pk).
Proof. unfold set_verifier. keeps. Qed.
#[local] Hint Resolve saveOrderState_mine saveOrderSeq_mine saveSeqState_mine savePayInfo_mine dv_reset_mine
  dv_add_mine add_segment_price_mine set_verifier_mine : keeps.

Lemma accept_order_mine u t id ob : Keeps (mine u) (accept_order t id ob).
Proof. unfold accept_order. keeps. Qed.
Lemma close_previous_mine u t : Keeps (mine u) (close_previous t).
Proof. unfold close_previous. keeps. Qed.
#[local] Hint Resolve accept_order_mine close_previous_mine : keeps.
Lemma HandleData_body_mine u clock id seg : Keeps (mine u) (HandleData_body clock id seg).
Proof. unfold HandleData_body. keeps. Qed.
Lemma HandleCreateOrder_body_mine u clock id ob : Keeps (mine u) (HandleCreateOrder_body clock id ob).
Proof. unfold HandleCreateOrder_body, next_order, same_order. keeps. Qed.
Lemma HandleCreateSeq_body_mine u clock os : Keeps (mine u) (HandleCreateSeq_body clock os).
Proof. unfold HandleCreateSeq_body, big_eq. keeps. Qed.
Lemma HandleFinishSeq_body_mine u clock id user os : Keeps (mine u) (HandleFinishSeq_body clock id user os).
Proof. unfold HandleFinishSeq_body, finish_ack, finish_hash, finish_sign, role_verify, big_Set, refetch, refetch_one. keeps. Qed.
Lemma createOrder_run_mine u : Keeps (mine u) createOrder_run.
Proof. unfold createOrder_run. keeps. Qed.
Lemma check_confirm_mine u fuel id user nonce : Keeps (mine u) (check_confirm fuel id user nonce).
Proof. induction fuel as [|fuel IH]; cbn [check_confirm]; unfold big_Add; keeps. Qed.
Lemma check_expire_mine u fuel id user nonce : Keeps (mine u) (check_expire fuel id user nonce).
Proof. induction fuel as [|fuel IH]; cbn [check_expire]; keeps. Qed.
#[local] Hint Resolve check_confirm_mine check_expire_mine : keeps.
Lemma check_user_mine u id user : Keeps (mine u) (check_user id user).
Proof. unfold check_user. keeps. Qed.
Lemma check_confirm_good fuel id user nonce : Keeps keepsGood (check_confirm fuel id user nonce).
Proof. induction fuel as [|fuel IH]; cbn [check_confirm]; unfold big_Add; keeps. Qed.
Lemma check_expire_good fuel id user nonce : Keeps keepsGood (check_expire fuel id user nonce).
Proof. induction fuel as [|fuel IH]; cbn [check_expire]; keeps. Qed.
#[local] Hint Resolve check_confirm_good check_expire_good : keeps.
Lemma check_user_good id user : Keeps keepsGood (check_user id user).
Proof. unfold check_user. keeps. Qed.

Record Inv s : Prop := {
  inv_local : om_localID s = localID;
  inv_quo : om_quo s = quo;
  inv_order u o : om_orders s !! u = Some o -> good o /\ po_userID o = u /\ po_localID o = localID;
  inv_fresh u n : om_orders s !! u = None -> om_ds s !! ProBaseKey localID u n = None }.

Definition keepsInv s s' : Prop := Inv s -> Inv s'.
#[local] Instance keepsInv_preorder : PreOrder keepsInv.
Proof. split; [intros s Hi; exact Hi|]. intros s1 s2 s3 Ha Hb Hi. by apply Hb, Ha. Qed.

Lemma with_order_inv {A} u (m : M ordCtx A) :
  Keeps keepsGood m -> Keeps (mine u) m -> Keeps keepsInv (with_order u m).
Proof.
  intros Hk Hm s Hi. unfold with_order. destruct (om_orders s !! u) as [o|] eqn:Ho; [|exact Hi].
  specialize (Hk (mkOrdCtx o (om_ds s) (om_env s))). specialize (Hm (mkOrdCtx o (om_ds s) (om_env s))).
  destruct (m _) as [r c]. cbn [snd] in *. destruct (inv_order s Hi u o Ho) as (Hg & Hu & Hl).
  specialize (Hk Hg). destruct (Hm Hl Hu) as (Hl' & Hu' & Hd). cbn in Hd.
  split; cbn; [by apply Hi..| |].
  - intros v o' E. apply lookup_insert_Some in E as [[<- <-]|[_ E]]; [done|]. by apply (inv_order s Hi).
  - intros v n E. apply lookup_insert_None in E as [E Hv]. rewrite Hd by done. by apply (inv_fresh s Hi).
Qed.

(** Loading finds nothing for a user the node has not stored an order of. *)
Lemma getOrder_load_fresh u (c : ordCtx) :
  po_base (oc_or c) = None -> (forall n, oc_ds c !! ProBaseKey localID u n = None) ->
  po_base (oc_or (getOrder_load localID u c).2) = None.
Proof.
  intros Hb Hds. set (R := fun c c' : ordCtx => po_base (oc_or c') = po_base (oc_or c) /\ oc_ds c' = oc_ds c).
  assert (PreOrder R) as HR.
  { split; [by intros ?|]. intros c1 c2 c3 [E1 E2] [E3 E4]. split; congruence. }
  assert (forall {A} (m : M W A), Keeps R (on_env m)) as Henv by (intros A m; by apply keeps_on_env).
  assert (forall f, (forall o, po_base (f o) = po_base o) -> Keeps R (on_or f)) as Hor.
  { intros f Hf. apply keeps_modify. intros c'. split; [apply Hf|done]. }
  set (J := fun c' => R c c'). assert (forall c', J c' -> po_base (oc_or c') = None) as HJ by (intros c' [E _]; congruence).
  enough (wp J (getOrder_load localID u) (fun _ => J) c) as Hw.
  { unfold wpx in Hw. destruct (getOrder_load localID u c) as [[?|?|?] c']; by apply HJ. }
  assert (forall {A} (m : M ordCtx A) c', Keeps R m -> J c' -> wp J m (fun _ => J) c') as Hkeep.
  { intros A m c' Hm Hc'. eapply wpx_keeps; [done|..]; intros c2 Hc2; unfold J, R in *; destruct Hc2, Hc'; split; congruence. }
  unfold getOrder_load, set_verifier, load_info. apply wp_bind.
  eapply wp_mono; [apply Hkeep; [by keeps|done]|]. intros r1 c1 H1. apply wp_bind.
  eapply wp_mono; [apply Hkeep; [|done]|].
  { destruct r1; keeps; by apply Hor. }
  intros r2 c2 H2. apply wp_bind. eapply wp_mono; [apply Hkeep; [|done]|].
  { keeps; by apply Hor. }
  intros r3 c3 H3. apply wp_bind. eapply wp_mono; [apply Hkeep; [done|done]|]. intros dns c4 H4.
  apply wp_bind, wp_gets, wp_bind. eapply wp_mono; [apply Hkeep; [keeps|done]|]. intros ns c5 H5.
  apply wp_bind. unfold ds_decode. apply wp_bind, wp_gets, wp_bind, wp_of_option; [done|].
  intros val Hv. destruct H5 as [_ E5]. rewrite E5 in Hv. by rewrite Hds in Hv.
Qed.

Lemma good_no_base o : po_base o = None -> good o.
Proof. intros Hb b Hb'. congruence. Qed.

Lemma getOrder_load_mine u : Keeps (mine u) (getOrder_load localID u).
Proof. unfold getOrder_load, load_info, ds_decode, big_Set. keeps. Qed.

Lemma getOrder_inv u : Keeps keepsInv (getOrder u).
Proof.
  intros s Hi. unfold getOrder, bind at 1, gets. destruct (om_orders s !! u) as [o|] eqn:Ho; [exact Hi|].
  unfold bind, modify, try_err, ret. cbn [om_localID]. unfold with_order. cbn.
  rewrite lookup_insert_eq. set (c := mkOrdCtx _ _ _).
  pose proof (getOrder_load_fresh u c eq_refl) as Hb. pose proof (getOrder_load_mine u c) as Hm.
  rewrite (inv_local s Hi). destruct (getOrder_load localID u c) as [r c'] eqn:E. cbn [snd] in *.
  assert (Inv (set_om_env (fun _ => oc_env c') (set_om_ds (fun _ => oc_ds c')
    (set_om_orders <[u := oc_or c']> (set_om_orders <[u := newOrder localID u]> (set_om_users (fun l => l ++ [u]) s)))))) as Hinv.
  { destruct Hm as (Hl' & Hu' & Hd); [by rewrite <-(inv_local s Hi)|done|]. cbn in Hd.
    split; cbn; [by apply Hi..| |].
    - intros v o' Ev. apply lookup_insert_Some in Ev as [[<- <-]|[Hne Ev]].
      + split_and!; [|done|done]. apply good_no_base, Hb. intros n. by apply (inv_fresh s Hi).
      + rewrite lookup_insert_ne in Ev by done. by apply (inv_order s Hi).
    - intros v n Ev. apply lookup_insert_None in Ev as [Ev Hv]. rewrite Hd by done.
      rewrite lookup_insert_ne in Ev by done. by apply (inv_fresh s Hi). }
  by destruct r.
Qed.

(** *** Every entry point keeps the invariant *)

Lemma keepsInv_of_wp {A} (m : M OrderMgr A) :
  (forall s, Inv s -> wp Inv m (fun _ => Inv) s) -> Keeps keepsInv m.
Proof. intros Hm s Hi. specialize (Hm s Hi). unfold wpx in Hm. by destruct (m s) as [[?|?|?] ?]. Qed.
Lemma wp_of_keepsInv {A} (m : M OrderMgr A) s : Keeps keepsInv m -> Inv s -> wp Inv m (fun _ => Inv) s.
Proof. intros Hm Hi. eapply wpx_keeps; [done|..]; intros s' Hs; by apply Hs. Qed.

(** Writes to fields the invariant does not read. *)
Lemma Inv_modify f :
  (forall s, om_localID (f s) = om_localID s /\ om_quo (f s) = om_quo s /\ om_orders (f s) = om_orders s /\ om_ds (f s) = om_ds s) ->
  Keeps keepsInv (modify f).
Proof.
  intros Hf. apply keeps_modify. intros s [I1 I2 I3 I4]. destruct (Hf s) as (E1 & E2 & E3 & E4).
  split; [by rewrite E1|by rewrite E2| |]; rewrite E3; [done|]. by rewrite E4.
Qed.
Lemma mgr_env_inv {A} (m : M W A) : Keeps keepsInv (mgr_env m).
Proof. apply keeps_zoom. intros s w [I1 I2 I3 I4]. by split. Qed.
Lemma mgr_put_inv key value : (forall u n, key <> ProBaseKey localID u n) -> Keeps keepsInv (mgr_put key value).
Proof.
  intros Hk. apply keeps_modify. intros s [I1 I2 I3 I4]. split; cbn; [done..|].
  intros u n Hu. rewrite lookup_insert_ne by apply Hk. by apply I4.
Qed.
Lemma mgr_get_inv {A} `{!Codec A} key : Keeps keepsInv (mgr_get (A := A) key).
Proof. unfold mgr_get. keeps. Qed.
#[local] Hint Extern 1 (Keeps keepsInv (modify _)) => by apply Inv_modify : keeps.
#[local] Hint Extern 2 (Keeps keepsInv (mgr_put _ _)) => apply mgr_put_inv; intros; by apply NewKey_tag_ne : keeps.
#[local] Hint Resolve getOrder_inv mgr_env_inv mgr_get_inv : keeps.
#[local] Hint Resolve with_order_inv HandleData_body_good HandleData_body_mine HandleCreateSeq_body_good HandleCreateSeq_body_mine
  HandleFinishSeq_body_good HandleFinishSeq_body_mine createOrder_run_good createOrder_run_mine check_user_good check_user_mine
  HandleCreateOrder_body_mine : keeps.

Lemma the_or_inv u : Keeps keepsInv (with_order u the_or).
Proof. apply with_order_inv; auto with keeps typeclass_instances. Qed.
Lemma check_ready_inv u : Keeps keepsInv (check_ready u).
Proof. apply with_order_inv; keeps. Qed.
#[local] Hint Resolve the_or_inv check_ready_inv : keeps.

Lemma HandleData_inv clock u seg : Keeps keepsInv (HandleData clock u seg).
Proof. unfold HandleData. keeps. Qed.
Lemma HandleQuotation_inv u : Keeps keepsInv (HandleQuotation u).
Proof. unfold HandleQuotation. keeps. Qed.
Lemma HandleCreateSeq_inv clock u b : Keeps keepsInv (HandleCreateSeq clock u b).
Proof. unfold HandleCreateSeq. keeps. Qed.
Lemma HandleFinishSeq_inv clock u b : Keeps keepsInv (HandleFinishSeq clock u b).
Proof. unfold HandleFinishSeq. keeps. Qed.
Lemma createOrder_go_inv : Keeps keepsInv createOrder_go.
Proof. unfold createOrder_go. keeps. Qed.
Lemma check_orders_inv : Keeps keepsInv check_orders.
Proof. unfold check_orders, big_Set. keeps. Qed.
Lemma Start_inv : Keeps keepsInv OrderMgr_Start.
Proof. unfold OrderMgr_Start. keeps. Qed.

Lemma HandleCreateOrder_inv clock b : Keeps keepsInv (HandleCreateOrder clock b).
Proof.
  apply keepsInv_of_wp. intros s Hi. unfold HandleCreateOrder. apply wp_bind, wp_of_option; [done|]. intros ob _.
  cbv zeta. apply wp_bind, wp_gets, wp_bind, wp_of_outcome; [done|]. intros [] Hc.
  rewrite (inv_quo s Hi) in Hc. apply createOrder_check_priced in Hc.
  pose proof (fun clock => HandleCreateOrder_body_good clock (om_localID s) ob Hc).
  apply wp_of_keepsInv; [keeps|done].
Qed.

(** A user with an entry keeps it. *)
Definition grows (u : Z) s s' : Prop := is_Some (om_orders s !! u) -> is_Some (om_orders s' !! u).
#[local] Instance grows_preorder u : PreOrder (grows u).
Proof. split; [by intros ? ?|]. intros s1 s2 s3 E1 E2 E. by apply E2, E1. Qed.
Lemma with_order_grows u v {A} (m : M ordCtx A) : Keeps (grows v) (with_order u m).
Proof.
  intros s Hv. unfold with_order. destruct (om_orders s !! u) as [o|]; [|done]. destruct (m _) as [r c]. cbn.
  apply lookup_insert_is_Some'. by right.
Qed.
Lemma getOrder_grows u v : Keeps (grows v) (getOrder u).
Proof.
  unfold getOrder. keeps; try (apply with_order_grows); apply keeps_modify; intros s' Hv; [done|].
  cbn. apply lookup_insert_is_Some'. by right.
Qed.

Lemma mgr_env_grows u {A} (m : M W A) : Keeps (grows u) (mgr_env m).
Proof. apply keeps_zoom. intros s w Hu. exact Hu. Qed.

(** The invariant together with an entry for [u]. *)
Definition keepsWith u s s' : Prop := Inv s /\ is_Some (om_orders s !! u) -> Inv s' /\ is_Some (om_orders s' !! u).
#[local] Instance keepsWith_preorder u : PreOrder (keepsWith u).
Proof. split; [by intros ? ?|]. intros s1 s2 s3 E1 E2 E. by apply E2, E1. Qed.
Lemma keepsWith_both u {A} (m : M OrderMgr A) : Keeps keepsInv m -> Keeps (grows u) m -> Keeps (keepsWith u) m.
Proof. intros H1 H2 s [Hi Hu]. split; [by apply H1|by apply H2]. Qed.
Lemma keepsWith_put u key value : (forall v n, key = ProBaseKey localID v n -> v = u) -> Keeps (keepsWith u) (mgr_put key value).
Proof.
  intros Hk. apply keeps_modify. intros s [[I1 I2 I3 I4] Hu]. split; [|done]. split; cbn; [done..|].
  intros v n Hv. destruct (decide (key = ProBaseKey localID v n)) as [Ek|Hne].
  - apply Hk in Ek as ->. rewrite Hv in Hu. by destruct Hu.
  - rewrite lookup_insert_ne by done. by apply I4.
Qed.
#[local] Hint Extern 2 (Keeps (keepsWith _) (getOrder _)) => apply keepsWith_both; [apply getOrder_inv|apply getOrder_grows] : keeps.
#[local] Hint Extern 2 (Keeps (keepsWith _) (with_order _ the_or)) => apply keepsWith_both; [apply the_or_inv|apply with_order_grows] : keeps.
#[local] Hint Extern 2 (Keeps (keepsWith _) (mgr_env _)) => apply keepsWith_both; [apply mgr_env_inv|apply mgr_env_grows] : keeps.
#[local] Hint Extern 2 (Keeps (keepsWith _) (mgr_put (ProSeqKey _ _ _ _) _)) =>
  apply keepsWith_put; intros v0 n0 E0; exfalso; by eapply NewKey_tag_ne in E0 : keeps.
#[local] Hint Extern 2 (Keeps (keepsWith _) (mgr_put (ProBaseKey _ _ _) _)) =>
  apply keepsWith_put; intros v0 n0 [E0 _]%ProBaseKey_inj; by symmetry : keeps.

Lemma HandleFixSeq_inv u b : Keeps keepsInv (HandleFixSeq u b).
Proof.
  apply keepsInv_of_wp. intros s Hi. unfold HandleFixSeq. apply wp_bind, wp_of_option; [done|]. intros os _. cbv zeta.
  apply wp_bind, wp_check; [done|]. intros _. apply wp_bind, wp_gets. apply wp_bind.
  unfold mgr_get at 1. apply wp_bind, wp_gets, wp_bind, wp_of_option; [done|]. intros val Hval.
  apply wp_of_option; [done|]. intros ob _. rewrite (inv_local s Hi) in *.
  assert (is_Some (om_orders s !! u)) as Hu.
  { destruct (om_orders s !! u) eqn:E; [done|]. by rewrite (inv_fresh s Hi) in Hval. }
  assert (forall s', keepsWith u s s' -> Inv s') as Hw by (intros s' Hk; by destruct (Hk (conj Hi Hu))).
  eapply wpx_keeps; [|apply Hw|apply Hw]. unfold fix_previous, fix_verify, big_Add, big_Set, mgr_get. keeps.
Qed.

Inductive pro_step : OrderMgr -> OrderMgr -> Prop :=
  | step_Start s : pro_step s (OrderMgr_Start s).2
  | step_getOrder u s : pro_step s (getOrder u s).2
  | step_HandleData clock u seg s : pro_step s (HandleData clock u seg s).2
  | step_HandleQuotation u s : pro_step s (HandleQuotation u s).2
  | step_HandleCreateOrder clock b s : pro_step s (HandleCreateOrder clock b s).2
  | step_HandleCreateSeq clock u b s : pro_step s (HandleCreateSeq clock u b s).2
  | step_HandleFinishSeq clock u b s : pro_step s (HandleFinishSeq clock u b s).2
  | step_HandleFixSeq u b s : pro_step s (HandleFixSeq u b s).2
  | step_createOrder s : pro_step s (createOrder_go s).2
  | step_check s : pro_step s (check_orders s).2.

Lemma pro_step_inv s s' : pro_step s s' -> Inv s -> Inv s'.
Proof.
  destruct 1; [apply Start_inv|apply getOrder_inv|apply HandleData_inv|apply HandleQuotation_inv|apply HandleCreateOrder_inv
    |apply HandleCreateSeq_inv|apply HandleFinishSeq_inv|apply HandleFixSeq_inv|apply createOrder_go_inv|apply check_orders_inv].
Qed.
End Manager.
End ProOrderProps.

(** ** The theorems *)

Section Theorems.
Context `{!StateEnv} {DV W : Type} `{!DataVerifierOps DV, !IRole W, !IDataService W, !IChainState W, !ISettle W}.
Context `{!Codec NonceState, !Codec SeqState, !Codec DataInfo, !Codec Quotation}.
Notation proOrder := (proOrder (DV := DV)).
Notation ordCtx := (ordCtx (DV := DV) (W := W)).
Notation OrderMgr := (OrderMgr (DV := DV) (W := W)).
Implicit Types (s : OrderMgr) (c : ordCtx) (o : proOrder) (userID localID : Z) (clock : nat -> Z).

Definition quoted localID (price : Z) : Quotation := mkQuotation localID 0 (Some price) (Some DefaultPiecePrice).

(** A process started on a store that holds no order. *)
Definition running localID price s : Prop :=
  exists ds restrict env, (forall u n, ds !! ProBaseKey localID u n = None) /\
    rtc pro_step (NewOrderMgr localID price ds restrict env) s.

Lemma running_inv localID price s : running localID price s -> Inv (quoted localID price) localID s.
Proof.
  intros (ds & restrict & env & Hds & Hrun).
  assert (Inv (quoted localID price) localID (NewOrderMgr localID price ds restrict env : OrderMgr)) as Hi.
  { split; [done|done|by intros u o E|]. intros u n _. apply Hds. }
  clear Hds. induction Hrun as [s|s1 s2 s3 Hs _ IH]; [done|]. by eapply IH, pro_step_inv.
Qed.

(** C15. Whatever requests a provider has served, in any order and with any
    failures, the order it has open costs a number of segments at a price per
    segment no lower than the one quoted and has the size of that many, its
    successor has the next nonce, and the current sequence adds to it the size
    and price of some number of segments more. *)
Theorem orders_priced localID price s u o b :
  running localID price s -> om_orders s !! u = Some o -> po_base o = Some b ->
  (exists k p, 0 <= k /\ price <= p /\ ob_SegPrice (so_OrderBase b) = Some p /\
     so_Price b = Some (k * p) /\ so_Size b = u64 (k * DefaultSegSize)) /\
  (po_orderState o = Order_Ack -> po_nonce o = u64 (ob_Nonce (so_OrderBase b) + 1)) /\
  (po_seqState o <> OrderSeq_Init ->
     exists q n, po_seq o = Some q /\ os_Nonce (sos_OrderSeq q) = ob_Nonce (so_OrderBase b) /\
       po_seqNum o = u32 (os_SeqNum (sos_OrderSeq q) + 1) /\ 0 <= n /\ above n b (sos_OrderSeq q)).
Proof.
  intros Hr%running_inv Ho Hb. destruct (inv_order _ _ s Hr u o Ho) as (Hg & _).
  destruct (Hg b Hb) as ((k & p & q & ? & ? & Hq & ? & ? & ?) & Hn & Hs).
  injection Hq as <-. split_and!; [by exists k, p|done|done].
Qed.

(** A successful handler ran on the entry that [getOrder] found or made. *)
Lemma with_order_Ok {A} u (m : M ordCtx A) s a s' :
  with_order u m s = (Ok a, s') -> exists o c', om_orders s !! u = Some o /\
    m (mkOrdCtx o (om_ds s) (om_env s)) = (Ok a, c') /\ om_orders s' !! u = Some (oc_or c') /\ om_ds s' = oc_ds c'.
Proof.
  unfold with_order. destruct (om_orders s !! u) as [o|]; [|done]. destruct (m _) as [r c] eqn:E.
  intros [= -> <-]. exists o, c. split_and!; [done|done| |done]. cbn. by rewrite lookup_insert_eq.
Qed.

Lemma check_ready_Ok u s s' : check_ready u s = (Ok tt, s') -> s' = s.
Proof.
  unfold check_ready, with_order. destruct (om_orders s !! u) as [o|] eqn:Ho; [|done].
  unfold bind, the_or, gets, check. cbn. destruct (po_ready o); [|done]. intros [= <-].
  destruct s. unfold set_om_env, set_om_ds, set_om_orders. cbn in *. by rewrite insert_id.
Qed.

Lemma HandleFinishSeq_run localID price s clock u b data s' :
  running localID price s -> HandleFinishSeq clock u b s = (Ok data, s') ->
  exists os s1 o c', decode b = Some os /\ getOrder u s = (Ok tt, s1) /\ om_orders s1 !! u = Some o /\
    (good (quoted localID price) o /\ po_userID o = u /\ po_localID o = localID) /\
    HandleFinishSeq_body clock localID u os (mkOrdCtx o (om_ds s1) (om_env s1)) = (Ok data, c') /\
    om_orders s' !! u = Some (oc_or c') /\ om_ds s' = oc_ds c'.
Proof.
  intros Hi%running_inv. unfold HandleFinishSeq. intros Hr.
  apply bind_Ok in Hr as (s0 & ? & [-> ->]%gets_Ok & Hr). apply bind_Ok in Hr as (os & ? & [Hos ->]%of_option_Ok & Hr).
  apply bind_Ok in Hr as ([] & s1 & Hget & Hr). apply bind_Ok in Hr as ([] & s2 & ->%check_ready_Ok & Hr).
  pose proof (getOrder_inv (quoted localID price) localID u s Hi) as Hi1. rewrite Hget in Hi1. cbn in Hi1.
  apply with_order_Ok in Hr as (o & c' & Ho & Hc & Ho' & Hds).
  exists os, s1, o, c'. rewrite (inv_local _ _ s Hi) in Hc. split_and!; try done; by destruct (inv_order _ _ s1 Hi1 u o Ho) as (? & ? & ?).
Qed.

Lemma HandleFinishSeq_Ok localID price s clock u b data s' :
  running localID price s -> HandleFinishSeq clock u b s = (Ok data, s') ->
  exists os s1 o c', decode b = Some os /\ getOrder u s = (Ok tt, s1) /\ om_orders s1 !! u = Some o /\
    finish_answer localID u (mkOrdCtx o (om_ds s1) (om_env s1)) os data c' /\ om_orders s' !! u = Some (oc_or c').
Proof.
  intros Hr Hh. destruct (HandleFinishSeq_run _ _ _ _ _ _ _ _ Hr Hh) as (os & s1 & o & c' & Hos & Hget & Ho & (Hg & _) & Hc & Ho' & _).
  exists os, s1, o, c'. split_and!; try done.
  pose proof (HandleFinishSeq_body_wp (quoted localID price) clock localID u os (mkOrdCtx o (om_ds s1) (om_env s1)) Hg) as Hw.
  unfold wpx in Hw. rewrite Hc in Hw. apply Hw.
Qed.

(** C17. What HandleFinishSeq answers with is the sequence of the entry, which is
    then done.  Where it was open, the user's signatures on it and on the order it
    leads to have been verified, the other two are the provider's on the same two
    hashes, and it adds the size and price of [n] segments to the order before; a
    done sequence is answered again only for the same contents. *)
Theorem finish_signs localID price s clock u b data s' :
  running localID price s -> HandleFinishSeq clock u b s = (Ok data, s') ->
  exists os s1 o o' base q,
    decode b = Some os /\ getOrder u s = (Ok tt, s1) /\ om_orders s1 !! u = Some o /\ po_base o = Some base /\
    om_orders s' !! u = Some o' /\ po_seq o' = Some q /\ po_seqState o' = OrderSeq_Done /\ marshal q = Some data /\
    ((po_seqState o = OrderSeq_Ack /\ po_base o' = Some (advanced base (sos_OrderSeq q)) /\
      exists n h, 0 <= n /\ above n base (sos_OrderSeq q) /\ SignedOrder_Hash (advanced base (sos_OrderSeq q)) = Some h /\
        Verifies u (SignedOrderSeq_Hash q) (sos_UserDataSig q) /\ Signs localID (SignedOrderSeq_Hash q) (sos_ProDataSig q) /\
        Verifies u h (sos_UserSig q) /\ Signs localID h (sos_ProSig q)) \/
     (po_seqState o = OrderSeq_Done /\ po_seq o = Some q /\ SignedOrderSeq_Hash os = SignedOrderSeq_Hash q)).
Proof.
  intros Hr Hh. destruct (HandleFinishSeq_Ok _ _ _ _ _ _ _ _ Hr Hh) as
    (os & s1 & o & c' & Hos & Hget & Ho & (base & q & Hb & _ & Hm & Hq & Hst & Hcase) & Ho').
  exists os, s1, o, (oc_or c'), base, q. split_and!; [done..|].
  destruct Hcase as [(Ha & (n & Hn & Hab & E1 & E2 & Hv1 & Hs1 & h & Hh' & Hv2 & Hs2) & Hb')|(Hd & Hq0 & Hhash)]; [left|by right].
  split_and!; [done..|]. exists n, h. rewrite E1, E2. by split_and!.
Qed.

(** *** Orders *)

#[local] Existing Instance sameOr_preorder.
#[local] Hint Extern 1 (Keeps sameOr (ds_Put _ _)) => by apply keeps_modify : keeps.
#[local] Hint Resolve keeps_the_or keeps_the_base keeps_the_seq : keeps.

(** The order is accepted, and is then the entry's. *)
Definition accepted localID ob data (c' : ordCtx) : Prop :=
  exists h sig, SignedOrder_Hash ob = Some h /\ Signs localID h sig /\ marshal (set_so_Psign (fun _ => sig) ob) = Some data /\
    po_base (oc_or c') = Some (set_so_Psign (fun _ => sig) ob) /\ po_orderState (oc_or c') = Order_Ack /\
    po_nonce (oc_or c') = u64 (ob_Nonce (so_OrderBase ob) + 1) /\ po_seqState (oc_or c') = OrderSeq_Init /\ po_seqNum (oc_or c') = 0.

(** Saving and answering, with the signature in place. *)
Lemma accept_saves_Ok c data c' :
  (do! saveOrderBase; do! pro_saveOrderState; let! base := the_base in of_option (marshal base) "serialize") c = (Ok data, c') ->
  oc_or c' = oc_or c /\ exists b, po_base (oc_or c) = Some b /\ marshal b = Some data.
Proof.
  intros Hr. assert (oc_or c' = oc_or c) as Hs.
  { assert (Keeps (sameOr (DV := DV) (W := W)) (do! saveOrderBase; do! pro_saveOrderState; let! base := the_base in of_option (marshal base) "serialize")) as Hk
      by (unfold saveOrderBase, pro_saveOrderState; keeps).
    specialize (Hk c). by rewrite Hr in Hk. }
  split; [done|]. apply bind_Ok in Hr as ([] & c1 & _ & Hr). apply bind_Ok in Hr as ([] & c2 & _ & Hr).
  apply bind_Ok in Hr as (b & c3 & Hb & [Hm ->]%of_option_Ok). unfold the_base, the_or in Hb.
  apply bind_Ok in Hb as (o & ? & [-> ->]%gets_Ok & [Hb ->]%deref_Ok). exists b. by rewrite <-Hs.
Qed.

(** Signing the order of the entry and answering. *)
Lemma accept_sign_Ok localID ob c data c' :
  (let! base := the_base in
   let! h := deref (SignedOrder_Hash base) in
   let! psig := on_env (RoleSign localID h SigSecp256k1) in
   do! on_base (set_so_Psign (fun _ => psig));
   do! saveOrderBase; do! pro_saveOrderState; let! base := the_base in of_option (marshal base) "serialize") c = (Ok data, c') ->
  po_base (oc_or c) = Some ob ->
  exists h sig, SignedOrder_Hash ob = Some h /\ Signs localID h sig /\ marshal (set_so_Psign (fun _ => sig) ob) = Some data /\
    oc_or c' = set_po_base (fun _ => Some (set_so_Psign (fun _ => sig) ob)) (oc_or c).
Proof.
  intros Hr Hb. apply bind_Ok in Hr as (b & c1 & Hb' & Hr). unfold the_base, the_or in Hb'.
  apply bind_Ok in Hb' as (o & ? & [-> ->]%gets_Ok & [Hb' ->]%deref_Ok). assert (b = ob) as -> by congruence.
  apply bind_Ok in Hr as (h & ? & [Hh ->]%deref_Ok & Hr).
  apply bind_Ok in Hr as (sig & c2 & Hs & Hr). apply zoom_Ok in Hs as (w & Hs & ->).
  apply bind_Ok in Hr as ([] & c3 & H3 & Hr). apply modify_Ok in H3 as E3.
  apply accept_saves_Ok in Hr as (Hsame & b & Hb3 & Hm).
  assert (oc_or c3 = set_po_base (fun _ => Some (set_so_Psign (fun _ => sig) ob)) (oc_or c)) as Ho.
  { rewrite E3. cbn. unfold set_po_base. by rewrite Hb. }
  rewrite Ho in Hb3. injection Hb3 as <-. exists h, sig. rewrite Hsame, Ho. split_and!; [done| |done|done]. by eexists _, w.
Qed.

Lemma accept_order_Ok t localID ob c data c' : accept_order t localID ob c = (Ok data, c') -> accepted localID ob data c'.
Proof.
  unfold accept_order. intros Hr. apply bind_Ok in Hr as ([] & c1 & H1 & Hr). apply modify_Ok in H1 as E1.
  apply bind_Ok in Hr as ([] & c2 & H2 & Hr). pose proof (dv_reset_same c1) as Hd. rewrite H2 in Hd. cbn [snd] in Hd.
  assert (head_of (oc_or c2) = (Some ob, Order_Ack, u64 (ob_Nonce (so_OrderBase ob) + 1), (OrderSeq_Init, 0), (po_localID (oc_or c), po_userID (oc_or c)))) as Hh.
  { unfold sameHead in Hd. rewrite Hd, E1. reflexivity. }
  injection Hh as E2 E3 E4 E5 E6 _ _. destruct (accept_sign_Ok _ ob _ _ _ Hr E2) as (h & sig & Hh & Hs & Hm & Ho).
  exists h, sig. rewrite Ho. by split_and!.
Qed.

Lemma close_previous_Ok t c c' : close_previous t c = (Ok tt, c') ->
  (po_orderState (oc_or c') = Order_Init) \/ (c' = c /\ (po_base (oc_or c) = None \/ po_orderState (oc_or c) <> Order_Ack)).
Proof.
  unfold close_previous, the_or. intros Hr. apply bind_Ok in Hr as (o & ? & [-> ->]%gets_Ok & Hr).
  destruct (po_base (oc_or c)) as [b|] eqn:Hb; [|go_inv; auto]. case_bool_decide as Ha; [|go_inv; auto]. left.
  apply bind_Ok in Hr as ([] & c1 & _ & Hr). apply bind_Ok in Hr as ([] & c2 & _ & Hr).
  apply bind_Ok in Hr as ([] & c3 & _ & Hr). unfold on_or in Hr. by apply modify_Ok in Hr as ->.
Qed.

Lemma next_order_Ok clock localID ob c r c' : next_order clock localID ob c = (Ok r, c') ->
  match r with
  | Some data => accepted localID ob data c'
  | None => (po_base (oc_or c') = po_base (oc_or c) /\ po_orderState (oc_or c') = po_orderState (oc_or c)) \/
            po_base (oc_or c') = None \/ po_orderState (oc_or c') <> Order_Ack
  end.
Proof.
  unfold next_order, the_or. intros Hr. apply bind_Ok in Hr as (o & ? & [-> ->]%gets_Ok & Hr).
  destruct (po_nonce _ =? _); [|go_inv; by left].
  apply bind_Ok in Hr as ([] & c1 & H1%close_previous_Ok & Hr). apply bind_Ok in Hr as ([] & ? & ->%modify_Ok & Hr).
  apply bind_Ok in Hr as (o & ? & [-> ->]%gets_Ok & Hr). case_bool_decide as Hi.
  - apply bind_Ok in Hr as (data & c2 & H2%accept_order_Ok & [-> ->]%ret_Ok). exact H2.
  - apply ret_Ok in Hr as [-> ->]. right. cbn in *.
    destruct (bool_decide (po_orderState (oc_or c1) = Order_Done)); [done|]. destruct H1 as [H1|[-> H1]]; [done|exact H1].
Qed.

Lemma HandleCreateOrder_body_Ok clock localID ob c data c' :
  HandleCreateOrder_body clock localID ob c = (Ok data, c') ->
  accepted localID ob data c' \/
  (exists b, po_base (oc_or c) = Some b /\ po_orderState (oc_or c) = Order_Ack /\ SignedOrder_Hash ob = SignedOrder_Hash b /\
     marshal b = Some data /\ po_base (oc_or c') = Some b).
Proof.
  unfold HandleCreateOrder_body, the_or. intros Hr. apply bind_Ok in Hr as (o & ? & [-> ->]%gets_Ok & Hr).
  apply bind_Ok in Hr as ([] & ? & [_ ->]%check_Ok & Hr). apply bind_Ok in Hr as ([] & ? & ->%modify_Ok & Hr).
  apply bind_Ok in Hr as (r & c2 & H2%next_order_Ok & Hr).
  destruct r as [data'|]; [apply ret_Ok in Hr as [-> ->]; by left|]. cbn in H2.
  unfold same_order, the_or in Hr. apply bind_Ok in Hr as (o & ? & [-> ->]%gets_Ok & Hr).
  destruct (po_base (oc_or c2)) as [b|] eqn:Hb; [|done]. destruct (_ && _) eqn:Hc; [|done].
  apply andb_true_iff in Hc as [_ Ha%bool_decide_eq_true]. destruct H2 as [[H2 H3]|[H2|H2]]; [|done|done].
  apply bind_Ok in Hr as (h1 & ? & [Hh1 ->]%deref_Ok & Hr). apply bind_Ok in Hr as (h2 & ? & [Hh2 ->]%deref_Ok & Hr).
  case_bool_decide as He.
  - apply of_option_Ok in Hr as [Hm ->]. right. exists b. split_and!; congruence.
  - destruct (_ && _); [|done]. left. by eapply accept_order_Ok.
Qed.

(** C18. What HandleCreateOrder answers with is the order of the entry of the user
    it names, which is acknowledged: the requested order, which passed the checks,
    under the provider's signature, with no sequence open and the next nonce
    expected; or, for a repeated request, the order with the same hash that was
    there. *)
Theorem create_signs localID price s clock b data s' :
  running localID price s -> HandleCreateOrder clock b s = (Ok data, s') ->
  exists ob o', decode b = Some ob /\ createOrder_check (quoted localID price) (clock 0%nat) ob = Ok tt /\
    om_orders s' !! ob_UserID (so_OrderBase ob) = Some o' /\
    ((exists h sig, SignedOrder_Hash ob = Some h /\ Signs localID h sig /\ marshal (set_so_Psign (fun _ => sig) ob) = Some data /\
        po_base o' = Some (set_so_Psign (fun _ => sig) ob) /\ po_orderState o' = Order_Ack /\
        po_nonce o' = u64 (ob_Nonce (so_OrderBase ob) + 1) /\ po_seqState o' = OrderSeq_Init /\ po_seqNum o' = 0) \/
     (exists base, po_base o' = Some base /\ SignedOrder_Hash ob = SignedOrder_Hash base /\ marshal base = Some data)).
Proof.
  intros Hi%running_inv. unfold HandleCreateOrder. intros Hr.
  apply bind_Ok in Hr as (ob & ? & [Hob ->]%of_option_Ok & Hr). cbv zeta in Hr.
  apply bind_Ok in Hr as (s0 & ? & [-> ->]%gets_Ok & Hr). apply bind_Ok in Hr as ([] & ? & [Hc ->]%of_outcome_Ok & Hr).
  apply bind_Ok in Hr as ([] & s1 & _ & Hr). apply bind_Ok in Hr as (o & s2 & _ & Hr).
  destruct (po_ready o); [|by apply bind_Ok in Hr as ([] & ? & _ & Hr)]. cbn [negb] in Hr.
  apply with_order_Ok in Hr as (o1 & c' & _ & Hb%HandleCreateOrder_body_Ok & Ho' & _).
  rewrite (inv_local _ _ s Hi) in Hb. rewrite (inv_quo _ _ s Hi) in Hc.
  exists ob, (oc_or c'). split_and!; [done..|]. destruct Hb as [Hb|(base & _ & _ & Hh & Hm & Hb)]; [by left|right].
  exists base. by split_and!.
Qed.

(** A HandleFinishSeq for a user whose entry holds no order panics: the error
    message reads the nonce of the order that is not there. *)
Theorem finish_without_order_panics clock u b (os : SignedOrderSeq) s o :
  decode b = Some os -> om_orders s !! u = Some o -> po_ready o = true -> po_base o = None ->
  (HandleFinishSeq clock u b s).1 = Panic "nil pointer dereference".
Proof.
  intros Hos Ho Hr Hb. unfold HandleFinishSeq. rewrite (bind_run _ _ _ _ _ (eq_refl : gets _ _ = _)), Hos.
  rewrite (bind_run _ _ _ _ _ (eq_refl : of_option (Some _) _ _ = _)).
  assert (getOrder u s = (Ok tt, s)) as Hg by (unfold getOrder, bind, gets; by rewrite Ho).
  rewrite (bind_run _ _ _ _ _ Hg).
  assert (exists s2, check_ready u s = (Ok tt, s2)) as [s2 Hk].
  { unfold check_ready, with_order. rewrite Ho. unfold bind, the_or, gets. cbn. rewrite Hr. cbn. eauto. }
  rewrite (bind_run _ _ _ _ _ Hk). apply check_ready_Ok in Hk as ->. unfold with_order. rewrite Ho.
  unfold HandleFinishSeq_body, the_or. rewrite (bind_run _ _ _ _ _ (eq_refl : on_or _ _ = _)), (bind_run _ _ _ _ _ (eq_refl : gets _ _ = _)).
  cbn [oc_or set_oc_or set_po_availTime po_base]. by rewrite Hb.
Qed.

(** Signatures the role service accepts for, or makes under, an account are good
    under the keys the chain has of it. *)
Class RolesAgree (id : Z) (ri : roleInfo) : Prop := {
  agree_verify h sig (c : StateMgr) : Verifies id h sig -> verify (r_base ri) h sig c = (Ok tt, c);
  agree_sign h sig (c : StateMgr) : Signs id h sig -> verify (r_base ri) h sig c = (Ok tt, c);
}.

(** C16. The chain accepts the sequence a provider has just signed: under the
    same order, the checks of addSeq on the amounts and on all four signatures
    pass, when the list of segments is as long as the number paid for. *)
Theorem finished_seq_accepted localID price s clock u b data s' (uri pri : roleInfo) (cb : SignedOrder) (c : StateMgr) :
  running localID price s -> HandleFinishSeq clock u b s = (Ok data, s') ->
  RolesAgree u uri -> RolesAgree localID pri ->
  forall s1 o base, getOrder u s = (Ok tt, s1) -> om_orders s1 !! u = Some o -> po_base o = Some base -> po_seqState o = OrderSeq_Ack ->
  so_OrderBase cb = so_OrderBase base -> so_Size cb = so_Size base -> so_Price cb = so_Price base ->
  exists q n, marshal q = Some data /\ 0 <= n /\ above n base (sos_OrderSeq q) /\
    verify (r_base uri) (SignedOrderSeq_Hash q) (sos_UserDataSig q) c = (Ok tt, c) /\
    verify (r_base pri) (SignedOrderSeq_Hash q) (sos_ProDataSig q) c = (Ok tt, c) /\
    (segs_count (os_Segments (sos_OrderSeq q)) = n -> n < 2 ^ 63 -> addSeq_amounts q uri pri cb c = (Ok tt, c)).
Proof.
  intros Hr Hh Hu Hp s1 o base Hget Ho Hb Hst Eb Es Ep.
  destruct (HandleFinishSeq_Ok _ _ _ _ _ _ _ _ Hr Hh) as
    (os & s1' & o' & c' & _ & Hget' & Ho' & (base' & q & Hb' & _ & Hm & _ & _ & Hcase) & _).
  assert (s1' = s1) as -> by congruence. assert (o' = o) as -> by congruence. cbn in Hb', Hcase.
  assert (base' = base) as -> by congruence.
  destruct Hcase as [(_ & (n & Hn & Hab & E1 & E2 & Hv1 & Hs1 & h & Hh' & Hv2 & Hs2) & _)|(Hd & _)]; [|cbn in Hd; rewrite Hst in Hd; discriminate Hd].
  exists q, n. rewrite E1. split_and!; [done..|by apply agree_verify|by apply agree_sign|].
  intros Hcount Hlt. destruct Hab as (p & P & F1 & F2 & F3 & F4).
  unfold addSeq_amounts. rewrite Hcount, Eb, Es, Ep, F1, F2, F3, F4.
  unfold bind, check, deref, ret. unfold u64 at 1 2. rewrite Zplus_mod_idemp_r, Z.eqb_refl.
  rewrite i64_id by lia. replace (p * n + P) with (P + n * p) by lia. rewrite Z.eqb_refl.
  assert (SignedOrder_Hash (mkSignedOrder (so_OrderBase base) (u64 (so_Size base + n * DefaultSegSize)) (Some (P + n * p))
    (mkSignature 0 []) (mkSignature 0 [])) = Some h) as ->.
  { rewrite <-Hh'. unfold advanced. rewrite F3, F4. done. }
  rewrite E2, (agree_verify _ _ c Hv2). by apply agree_sign.
Qed.
End Theorems.
