(* ===== verification/ProNode.v ===== *)
(** * ProNode: a provider's answers on the network

    [service/provider/handler.go]: the handlers the provider registers for the
    messages of users about orders.  They check that the service runs, that the
    request is signed by the account the header names (a pushed segment is not
    signed), call the order manager and sign its answer.  Each returns a message,
    of type [NetMessage_Err] when something failed.  Reading a segment, which is
    paid for with checks of another module, is left out. *)

From S2P Require Import Prelude GoMonad Codec Keys Segments SegmentID Types Tx Fr StateTypes State Orders HotStuff Restrict ProOrder ProOrderProps.

(** ** lib/pb: the messages *)

Definition NetMessage_Err := 0.
Definition NetMessage_PutSegment := 6.
Definition NetMessage_AskPrice := 10.
Definition NetMessage_CreateOrder := 11.
Definition NetMessage_CreateSeq := 13.
Definition NetMessage_FinishSeq := 14.
Definition NetMessage_FixSeq := 18.

Record NetMessage := mkNetMessage {
  nm_Type : Z; nm_From : Z; nm_MsgInfo : bytes; nm_Sign : bytes }.

Section ProNode.
Context `{!StateEnv} {DV W : Type} `{!DataVerifierOps DV, !IRole W, !IDataService W, !IChainState W, !ISettle W}.
Context `{!Codec NonceState, !Codec SeqState, !Codec DataInfo, !Codec Quotation, !Codec Signature}.
Notation OrderMgr := (OrderMgr (DV := DV) (W := W)).

(** The fields the handlers use; [OrderMgr] and the role service are embedded. *)
Record ProviderNode := mkProviderNode {
  pn_OrderMgr : OrderMgr; pn_roleID : Z; pn_ready : bool; pn_orderService : bool }.
Definition set_pn_OrderMgr m (p : ProviderNode) := mkProviderNode m (pn_roleID p) (pn_ready p) (pn_orderService p).
Implicit Types (p : ProviderNode) (mes : NetMessage) (clock : nat -> Z).

Definition on_mgr {A} (m : M OrderMgr A) : M ProviderNode A := zoom pn_OrderMgr set_pn_OrderMgr m.

Definition NetMessage_error p (info : bytes) : NetMessage := mkNetMessage NetMessage_Err (pn_roleID p) info [].

(** A body whose error becomes the answer: [resp.Header.Type = NetMessage_Err;
    resp.Data.MsgInfo = []byte(err.Error())]. *)
Definition answer (body : M ProviderNode NetMessage) : M ProviderNode NetMessage := fun p =>
  match body p with
  | (Err e, p') => (Ok (NetMessage_error p' (bytes_of_string e)), p')
  | r => r
  end.

Definition check_service p (needOrder : bool) : M ProviderNode unit :=
  do! check (pn_ready p) "pro service not ready";
  if needOrder then check (pn_orderService p) "pro order service not ready, no space left" else ret tt.

(** The signature on the request; [None] is an answer without a text. *)
Definition verify_from mes : M ProviderNode bool :=
  let! sigFrom := of_option (decode (nm_Sign mes)) "signature" in
  on_mgr (mgr_env (RoleVerify (nm_From mes) (blake3_Sum256 (nm_MsgInfo mes)) sigFrom)).

(** The answer carries the provider's signature on the result. *)
Definition sign_result mes (res : bytes) : M ProviderNode NetMessage :=
  let! p := gets (fun p => p) in
  let! sigTo := on_mgr (mgr_env (RoleSign (pn_roleID p) (blake3_Sum256 res) SigSecp256k1)) in
  let! sigByte := of_option (marshal sigTo) "serialize" in
  ret (mkNetMessage (nm_Type mes) (pn_roleID p) res sigByte).

Definition signed_request (needOrder : bool) mes (handler : M OrderMgr bytes) : M ProviderNode NetMessage :=
  answer (
    let! p := gets (fun p => p) in
    do! check_service p needOrder;
    let! ok := verify_from mes in
    if ok then let! res := on_mgr handler in sign_result mes res
    else let! p := gets (fun p => p) in ret (NetMessage_error p [])).

Definition handleQuotation mes : M ProviderNode NetMessage :=
  answer (
    let! p := gets (fun p => p) in
    do! check_service p true;
    let! res := on_mgr (HandleQuotation (nm_From mes)) in
    sign_result mes res).

Definition handlePutSeg clock mes : M ProviderNode NetMessage :=
  answer (
    let! p := gets (fun p => p) in
    do! check_service p true;
    let! seg := of_option (BaseSegment_Deserialize (nm_MsgInfo mes)) "segment" in
    do! check (BaseSegment_IsValid seg DefaultSegSize) "invalid segment";
    do! on_mgr (HandleData clock (nm_From mes) seg);
    ret (mkNetMessage (nm_Type mes) (pn_roleID p) [] [])).

Definition handleCreateOrder clock mes : M ProviderNode NetMessage :=
  signed_request true mes (HandleCreateOrder clock (nm_MsgInfo mes)).
Definition handleCreateSeq clock mes : M ProviderNode NetMessage :=
  signed_request true mes (HandleCreateSeq clock (nm_From mes) (nm_MsgInfo mes)).
Definition handleFinishSeq clock mes : M ProviderNode NetMessage :=
  signed_request false mes (HandleFinishSeq clock (nm_From mes) (nm_MsgInfo mes)).
Definition handleFixSeq mes : M ProviderNode NetMessage :=
  signed_request false mes (HandleFixSeq (nm_From mes) (nm_MsgInfo mes)).

(** The registration of [provider.go]. *)
Definition dispatch clock mes : M ProviderNode NetMessage :=
  let t := nm_Type mes in
  if t =? NetMessage_AskPrice then handleQuotation mes
  else if t =? NetMessage_CreateOrder then handleCreateOrder clock mes
  else if t =? NetMessage_CreateSeq then handleCreateSeq clock mes
  else if t =? NetMessage_FinishSeq then handleFinishSeq clock mes
  else if t =? NetMessage_FixSeq then handleFixSeq mes
  else if t =? NetMessage_PutSegment then handlePutSeg clock mes
  else throw "no handler".

(** ** What an unsigned request can do: nothing but through a pushed segment *)

Lemma answer_never_errs body p e p' : answer body p <> (Err e, p').
Proof. unfold answer. by destruct (body p) as [[?|?|?] ?]. Qed.

Lemma answer_not_err body p m p' :
  answer body p = (Ok m, p') -> nm_Type m <> NetMessage_Err -> body p = (Ok m, p').
Proof. unfold answer. destruct (body p) as [[?|?|?] ?]; [done| |done]. by intros [= <- <-]. Qed.

Lemma on_mgr_Ok {A} (m : M OrderMgr A) p a p' :
  on_mgr m p = (Ok a, p') -> exists s, m (pn_OrderMgr p) = (Ok a, s) /\ p' = set_pn_OrderMgr s p.
Proof. apply zoom_Ok. Qed.
Lemma mgr_env_Ok {A} (m : M W A) (s : OrderMgr) a s' :
  mgr_env m s = (Ok a, s') -> exists w, m (om_env s) = (Ok a, w) /\ s' = set_om_env (fun _ => w) s.
Proof. apply zoom_Ok. Qed.

(** C20. A request about an order that is answered without an error carries a
    signature the role service accepts for the account in its header; the order
    manager ran on the entries and the store as they were, and the answer is its
    result under the provider's signature. *)
Theorem answer_signed needOrder mes handler p m p' :
  signed_request needOrder mes handler p = (Ok m, p') -> nm_Type m <> NetMessage_Err ->
  exists sigFrom sigTo res w s1,
    decode (nm_Sign mes) = Some sigFrom /\ Verifies (nm_From mes) (blake3_Sum256 (nm_MsgInfo mes)) sigFrom /\
    handler (set_om_env (fun _ => w) (pn_OrderMgr p)) = (Ok res, s1) /\
    nm_MsgInfo m = res /\ marshal sigTo = Some (nm_Sign m) /\ Signs (pn_roleID p) (blake3_Sum256 res) sigTo /\
    om_orders (pn_OrderMgr p') = om_orders s1 /\ om_ds (pn_OrderMgr p') = om_ds s1.
Proof.
  intros Hr Ht. apply answer_not_err in Hr; [|done].
  apply bind_Ok in Hr as (p0 & ? & [-> ->]%gets_Ok & Hr). apply bind_Ok in Hr as ([] & p1 & Hc & Hr).
  assert (p1 = p) as -> by (unfold check_service in Hc; destruct needOrder; by go_inv).
  apply bind_Ok in Hr as (ok & p2 & Hv & Hr). unfold verify_from in Hv.
  apply bind_Ok in Hv as (sigFrom & ? & [Hs ->]%of_option_Ok & (s & (w & Hw & ->)%mgr_env_Ok & ->)%on_mgr_Ok).
  destruct ok; [|by go_inv]. apply bind_Ok in Hr as (res & p3 & (s1 & Hh & ->)%on_mgr_Ok & Hr).
  apply bind_Ok in Hr as (p4 & ? & [-> ->]%gets_Ok & Hr).
  apply bind_Ok in Hr as (sigTo & ? & (s2 & (w2 & Hw2 & ->)%mgr_env_Ok & ->)%on_mgr_Ok & Hr).
  apply bind_Ok in Hr as (b & ? & [Hb ->]%of_option_Ok & [-> ->]%ret_Ok).
  exists sigFrom, sigTo, res, w, s1. split_and!; [done|by eexists _, w|done|done|done|by eexists _, w2|done|done].
Qed.

(** A request about an order whose signature the role service does not
    accept for the account in its header moves no entry and writes nothing. *)
Theorem unsigned_changes_nothing needOrder mes handler p :
  (forall sigFrom w w', decode (nm_Sign mes) = Some sigFrom ->
     RoleVerify (nm_From mes) (blake3_Sum256 (nm_MsgInfo mes)) sigFrom w <> (Ok true, w')) ->
  let s' := pn_OrderMgr (signed_request needOrder mes handler p).2 in
  let s := pn_OrderMgr p in
  om_orders s' = om_orders s /\ om_ds s' = om_ds s /\ om_users s' = om_users s /\ om_spawned s' = om_spawned s.
Proof.
  intros Hno s' s. subst s' s. unfold signed_request, answer, bind, gets.
  destruct (check_service p needOrder p) as [r p1] eqn:Hc.
  assert (p1 = p) as ->.
  { unfold check_service, bind, check, ret, throw in Hc. destruct (pn_ready p), needOrder, (pn_orderService p); by injection Hc. }
  destruct r as [[]|e|e]; [|done|done]. unfold verify_from, bind, of_option, throw, ret.
  destruct (decode (nm_Sign mes)) as [sig|] eqn:Hs; [|done]. unfold on_mgr, mgr_env, zoom.
  destruct (RoleVerify _ _ _ _) as [[ok|e|e] w] eqn:Hv; [|done|done].
  destruct ok; [|done]. exfalso. by eapply Hno.
Qed.
End ProNode.
