(* ===== verification/ProRestart.v ===== *)
(** * ProRestart: a provider that starts again

    What [getOrder] reads back from the store after a sequence has been finished
    is the entry the process held, with a verifier that has seen no segment. *)

From S2P Require Import Prelude GoMonad Codec Keys Segments SegmentID Types Tx Fr StateTypes State Orders HotStuff Restrict ProOrder ProOrderProps.

Section ProRestart.
Context `{!StateEnv} {DV W : Type} `{!DataVerifierOps DV, !IRole W, !IDataService W, !IChainState W, !ISettle W}.
Context `{!Codec NonceState, !Codec SeqState, !Codec DataInfo, !Codec Quotation}.
Context `{!CodecLaws NonceState, !CodecLaws SeqState, !CodecLaws DataInfo, !CodecLaws SignedOrder, !CodecLaws SignedOrderSeq}.
Notation proOrder := (proOrder (DV := DV)).
Notation ordCtx := (ordCtx (DV := DV) (W := W)).
Notation OrderMgr := (OrderMgr (DV := DV) (W := W)).
Implicit Types (s : OrderMgr) (c : ordCtx) (o : proOrder) (userID localID nonce : Z) (clock : nat -> Z).

(** ** The entry in the store *)

(** The parts of an entry whose sequence is open or done, under their keys. *)
Record saved (o : proOrder) (ds : gmap bytes bytes) (b : SignedOrder) (q : SignedOrderSeq) : Prop := {
  saved_base : po_base o = Some b;
  saved_seq : po_seq o = Some q;
  saved_base_ds : exists x, marshal b = Some x /\
    ds !! ProBaseKey (po_localID o) (po_userID o) (ob_Nonce (so_OrderBase b)) = Some x;
  saved_state_ds : exists x, marshal (mkNonceState (ob_Nonce (so_OrderBase b)) (po_orderTime o) (po_orderState o)) = Some x /\
    ds !! ProNonceKey (po_localID o) (po_userID o) = Some x;
  saved_seq_ds : exists x, marshal q = Some x /\
    ds !! ProSeqKey (po_localID o) (po_userID o) (ob_Nonce (so_OrderBase b)) (os_SeqNum (sos_OrderSeq q)) = Some x;
  saved_seqstate_ds : exists x, marshal (mkSeqState (os_SeqNum (sos_OrderSeq q)) (po_seqTime o) (po_seqState o)) = Some x /\
    ds !! ProSeqNumKey (po_localID o) (po_userID o) (ob_Nonce (so_OrderBase b)) = Some x;
  saved_info_ds : exists x, marshal (po_di o) = Some x /\ ds !! PayInfoKey (po_localID o) (po_userID o) = Some x }.

(** ** Reading it back *)

(** The chain answers, and knows a public key of the user. *)
Class ChainReady (localID userID : Z) (dv : DV) : Prop := {
  ready_key : exists pkData pk, (forall w, StateGetPDPPublicKey userID w = (Ok pkData, w)) /\
    pdp_DeserializePublicKey pkData = Some pk /\ NewDataVerifier pk = Some dv;
  ready_nonce : exists dns, forall w, StateGetOrderNonce userID localID MaxUint64 w = (Ok dns, w);
}.

(** What the provider remembers of an entry. *)
Definition memory o :=
  (po_base o, po_orderTime o, po_orderState o, po_nonce o, (po_seq o, po_seqTime o, po_seqState o, po_seqNum o)).

Lemma on_env_run {A} (m : M W A) c a : (forall w, m w = (Ok a, w)) -> on_env m c = (Ok a, c).
Proof. intros Hm. unfold on_env, zoom. rewrite Hm. by destruct c. Qed.

Lemma try_run {S A} (m : M S A) (x : S) a y : m x = (Ok a, y) -> try_err m x = (Ok (Some a), y).
Proof. unfold try_err. by intros ->. Qed.

Lemma ds_decode_run {A} `{!Codec A, !CodecLaws A} key (x : A) c :
  (exists b, marshal x = Some b /\ oc_ds c !! key = Some b) -> ds_decode key c = (Ok x, c).
Proof.
  intros (b & Hm & Hl). unfold ds_decode, bind, gets, of_option, ret. rewrite Hl. by rewrite (decode_marshal _ _ Hm).
Qed.

Lemma set_verifier_run pkData pk dv c :
  pdp_DeserializePublicKey pkData = Some pk -> NewDataVerifier pk = Some dv ->
  exists o, set_verifier pkData c = (Ok tt, set_oc_or (fun _ => o) c) /\ po_dv o = Some dv /\ po_ready o = true /\
    po_di o = po_di (oc_or c) /\ po_localID o = po_localID (oc_or c) /\ po_userID o = po_userID (oc_or c).
Proof.
  intros Hpk Hdv. unfold set_verifier. eexists. split.
  - unfold bind at 1, of_option at 1, ret at 1. rewrite Hpk. unfold bind, of_option, ret. rewrite Hdv. reflexivity.
  - done.
Qed.

Lemma load_info_run localID userID d c :
  (exists x, marshal d = Some x /\ oc_ds c !! PayInfoKey localID userID = Some x) ->
  load_info localID userID c = (Ok tt, set_oc_or (set_po_di (fun _ => raise_size d)) c).
Proof.
  intros (x & Hm & Hl). unfold load_info, bind at 1, gets. rewrite Hl.
  unfold bind, on_or, modify. unfold set_oc_or, set_po_di. cbn. by rewrite (unmarshal_marshal _ _ _ Hm).
Qed.

(** Loading what was saved. *)
Lemma getOrder_load_saved localID userID dv o ds b q c :
  ChainReady localID userID dv -> saved o ds b q -> po_localID o = localID -> po_userID o = userID ->
  po_nonce o = u64 (ob_Nonce (so_OrderBase b) + 1) -> po_seqNum o = u32 (os_SeqNum (sos_OrderSeq q) + 1) ->
  so_Size b <> 0 \/ os_SeqNum (sos_OrderSeq q) = 0 -> oc_ds c = ds ->
  exists o', getOrder_load localID userID c = (Ok tt, set_oc_or (fun _ => o') c) /\ memory o' = memory o /\
    po_di o' = raise_size (po_di o) /\ po_dv o' = Some dv /\ po_ready o' = true.
Proof.
  intros [(pkData & pk & Hk & Hpk & Hdv) (dns & Hdns)] [Hb Hq Hbd Hsd Hqd Hnd Hid] Hl Hu Hn Hsn Hsz <-. subst localID userID.
  destruct (set_verifier_run pkData pk dv c Hpk Hdv) as (o1 & Hrun & Hd1 & Hr1 & _).
  unfold getOrder_load. rewrite (bind_run _ _ _ _ _ (try_run _ _ _ _ (on_env_run _ _ _ Hk))), (bind_run _ _ _ _ _ Hrun).
  erewrite bind_run by (apply load_info_run; exact Hid). rewrite (bind_run _ _ _ _ _ (on_env_run _ _ _ Hdns)).
  rewrite (bind_run _ _ _ _ _ (eq_refl : gets oc_ds _ = _)). cbn [oc_ds set_oc_or].
  destruct Hsd as (x & Hx & ->). rewrite (decode_marshal _ _ Hx). rewrite (bind_run _ _ _ _ _ (eq_refl : of_option (Some _) _ _ = _)).
  cbn [nst_Nonce nst_Time nst_State].
  erewrite bind_run by (apply ds_decode_run; exact Hbd). rewrite (bind_run _ _ _ _ _ (eq_refl : on_or _ _ = _)).
  destruct Hnd as (y & Hy & ->). rewrite (decode_marshal _ _ Hy). rewrite (bind_run _ _ _ _ _ (eq_refl : of_option (Some _) _ _ = _)).
  cbn [sst_Number sst_Time sst_State].
  erewrite bind_run by (apply ds_decode_run; exact Hqd). rewrite (bind_run _ _ _ _ _ (eq_refl : on_or _ _ = _)).
  assert ((0 <? os_SeqNum (sos_OrderSeq q)) && (so_Size b =? 0) = false) as ->.
  { destruct Hsz as [Hsz%Z.eqb_neq| ->]; [by rewrite Hsz, andb_false_r|done]. }
  eexists. split; [reflexivity|]. unfold memory. cbn. rewrite Hb, Hq, Hn, Hsn. by split_and!.
Qed.

(** ** Finishing a sequence saves the entry *)

Lemma ds_Put_Ok key v c c' : ds_Put key v c = (Ok tt, c') -> c' = set_oc_ds <[key := v]> c.
Proof. unfold ds_Put. by intros ->%modify_Ok. Qed.
Lemma the_base_Ok c b c' : the_base c = (Ok b, c') -> po_base (oc_or c) = Some b /\ c' = c.
Proof. unfold the_base, the_or. intros Hr. go_inv. done. Qed.
Lemma the_seq_Ok c q c' : the_seq c = (Ok q, c') -> po_seq (oc_or c) = Some q /\ c' = c.
Proof. unfold the_seq, the_or. intros Hr. go_inv. done. Qed.

(** Each save puts the encoding of a part of the entry under its key. *)
Definition puts (key : bytes) (enc : option bytes) c c' : Prop := exists x, enc = Some x /\ c' = set_oc_ds <[key := x]> c.

Lemma saveOrderBase_Ok c c' b : saveOrderBase c = (Ok tt, c') -> po_base (oc_or c) = Some b ->
  puts (ProBaseKey (po_localID (oc_or c)) (po_userID (oc_or c)) (ob_Nonce (so_OrderBase b))) (marshal b) c c'.
Proof.
  unfold saveOrderBase, the_or. intros Hr Hb. apply bind_Ok in Hr as (o & ? & [-> ->]%gets_Ok & Hr).
  apply bind_Ok in Hr as (b' & ? & [Hb' ->]%the_base_Ok & Hr). apply bind_Ok in Hr as (x & ? & [Hx ->]%of_option_Ok & ->%ds_Put_Ok).
  exists x. assert (b' = b) as -> by congruence. done.
Qed.
Lemma saveOrderSeq_Ok c c' b q : saveOrderSeq c = (Ok tt, c') -> po_base (oc_or c) = Some b -> po_seq (oc_or c) = Some q ->
  puts (ProSeqKey (po_localID (oc_or c)) (po_userID (oc_or c)) (ob_Nonce (so_OrderBase b)) (os_SeqNum (sos_OrderSeq q))) (marshal q) c c'.
Proof.
  unfold saveOrderSeq, the_or. intros Hr Hb Hq. apply bind_Ok in Hr as (o & ? & [-> ->]%gets_Ok & Hr).
  apply bind_Ok in Hr as (b' & ? & [Hb' ->]%the_base_Ok & Hr). apply bind_Ok in Hr as (q' & ? & [Hq' ->]%the_seq_Ok & Hr).
  apply bind_Ok in Hr as (x & ? & [Hx ->]%of_option_Ok & ->%ds_Put_Ok).
  exists x. assert (b' = b) as -> by congruence. assert (q' = q) as -> by congruence. done.
Qed.
Lemma saveSeqState_Ok c c' b q : saveSeqState c = (Ok tt, c') -> po_base (oc_or c) = Some b -> po_seq (oc_or c) = Some q ->
  puts (ProSeqNumKey (po_localID (oc_or c)) (po_userID (oc_or c)) (ob_Nonce (so_OrderBase b)))
    (marshal (mkSeqState (os_SeqNum (sos_OrderSeq q)) (po_seqTime (oc_or c)) (po_seqState (oc_or c)))) c c'.
Proof.
  unfold saveSeqState, the_or. intros Hr Hb Hq. apply bind_Ok in Hr as (o & ? & [-> ->]%gets_Ok & Hr).
  apply bind_Ok in Hr as (b' & ? & [Hb' ->]%the_base_Ok & Hr). apply bind_Ok in Hr as (q' & ? & [Hq' ->]%the_seq_Ok & Hr).
  apply bind_Ok in Hr as (x & ? & [Hx ->]%of_option_Ok & ->%ds_Put_Ok).
  exists x. assert (b' = b) as -> by congruence. assert (q' = q) as -> by congruence. done.
Qed.

(** The five tables are apart. *)
Ltac other_table := rewrite lookup_insert_ne by (by apply NewKey_tag_ne).

Lemma finish_saves_saved localID c data c' b q :
  finish_saves localID c = (Ok data, c') -> po_base (oc_or c) = Some b -> po_seq (oc_or c) = Some q ->
  po_localID (oc_or c) = localID -> is_Some (marshal (po_di (oc_or c))) ->
  (exists x, marshal (mkNonceState (ob_Nonce (so_OrderBase b)) (po_orderTime (oc_or c)) (po_orderState (oc_or c))) = Some x /\
     oc_ds c !! ProNonceKey localID (po_userID (oc_or c)) = Some x) ->
  oc_or c' = oc_or c /\ saved (oc_or c') (oc_ds c') b q.
Proof.
  intros Hr Hb Hq Hl [xd Hd] (x & Hx & Hn). unfold finish_saves in Hr.
  apply bind_Ok in Hr as ([] & c1 & H1 & Hr). apply (saveOrderBase_Ok _ _ b) in H1 as (x1 & E1 & ->); [|done].
  apply bind_Ok in Hr as ([] & c2 & H2 & Hr). apply (saveOrderSeq_Ok _ _ b q) in H2 as (x2 & E2 & ->); [|done..].
  apply bind_Ok in Hr as ([] & c3 & H3 & Hr). apply (saveSeqState_Ok _ _ b q) in H3 as (x3 & E3 & ->); [|done..].
  apply bind_Ok in Hr as ([] & c4 & H4 & Hr). unfold savePayInfo, the_or in H4.
  apply bind_Ok in H4 as (o & ? & [-> ->]%gets_Ok & ->%ds_Put_Ok).
  apply bind_Ok in Hr as (q' & ? & [_ ->]%the_seq_Ok & Hr). go_inv. cbn [oc_or oc_ds set_oc_ds] in *. rewrite Hd.
  split; [done|]. split; [done|done|..]; rewrite ?Hl.
  - exists x1. split; [done|]. do 3 other_table. apply lookup_insert_eq.
  - exists x. split; [done|]. by do 4 other_table.
  - exists x2. split; [done|]. do 2 other_table. apply lookup_insert_eq.
  - exists x3. split; [done|]. other_table. apply lookup_insert_eq.
  - exists xd. split; [done|]. apply lookup_insert_eq.
Qed.

(** Until then nothing of the order but its size and price has changed. *)
Definition fixed_of c :=
  (oc_ds c, po_localID (oc_or c), po_userID (oc_or c), (po_orderTime (oc_or c), po_orderState (oc_or c), so_OrderBase <$> po_base (oc_or c))).
Definition still c c' : Prop := fixed_of c' = fixed_of c.
#[local] Hint Resolve keeps_the_or keeps_the_base keeps_the_seq : keeps.
#[local] Instance still_preorder : PreOrder still.
Proof. split; [by intros c|]. intros c1 c2 c3 E1 E2. unfold still in *. congruence. Qed.
#[local] Hint Extern 1 (Keeps still (on_env _)) => by apply keeps_on_env : keeps.
#[local] Hint Extern 2 (Keeps still (on_or _)) => by apply keeps_modify : keeps.
#[local] Hint Extern 2 (Keeps still (on_seq _)) => by apply keeps_modify : keeps.
Lemma on_base_still f : (forall b, so_OrderBase (f b) = so_OrderBase b) -> Keeps still (on_base f).
Proof.
  intros Hf. apply keeps_modify. intros c. unfold still, fixed_of. cbn.
  destruct (po_base (oc_or c)); cbn; [by rewrite Hf|done].
Qed.
#[local] Hint Extern 2 (Keeps still (on_base _)) => by apply on_base_still : keeps.

Lemma finish_hash_still os : Keeps still (finish_hash os).
Proof. unfold finish_hash, refetch, refetch_one, add_segment_price, dv_reset, dv_add, big_Set, big_Add. keeps. Qed.
Lemma finish_sign_still localID userID h os : Keeps still (finish_sign localID userID h os).
Proof. unfold finish_sign, role_verify, big_Set. keeps. Qed.

Lemma finish_ack_saves clock localID userID os c data c' :
  finish_ack clock localID userID os c = (Ok data, c') ->
  exists c2, finish_saves localID c2 = (Ok data, c') /\ still c c2.
Proof.
  unfold finish_ack. intros Hr.
  apply bind_Ok in Hr as (h & c1 & H1%(keeps_Ok still) & Hr); [|apply finish_hash_still].
  apply bind_Ok in Hr as (o & ? & [-> ->]%gets_Ok & Hr). apply bind_Ok in Hr as (dv & ? & [_ ->]%deref_Ok & Hr).
  apply bind_Ok in Hr as (ok & ? & [_ ->]%of_outcome_Ok & Hr). apply bind_Ok in Hr as ([] & ? & [_ ->]%check_Ok & Hr).
  apply bind_Ok in Hr as (sigs & c3 & H3%(keeps_Ok still) & Hr); [|apply finish_sign_still].
  apply bind_Ok in Hr as ([] & c4 & H4%(keeps_Ok still) & Hr); [|by keeps].
  apply bind_Ok in Hr as (q & ? & [_ ->]%the_seq_Ok & Hr).
  apply bind_Ok in Hr as ([] & c5 & H5%(keeps_Ok still) & Hr); [|by keeps].
  apply bind_Ok in Hr as ([] & c6 & H6%(keeps_Ok still) & Hr); [|by keeps].
  exists c6. split; [exact Hr|]. unfold still in *. congruence.
Qed.

Lemma HandleFinishSeq_body_ack clock localID userID os c data c' :
  HandleFinishSeq_body clock localID userID os c = (Ok data, c') -> po_seqState (oc_or c) = OrderSeq_Ack ->
  po_orderState (oc_or c) = Order_Ack /\
  finish_ack clock localID userID os (set_oc_or (set_po_availTime (fun _ => clock 0%nat)) c) = (Ok data, c').
Proof.
  intros Hr Hst. unfold HandleFinishSeq_body in Hr. apply bind_Ok in Hr as ([] & ? & ->%modify_Ok & Hr).
  apply bind_Ok in Hr as (o & ? & [-> ->]%gets_Ok & Hr). apply bind_Ok in Hr as (b & ? & [_ ->]%deref_Ok & Hr).
  apply bind_Ok in Hr as ([] & ? & [Ha%bool_decide_eq_true ->]%check_Ok & Hr). cbn in Ha. split; [done|].
  apply bind_Ok in Hr as ([] & ? & [_ ->]%check_Ok & Hr).
  destruct (po_seq _) as [q|]; [|done]. destruct (os_SeqNum _ =? _); [|done].
  cbn [oc_or set_oc_or set_po_availTime po_seqState] in Hr. rewrite Hst, bool_decide_true in Hr by done. exact Hr.
Qed.

(** The entry a finished sequence leaves is in the store. *)
Lemma finish_ack_saved quo clock localID userID os b c data c' :
  finish_ack clock localID userID os c = (Ok data, c') -> Good quo c -> po_base (oc_or c) = Some b ->
  po_seqState (oc_or c) = OrderSeq_Ack -> po_orderState (oc_or c) = Order_Ack -> po_localID (oc_or c) = localID ->
  (exists x, marshal (mkNonceState (ob_Nonce (so_OrderBase b)) (po_orderTime (oc_or c)) (po_orderState (oc_or c))) = Some x /\
     oc_ds c !! ProNonceKey localID (po_userID (oc_or c)) = Some x) ->
  is_Some (marshal (po_di (oc_or c'))) ->
  exists q, po_seq (oc_or c') = Some q /\ saved (oc_or c') (oc_ds c') (advanced b (sos_OrderSeq q)) q /\
    po_localID (oc_or c') = localID /\ po_userID (oc_or c') = po_userID (oc_or c) /\
    po_nonce (oc_or c') = u64 (ob_Nonce (so_OrderBase b) + 1) /\ po_seqNum (oc_or c') = u32 (os_SeqNum (sos_OrderSeq q) + 1).
Proof.
  intros Hr Hg Hb Hst Ha Hl Hn Hd.
  pose proof (finish_ack_wp quo clock localID userID os b c Hg Hb Hst) as Hw. unfold wpx in Hw. rewrite Hr in Hw.
  destruct Hw as (Hg' & q & _ & _ & Hq & Hb' & Hst').
  destruct (finish_ack_saves _ _ _ _ _ _ _ Hr) as (c2 & Hs & Hstill).
  pose proof (keeps_Ok _ _ _ _ _ (finish_saves_same localID) Hs) as Hsame. unfold sameOr in Hsame.
  unfold still, fixed_of in Hstill. injection Hstill as S1 S2 S3 S4 S5 S6.
  destruct (Hg' _ Hb') as (_ & Hnonce & Hopen).
  assert (po_seqState (oc_or c') <> OrderSeq_Init) as Hni by (rewrite Hst'; discriminate).
  destruct (Hopen Hni) as (q' & n & Hq' & _ & Hsn & _). assert (q' = q) as -> by congruence.
  exists q. rewrite Hsame in *. split_and!; [done| |congruence|congruence|apply Hnonce; congruence|done].
  rewrite <-Hsame. eapply finish_saves_saved; [exact Hs|done|done|congruence|done|].
  destruct Hn as (x & Hx & Hlk). exists x. cbn. rewrite S4, S5, S1, S3. done.
Qed.

(** C19. A provider that stops after HandleFinishSeq has answered and starts on
    the store it left loads the entry it had: order, sequence, their states and
    times and the next numbers.  The order must hold data or the sequence be its
    first.  The verifier is a new one: segments received since are not in it. *)
Theorem restart_after_finish localID price s clock u b data s' s1 o o' base q dv s2 :
  running localID price s -> HandleFinishSeq clock u b s = (Ok data, s') ->
  getOrder u s = (Ok tt, s1) -> om_orders s1 !! u = Some o -> po_seqState o = OrderSeq_Ack -> po_base o = Some base ->
  (exists x, marshal (mkNonceState (ob_Nonce (so_OrderBase base)) (po_orderTime o) (po_orderState o)) = Some x /\
     om_ds s1 !! ProNonceKey localID u = Some x) ->
  om_orders s' !! u = Some o' -> po_seq o' = Some q -> is_Some (marshal (po_di o')) ->
  os_Size (sos_OrderSeq q) <> 0 \/ os_SeqNum (sos_OrderSeq q) = 0 ->
  ChainReady localID u dv -> om_localID s2 = localID -> om_ds s2 = om_ds s' -> om_orders s2 !! u = None ->
  exists s3 o3, getOrder u s2 = (Ok tt, s3) /\ om_orders s3 !! u = Some o3 /\
    memory o3 = memory o' /\ po_di o3 = raise_size (po_di o') /\ po_dv o3 = Some dv.
Proof.
  intros Hr Hh Hget Ho Hst Hbase Hnk Ho' Hq Hdi Hsz Hcr Hl2 Hds2 Hno.
  destruct (HandleFinishSeq_run _ _ _ _ _ _ _ _ Hr Hh) as (os & s1' & o1 & c' & Hos & Hget' & Ho1 & (Hg & Hu & Hl) & Hc & Ho2 & Hds).
  assert (s1' = s1) as -> by congruence. assert (o1 = o) as -> by congruence. assert (oc_or c' = o') as <- by congruence.
  destruct (HandleFinishSeq_body_ack _ _ _ _ _ _ _ Hc Hst) as [Ha Hc'].
  destruct (finish_ack_saved (quoted localID price) _ _ _ _ base _ _ _ Hc') as (q' & Hq' & Hsaved & Hl' & Hu' & Hn & Hsn);
    [exact Hg|done|done|done|done|rewrite <-Hu in Hnk; exact Hnk|done|]. assert (q' = q) as -> by congruence.
  cbn in Hu'. rewrite Hu in Hu'.
  unfold getOrder. rewrite (bind_run _ _ _ _ _ (eq_refl : gets _ _ = _)), Hno.
  do 2 rewrite (bind_run _ _ _ _ _ (eq_refl : modify _ _ = _)). rewrite Hl2.
  set (n0 := newOrder (DV := DV) localID u). set (s2' := set_om_orders <[u:=n0]> (set_om_users (fun l => l ++ [u]) s2)).
  destruct (getOrder_load_saved localID u dv (oc_or c') (oc_ds c') _ q (mkOrdCtx n0 (om_ds s2') (om_env s2')) Hcr Hsaved Hl' Hu' Hn Hsn)
    as (o3 & Hload & Hm & Hdi3 & Hdv & _); [by destruct Hsz; [left|right]|by rewrite <-Hds, <-Hds2|].
  assert (with_order u (getOrder_load localID u) s2' = (Ok tt, set_om_env (fun _ => om_env s2') (set_om_ds (fun _ => om_ds s2')
    (set_om_orders <[u := o3]> s2')))) as Hw.
  { unfold with_order. unfold s2' at 1. cbn [om_orders set_om_orders]. rewrite lookup_insert_eq. fold n0. rewrite Hload. done. }
  rewrite (bind_run _ _ _ _ _ (try_run _ _ _ _ Hw)). eexists _, o3. split; [reflexivity|].
  split; [|by split_and!]. cbn. apply lookup_insert_eq.
Qed.
End ProRestart.
