(* ===== verification/ProRuns.v ===== *)
(** * ProRuns: a provider serving one user

    The order service on concrete interfaces: a role service that signs and
    verifies as the toy scheme does, a data service that is a map, a chain that
    knows the keys of users 7 and 8 and no order, and a verifier that compares the
    sum of the data with the sum of the tags.  Provider 9 quotes 100.  The runs
    are the witnesses of the theorems about the service, and show what a user can
    get signed. *)

From S2P Require Import Prelude GoMonad Codec Keys Segments SegmentID Types Tx Fr StateTypes Concrete State Orders Scenario HotStuff Restrict ProOrder ProOrderProps ProNode ProRestart.

#[export] Instance wire_NonceState : Wire NonceState.
Proof.
  refine (wire_iso (fun r => (nst_Nonce r, nst_Time r, nst_State r)) (fun '(a0, a1, a2) => mkNonceState a0 a1 a2) _).
  by intros [].
Defined.
#[export] Instance wire_SeqState : Wire SeqState.
Proof.
  refine (wire_iso (fun r => (sst_Number r, sst_Time r, sst_State r)) (fun '(a0, a1, a2) => mkSeqState a0 a1 a2) _).
  by intros [].
Defined.
#[export] Instance wire_OrderPayInfo : Wire OrderPayInfo.
Proof.
  refine (wire_iso (fun r => (opi_ID r, opi_Size r, opi_ConfirmSize r, opi_OnChainSize r, opi_ExpireSize r, opi_NeedPay r, opi_Paid r, opi_Balance r))
    (fun '(a0, a1, a2, a3, a4, a5, a6, a7) => mkOrderPayInfo a0 a1 a2 a3 a4 a5 a6 a7) _).
  by intros [].
Defined.
#[export] Instance wire_DataInfo : Wire DataInfo.
Proof.
  refine (wire_iso (fun r => (di_OrderPayInfo r, di_Received r, di_ConfirmedNonce r, di_SubNonce r)) (fun '(a0, a1, a2, a3) => mkDataInfo a0 a1 a2 a3) _).
  by intros [].
Defined.
#[export] Instance wire_Quotation : Wire Quotation.
Proof.
  refine (wire_iso (fun r => (qu_ProID r, qu_TokenIndex r, qu_SegPrice r, qu_PiecePrice r)) (fun '(a0, a1, a2, a3) => mkQuotation a0 a1 a2 a3) _).
  by intros [].
Defined.

(** ** The interfaces *)

Definition world : Type := gmap bytes BaseSegment.

#[export] Instance toy_role : IRole world := {
  RoleSign id msg _ := ret (sig_of id msg);
  RoleVerify id msg sig := ret (bool_decide (sig = sig_of id msg));
  RoleVerifyMulti _ _ := ret true;
  RoleSelf := throw "unused";
  RoleGet _ _ := throw "unused";
  RoleSanityCheck _ := ret true;
}.
#[export] Instance toy_data : IDataService world := {
  PutSegmentToLocal seg := modify <[bs_segID seg := seg]>;
  GetSegmentFromLocal sid := let! w := gets (fun w => w) in of_option (w !! sid) "not found";
  HasSegment sid w := bool_decide (is_Some (w !! sid));
}.
#[export] Instance toy_chain : IChainState world := {
  StateGetPDPPublicKey id := if (id =? 7) || (id =? 8) then ret (put_be 8 id) else throw "not found";
  StateGetOrderNonce _ _ _ := ret (mkNonceSeq 0 0 0);
  StateGetOrder _ _ _ := throw "not found";
  StateGetUsersAt _ := ret [];
}.
#[export] Instance toy_settle : ISettle world := { SettleGetStoreInfo _ _ := throw "not found" }.

#[export] Instance toy_verifier : DataVerifierOps (Z * Z) := {
  NewDataVerifier _ := Some (0, 0);
  dv_Add _ seg tag := modify (fun d => (d.1 + get_be seg, d.2 + get_be tag));
  dv_Result d := Ok (d.1 =? d.2);
  dv_Reset _ := (0, 0);
}.

(** ** One order, one sequence, one segment *)

Definition now := 1700000000.
Definition clock0 : nat -> Z := fun _ => now.
Definition no_sig : Signature := mkSignature 0 [].
Definition order_of (user nonce price : Z) : SignedOrder :=
  mkSignedOrder (mkOrderBase user 9 nonce now (19826 * 86400) 0 (Some price) (Some DefaultPiecePrice)) 0 (Some 0) no_sig no_sig.
Definition seq_of (num size price : Z) (segs : list AggSegs) : OrderSeq := mkOrderSeq 7 9 0 num size (Some price) segs.
Definition unsigned_seq (q : OrderSeq) : SignedOrderSeq := mkSignedOrderSeq q no_sig no_sig no_sig no_sig.

(** The user's two signatures on a sequence that leads to the order of [size] and [price]. *)
Definition user_signed (b : SignedOrder) (q : OrderSeq) : SignedOrderSeq :=
  mkSignedOrderSeq q (sig_of 7 (SignedOrderSeq_Hash (unsigned_seq q))) no_sig
    (sig_of 7 (default [] (SignedOrder_Hash (advanced b q)))) no_sig.

Definition fs7 : bytes := toy_digest 20 (put_be 8 7).
Definition data7 : bytes := bytes_of_string "abcd".
(** A segment with four bytes of data, whose tags are the data. *)
Definition segment7 (stripe : Z) : BaseSegment :=
  mkBaseSegment (CreateSegmentID fs7 0 stripe 3) (Prefix_Serialize (mkPrefix 0 1 1 1 1 4) ++ data7 ++ data7 ++ data7).

Notation toy_mgr := (OrderMgr (DV := Z * Z) (W := world)).
Definition m0 : toy_mgr := NewOrderMgr 9 100 ∅ (wl_New ∅) ∅.
Definition m1 : toy_mgr := (HandleCreateOrder clock0 (enc (order_of 7 0 120)) m0).2.
Definition m2 : toy_mgr := (HandleCreateSeq clock0 7 (enc (unsigned_seq (seq_of 0 0 0 []))) m1).2.
Definition m3 : toy_mgr := (HandleData clock0 7 (segment7 5) m2).2.
Definition q4 : OrderSeq := seq_of 0 DefaultSegSize 120 [mkAggSegs 0 5 1 3].
Definition req4 : bytes := enc (user_signed (order_of 7 0 120) q4).
Definition m4 : toy_mgr := (HandleFinishSeq clock0 7 req4 m3).2.

Definition entry (s : toy_mgr) : option (proOrder (DV := Z * Z)) := om_orders s !! 7.
Example run4 : (po_seqState <$> entry m4, po_orderState <$> entry m4, (so_Size <$> (entry m4 ≫= po_base))) =
  (Some OrderSeq_Done, Some Order_Ack, Some DefaultSegSize).
Proof. vm_compute. reflexivity. Qed.

Lemma run_value {S A} (m : M S A) (s : S) a : (m s).1 = Ok a -> m s = (Ok a, (m s).2).
Proof. destruct (m s) as [r s']. by intros <-. Qed.

(** ** The runs are runs of the service *)

Lemma m0_running : running 9 100 m0.
Proof. exists ∅, (wl_New ∅), ∅. split; [intros; apply lookup_empty|apply rtc_refl]. Qed.
Lemma running_step (s s' : toy_mgr) : running 9 100 s -> pro_step s s' -> running 9 100 s'.
Proof. intros (ds & r & e & Hd & Hr) Hs. exists ds, r, e. split; [done|]. by eapply rtc_r. Qed.
Lemma m1_running : running 9 100 m1.
Proof. eapply running_step; [apply m0_running|apply step_HandleCreateOrder]. Qed.
Lemma m2_running : running 9 100 m2.
Proof. eapply running_step; [apply m1_running|apply step_HandleCreateSeq]. Qed.
Lemma m3_running : running 9 100 m3.
Proof. eapply running_step; [apply m2_running|apply step_HandleData]. Qed.

Definition o3 : proOrder (DV := Z * Z) := Eval vm_compute in default (newOrder 0 0) (entry m3).
Lemma o3_entry : om_orders m3 !! 7 = Some o3.
Proof. vm_compute. reflexivity. Qed.
Definition b3 : SignedOrder := Eval vm_compute in default (order_of 0 0 0) (po_base o3).

Lemma orders_priced_witness :
  running 9 100 m3 /\ om_orders m3 !! 7 = Some o3 /\ po_base o3 = Some b3 /\
  (exists k p, 0 <= k /\ 100 <= p /\ ob_SegPrice (so_OrderBase b3) = Some p /\
     so_Price b3 = Some (k * p) /\ so_Size b3 = u64 (k * DefaultSegSize)).
Proof.
  split; [apply m3_running|]. split; [apply o3_entry|]. split; [reflexivity|].
  apply (orders_priced 9 100 m3 7 o3 b3 m3_running o3_entry eq_refl).
Defined.

Definition answer1 : bytes := Eval vm_compute in
  match (HandleCreateOrder clock0 (enc (order_of 7 0 120)) m0).1 with Ok d => d | _ => [] end.
Lemma create_run : HandleCreateOrder clock0 (enc (order_of 7 0 120)) m0 = (Ok answer1, m1).
Proof. refine (run_value _ _ _ _). vm_compute. reflexivity. Qed.
Lemma create_signs_witness :
  running 9 100 m0 /\ exists o' : proOrder (DV := Z * Z), om_orders m1 !! 7 = Some o'.
Proof.
  split; [apply m0_running|].
  destruct (create_signs 9 100 m0 clock0 (enc (order_of 7 0 120)) answer1 m1 m0_running create_run) as (ob & o' & Hob & _ & Ho & _).
  exists o'. assert (ob = order_of 7 0 120) as -> by (vm_compute in Hob; injection Hob as <-; vm_compute; reflexivity). exact Ho.
Defined.

Definition answer4 : bytes := Eval vm_compute in
  match (HandleFinishSeq clock0 7 req4 m3).1 with Ok d => d | _ => [] end.
Lemma finish_run : HandleFinishSeq clock0 7 req4 m3 = (Ok answer4, m4).
Proof. refine (run_value _ _ _ _). vm_compute. reflexivity. Qed.
Lemma getOrder_run : getOrder 7 m3 = (Ok tt, m3).
Proof. unfold getOrder, bind, gets. by rewrite o3_entry. Qed.

Lemma finish_signs_witness :
  running 9 100 m3 /\ exists o' q, om_orders m4 !! 7 = Some o' /\ po_seq o' = Some q /\ marshal q = Some answer4 /\
    po_seqState o' = OrderSeq_Done.
Proof.
  split; [apply m3_running|].
  destruct (finish_signs 9 100 m3 clock0 7 req4 answer4 m4 m3_running finish_run)
    as (os & s1 & o & o' & base & q & _ & _ & _ & _ & Ho' & Hq & Hst & Hm & _).
  exists o', q. auto.
Defined.

Definition chain_role (typ id : Z) : roleInfo := mkRoleEntry (Some (role_of typ id [])) (mkRoleValue 0 (Some 0)).
Lemma roles_agree typ id : RolesAgree (W := world) id (chain_role typ id).
Proof.
  assert (forall h sig (c : StateMgr), sig = sig_of id h -> verify (r_base (chain_role typ id)) h sig c = (Ok tt, c)) as Hv.
  { intros h sig c ->. unfold verify, verify_with, bind, deref, of_option, check, ret. cbn.
    by rewrite bool_decide_true. }
  split.
  - intros h sig c (w & w' & Hok). apply Hv. cbn in Hok. unfold ret in Hok. injection Hok as Hok _.
    by apply bool_decide_eq_true in Hok.
  - intros h sig c (w & w' & Hok). apply Hv. cbn in Hok. unfold ret in Hok. by injection Hok.
Qed.

Lemma finished_seq_accepted_witness :
  running 9 100 m3 /\ exists q n, marshal q = Some answer4 /\ above n b3 (sos_OrderSeq q) /\
    (segs_count (os_Segments (sos_OrderSeq q)) = n -> n < 2 ^ 63 ->
       addSeq_amounts q (chain_role RoleInfo_User 7) (chain_role RoleInfo_Provider 9) b3 st2 = (Ok tt, st2)).
Proof.
  split; [apply m3_running|].
  destruct (finished_seq_accepted 9 100 m3 clock0 7 req4 answer4 m4 (chain_role RoleInfo_User 7) (chain_role RoleInfo_Provider 9) b3 st2
    m3_running finish_run (roles_agree _ _) (roles_agree _ _) m3 o3 b3 getOrder_run o3_entry eq_refl eq_refl eq_refl eq_refl eq_refl)
    as (q & n & Hm & _ & Hab & _ & _ & Hacc).
  exists q, n. auto.
Defined.

(** ** Restarting after the answer *)

Definition o4 : proOrder (DV := Z * Z) := Eval vm_compute in default (newOrder 0 0) (entry m4).
Lemma o4_entry : om_orders m4 !! 7 = Some o4.
Proof. vm_compute. reflexivity. Qed.
Definition q4s : SignedOrderSeq := Eval vm_compute in default (unsigned_seq (seq_of 0 0 0 [])) (po_seq o4).
Lemma ready7 : ChainReady (W := world) 9 7 (0, 0).
Proof.
  split.
  - exists (put_be 8 7), (put_be 8 7). split; [intros w; reflexivity|]. split; [vm_compute; reflexivity|reflexivity].
  - exists (mkNonceSeq 0 0 0). intros w. reflexivity.
Qed.
(** The next process, on the store the first one left. *)
Definition ds4 : gmap bytes bytes := Eval vm_compute in om_ds m4.
Definition m5 : toy_mgr := NewOrderMgr 9 100 ds4 (wl_New ∅) ∅.
Lemma m5_ds : om_ds m5 = om_ds m4.
Proof. vm_cast_no_check (eq_refl ds4). Qed.

Lemma restart_after_finish_witness :
  running 9 100 m3 /\ exists s3 r3, getOrder 7 m5 = (Ok tt, s3) /\ om_orders s3 !! 7 = Some r3 /\ memory r3 = memory o4.
Proof.
  split; [apply m3_running|].
  destruct (restart_after_finish 9 100 m3 clock0 7 req4 answer4 m4 m3 o3 o4 b3 q4s (0, 0) m5
    m3_running finish_run getOrder_run o3_entry eq_refl eq_refl) as (s3 & r3 & Hg & Ho & Hm & _).
  - eexists. split; [reflexivity|]. vm_compute. reflexivity.
  - apply o4_entry.
  - vm_compute. reflexivity.
  - vm_compute. eauto.
  - right. reflexivity.
  - apply ready7.
  - reflexivity.
  - apply m5_ds.
  - reflexivity.
  - exists s3, r3. auto.
Defined.

(** ** A request for an order that was never made *)

Definition m6 : toy_mgr := (getOrder 8 m0).2.
Definition o6 : proOrder (DV := Z * Z) := Eval vm_compute in default (newOrder 0 0) (om_orders m6 !! 8).
Lemma finish_without_order_panics_witness :
  po_ready o6 = true /\ (HandleFinishSeq clock0 8 req4 m6).1 = Panic "nil pointer dereference".
Proof.
  split; [reflexivity|].
  apply (finish_without_order_panics clock0 8 req4 (user_signed (order_of 7 0 120) q4) m6 o6);
    [vm_compute; reflexivity|vm_compute; reflexivity|reflexivity|reflexivity].
Defined.

(** ** On the network *)

Definition p0 : ProviderNode (DV := Z * Z) (W := world) := mkProviderNode m0 9 true true.
(** A request that [from] signs. *)
Definition request (typ from : Z) (info : bytes) : NetMessage :=
  mkNetMessage typ from info (enc (sig_of from (blake3_Sum256 info))).
Definition mes1 : NetMessage := request NetMessage_CreateOrder 7 (enc (order_of 7 0 120)).
Definition reply1 : NetMessage := Eval vm_compute in
  match (handleCreateOrder clock0 mes1 p0).1 with Ok m => m | _ => mes1 end.
Definition p1 := (handleCreateOrder clock0 mes1 p0).2.
Lemma reply1_run : signed_request true mes1 (HandleCreateOrder clock0 (nm_MsgInfo mes1)) p0 = (Ok reply1, p1).
Proof. refine (run_value _ _ _ _). vm_compute. reflexivity. Qed.

Lemma answer_signed_witness :
  nm_Type reply1 <> NetMessage_Err /\ exists sigTo, marshal sigTo = Some (nm_Sign reply1) /\
    Signs (W := world) 9 (blake3_Sum256 (nm_MsgInfo reply1)) sigTo.
Proof.
  split; [discriminate|].
  destruct (answer_signed true mes1 (HandleCreateOrder clock0 (nm_MsgInfo mes1)) p0 reply1 p1 reply1_run ltac:(discriminate))
    as (sigFrom & sigTo & res & w & s1 & _ & _ & _ & <- & Hm & Hs & _).
  exists sigTo. auto.
Defined.

(** The same request with another account in the header. *)
Definition forged : NetMessage := mkNetMessage NetMessage_CreateOrder 8 (nm_MsgInfo mes1) (nm_Sign mes1).
Lemma unsigned_changes_nothing_witness :
  om_orders (pn_OrderMgr (signed_request true forged (HandleCreateOrder clock0 (nm_MsgInfo forged)) p0).2) = ∅.
Proof.
  refine (proj1 (unsigned_changes_nothing true forged (HandleCreateOrder clock0 (nm_MsgInfo forged)) p0 _)).
  intros sig w w' Hs Hv. vm_compute in Hs. injection Hs as <-.
  unfold RoleVerify, toy_role, ret in Hv. injection Hv as Hv _. vm_compute in Hv. discriminate Hv.
Defined.

(** ** What the code lets through *)

(** A sequence that is opened with its segments already listed. *)
Definition q_full : OrderSeq := seq_of 0 0 0 [mkAggSegs 0 5 2 3].
Definition m2f : toy_mgr := (HandleCreateSeq clock0 7 (enc (unsigned_seq q_full)) m1).2.
Definition answer_full : bytes := Eval vm_compute in
  match (HandleFinishSeq clock0 7 (enc (user_signed (order_of 7 0 120) q_full)) m2f).1 with Ok d => d | _ => [] end.

(** HandleCreateSeq takes over the list of segments of the request, and
    HandleFinishSeq then signs it without having received one of them: the
    provider vouches for two segments it does not hold, at the price of none, in a
    sequence the chain refuses. *)
Theorem signs_missing_segments :
  running 9 100 m2f /\ om_env m2f = ∅ /\
  (HandleFinishSeq clock0 7 (enc (user_signed (order_of 7 0 120) q_full)) m2f).1 = Ok answer_full /\
  exists q, decode answer_full = Some q /\ sos_OrderSeq q = q_full /\ segs_count (os_Segments (sos_OrderSeq q)) = 2 /\
    Signs (W := world) 9 (SignedOrderSeq_Hash q) (sos_ProDataSig q) /\
    (addSeq_amounts q (chain_role RoleInfo_User 7) (chain_role RoleInfo_Provider 9) (order_of 7 0 120) st2).1 = Err "add seq size wrong".
Proof.
  split; [eapply running_step; [apply m1_running|apply step_HandleCreateSeq]|].
  split; [vm_compute; reflexivity|]. split; [vm_compute; reflexivity|].
  eexists. split; [vm_compute; reflexivity|]. split; [vm_compute; reflexivity|]. split; [vm_compute; reflexivity|].
  split; [|vm_compute; reflexivity]. exists ∅, ∅. vm_compute. reflexivity.
Qed.
