(* ===== verification/UserOrder.v ===== *)
(** * UserOrder: the orders of a user with one provider

    [service/user/order/check.go] and the instance of [inst.go]: for each
    provider the user keeps the order it has proposed, the sequence it is filling
    and the jobs waiting to be sent, and a scheduler moves them on: a quotation
    becomes an order, the provider's signature makes it run, its sequences are
    opened, filled, signed and sent to the data chain one after the other, and
    when its time is up it is committed.

    A handler works on the instance, on the node's store and on three channels:
    messages for the chain, jobs to hand out again, and goroutines started.  The
    node is the state; readings of the clock are numbered in the order in which
    they are taken. *)

From S2P Require Import Prelude GoMonad Codec Keys Segments SegmentID Types Tx Fr StateTypes HotStuff ProOrder.

(** ** common.go, check.go: constants and states *)

Definition defaultAckWaiting := 35.
Definition minFailCnt := 100.

(** [Order_Init], [Order_Done] and [OrderSeq_Init] are the strings of the provider;
    [NonceState] and [SeqState] have the fields of the structs of the provider. *)
Definition Order_Wait : string := "wait".
Definition Order_Running : string := "running".
Definition Order_Closing : string := "closing".
Definition OrderSeq_Prepare : string := "prepare".
Definition OrderSeq_Send : string := "send".
Definition OrderSeq_Commit : string := "commit".
Definition OrderSeq_Finish : string := "finish".

(** What the manager's configuration fixes. *)
Record usrConf := mkUsrConf {
  cf_localID : Z; cf_fsID : bytes; cf_segPrice : Z; cf_orderDur : Z; cf_orderLast : Z; cf_seqLast : Z }.

(** Goroutines that are started and not yet run. *)
Inductive task :=
  | TUpdate (proID : Z)                          (** go m.update(proID) *)
  | TQuotation (proID : Z)                       (** go m.getQuotation(proID) *)
  | TNewOrderAck (proID : Z) (data : bytes)
  | TNewSeqAck (proID : Z) (data : bytes)
  | TSeqFinishAck (proID : Z) (data : bytes)
  | TCreateProOrder (proID : Z).

(** ** The instance (inst.go) *)

Record proInst := mkProInst {
  pin_localID : Z; pin_pro : Z; pin_location : string; pin_availTime : Z; pin_updateTime : Z; pin_nonce : Z;
  pin_seqNum : Z; pin_prevEnd : Z; pin_opi : OrderPayInfo; pin_base : option SignedOrder; pin_orderTime : Z;
  pin_orderState : OrderState; pin_seq : option SignedOrderSeq; pin_seqTime : Z; pin_seqState : OrderSeqState;
  pin_sjq : list SegJob; pin_inflight : bool; pin_buckets : list Z; pin_jobs : gmap Z (list SegJob);
  pin_jobCnt : Z; pin_failCnt : Z; pin_failSent : Z; pin_ready : bool; pin_inStop : bool }.

Definition set_pin_location f (x : proInst) := mkProInst (pin_localID x) (pin_pro x) (f (pin_location x)) (pin_availTime x) (pin_updateTime x) (pin_nonce x) (pin_seqNum x) (pin_prevEnd x) (pin_opi x) (pin_base x) (pin_orderTime x) (pin_orderState x) (pin_seq x) (pin_seqTime x) (pin_seqState x) (pin_sjq x) (pin_inflight x) (pin_buckets x) (pin_jobs x) (pin_jobCnt x) (pin_failCnt x) (pin_failSent x) (pin_ready x) (pin_inStop x).
Definition set_pin_availTime f (x : proInst) := mkProInst (pin_localID x) (pin_pro x) (pin_location x) (f (pin_availTime x)) (pin_updateTime x) (pin_nonce x) (pin_seqNum x) (pin_prevEnd x) (pin_opi x) (pin_base x) (pin_orderTime x) (pin_orderState x) (pin_seq x) (pin_seqTime x) (pin_seqState x) (pin_sjq x) (pin_inflight x) (pin_buckets x) (pin_jobs x) (pin_jobCnt x) (pin_failCnt x) (pin_failSent x) (pin_ready x) (pin_inStop x).
Definition set_pin_updateTime f (x : proInst) := mkProInst (pin_localID x) (pin_pro x) (pin_location x) (pin_availTime x) (f (pin_updateTime x)) (pin_nonce x) (pin_seqNum x) (pin_prevEnd x) (pin_opi x) (pin_base x) (pin_orderTime x) (pin_orderState x) (pin_seq x) (pin_seqTime x) (pin_seqState x) (pin_sjq x) (pin_inflight x) (pin_buckets x) (pin_jobs x) (pin_jobCnt x) (pin_failCnt x) (pin_failSent x) (pin_ready x) (pin_inStop x).
Definition set_pin_nonce f (x : proInst) := mkProInst (pin_localID x) (pin_pro x) (pin_location x) (pin_availTime x) (pin_updateTime x) (f (pin_nonce x)) (pin_seqNum x) (pin_prevEnd x) (pin_opi x) (pin_base x) (pin_orderTime x) (pin_orderState x) (pin_seq x) (pin_seqTime x) (pin_seqState x) (pin_sjq x) (pin_inflight x) (pin_buckets x) (pin_jobs x) (pin_jobCnt x) (pin_failCnt x) (pin_failSent x) (pin_ready x) (pin_inStop x).
Definition set_pin_seqNum f (x : proInst) := mkProInst (pin_localID x) (pin_pro x) (pin_location x) (pin_availTime x) (pin_updateTime x) (pin_nonce x) (f (pin_seqNum x)) (pin_prevEnd x) (pin_opi x) (pin_base x) (pin_orderTime x) (pin_orderState x) (pin_seq x) (pin_seqTime x) (pin_seqState x) (pin_sjq x) (pin_inflight x) (pin_buckets x) (pin_jobs x) (pin_jobCnt x) (pin_failCnt x) (pin_failSent x) (pin_ready x) (pin_inStop x).
Definition set_pin_prevEnd f (x : proInst) := mkProInst (pin_localID x) (pin_pro x) (pin_location x) (pin_availTime x) (pin_updateTime x) (pin_nonce x) (pin_seqNum x) (f (pin_prevEnd x)) (pin_opi x) (pin_base x) (pin_orderTime x) (pin_orderState x) (pin_seq x) (pin_seqTime x) (pin_seqState x) (pin_sjq x) (pin_inflight x) (pin_buckets x) (pin_jobs x) (pin_jobCnt x) (pin_failCnt x) (pin_failSent x) (pin_ready x) (pin_inStop x).
Definition set_pin_opi f (x : proInst) := mkProInst (pin_localID x) (pin_pro x) (pin_location x) (pin_availTime x) (pin_updateTime x) (pin_nonce x) (pin_seqNum x) (pin_prevEnd x) (f (pin_opi x)) (pin_base x) (pin_orderTime x) (pin_orderState x) (pin_seq x) (pin_seqTime x) (pin_seqState x) (pin_sjq x) (pin_inflight x) (pin_buckets x) (pin_jobs x) (pin_jobCnt x) (pin_failCnt x) (pin_failSent x) (pin_ready x) (pin_inStop x).
Definition set_pin_base f (x : proInst) := mkProInst (pin_localID x) (pin_pro x) (pin_location x) (pin_availTime x) (pin_updateTime x) (pin_nonce x) (pin_seqNum x) (pin_prevEnd x) (pin_opi x) (f (pin_base x)) (pin_orderTime x) (pin_orderState x) (pin_seq x) (pin_seqTime x) (pin_seqState x) (pin_sjq x) (pin_inflight x) (pin_buckets x) (pin_jobs x) (pin_jobCnt x) (pin_failCnt x) (pin_failSent x) (pin_ready x) (pin_inStop x).
Definition set_pin_orderTime f (x : proInst) := mkProInst (pin_localID x) (pin_pro x) (pin_location x) (pin_availTime x) (pin_updateTime x) (pin_nonce x) (pin_seqNum x) (pin_prevEnd x) (pin_opi x) (pin_base x) (f (pin_orderTime x)) (pin_orderState x) (pin_seq x) (pin_seqTime x) (pin_seqState x) (pin_sjq x) (pin_inflight x) (pin_buckets x) (pin_jobs x) (pin_jobCnt x) (pin_failCnt x) (pin_failSent x) (pin_ready x) (pin_inStop x).
Definition set_pin_orderState f (x : proInst) := mkProInst (pin_localID x) (pin_pro x) (pin_location x) (pin_availTime x) (pin_updateTime x) (pin_nonce x) (pin_seqNum x) (pin_prevEnd x) (pin_opi x) (pin_base x) (pin_orderTime x) (f (pin_orderState x)) (pin_seq x) (pin_seqTime x) (pin_seqState x) (pin_sjq x) (pin_inflight x) (pin_buckets x) (pin_jobs x) (pin_jobCnt x) (pin_failCnt x) (pin_failSent x) (pin_ready x) (pin_inStop x).
Definition set_pin_seq f (x : proInst) := mkProInst (pin_localID x) (pin_pro x) (pin_location x) (pin_availTime x) (pin_updateTime x) (pin_nonce x) (pin_seqNum x) (pin_prevEnd x) (pin_opi x) (pin_base x) (pin_orderTime x) (pin_orderState x) (f (pin_seq x)) (pin_seqTime x) (pin_seqState x) (pin_sjq x) (pin_inflight x) (pin_buckets x) (pin_jobs x) (pin_jobCnt x) (pin_failCnt x) (pin_failSent x) (pin_ready x) (pin_inStop x).
Definition set_pin_seqTime f (x : proInst) := mkProInst (pin_localID x) (pin_pro x) (pin_location x) (pin_availTime x) (pin_updateTime x) (pin_nonce x) (pin_seqNum x) (pin_prevEnd x) (pin_opi x) (pin_base x) (pin_orderTime x) (pin_orderState x) (pin_seq x) (f (pin_seqTime x)) (pin_seqState x) (pin_sjq x) (pin_inflight x) (pin_buckets x) (pin_jobs x) (pin_jobCnt x) (pin_failCnt x) (pin_failSent x) (pin_ready x) (pin_inStop x).
Definition set_pin_seqState f (x : proInst) := mkProInst (pin_localID x) (pin_pro x) (pin_location x) (pin_availTime x) (pin_updateTime x) (pin_nonce x) (pin_seqNum x) (pin_prevEnd x) (pin_opi x) (pin_base x) (pin_orderTime x) (pin_orderState x) (pin_seq x) (pin_seqTime x) (f (pin_seqState x)) (pin_sjq x) (pin_inflight x) (pin_buckets x) (pin_jobs x) (pin_jobCnt x) (pin_failCnt x) (pin_failSent x) (pin_ready x) (pin_inStop x).
Definition set_pin_sjq f (x : proInst) := mkProInst (pin_localID x) (pin_pro x) (pin_location x) (pin_availTime x) (pin_updateTime x) (pin_nonce x) (pin_seqNum x) (pin_prevEnd x) (pin_opi x) (pin_base x) (pin_orderTime x) (pin_orderState x) (pin_seq x) (pin_seqTime x) (pin_seqState x) (f (pin_sjq x)) (pin_inflight x) (pin_buckets x) (pin_jobs x) (pin_jobCnt x) (pin_failCnt x) (pin_failSent x) (pin_ready x) (pin_inStop x).
Definition set_pin_inflight f (x : proInst) := mkProInst (pin_localID x) (pin_pro x) (pin_location x) (pin_availTime x) (pin_updateTime x) (pin_nonce x) (pin_seqNum x) (pin_prevEnd x) (pin_opi x) (pin_base x) (pin_orderTime x) (pin_orderState x) (pin_seq x) (pin_seqTime x) (pin_seqState x) (pin_sjq x) (f (pin_inflight x)) (pin_buckets x) (pin_jobs x) (pin_jobCnt x) (pin_failCnt x) (pin_failSent x) (pin_ready x) (pin_inStop x).
Definition set_pin_buckets f (x : proInst) := mkProInst (pin_localID x) (pin_pro x) (pin_location x) (pin_availTime x) (pin_updateTime x) (pin_nonce x) (pin_seqNum x) (pin_prevEnd x) (pin_opi x) (pin_base x) (pin_orderTime x) (pin_orderState x) (pin_seq x) (pin_seqTime x) (pin_seqState x) (pin_sjq x) (pin_inflight x) (f (pin_buckets x)) (pin_jobs x) (pin_jobCnt x) (pin_failCnt x) (pin_failSent x) (pin_ready x) (pin_inStop x).
Definition set_pin_jobs f (x : proInst) := mkProInst (pin_localID x) (pin_pro x) (pin_location x) (pin_availTime x) (pin_updateTime x) (pin_nonce x) (pin_seqNum x) (pin_prevEnd x) (pin_opi x) (pin_base x) (pin_orderTime x) (pin_orderState x) (pin_seq x) (pin_seqTime x) (pin_seqState x) (pin_sjq x) (pin_inflight x) (pin_buckets x) (f (pin_jobs x)) (pin_jobCnt x) (pin_failCnt x) (pin_failSent x) (pin_ready x) (pin_inStop x).
Definition set_pin_jobCnt f (x : proInst) := mkProInst (pin_localID x) (pin_pro x) (pin_location x) (pin_availTime x) (pin_updateTime x) (pin_nonce x) (pin_seqNum x) (pin_prevEnd x) (pin_opi x) (pin_base x) (pin_orderTime x) (pin_orderState x) (pin_seq x) (pin_seqTime x) (pin_seqState x) (pin_sjq x) (pin_inflight x) (pin_buckets x) (pin_jobs x) (f (pin_jobCnt x)) (pin_failCnt x) (pin_failSent x) (pin_ready x) (pin_inStop x).
Definition set_pin_failCnt f (x : proInst) := mkProInst (pin_localID x) (pin_pro x) (pin_location x) (pin_availTime x) (pin_updateTime x) (pin_nonce x) (pin_seqNum x) (pin_prevEnd x) (pin_opi x) (pin_base x) (pin_orderTime x) (pin_orderState x) (pin_seq x) (pin_seqTime x) (pin_seqState x) (pin_sjq x) (pin_inflight x) (pin_buckets x) (pin_jobs x) (pin_jobCnt x) (f (pin_failCnt x)) (pin_failSent x) (pin_ready x) (pin_inStop x).
Definition set_pin_failSent f (x : proInst) := mkProInst (pin_localID x) (pin_pro x) (pin_location x) (pin_availTime x) (pin_updateTime x) (pin_nonce x) (pin_seqNum x) (pin_prevEnd x) (pin_opi x) (pin_base x) (pin_orderTime x) (pin_orderState x) (pin_seq x) (pin_seqTime x) (pin_seqState x) (pin_sjq x) (pin_inflight x) (pin_buckets x) (pin_jobs x) (pin_jobCnt x) (pin_failCnt x) (f (pin_failSent x)) (pin_ready x) (pin_inStop x).
Definition set_pin_ready f (x : proInst) := mkProInst (pin_localID x) (pin_pro x) (pin_location x) (pin_availTime x) (pin_updateTime x) (pin_nonce x) (pin_seqNum x) (pin_prevEnd x) (pin_opi x) (pin_base x) (pin_orderTime x) (pin_orderState x) (pin_seq x) (pin_seqTime x) (pin_seqState x) (pin_sjq x) (pin_inflight x) (pin_buckets x) (pin_jobs x) (pin_jobCnt x) (pin_failCnt x) (pin_failSent x) (f (pin_ready x)) (pin_inStop x).
Definition set_pin_inStop f (x : proInst) := mkProInst (pin_localID x) (pin_pro x) (pin_location x) (pin_availTime x) (pin_updateTime x) (pin_nonce x) (pin_seqNum x) (pin_prevEnd x) (pin_opi x) (pin_base x) (pin_orderTime x) (pin_orderState x) (pin_seq x) (pin_seqTime x) (pin_seqState x) (pin_sjq x) (pin_inflight x) (pin_buckets x) (pin_jobs x) (pin_jobCnt x) (pin_failCnt x) (pin_failSent x) (pin_ready x) (f (pin_inStop x)).

Section UserOrder.
Context `{!StateEnv} {W : Type} `{!IRole W}.
Context `{!Codec NonceState, !Codec SeqState, !Codec (list SegJob)}.

(** What a handler works on: the instance, [m.ds], and what it sends on
    [m.msgChan], [m.segRedoChan] and [m.segSentChan] and starts with [go]. *)
Record usrCtx := mkUsrCtx {
  uc_pin : proInst; uc_ds : gmap bytes bytes; uc_msgs : list Message; uc_redo : list SegJob;
  uc_sent : list SegJob; uc_tasks : list task; uc_env : W }.

Definition set_uc_pin f (x : usrCtx) := mkUsrCtx (f (uc_pin x)) (uc_ds x) (uc_msgs x) (uc_redo x) (uc_sent x) (uc_tasks x) (uc_env x).
Definition set_uc_ds f (x : usrCtx) := mkUsrCtx (uc_pin x) (f (uc_ds x)) (uc_msgs x) (uc_redo x) (uc_sent x) (uc_tasks x) (uc_env x).
Definition set_uc_msgs f (x : usrCtx) := mkUsrCtx (uc_pin x) (uc_ds x) (f (uc_msgs x)) (uc_redo x) (uc_sent x) (uc_tasks x) (uc_env x).
Definition set_uc_redo f (x : usrCtx) := mkUsrCtx (uc_pin x) (uc_ds x) (uc_msgs x) (f (uc_redo x)) (uc_sent x) (uc_tasks x) (uc_env x).
Definition set_uc_sent f (x : usrCtx) := mkUsrCtx (uc_pin x) (uc_ds x) (uc_msgs x) (uc_redo x) (f (uc_sent x)) (uc_tasks x) (uc_env x).
Definition set_uc_tasks f (x : usrCtx) := mkUsrCtx (uc_pin x) (uc_ds x) (uc_msgs x) (uc_redo x) (uc_sent x) (f (uc_tasks x)) (uc_env x).
Definition set_uc_env f (x : usrCtx) := mkUsrCtx (uc_pin x) (uc_ds x) (uc_msgs x) (uc_redo x) (uc_sent x) (uc_tasks x) (f (uc_env x)).

Implicit Types (c : usrCtx) (o : proInst) (cf : usrConf) (clock : nat -> Z).

Definition usr_env {A} (m : M W A) : M usrCtx A := zoom uc_env (fun w => set_uc_env (fun _ => w)) m.
Definition on_pin (f : proInst -> proInst) : M usrCtx unit := modify (set_uc_pin f).
Definition the_pin : M usrCtx proInst := gets uc_pin.
Definition pin_the_base : M usrCtx SignedOrder := let! o := the_pin in deref (pin_base o).
Definition pin_the_seq : M usrCtx SignedOrderSeq := let! o := the_pin in deref (pin_seq o).
Definition on_pin_base (f : SignedOrder -> SignedOrder) : M usrCtx unit := on_pin (set_pin_base (fmap f)).
Definition on_pin_seq (f : SignedOrderSeq -> SignedOrderSeq) : M usrCtx unit := on_pin (set_pin_seq (fmap f)).
Definition usr_Put (key value : bytes) : M usrCtx unit := modify (set_uc_ds <[key := value]>).
Definition push_msg (msg : Message) : M usrCtx unit := modify (set_uc_msgs (fun l => l ++ [msg])).
Definition send_redo (sj : SegJob) : M usrCtx unit := modify (set_uc_redo (fun l => l ++ [sj])).
Definition spawn (t : task) : M usrCtx unit := modify (set_uc_tasks (fun l => l ++ [t])).

(** Assignments through the pointers [base] and [seq]. *)
Definition set_so_Nonce f (b : SignedOrder) : SignedOrder :=
  let x := so_OrderBase b in
  mkSignedOrder (mkOrderBase (ob_UserID x) (ob_ProID x) (f (ob_Nonce x)) (ob_Start x) (ob_End x) (ob_TokenIndex x) (ob_SegPrice x) (ob_PiecePrice x))
    (so_Size b) (so_Price b) (so_Usign b) (so_Psign b).
Definition set_so_Usign f (b : SignedOrder) := mkSignedOrder (so_OrderBase b) (so_Size b) (so_Price b) (f (so_Usign b)) (so_Psign b).
Definition set_os_SeqNum f (q : OrderSeq) := mkOrderSeq (os_UserID q) (os_ProID q) (os_Nonce q) (f (os_SeqNum q)) (os_Size q) (os_Price q) (os_Segments q).
Definition set_sos_UserSigs (d s : Signature) (q : SignedOrderSeq) := mkSignedOrderSeq (sos_OrderSeq q) d (sos_ProDataSig q) s (sos_ProSig q).
Definition set_sos_ProSigs (d s : Signature) (q : SignedOrderSeq) := mkSignedOrderSeq (sos_OrderSeq q) (sos_UserDataSig q) d (sos_UserSig q) s.

(** ** Saving *)

(** The keys of the provider's service, with [localID] and the provider's id; and
    those only the user has. *)
Definition NonceAtKey (localID pro nonce : Z) := NewKey [KMetaType pb.MetaType_OrderNonceKey; KUint64 localID; KUint64 pro; KUint64 nonce].
Definition SeqNumAtKey (localID pro nonce seqNum : Z) :=
  NewKey [KMetaType pb.MetaType_OrderSeqNumKey; KUint64 localID; KUint64 pro; KUint64 nonce; KUint32 seqNum].
Definition SeqJobKey (localID pro nonce seqNum : Z) :=
  NewKey [KMetaType pb.MetaType_OrderSeqJobKey; KUint64 localID; KUint64 pro; KUint64 nonce; KUint32 seqNum].
Definition LastSeqKey (localID pro : Z) := NewKey [KMetaType pb.MetaType_OrderSeqJobKey; KUint64 localID; KUint64 pro].

Definition usr_saveOrderBase : M usrCtx unit :=
  let! o := the_pin in
  let! base := pin_the_base in
  let! data := of_option (marshal base) "serialize" in
  usr_Put (ProBaseKey (pin_localID o) (pin_pro o) (ob_Nonce (so_OrderBase base))) data.

Definition usr_saveOrderState : M usrCtx unit :=
  let! o := the_pin in
  let! base := pin_the_base in
  let nonce := ob_Nonce (so_OrderBase base) in
  let! val := of_option (marshal (mkNonceState nonce (pin_orderTime o) (pin_orderState o))) "serialize" in
  do! usr_Put (ProNonceKey (pin_localID o) (pin_pro o)) val;
  usr_Put (NonceAtKey (pin_localID o) (pin_pro o) nonce) val.

Definition usr_saveOrderSeq : M usrCtx unit :=
  let! o := the_pin in
  let! base := pin_the_base in
  let! seq := pin_the_seq in
  let! data := of_option (marshal seq) "serialize" in
  usr_Put (ProSeqKey (pin_localID o) (pin_pro o) (ob_Nonce (so_OrderBase base)) (os_SeqNum (sos_OrderSeq seq))) data.

Definition usr_saveSeqState : M usrCtx unit :=
  let! o := the_pin in
  let! base := pin_the_base in
  let! seq := pin_the_seq in
  let nonce := ob_Nonce (so_OrderBase base) in
  let num := os_SeqNum (sos_OrderSeq seq) in
  let! val := of_option (marshal (mkSeqState num (pin_seqTime o) (pin_seqState o))) "serialize" in
  do! usr_Put (ProSeqNumKey (pin_localID o) (pin_pro o) nonce) val;
  usr_Put (SeqNumAtKey (pin_localID o) (pin_pro o) nonce num) val.

Definition saveSeqJob : M usrCtx unit :=
  let! o := the_pin in
  let! base := pin_the_base in
  let! seq := pin_the_seq in
  let! data := of_option (marshal (pin_sjq o)) "serialize" in
  usr_Put (SeqJobKey (pin_localID o) (pin_pro o) (ob_Nonce (so_OrderBase base)) (os_SeqNum (sos_OrderSeq seq))) data.

(** A message of the order: the fields that are left zero are those the pool sets. *)
Definition order_msg (from to method : Z) (params : bytes) : Message :=
  mkMessage 0 from to 0 None 0 None method params.

(** ** doneOrder, stopOrder *)

(** The sequence number of the commit: the number of sequences, unless the last
    one was only prepared. *)
Definition commit_seqNum o (base : SignedOrder) (seq : SignedOrderSeq) : Z :=
  if (match pin_sjq o with [] => true | _ => false end) && (so_Size base =? os_Size (sos_OrderSeq seq))
     && (match sig_Data (sos_ProDataSig seq) with [] => true | _ => false end)
  then os_SeqNum (sos_OrderSeq seq) else pin_seqNum o.

(** The tail of [doneOrder]: the order is saved as done, the next one as not begun,
    and the instance is cleared. *)
Definition done_reset clock : M usrCtx unit :=
  do! on_pin (fun o => set_pin_orderTime (fun _ => clock 0%nat) (set_pin_orderState (fun _ => Order_Done) o));
  let! _ := try_err usr_saveOrderState in
  do! on_pin (fun o => set_pin_orderTime (fun _ => clock 1%nat) (set_pin_orderState (fun _ => Order_Init) o));
  do! on_pin_base (set_so_Nonce (fun n => u64 (n + 1)));
  let! _ := try_err usr_saveOrderState in
  do! on_pin (fun o => set_pin_seqTime (fun _ => clock 2%nat) (set_pin_seqState (fun _ => OrderSeq_Init) o));
  do! on_pin_seq (set_sos_OrderSeq (set_os_SeqNum (fun _ => 0)));
  let! _ := try_err usr_saveSeqState in
  on_pin (fun o => set_pin_seqNum (fun _ => 0) (set_pin_sjq (fun _ => []) (set_pin_seq (fun _ => None) (set_pin_base (fun _ => None) o)))).

Definition doneOrder clock : M usrCtx unit :=
  let! o := the_pin in
  let! base := of_option (pin_base o) "order state expected closing" in
  do! check (bool_decide (pin_orderState o = Order_Closing)) "order state expected closing";
  do! check (negb (so_Size base =? 0)) "has empty data at order";
  let! seq := match pin_seq o with
              | Some seq =>
                  do! check (bool_decide (pin_seqState o = OrderSeq_Init)) "order seq state expected init";
                  do! check (negb (os_Size (sos_OrderSeq seq) =? 0)) "has empty data at order";
                  ret seq
              | None => throw "has empty data at order"
              end in
  let num := commit_seqNum o base seq in
  do! check (negb (num =? 0)) "empty data at order";
  let b := so_OrderBase base in
  let! data := of_option (marshal (mkOrderCommitParas (ob_UserID b) (ob_ProID b) (ob_Nonce b) num)) "serialize" in
  do! push_msg (order_msg (ob_UserID b) (ob_ProID b) CommitDataOrder data);
  do! done_reset clock;
  let! o := the_pin in
  if (0 <? pin_jobCnt o) && negb (pin_inStop o) then spawn (TQuotation (pin_pro o)) else ret tt.

(** The jobs of the buckets, in the order of [o.buckets]; each queue is emptied. *)
Fixpoint take_jobs (buckets : list Z) (jobs : gmap Z (list SegJob)) : list SegJob * gmap Z (list SegJob) :=
  match buckets with
  | [] => ([], jobs)
  | bid :: buckets =>
      match jobs !! bid with
      | Some (j :: l) => let r := take_jobs buckets (<[bid := []]> jobs) in ((j :: l) ++ r.1, r.2)
      | _ => take_jobs buckets jobs
      end
  end.

(** A commit that was signed is taken back: what its jobs added is subtracted. *)
Definition stop_amounts (cnt : Z) : M usrCtx unit :=
  let! o := the_pin in
  if bool_decide (pin_seqState o = OrderSeq_Commit) then
    let! seq := deref (pin_seq o) in
    match sig_Data (sos_UserDataSig seq) with
    | [] => ret tt
    | _ =>
        let lost := u64 (cnt * DefaultSegSize) in
        if os_Size (sos_OrderSeq seq) >=? lost then
          let! base := pin_the_base in
          let! segPrice := deref (ob_SegPrice (so_OrderBase base)) in
          let! price := deref (os_Price (sos_OrderSeq seq)) in
          let size := u64 (os_Size (sos_OrderSeq seq) - lost) in
          let price := price - i64 cnt * segPrice in
          do! on_pin_seq (set_sos_OrderSeq (set_os_amounts size (Some price)));
          do! on_pin_base (set_so_Size (fun _ => size));
          let! p := big_Set (so_Price base) (Some price) in
          on_pin_base (set_so_Price (fun _ => p))
        else ret tt
    end
  else ret tt.

Definition stopOrder clock : M usrCtx unit :=
  let! o := the_pin in
  do! check (negb (pin_inflight o)) "sending data";
  do! on_pin (set_pin_inStop (fun _ => true));
  let cnt := foldl (fun acc sj => u64 (acc + sj_Length sj)) 0 (pin_sjq o) in
  let queued := pin_sjq o in
  do! on_pin (set_pin_sjq (fun _ => []));
  do! match pin_base o, pin_seq o with
      | Some _, Some _ => let! _ := try_err saveSeqJob in ret tt
      | _, _ => ret tt
      end;
  let taken := take_jobs (pin_buckets o) (pin_jobs o) in
  do! on_pin (fun o => set_pin_jobCnt (fun _ => 0) (set_pin_jobs (fun _ => taken.2) o));
  do! for_each (queued ++ taken.1) send_redo;
  let! _ := of_option (pin_base o) "order is empty" in
  do! stop_amounts cnt;
  let! o := the_pin in
  let! base := pin_the_base in
  if so_Size base =? 0 then
    let! seq := of_option (pin_seq o) "seq is empty" in
    if (os_Size (sos_OrderSeq seq) =? 0)
       && (bool_decide (pin_seqState o = OrderSeq_Send) || bool_decide (pin_seqState o = OrderSeq_Commit)) then
      do! on_pin_seq (set_sos_OrderSeq (set_os_Segments (fun _ => [])));
      do! on_pin (set_pin_seqState (fun _ => OrderSeq_Send));
      let! _ := try_err usr_saveOrderSeq in
      ret tt
    else ret tt
  else
    match pin_seq o with
    | Some _ =>
        do! on_pin (fun o => set_pin_seqState (fun _ => OrderSeq_Init) (set_pin_orderState (fun _ => Order_Closing) o));
        doneOrder clock
    | None => ret tt
    end.

(** ** createOrder, runOrder, closeOrder *)

(** The end of a new order: the next midnight after the duration, not before the
    end of the previous order. *)
Definition order_end cf (prevEnd start : Z) : Z :=
  let e := i64 (i64 (Z.quot (i64 (start + cf_orderDur cf)) Day + 1) * Day) in
  let e := if e <? prevEnd then prevEnd else e in
  if i64 (e - start) >? 1000 * Day then i64 (e - Day) else e.

Definition order_of_quotation cf o (quo : Quotation) (start : Z) : SignedOrder :=
  mkSignedOrder (mkOrderBase (pin_localID o) (qu_ProID quo) (pin_nonce o) start (order_end cf (pin_prevEnd o) start)
                   (qu_TokenIndex quo) (qu_SegPrice quo) (qu_PiecePrice quo))
    0 (Some 0) (mkSignature 0 []) (mkSignature 0 []).

(** The branch of an instance in the state init; a nil quotation is dereferenced. *)
Definition createOrder_init cf clock (quo : option Quotation) : M usrCtx unit :=
  let! quo := deref quo in
  let! segPrice := deref (qu_SegPrice quo) in
  if segPrice >? cf_segPrice cf then
    let! _ := try_err (stopOrder (fun n => clock (n + 10)%nat)) in throw "price is too high"
  else if negb (qu_TokenIndex quo =? 0) then
    let! _ := try_err (stopOrder (fun n => clock (n + 10)%nat)) in throw "token index is not right"
  else
    do! on_pin (fun o => set_pin_base (fun _ => Some (order_of_quotation cf o quo (clock 0%nat))) o);
    let! base := pin_the_base in
    let! h := deref (SignedOrder_Hash base) in
    let! osig := usr_env (RoleSign (cf_localID cf) h SigSecp256k1) in
    do! on_pin_base (set_so_Usign (fun _ => osig));
    do! on_pin (fun o => set_pin_seqState (fun _ => OrderSeq_Init) (set_pin_seqNum (fun _ => 0)
                 (set_pin_orderTime (fun _ => clock 1%nat) (set_pin_orderState (fun _ => Order_Wait) o))));
    do! usr_saveOrderBase;
    usr_saveOrderState.

(** The branch of an instance that waits for the provider's signature: the order
    is sent again, unless it is too old. *)
Definition createOrder_wait clock : M usrCtx unit :=
  let! o := the_pin in
  let! base := pin_the_base in
  let b := so_OrderBase base in
  let dur := i64 (ob_End b - ob_Start b) in
  let nt := clock 2%nat in
  let again := on_pin (set_pin_orderState (fun _ => Order_Init)) in
  if (dur >? OrderMax) || (dur <? OrderMin) then again
  else if ((ob_Start b <? nt) && (i64 (nt - ob_Start b) >? types_Hour / 2))
       || ((ob_Start b >? nt) && (i64 (ob_Start b - nt) >? types_Hour / 2)) then again
  else if (pin_failCnt o >? 30) && (ob_Nonce b =? 0) then
    let! _ := try_err (stopOrder (fun n => clock (n + 10)%nat)) in ret tt
  else
    let! data := of_option (marshal base) "serialize" in
    spawn (TNewOrderAck (pin_pro o) data).

Definition usr_createOrder cf clock (quo : option Quotation) : M usrCtx unit :=
  let! o := the_pin in
  do! check (negb (pin_inStop o)) "is stop";
  do! (if bool_decide (pin_orderState o = Order_Init) then createOrder_init cf clock quo else ret tt);
  let! o := the_pin in
  if bool_decide (pin_orderState o = Order_Wait) then createOrder_wait clock else ret tt.

(** ok, err := m.RoleVerify(...); an error is returned, or ignored *)
Definition usr_verify (id : Z) (h : bytes) (sig : Signature) (e : string) : M usrCtx unit :=
  let! ok := usr_env (RoleVerify id h sig) in check ok e.
Definition usr_verify_ign (id : Z) (h : bytes) (sig : Signature) (e : string) : M usrCtx unit :=
  let! ok := try_err (usr_env (RoleVerify id h sig)) in check (default false ok) e.

Definition runOrder clock (ob : SignedOrder) : M usrCtx unit :=
  let! o := the_pin in
  let! base := of_option (pin_base o) "order state expected wait" in
  do! check (bool_decide (pin_orderState o = Order_Wait)) "order state expected wait";
  let! h := deref (SignedOrder_Hash base) in
  do! usr_verify (pin_pro o) h (so_Psign ob) "order sign is wrong";
  do! on_pin (fun o => set_pin_base (fmap (set_so_Psign (fun _ => so_Psign ob))) (set_pin_orderTime (fun _ => clock 0%nat)
               (set_pin_orderState (fun _ => Order_Running) (set_pin_prevEnd (fun _ => ob_End (so_OrderBase ob))
               (set_pin_nonce (fun n => u64 (n + 1)) o)))));
  do! usr_saveOrderBase;
  do! usr_saveOrderState;
  let! base := pin_the_base in
  let! data := of_option (marshal base) "serialize" in
  let b := so_OrderBase base in
  do! push_msg (order_msg (ob_UserID b) (ob_ProID b) PreDataOrder data);
  on_pin (set_pin_failCnt (fun _ => 0)).

Definition closeOrder_now clock : M usrCtx unit :=
  do! on_pin (fun o => set_pin_orderTime (fun _ => clock 2%nat) (set_pin_orderState (fun _ => Order_Closing) o));
  usr_saveOrderState.

Definition closeOrder cf clock : M usrCtx unit :=
  let! o := the_pin in
  let! base := of_option (pin_base o) "order is empty" in
  do! check (bool_decide (pin_orderState o = Order_Running)) "order state expected running";
  if match pin_seq o with None => true | Some seq => os_Size (sos_OrderSeq seq) =? 0 end then
    if ob_End (so_OrderBase base) >? i64 (i64 (clock 0%nat + cf_orderLast cf) + 600) then
      do! on_pin (set_pin_orderTime (fun _ => clock 1%nat));
      usr_saveOrderState
    else
      let! _ := try_err (stopOrder (fun n => clock (n + 10)%nat)) in
      closeOrder_now clock
  else closeOrder_now clock.

(** ** The sequences *)

Definition new_seq (base : SignedOrder) (seqNum : Z) (price : option Z) : SignedOrderSeq :=
  let b := so_OrderBase base in
  let unsigned := mkSignature 0 [] in
  mkSignedOrderSeq (mkOrderSeq (ob_UserID b) (ob_ProID b) (ob_Nonce b) seqNum (so_Size base) price [])
    unsigned unsigned unsigned unsigned.

(** The sequence is saved and sent to the provider. *)
Definition createSeq_send : M usrCtx unit :=
  let! o := the_pin in
  if match pin_seq o with Some _ => bool_decide (pin_seqState o = OrderSeq_Prepare) | None => false end then
    do! on_pin_seq (set_sos_OrderSeq (set_os_Segments Merge));
    do! on_pin (set_pin_sjq Merge);
    do! usr_saveOrderSeq;
    do! saveSeqJob;
    do! usr_saveSeqState;
    let! seq := pin_the_seq in
    let! data := of_option (marshal seq) "serialize" in
    spawn (TNewSeqAck (pin_pro o) data)
  else throw "create seq fail".

Definition createSeq clock : M usrCtx unit :=
  let! o := the_pin in
  let! base := of_option (pin_base o) "state is not running" in
  do! check (bool_decide (pin_orderState o = Order_Running)) "state is not running";
  if bool_decide (pin_seqState o = OrderSeq_Init) then
    if pin_jobCnt o =? 0 then ret tt
    else
      let! price := big_Set (Some 0) (so_Price base) in
      do! on_pin (fun o => set_pin_sjq (fun _ => []) (set_pin_seqTime (fun _ => clock 0%nat)
                   (set_pin_seqState (fun _ => OrderSeq_Prepare) (set_pin_seqNum (fun n => u32 (n + 1))
                   (set_pin_seq (fun _ => Some (new_seq base (pin_seqNum o) price)) o)))));
      createSeq_send
  else createSeq_send.

Definition sendSeq clock : M usrCtx unit :=
  let! o := the_pin in
  let! _ := of_option (pin_base o) "order state expected running" in
  do! check (bool_decide (pin_orderState o = Order_Running)) "order state expected running";
  if match pin_seq o with Some _ => bool_decide (pin_seqState o = OrderSeq_Prepare) | None => false end then
    do! on_pin (fun o => set_pin_seqTime (fun _ => clock 0%nat) (set_pin_seqState (fun _ => OrderSeq_Send) o));
    do! usr_saveSeqState;
    on_pin (set_pin_failCnt (fun _ => 0))
  else throw "send seq fail".

(** The two signatures of a commit; the order takes the size and the price of the
    sequence. *)
Definition commitSeq_sign cf clock : M usrCtx unit :=
  do! on_pin (set_pin_seqTime (fun _ => clock 1%nat));
  do! on_pin_seq (set_sos_OrderSeq (set_os_Segments Merge));
  let! seq := pin_the_seq in
  let! ssig := usr_env (RoleSign (cf_localID cf) (SignedOrderSeq_Hash seq) SigSecp256k1) in
  let! base := pin_the_base in
  do! on_pin_base (set_so_Size (fun _ => os_Size (sos_OrderSeq seq)));
  let! price := big_Set (so_Price base) (os_Price (sos_OrderSeq seq)) in
  do! on_pin_base (set_so_Price (fun _ => price));
  let! base := pin_the_base in
  let! h := deref (SignedOrder_Hash base) in
  let! osig := usr_env (RoleSign (cf_localID cf) h SigSecp256k1) in
  do! on_pin_seq (set_sos_UserSigs ssig osig);
  do! usr_saveOrderSeq;
  do! usr_saveSeqState;
  let! seq := pin_the_seq in
  let! data := of_option (marshal seq) "serialize" in
  let! o := the_pin in
  spawn (TSeqFinishAck (pin_pro o) data).

Definition commitSeq cf clock : M usrCtx unit :=
  let! o := the_pin in
  let! _ := of_option (pin_base o) "order state" in
  do! check (negb (bool_decide (pin_orderState o = Order_Init) || bool_decide (pin_orderState o = Order_Wait)
                   || bool_decide (pin_orderState o = Order_Done))) "order state";
  let! _ := of_option (pin_seq o) "order seq state" in
  if bool_decide (pin_seqState o = OrderSeq_Send) then
    on_pin (fun o => set_pin_seqTime (fun _ => clock 0%nat) (set_pin_seqState (fun _ => OrderSeq_Commit) o))
  else if bool_decide (pin_seqState o = OrderSeq_Commit) then
    if pin_inflight o then ret tt else commitSeq_sign cf clock
  else throw "commit seq fail".

(** The sequence of the provider's answer is used for its signatures only. *)
Definition finishSeq_push cf : M usrCtx unit :=
  let! seq := pin_the_seq in
  let! data := of_option (marshal seq) "serialize" in
  let! o := the_pin in
  let msg := order_msg (cf_localID cf) (pin_pro o) AddDataOrder data in
  do! push_msg msg;
  let q := sos_OrderSeq seq in
  do! match marshal (mkNonceSeq (os_Nonce q) (os_SeqNum q) 0) with
      | Some nData => usr_Put (LastSeqKey (m_From msg) (m_To msg)) nData
      | None => ret tt
      end;
  on_pin (fun o => set_pin_failCnt (fun _ => 0) (set_pin_seqState (fun _ => OrderSeq_Init) o)).

Definition finishSeq cf clock (s : SignedOrderSeq) : M usrCtx unit :=
  let! o := the_pin in
  let! base := of_option (pin_base o) "order empty" in
  let! seq := of_option (pin_seq o) "order seq state expected commit" in
  do! check (bool_decide (pin_seqState o = OrderSeq_Commit)) "order seq state expected commit";
  do! usr_verify_ign (pin_pro o) (SignedOrderSeq_Hash seq) (sos_ProDataSig s) "seq sign is wrong";
  let! h := deref (SignedOrder_Hash base) in
  do! usr_verify_ign (pin_pro o) h (sos_ProSig s) "order sign is wrong";
  do! on_pin_seq (set_sos_ProSigs (sos_ProDataSig s) (sos_ProSig s));
  do! on_pin (fun o => set_pin_seqTime (fun _ => clock 0%nat) (set_pin_seqState (fun _ => OrderSeq_Finish) o));
  let! price := big_Set (so_Price base) (os_Price (sos_OrderSeq seq)) in
  do! on_pin_base (set_so_Price (fun _ => price));
  do! on_pin_base (set_so_Size (fun _ => os_Size (sos_OrderSeq seq)));
  do! usr_saveOrderSeq;
  do! usr_saveOrderBase;
  do! usr_saveSeqState;
  finishSeq_push cf.

(** ** The scheduler of one provider *)

Definition fail_more : M usrCtx unit := on_pin (set_pin_failCnt (fun n => i64 (n + 1))).

(** The first part of [check]: is the provider reachable? *)
Definition check_avail cf clock (nt : Z) : M usrCtx unit :=
  let! o := the_pin in
  let idle := i64 (nt - pin_availTime o) in
  if idle <? 300 then on_pin (set_pin_ready (fun _ => true))
  else
    do! (if i64 (nt - pin_updateTime o) >? 600 then
           do! on_pin (set_pin_updateTime (fun _ => nt)); spawn (TUpdate (pin_pro o))
         else ret tt);
    do! (if idle >? 3600 then on_pin (set_pin_ready (fun _ => false)) else ret tt);
    if idle >? cf_orderLast cf then let! _ := try_err (stopOrder clock) in ret tt else ret tt.

Definition check_running cf clock (nt : Z) : M usrCtx unit :=
  let! o := the_pin in
  if i64 (nt - pin_orderTime o) >? cf_orderLast cf then let! _ := try_err (closeOrder cf clock) in ret tt
  else
    let late := i64 (nt - pin_seqTime o) >? defaultAckWaiting in
    if bool_decide (pin_seqState o = OrderSeq_Init) then
      if 0 <? pin_jobCnt o then let! _ := try_err (createSeq clock) in ret tt else ret tt
    else if bool_decide (pin_seqState o = OrderSeq_Prepare) then
      if late then do! fail_more; let! _ := try_err (createSeq clock) in ret tt else ret tt
    else if bool_decide (pin_seqState o = OrderSeq_Send) then
      if i64 (nt - pin_seqTime o) >? cf_seqLast cf then let! _ := try_err (commitSeq cf clock) in ret tt else ret tt
    else if bool_decide (pin_seqState o = OrderSeq_Commit) then
      if late then do! fail_more; let! _ := try_err (commitSeq cf clock) in ret tt else ret tt
    else if bool_decide (pin_seqState o = OrderSeq_Finish) then on_pin (set_pin_seqState (fun _ => OrderSeq_Init))
    else ret tt.

Definition check_closing cf clock (nt : Z) : M usrCtx unit :=
  let! o := the_pin in
  if bool_decide (pin_seqState o = OrderSeq_Send) then let! _ := try_err (commitSeq cf clock) in ret tt
  else if bool_decide (pin_seqState o = OrderSeq_Commit) then
    if i64 (nt - pin_seqTime o) >? defaultAckWaiting
    then do! fail_more; let! _ := try_err (commitSeq cf clock) in ret tt else ret tt
  else if bool_decide (pin_seqState o = OrderSeq_Init) || bool_decide (pin_seqState o = OrderSeq_Prepare)
          || bool_decide (pin_seqState o = OrderSeq_Finish) then
    do! on_pin (set_pin_seqState (fun _ => OrderSeq_Init));
    let! _ := try_err (doneOrder clock) in ret tt
  else ret tt.

Definition check_state cf clock (nt : Z) : M usrCtx unit :=
  let! o := the_pin in
  if bool_decide (pin_orderState o = Order_Init) then
    if 0 <? pin_jobCnt o
    then do! on_pin (set_pin_orderTime (fun _ => clock 0%nat)); spawn (TQuotation (pin_pro o)) else ret tt
  else if bool_decide (pin_orderState o = Order_Wait) then
    if i64 (nt - pin_orderTime o) >? defaultAckWaiting
    then do! fail_more; let! _ := try_err (usr_createOrder cf clock None) in ret tt else ret tt
  else if bool_decide (pin_orderState o = Order_Running) then check_running cf clock nt
  else if bool_decide (pin_orderState o = Order_Closing) then check_closing cf clock nt
  else if bool_decide (pin_orderState o = Order_Done) then
    if 0 <? pin_jobCnt o then on_pin (set_pin_orderState (fun _ => Order_Init)) else ret tt
  else ret tt.

(** The tick of the scheduler; the source logs the errors. *)
Definition check_pin cf clock : M usrCtx unit :=
  let nt := clock 0%nat in
  let! o := the_pin in
  if pin_inStop o then ret tt
  else
    do! check_avail cf (fun n => clock (n + 100)%nat) nt;
    let! o := the_pin in
    if (pin_failCnt o >? minFailCnt) || (pin_failSent o >? minFailCnt)
    then let! _ := try_err (stopOrder (fun n => clock (n + 200)%nat)) in ret tt
    else if negb (pin_ready o) then ret tt
    else check_state cf (fun n => clock (n + 300)%nat) nt.

(** What [runOrderSched] receives; [SLocation] is the tick that asks for the role,
    with what was found. *)
Inductive sched_event :=
  | SQuotation (quo : Quotation)
  | SOrder (ob : SignedOrder)
  | SSeqNew (os : SignedOrderSeq)
  | SSeqFinish (os : SignedOrderSeq)
  | SCheck
  | SLocation (desc : option string).

Definition seen_now clock : M usrCtx unit := on_pin (set_pin_availTime (fun _ => clock 0%nat)).

Definition runOrderSched cf clock (e : sched_event) : M usrCtx unit :=
  let clock' n := clock (S n) in
  match e with
  | SQuotation quo =>
      let! segPrice := deref (qu_SegPrice quo) in
      if segPrice >? cf_segPrice cf then fail_more
      else
        do! on_pin (set_pin_failCnt (fun _ => 0));
        do! seen_now clock;
        let! _ := try_err (usr_createOrder cf clock' (Some quo)) in ret tt
  | SOrder ob => do! seen_now clock; let! _ := try_err (runOrder clock' ob) in ret tt
  | SSeqNew _ => do! seen_now clock; let! _ := try_err (sendSeq clock') in ret tt
  | SSeqFinish os => do! seen_now clock; let! _ := try_err (finishSeq cf clock' os) in ret tt
  | SCheck => check_pin cf clock
  | SLocation desc =>
      match desc with Some d => on_pin (set_pin_location (fun _ => d)) | None => ret tt end
  end.
End UserOrder.
