(* ===== verification/UserSend.v ===== *)
(** * UserSend: sending the chunks of a user to a provider

    [sendChunk] and [addSeg] of [service/user/order/data.go].  A goroutine per
    provider takes the next job, sends its chunk over the network and then puts it
    into the sequence; between the two the scheduler of the provider may run, so a
    turn of the loop is two steps, with the job in hand kept in the state of the
    goroutine and announced by [inflight].  The tests at the head of a turn and
    the step that follows them are one step. *)

From S2P Require Import Prelude GoMonad Codec Keys Segments SegmentID Types Tx Fr StateTypes HotStuff ProOrder UserOrder.

(** [api.IDataService], the part that moves chunks between the user and the
    providers; the errors of the last three are ignored. *)
Class ISendService (W : Type) := {
  GetSegmentLocation : bytes -> M W Z;
  SendSegmentByID : bytes -> Z -> M W unit;
  PutSegmentLocation : bytes -> Z -> M W unit;
  DeleteSegment : bytes -> M W unit;
}.

(** strings.Contains(s, sub) *)
Definition strings_Contains (s sub : string) : bool :=
  match String.index 0 sub s with Some _ => true | None => false end.

Section UserSend.
Context `{!StateEnv} {W : Type} `{!IRole W, !ISendService W}.
Context `{!Codec NonceState, !Codec SeqState, !Codec (list SegJob)}.
Implicit Types (c : usrCtx (W := W)) (o : proInst) (cf : usrConf) (clock : nat -> Z) (sj : SegJob).

(** ** addSeg *)

Definition addSeg sj : M (usrCtx (W := W)) unit :=
  let! o := the_pin in
  do! check (negb (pin_inStop o)) "is stop";
  let bid := sj_BucketID sj in
  match pin_jobs o !! bid with
  | Some jobs =>
      on_pin (fun o => set_pin_jobCnt (fun n => i64 (n + 1)) (set_pin_jobs <[bid := jobs ++ [sj]]> o))
  | None =>
      on_pin (fun o => set_pin_buckets (fun l => l ++ [bid]) (set_pin_jobs <[bid := [sj]]>
                (set_pin_jobCnt (fun n => i64 (n + 1)) o)))
  end.

(** bjob = o.jobs[bid]; bjob.jobs = bjob.jobs[1:]; o.jobCnt-- *)
Definition drop_job (bid : Z) : M (usrCtx (W := W)) unit :=
  let! o := the_pin in
  match pin_jobs o !! bid with
  | None => panic "nil pointer dereference"
  | Some [] => panic "slice bounds out of range"
  | Some (_ :: l) => on_pin (fun o => set_pin_jobCnt (fun n => i64 (n - 1)) (set_pin_jobs <[bid := l]> o))
  end.

(** ** sendChunk *)

(** The goroutine: the index of its loop, and the job in hand. *)
Record sender := mkSender { sd_i : Z; sd_job : option (Z * SegJob) }.

Definition send_ready o : bool :=
  negb (pin_inStop o) && pin_ready o
  && (match pin_base o with Some _ => bool_decide (pin_orderState o = Order_Running) | None => false end)
  && (match pin_seq o with Some _ => bool_decide (pin_seqState o = OrderSeq_Send) | None => false end)
  && negb (pin_jobCnt o =? 0).

(** The head of a turn, up to the network; [got] is the answer of the semaphore. *)
Definition sendChunk_take (got : bool) (i : Z) : M (usrCtx (W := W)) sender :=
  let! o := the_pin in
  if negb (send_ready o) || negb got then ret (mkSender i None)
  else
    let i := i64 (i + 1) in
    let i := if i >=? Z.of_nat (length (pin_buckets o)) then 0 else i in
    match pin_buckets o !! Z.to_nat i with
    | None => panic "index out of range"
    | Some bid =>
        match pin_jobs o !! bid with
        | Some (sj :: _) =>
            let! seq := pin_the_seq in
            if AggSegsQueue_Has (os_Segments (sos_OrderSeq seq)) (sj_BucketID sj) (sj_Start sj) (sj_ChunkID sj) then
              do! drop_job bid; ret (mkSender i None)
            else
              do! on_pin (set_pin_inflight (fun _ => true));
              ret (mkSender i (Some (bid, sj)))
        | _ => ret (mkSender i None)
        end
    end.

Definition set_idle : M (usrCtx (W := W)) unit := on_pin (set_pin_inflight (fun _ => false)).
Definition send_sent sj : M (usrCtx (W := W)) unit := modify (set_uc_sent (fun l => l ++ [sj])).

(** The chunk has arrived: it is part of the sequence. *)
Definition sendChunk_add (bid : Z) sj (sid : bytes) : M (usrCtx (W := W)) unit :=
  do! on_pin_seq (set_sos_OrderSeq (set_os_Segments (fun q => Merge (Push q (one_segment sid)))));
  let! seq := pin_the_seq in
  let! base := pin_the_base in
  let! price := big_Add (os_Price (sos_OrderSeq seq)) (ob_SegPrice (so_OrderBase base)) in
  do! on_pin_seq (set_sos_OrderSeq (fun q => set_os_amounts (u64 (os_Size q + DefaultSegSize)) price q));
  do! on_pin (set_pin_sjq (fun q => Merge (Push q sj)));
  do! drop_job bid;
  do! set_idle;
  let! _ := try_err usr_saveOrderSeq in
  let! _ := try_err saveSeqJob in
  send_sent sj.

(** What follows the network; [t] is the time. *)
Definition sendChunk_sent (t : Z) (bid : Z) sj (sid : bytes) (r : outcome unit) : M (usrCtx (W := W)) unit :=
  let arrived := do! on_pin (set_pin_availTime (fun _ => t)); sendChunk_add bid sj sid in
  match r with
  | Ok _ => do! on_pin (set_pin_failSent (fun _ => 0)); arrived
  | Err e =>
      if strings_Contains e "missing chunk" then do! drop_job bid; set_idle
      else if negb (strings_Contains e "already has seg") then
        do! set_idle; on_pin (set_pin_failSent (fun n => i64 (n + 1)))
      else arrived
  | Panic w => panic w
  end.

Definition sendChunk_done cf (t : Z) (bid : Z) sj : M (usrCtx (W := W)) unit :=
  match NewSegmentID (cf_fsID cf) (sj_BucketID sj) (sj_Start sj) (sj_ChunkID sj) with
  | None => set_idle
  | Some sid =>
      let! loc := try_err (usr_env (GetSegmentLocation sid)) in
      match loc with
      | Some _ => do! drop_job bid; do! set_idle; send_sent sj
      | None =>
          let! o := the_pin in
          let! r := (fun c => let '(r, c2) := usr_env (SendSegmentByID sid (pin_pro o)) c in (Ok r, c2)) in
          sendChunk_sent t bid sj sid r
      end
  end.

(** ** One provider's goroutines *)

Record usrSys := mkUsrSys { us_ctx : usrCtx (W := W); us_sender : sender }.

(** What happens next: an event of the scheduler, a job handed out, or a step of
    the goroutine that sends.  After an error a handler has kept what it did; a
    panic ends the process, so no step follows it. *)
Inductive usr_event :=
  | USched (clock : nat -> Z) (e : sched_event)
  | UAddSeg sj
  | UTake (got : bool)
  | UDone (t : Z).

Definition run_usr_event cf (e : usr_event) (s : usrSys) : option usrSys :=
  let keep (r : outcome unit * usrCtx) (sd : sender) :=
    match r.1 with Panic _ => None | _ => Some (mkUsrSys r.2 sd) end in
  match e with
  | USched clock e => keep (runOrderSched cf clock e (us_ctx s)) (us_sender s)
  | UAddSeg sj => keep (addSeg sj (us_ctx s)) (us_sender s)
  | UTake got =>
      match sd_job (us_sender s) with
      | Some _ => None
      | None =>
          match sendChunk_take got (sd_i (us_sender s)) (us_ctx s) with
          | (Ok sd, c) => Some (mkUsrSys c sd)
          | _ => None
          end
      end
  | UDone t =>
      match sd_job (us_sender s) with
      | Some (bid, sj) => keep (sendChunk_done cf t bid sj (us_ctx s)) (mkSender (sd_i (us_sender s)) None)
      | None => None
      end
  end.
End UserSend.
