(* ===== verification/UserProps.v ===== *)
(** * UserProps: what a user sends to the data chain

    The data chain takes the messages of an order in one order only, and only with
    the right sums: the order of the expected nonce and of size zero, its sequences
    numbered from zero, each as large and as dear as the order it extends and its
    own segments together, and the commit with their number ([cursor_step]).
    Whatever the events of the scheduler and of the goroutine that sends, and
    however they fail, what a user has pushed for a provider is a path of that
    machine, as long as the provider is not stopped. *)

From stdpp Require Import relations.
From S2P Require Import Prelude GoMonad Codec Keys Segments SegmentID Types Tx Fr StateTypes State Orders HotStuff ProOrder UserOrder UserSend.

(** ** The data chain's place in the orders of a pair *)

Inductive cursor :=
  | CIdle (nonce : Z)                        (** the order of this nonce is expected *)
  | COpen (cb : SignedOrder) (seqNum : Z).   (** it is open, and this sequence or its commit is expected *)

Section UserProps.
Context `{!StateEnv} {W : Type} `{!IRole W, !ISendService W}.
Context `{!Codec NonceState, !Codec SeqState, !Codec (list SegJob)}.
Context `{!CodecLaws SignedOrder, !CodecLaws SignedOrderSeq, !CodecLaws OrderCommitParas}.
Context `{!CodecTotal SignedOrder, !CodecTotal SignedOrderSeq, !CodecTotal NonceState, !CodecTotal SeqState}.
Notation usrCtx := (usrCtx (W := W)).
Notation usrSys := (usrSys (W := W)).
Implicit Types (c : usrCtx) (o : proInst) (cf : usrConf) (clock : nat -> Z) (cur : cursor) (u p n k : Z).

(** The sums of a sequence that extends the order [cb], as [addSeq] checks them. *)
Definition amounts_ok (cb : SignedOrder) (q : OrderSeq) : bool :=
  let cnt := segs_count (os_Segments q) in
  (u64 (so_Size cb + u64 (cnt * DefaultSegSize)) =? os_Size q)
  && match ob_SegPrice (so_OrderBase cb), so_Price cb, os_Price q with
     | Some p, Some P, Some x => p * i64 cnt + P =? x
     | _, _, _ => false
     end.

Definition cursor_step u p cur (msg : Message) : option cursor :=
  if negb (m_From msg =? u) || negb (m_To msg =? p) then None
  else if m_Method msg =? PreDataOrder then
    match cur, decode (A := SignedOrder) (m_Params msg) with
    | CIdle n, Some so =>
        let b := so_OrderBase so in
        if (ob_UserID b =? u) && (ob_ProID b =? p) && (ob_Nonce b =? n)
           && (so_Size so =? 0) && bool_decide (so_Price so = Some 0) then Some (COpen so 0) else None
    | _, _ => None
    end
  else if m_Method msg =? AddDataOrder then
    match cur, decode (A := SignedOrderSeq) (m_Params msg) with
    | COpen cb k, Some sos =>
        let q := sos_OrderSeq sos in
        if (os_UserID q =? u) && (os_ProID q =? p) && (os_Nonce q =? ob_Nonce (so_OrderBase cb)) && (os_SeqNum q =? k)
           && amounts_ok cb q
        then Some (COpen (seq_base sos cb) (u32 (k + 1))) else None
    | _, _ => None
    end
  else if m_Method msg =? CommitDataOrder then
    match cur, decode (A := OrderCommitParas) (m_Params msg) with
    | COpen cb k, Some ocp =>
        if (ocp_UserID ocp =? u) && (ocp_ProID ocp =? p) && (ocp_Nonce ocp =? ob_Nonce (so_OrderBase cb)) && (ocp_SeqNum ocp =? k)
           && negb (so_Size cb =? 0)
        then Some (CIdle (u64 (ob_Nonce (so_OrderBase cb) + 1))) else None
    | _, _ => None
    end
  else None.

Fixpoint cursor_run u p cur (msgs : list Message) : option cursor :=
  match msgs with
  | [] => Some cur
  | msg :: msgs => match cursor_step u p cur msg with Some cur => cursor_run u p cur msgs | None => None end
  end.

Lemma cursor_run_snoc u p cur msgs cur1 msg cur2 :
  cursor_run u p cur msgs = Some cur1 -> cursor_step u p cur1 msg = Some cur2 ->
  cursor_run u p cur (msgs ++ [msg]) = Some cur2.
Proof.
  revert cur. induction msgs as [|m msgs IH]; intros cur; simpl.
  - intros [= ->] ->. done.
  - destruct (cursor_step u p cur m); [|done]. apply IH.
Qed.

(** ** Counting segments

    Lengths wrap, so the number of segments is known modulo 2^64, whatever the
    segments are. *)

Lemma segs_count_total (q : list AggSegs) : segs_count q = u64 (total q).
Proof.
  unfold segs_count. assert (Hg : forall a, is_u64 a -> foldl (fun acc seg => u64 (acc + as_Length seg)) a q = u64 (a + total q)).
  { induction q as [|x q IH]; intros a Ha; simpl; [by rewrite Z.add_0_r, u64_id|].
    rewrite IH by apply u64_range. rewrite u64_add_l. f_equal. lia. }
  by rewrite Hg.
Qed.
Lemma segs_count_Merge q : segs_count (Merge q) = segs_count q.
Proof. rewrite !segs_count_total. apply Merge_total_mod. Qed.
Lemma segs_count_Push q x : segs_count (Push q x) = u64 (segs_count q + as_Length x).
Proof. rewrite !segs_count_total, Push_total_mod, u64_add_l. done. Qed.

(** ** The instance follows the cursor *)

Section Follows.
(** How many chunks have been sent at most. *)
Variable N : Z.

Definition ids_of o (b : OrderBase) : Prop := ob_UserID b = pin_localID o /\ ob_ProID b = pin_pro o.
Definition seq_of o (sos : SignedOrderSeq) n k : Prop :=
  let q := sos_OrderSeq sos in
  os_UserID q = pin_localID o /\ os_ProID q = pin_pro o /\ os_Nonce q = n /\ os_SeqNum q = k.

(** The sequence adds its segments to the order [cb]. *)
Definition usr_above (cb : SignedOrder) (q : OrderSeq) : Prop := exists n p P, 0 <= n <= N /\
  ob_SegPrice (so_OrderBase cb) = Some p /\ so_Price cb = Some P /\ os_Price q = Some (P + n * p) /\
  os_Size q = u64 (so_Size cb + n * DefaultSegSize) /\ segs_count (os_Segments q) = u64 n.

(** The sequence was opened and holds nothing of its own. *)
Definition prepared o (b : SignedOrder) n k : Prop := exists q, pin_seq o = Some q /\ seq_of o q n k /\
  pin_seqNum o = u32 (k + 1) /\ pin_sjq o = [] /\ os_Size (sos_OrderSeq q) = so_Size b /\ os_Price (sos_OrderSeq q) = so_Price b /\
  os_Segments (sos_OrderSeq q) = [] /\
  sig_Data (sos_UserDataSig q) = [] /\ sig_Data (sos_ProDataSig q) = [] /\ pin_inflight o = false.

Definition same_amounts (b cb : SignedOrder) : Prop := so_Size b = so_Size cb /\ so_Price b = so_Price cb.

(** [k] sequences have been sent to the data chain, which has the order as [cb]. *)
Definition seq_at o (b cb : SignedOrder) n k : Prop :=
  (pin_seqState o = OrderSeq_Init /\ pin_inflight o = false /\ pin_seqNum o = k /\ same_amounts b cb /\
     forall q, pin_seq o = Some q -> sig_Data (sos_ProDataSig q) <> []) \/
  (pin_seqState o = OrderSeq_Init /\ pin_orderState o = Order_Closing /\ prepared o b n k /\ same_amounts b cb) \/
  (pin_seqState o = OrderSeq_Prepare /\ prepared o b n k /\ same_amounts b cb) \/
  ((pin_seqState o = OrderSeq_Send \/ pin_seqState o = OrderSeq_Commit) /\
     exists q, pin_seq o = Some q /\ seq_of o q n k /\ pin_seqNum o = u32 (k + 1) /\ usr_above cb (sos_OrderSeq q) /\
       (pin_seqState o = OrderSeq_Send \/ pin_inflight o = true -> sig_Data (sos_UserDataSig q) = [])).

(** An order has a price and a size. *)
Definition valued (cb : SignedOrder) : Prop :=
  is_Some (ob_SegPrice (so_OrderBase cb)) /\ is_Some (so_Price cb) /\ is_u64 (so_Size cb).

Definition follows o cur : Prop :=
  match cur with
  | CIdle n => pin_nonce o = n /\ pin_seq o = None /\ pin_inflight o = false /\
      (pin_orderState o = Order_Init \/
       pin_orderState o = Order_Wait /\ pin_seqState o = OrderSeq_Init /\ pin_seqNum o = 0 /\
         exists b, pin_base o = Some b /\ ids_of o (so_OrderBase b) /\ ob_Nonce (so_OrderBase b) = n /\
           is_Some (ob_SegPrice (so_OrderBase b)) /\ so_Size b = 0 /\ so_Price b = Some 0)
  | COpen cb k => let n := ob_Nonce (so_OrderBase cb) in
      (pin_orderState o = Order_Running \/ pin_orderState o = Order_Closing) /\
      valued cb /\ ids_of o (so_OrderBase cb) /\ pin_nonce o = u64 (n + 1) /\
      exists b, pin_base o = Some b /\ so_OrderBase b = so_OrderBase cb /\ seq_at o b cb n k
  end.

(** Stopping a provider breaks the order; the rest is a path of the machine. *)
Definition tracks cur0 c : Prop :=
  pin_inStop (uc_pin c) = true \/
  exists cur, cursor_run (pin_localID (uc_pin c)) (pin_pro (uc_pin c)) cur0 (uc_msgs c) = Some cur /\ follows (uc_pin c) cur.
End Follows.

(** ** What keeps the instance and the messages *)

Definition same_pin c c' : Prop := uc_pin c' = uc_pin c /\ uc_msgs c' = uc_msgs c.
#[local] Instance same_pin_preorder : PreOrder same_pin.
Proof. split; [done|]. intros ? ? ? [? ?] [? ?]. split; congruence. Qed.

Lemma same_usr_env {A} (m : M W A) : Keeps same_pin (usr_env m).
Proof. apply keeps_zoom. done. Qed.
Lemma same_usr_Put key v : Keeps same_pin (usr_Put (W := W) key v).
Proof. by apply keeps_modify. Qed.
Lemma same_spawn t : Keeps same_pin (spawn (W := W) t).
Proof. by apply keeps_modify. Qed.
Lemma same_redo sj : Keeps same_pin (send_redo (W := W) sj).
Proof. by apply keeps_modify. Qed.
Lemma same_sent sj : Keeps same_pin (send_sent (W := W) sj).
Proof. by apply keeps_modify. Qed.
Lemma keeps_the_pin (R : usrCtx -> usrCtx -> Prop) `{!PreOrder R} : Keeps R the_pin.
Proof. unfold the_pin. keeps. Qed.
Lemma keeps_pin_base (R : usrCtx -> usrCtx -> Prop) `{!PreOrder R} : Keeps R pin_the_base.
Proof. unfold pin_the_base, the_pin. keeps. Qed.
Lemma keeps_pin_seq (R : usrCtx -> usrCtx -> Prop) `{!PreOrder R} : Keeps R pin_the_seq.
Proof. unfold pin_the_seq, the_pin. keeps. Qed.
#[local] Hint Resolve same_usr_env same_usr_Put same_spawn same_redo same_sent keeps_the_pin keeps_pin_base keeps_pin_seq : keeps.

Lemma same_saveOrderBase : Keeps same_pin (usr_saveOrderBase (W := W)).
Proof. unfold usr_saveOrderBase. keeps. Qed.
Lemma same_saveOrderState : Keeps same_pin (usr_saveOrderState (W := W)).
Proof. unfold usr_saveOrderState. keeps. Qed.
Lemma same_saveOrderSeq : Keeps same_pin (usr_saveOrderSeq (W := W)).
Proof. unfold usr_saveOrderSeq. keeps. Qed.
Lemma same_saveSeqState : Keeps same_pin (usr_saveSeqState (W := W)).
Proof. unfold usr_saveSeqState. keeps. Qed.
Lemma same_saveSeqJob : Keeps same_pin (saveSeqJob (W := W)).
Proof. unfold saveSeqJob. keeps. Qed.
Lemma same_verify id h sig e : Keeps same_pin (usr_verify (W := W) id h sig e).
Proof. unfold usr_verify. keeps. Qed.
#[local] Hint Resolve same_saveOrderBase same_saveOrderState same_saveOrderSeq same_saveSeqState same_saveSeqJob same_verify : keeps.

(** Nothing takes a stop back. *)
Definition stop_mono c c' : Prop := pin_inStop (uc_pin c) = true -> pin_inStop (uc_pin c') = true.
#[local] Instance stop_mono_preorder : PreOrder stop_mono.
Proof. split; [intros c Hc; exact Hc|]. intros c1 c2 c3 Ha Hb Hs. by apply Hb, Ha. Qed.

(** Events keep [tracks]. *)
Definition trk c c' : Prop := forall N cur0, tracks N cur0 c -> tracks N cur0 c'.
#[local] Instance trk_preorder : PreOrder trk.
Proof. split; [intros c N cur0 Ht; exact Ht|]. intros c1 c2 c3 Ha Hb N cur0 Ht. by apply Hb, Ha. Qed.

Lemma same_stop c c' : same_pin c c' -> stop_mono c c'.
Proof. intros [E _]. unfold stop_mono. by rewrite E. Qed.
Lemma same_trk c c' : same_pin c c' -> trk c c'.
Proof. intros [E1 E2] N cur0. unfold tracks. by rewrite E1, E2. Qed.
Lemma keeps_weaken (R R2 : usrCtx -> usrCtx -> Prop) {A} (m : M usrCtx A) :
  (forall c c', R c c' -> R2 c c') -> Keeps R m -> Keeps R2 m.
Proof. intros HR Hm c. apply HR, Hm. Qed.

Lemma stop_pin f : (forall o, pin_inStop o = true -> pin_inStop (f o) = true) -> Keeps stop_mono (on_pin (W := W) f).
Proof. intros Hf. apply keeps_modify. intros c. exact (Hf (uc_pin c)). Qed.
Lemma stop_msg msg : Keeps stop_mono (push_msg (W := W) msg).
Proof. apply keeps_modify. intros c Hc. exact Hc. Qed.
#[local] Hint Extern 1 (Keeps stop_mono _) => apply (keeps_weaken _ _ _ same_stop); solve [eauto 3 with keeps typeclass_instances nocore] : keeps.
#[local] Hint Extern 2 (Keeps stop_mono (on_pin _)) => apply stop_pin; intros o0 Hg0; first [exact Hg0|reflexivity] : keeps.
#[local] Hint Extern 2 (Keeps stop_mono (on_pin_base _)) => apply stop_pin; intros o0 Hg0; exact Hg0 : keeps.
#[local] Hint Extern 2 (Keeps stop_mono (on_pin_seq _)) => apply stop_pin; intros o0 Hg0; exact Hg0 : keeps.
#[local] Hint Resolve stop_msg : keeps.
#[local] Opaque usr_saveOrderBase usr_saveOrderState usr_saveOrderSeq usr_saveSeqState saveSeqJob usr_env usr_Put spawn send_redo send_sent push_msg on_pin.

Lemma stop_doneOrder clock : Keeps stop_mono (doneOrder (W := W) clock).
Proof. unfold doneOrder, done_reset. keeps. Qed.
#[local] Hint Resolve stop_doneOrder : keeps.
Lemma stop_stopOrder clock : Keeps stop_mono (stopOrder (W := W) clock).
Proof. unfold stopOrder, stop_amounts, big_Set. keeps. Qed.
#[local] Hint Resolve stop_stopOrder : keeps.
Lemma stop_createOrder cf clock quo : Keeps stop_mono (usr_createOrder (W := W) cf clock quo).
Proof. unfold usr_createOrder, createOrder_init, createOrder_wait. keeps. Qed.
Lemma stop_closeOrder cf clock : Keeps stop_mono (closeOrder (W := W) cf clock).
Proof. unfold closeOrder, closeOrder_now. keeps. Qed.
Lemma stop_runOrder clock ob : Keeps stop_mono (runOrder (W := W) clock ob).
Proof. unfold runOrder. keeps. Qed.
Lemma stop_createSeq clock : Keeps stop_mono (createSeq (W := W) clock).
Proof. unfold createSeq, createSeq_send, big_Set. keeps. Qed.
Lemma stop_sendSeq clock : Keeps stop_mono (sendSeq (W := W) clock).
Proof. unfold sendSeq. keeps. Qed.
Lemma stop_commitSeq cf clock : Keeps stop_mono (commitSeq (W := W) cf clock).
Proof. unfold commitSeq, commitSeq_sign, big_Set. keeps. Qed.
Lemma stop_finishSeq cf clock s : Keeps stop_mono (finishSeq (W := W) cf clock s).
Proof. unfold finishSeq, finishSeq_push, big_Set, usr_verify_ign. keeps. Qed.
#[local] Hint Resolve stop_createOrder stop_closeOrder stop_runOrder stop_createSeq stop_sendSeq stop_commitSeq stop_finishSeq : keeps.
Lemma stop_runOrderSched cf clock e : Keeps stop_mono (runOrderSched (W := W) cf clock e).
Proof.
  unfold runOrderSched, check_pin, check_avail, check_state, check_running, check_closing, seen_now, fail_more. keeps.
Qed.
Lemma stop_addSeg sj : Keeps stop_mono (addSeg (W := W) sj).
Proof. unfold addSeg. keeps. Qed.
Lemma stop_drop_job bid : Keeps stop_mono (drop_job (W := W) bid).
Proof. unfold drop_job. keeps. Qed.
#[local] Hint Resolve stop_drop_job : keeps.
Lemma stop_take got i : Keeps stop_mono (sendChunk_take (W := W) got i).
Proof. unfold sendChunk_take. keeps. Qed.
Lemma stop_add bid sj sid : Keeps stop_mono (sendChunk_add (W := W) bid sj sid).
Proof. unfold sendChunk_add, big_Add, set_idle. keeps. Qed.
#[local] Hint Resolve stop_add : keeps.
Lemma stop_sent t bid sj sid r : Keeps stop_mono (sendChunk_sent (W := W) t bid sj sid r).
Proof. unfold sendChunk_sent, set_idle. keeps. Qed.

(** ** Tools for one handler *)

Section Track.
Variable (N : Z) (cur0 : cursor).
Local Abbreviation T := (tracks N cur0).
Local Abbreviation WPT m c := (wp_live T m (fun _ => T) c).

Lemma wpt_keeps {A} (m : M usrCtx A) c : Keeps trk m -> T c -> WPT m c.
Proof. intros Hm Ht. eapply wpx_keeps; [done|..]; [|done]. intros c' Hc. by apply Hc. Qed.
Lemma wpt_same {A} (m : M usrCtx A) c (Q : A -> usrCtx -> Prop) :
  Keeps same_pin m -> T c -> (forall a c', same_pin c c' -> Q a c') -> wp_live T m Q c.
Proof.
  intros Hm Ht HQ. specialize (Hm c). unfold wpx. destruct (m c) as [[a|e|w] c']; simpl in Hm; [eauto| |done].
  by apply (same_trk c).
Qed.
Lemma wpt_stop {A} (m : M usrCtx A) c (Q : A -> usrCtx -> Prop) :
  Keeps stop_mono m -> pin_inStop (uc_pin c) = true ->
  (forall a c', pin_inStop (uc_pin c') = true -> Q a c') -> wp_live T m Q c.
Proof.
  intros Hm Hs HQ. specialize (Hm c Hs). unfold wpx. destruct (m c) as [[a|e|w] c']; simpl in Hm; [eauto| |done]. by left.
Qed.

(** The call is logged: its error is no error. *)
Lemma wpt_try {A} (m : M usrCtx A) c : WPT m c -> WPT (let! _ := try_err m in ret tt) c.
Proof. unfold wpx, bind, try_err. destruct (m c) as [[a|e|w] c']; done. Qed.

Lemma wp_pin_base I (Q : SignedOrder -> usrCtx -> Prop) c :
  (forall b, pin_base (uc_pin c) = Some b -> Q b c) -> wp_live I pin_the_base Q c.
Proof. intros HQ. unfold pin_the_base, the_pin. apply wp_bind, wp_gets, wp_deref; auto. Qed.
Lemma wp_pin_seq I (Q : SignedOrderSeq -> usrCtx -> Prop) c :
  (forall q, pin_seq (uc_pin c) = Some q -> Q q c) -> wp_live I pin_the_seq Q c.
Proof. intros HQ. unfold pin_the_seq, the_pin. apply wp_bind, wp_gets, wp_deref; auto. Qed.
Lemma wp_big_Set I (z x : option Z) (Q : option Z -> usrCtx -> Prop) c : (forall r, Q r c) -> wp_live I (big_Set z x) Q c.
Proof. intros HQ. unfold big_Set. destruct z, x; first [by apply wp_ret|by apply wp_panic]. Qed.
Lemma wp_on_pin I P (Q : unit -> usrCtx -> Prop) f c : Q tt (set_uc_pin f c) -> wpx I P (on_pin f) Q c.
Proof. intros HQ. exact HQ. Qed.

(** What the invariant is about. *)
Definition same_core o o' : Prop :=
  pin_localID o' = pin_localID o /\ pin_pro o' = pin_pro o /\ pin_nonce o' = pin_nonce o /\ pin_seqNum o' = pin_seqNum o /\
  pin_base o' = pin_base o /\ pin_orderState o' = pin_orderState o /\ pin_seq o' = pin_seq o /\
  pin_seqState o' = pin_seqState o /\ pin_sjq o' = pin_sjq o /\ pin_inflight o' = pin_inflight o /\ pin_inStop o' = pin_inStop o.
Lemma follows_core N1 o o' cur : same_core o o' -> follows N1 o cur -> follows N1 o' cur.
Proof.
  intros (E1 & E2 & E3 & E4 & E5 & E6 & E7 & E8 & E9 & E10 & E11).
  unfold follows, seq_at, prepared, ids_of, seq_of. by rewrite E1, E2, E3, E4, E5, E6, E7, E8, E9, E10.
Qed.
Lemma trk_core c f : same_core (uc_pin c) (f (uc_pin c)) -> trk c (set_uc_pin f c).
Proof.
  intros Hc N1 cur1 [Hs|(cur & Hr & Hf)].
  - left. destruct Hc as (_ & _ & _ & _ & _ & _ & _ & _ & _ & _ & E). cbn. by rewrite E.
  - right. exists cur. pose proof Hc as (E1 & E2 & _). cbn. rewrite E1, E2. split; [done|]. by eapply follows_core.
Qed.
Lemma keeps_same_core f : (forall o, same_core o (f o)) -> Keeps trk (on_pin (W := W) f).
Proof. intros Hf. apply keeps_modify. intros c. apply trk_core, Hf. Qed.
Lemma keeps_trk_same {A} (m : M usrCtx A) : Keeps same_pin m -> Keeps trk m.
Proof. apply keeps_weaken, same_trk. Qed.
End Track.
#[local] Hint Extern 1 (Keeps trk _) => apply keeps_trk_same; solve [eauto 3 with keeps typeclass_instances nocore] : keeps.
#[local] Hint Extern 2 (Keeps trk (on_pin _)) => apply keeps_same_core; intros o0; by repeat split : keeps.
#[local] Hint Extern 2 (Keeps trk (modify _)) => apply keeps_modify; intros c0 N1 cur1 Ht0; exact Ht0 : keeps.

Lemma trk_seen clock : Keeps trk (seen_now (W := W) clock).
Proof. unfold seen_now. keeps. Qed.
Lemma trk_fail : Keeps trk (fail_more (W := W)).
Proof. unfold fail_more. keeps. Qed.
Lemma trk_addSeg sj : Keeps trk (addSeg (W := W) sj).
Proof. unfold addSeg. keeps. Qed.
Lemma trk_drop bid : Keeps trk (drop_job (W := W) bid).
Proof. unfold drop_job. keeps. Qed.
#[local] Hint Resolve trk_seen trk_fail trk_addSeg trk_drop : keeps.

(** Two different states. *)
Ltac state_clash :=
  exfalso; unfold Order_Init, Order_Wait, Order_Running, Order_Closing, Order_Done, OrderSeq_Init, OrderSeq_Prepare,
    OrderSeq_Send, OrderSeq_Commit, OrderSeq_Finish in *; congruence.

(** ** Stopping, closing and finishing an order *)

Section Handlers.
Variable (N : Z) (cur0 : cursor).
Local Abbreviation T := (tracks N cur0).
Local Abbreviation WPT m c := (wp_live T m (fun _ => T) c).
#[local] Hint Resolve trk_seen trk_fail trk_addSeg trk_drop : keeps.

Lemma wpt_stopped {A} (m : M usrCtx A) c : Keeps stop_mono m -> pin_inStop (uc_pin c) = true -> WPT m c.
Proof. intros Hm Hs. apply wpt_stop; [done|done|]. intros a c' Hs'. by left. Qed.

Lemma stopOrder_track clock c : T c -> WPT (stopOrder clock) c.
Proof.
  intros Ht. unfold stopOrder. apply wp_bind, wp_gets, wp_bind, wp_check; [done|]. intros _.
  apply wp_bind, wp_on_pin. apply wpt_stopped; [|done]. unfold stop_amounts, big_Set. keeps.
Qed.

Lemma wpt_try_then {A B} (m : M usrCtx A) (f : option A -> M usrCtx B) c Q :
  WPT m c -> (forall r c, T c -> wp_live T (f r) Q c) -> wp_live T (let! r := try_err m in f r) Q c.
Proof.
  intros Hm Hf. apply wp_bind. unfold wpx, try_err in *. destruct (m c) as [[a|e|w] c']; [by apply Hf..|done].
Qed.

(** The state after [done_reset], for what the invariant is about. *)
Lemma done_reset_track clock c n u p :
  pin_inStop (uc_pin c) = true \/
  (cursor_run u p cur0 (uc_msgs c) = Some (CIdle (u64 (n + 1))) /\ u = pin_localID (uc_pin c) /\ p = pin_pro (uc_pin c) /\
   pin_nonce (uc_pin c) = u64 (n + 1) /\ pin_inflight (uc_pin c) = false) ->
  wp_live T (done_reset clock) (fun _ => T) c.
Proof.
  intros Hc.
  set (J c1 := pin_inStop (uc_pin c1) = true \/ (cursor_run u p cur0 (uc_msgs c1) = Some (CIdle (u64 (n + 1))) /\
    u = pin_localID (uc_pin c1) /\ p = pin_pro (uc_pin c1) /\ pin_nonce (uc_pin c1) = u64 (n + 1) /\ pin_inflight (uc_pin c1) = false)).
  assert (Hsame : forall c1 c2, same_pin c1 c2 -> J c1 -> J c2).
  { intros c1 c2 [E1 E2]. unfold J. by rewrite E1, E2. }
  assert (Htry : forall (m : M usrCtx unit) (f : option unit -> M usrCtx unit) c1, Keeps same_pin m -> J c1 ->
    (forall r c2, J c2 -> (pin_orderState (uc_pin c1) = Order_Init -> pin_orderState (uc_pin c2) = Order_Init) ->
       wp_live T (f r) (fun _ => T) c2) ->
    wp_live T (let! r := try_err m in f r) (fun _ => T) c1).
  { intros m f c1 Hm Hj Hf. specialize (Hm c1). apply wp_bind. unfold wpx at 1, try_err.
    destruct (m c1) as [[a|e|w] c2]; simpl in Hm; [..|done]; apply Hf; eauto; destruct Hm as [-> _]; done. }
  unfold done_reset. apply wp_bind, wp_on_pin, Htry; [apply same_saveOrderState|exact Hc|].
  intros r1 c1 Hc1 _. apply wp_bind, wp_on_pin, wp_bind, wp_on_pin, Htry; [apply same_saveOrderState|exact Hc1|].
  intros r2 c2 Hc2 Hi. apply wp_bind, wp_on_pin, wp_bind, wp_on_pin, Htry; [apply same_saveSeqState|exact Hc2|].
  intros r3 c3 Hc3 Hi3. apply wp_on_pin. destruct Hc3 as [Hs|(Hr & -> & -> & Hn & Hfl)]; [by left|].
  right. eexists. split; [exact Hr|]. cbn. split_and!; [done|done|done|]. left. apply Hi3. cbn. by apply Hi.
Qed.

Lemma commit_seqNum_at o b cb q n k :
  pin_base o = Some b -> pin_seq o = Some q -> pin_orderState o = Order_Closing -> pin_seqState o = OrderSeq_Init ->
  seq_at N o b cb n k -> commit_seqNum o b q = k /\ pin_inflight o = false /\ same_amounts b cb.
Proof.
  intros Hb Hq Ho Hs Ha. unfold commit_seqNum.
  destruct Ha as [(_ & Hfl & <- & Hab & Hsig)|[(_ & _ & (q1 & Hq1 & (_ & _ & _ & Hn) & _ & Hj & Hsz & _ & _ & _ & Hsig & Hfl) & Hab)|[(E & _)|([E|E] & _)]]];
    [| |state_clash..].
  - specialize (Hsig q Hq). split; [|by split]. destruct (sig_Data (sos_ProDataSig q)); [done|]. by rewrite !andb_false_r.
  - assert (q1 = q) as -> by congruence. rewrite Hj, Hsz, Hsig, Z.eqb_refl. split; [exact Hn|by split].
Qed.

Lemma cursor_commit o b cb k data :
  marshal (mkOrderCommitParas (ob_UserID (so_OrderBase b)) (ob_ProID (so_OrderBase b)) (ob_Nonce (so_OrderBase b)) k) = Some data ->
  so_OrderBase b = so_OrderBase cb -> ids_of o (so_OrderBase cb) -> so_Size cb <> 0 ->
  cursor_step (pin_localID o) (pin_pro o) (COpen cb k)
    (order_msg (ob_UserID (so_OrderBase b)) (ob_ProID (so_OrderBase b)) CommitDataOrder data) = Some (CIdle (u64 (ob_Nonce (so_OrderBase cb) + 1))).
Proof.
  intros Hd%decode_marshal Eb (E1 & E2) Hsz. rewrite Eb in *. unfold cursor_step. cbn. rewrite Hd. cbn. rewrite E1, E2, !Z.eqb_refl.
  rewrite (proj2 (Z.eqb_neq _ _) Hsz). done.
Qed.

#[local] Transparent push_msg.
Lemma wpt_push msg cur cur2 c Q :
  cursor_run (pin_localID (uc_pin c)) (pin_pro (uc_pin c)) cur0 (uc_msgs c) = Some cur ->
  cursor_step (pin_localID (uc_pin c)) (pin_pro (uc_pin c)) cur msg = Some cur2 ->
  (cursor_run (pin_localID (uc_pin c)) (pin_pro (uc_pin c)) cur0 (uc_msgs c ++ [msg]) = Some cur2 ->
     Q tt (set_uc_msgs (fun l => l ++ [msg]) c)) ->
  wp_live T (push_msg msg) Q c.
Proof. intros Hr Hs HQ. unfold push_msg. apply wp_modify, HQ. by eapply cursor_run_snoc. Qed.

Lemma doneOrder_track clock c : T c -> WPT (doneOrder clock) c.
Proof.
  intros Ht. destruct Ht as [Hs|(cur & Hr & Hf)]; [apply wpt_stopped; [apply stop_doneOrder|done]|].
  assert (Ht : T c) by (right; by exists cur).
  unfold doneOrder. apply wp_bind, wp_gets, wp_bind, wp_of_option; [done|]. intros b Hb.
  apply wp_bind, wp_check; [done|]. intros Ho%bool_decide_eq_true.
  apply wp_bind, wp_check; [done|]. intros Hsz%negb_true_iff%Z.eqb_neq.
  apply wp_bind. destruct (pin_seq (uc_pin c)) as [q|] eqn:Hq; [|by apply wp_throw].
  apply wp_bind, wp_check; [done|]. intros Hss%bool_decide_eq_true. apply wp_bind, wp_check; [done|]. intros _.
  apply wp_ret. cbv zeta. apply wp_bind, wp_check; [done|]. intros _. apply wp_bind, wp_of_option; [done|]. intros data Hd.
  destruct cur as [n|cb k]; [destruct Hf as (_ & _ & _ & [E|(E & _)]); state_clash|].
  destruct Hf as (_ & Hv & Hids & Hn & b1 & Hb1 & Hob & Ha). assert (b1 = b) as -> by congruence.
  destruct (commit_seqNum_at _ b cb q _ k Hb Hq Ho Hss Ha) as (Enum & Hfl & Eb & _). rewrite Enum in Hd. rewrite Eb in Hsz.
  apply wp_bind. eapply wpt_push; [exact Hr|by eapply cursor_commit|]. intros Hr2.
  apply wp_bind. eapply wp_mono; [eapply (done_reset_track _ _ (ob_Nonce (so_OrderBase cb)))|].
  - right. split; [exact Hr2|]. cbn. done.
  - intros [] c2 Ht2. apply wp_bind, wp_gets. apply wpt_keeps; [|exact Ht2]. keeps.
Qed.

Lemma closeOrder_now_track clock c : T c ->
  (pin_inStop (uc_pin c) = true \/ pin_orderState (uc_pin c) = Order_Running) -> WPT (closeOrder_now clock) c.
Proof.
  intros [Hs|(cur & Hr & Hf)] Hrun; [apply wpt_stopped; [unfold closeOrder_now; keeps|done]|].
  destruct Hrun as [Hs|Ho]; [apply wpt_stopped; [unfold closeOrder_now; keeps|done]|].
  unfold closeOrder_now. apply wp_bind, wp_on_pin. apply wpt_keeps; [keeps|]. right. exists cur. split; [exact Hr|].
  destruct cur as [n|cb k]; [destruct Hf as (_ & _ & _ & [E|(E & _)]); state_clash|].
  destruct Hf as (_ & Hv & Hids & Hn & b & Hb & Hob & Ha). split_and!; [by right|exact Hv|exact Hids|exact Hn|].
  exists b. split_and!; [exact Hb|exact Hob|].
  destruct Ha as [Ha|[(_ & E & _)|Ha]]; [left; exact Ha|state_clash|right; right; exact Ha].
Qed.

(** A call of [stopOrder] either stops the provider or leaves the instance alone. *)
Lemma stopOrder_either clock c : T c ->
  wp_live (fun c2 => pin_inStop (uc_pin c2) = true \/ c2 = c) (stopOrder clock) (fun _ c2 => pin_inStop (uc_pin c2) = true) c.
Proof.
  intros Ht. unfold stopOrder. apply wp_bind, wp_gets, wp_bind, wp_check; [by right|]. intros _.
  apply wp_bind, wp_on_pin.
  match goal with |- wpx _ _ ?m _ ?d => assert (Hm : Keeps stop_mono m); [unfold stop_amounts, big_Set; keeps|];
    specialize (Hm d eq_refl); unfold wpx; destruct (m d) as [[a|e|w] c2]; simpl in Hm; auto end.
Qed.

Lemma closeOrder_track cf clock c : T c -> WPT (closeOrder cf clock) c.
Proof.
  intros Ht. unfold closeOrder. apply wp_bind, wp_gets, wp_bind, wp_of_option; [done|]. intros b Hb.
  apply wp_bind, wp_check; [done|]. intros Ho%bool_decide_eq_true.
  match goal with |- context [if ?x then _ else _] => destruct x end; [|apply closeOrder_now_track; auto].
  match goal with |- context [if ?x then _ else _] => destruct x end; [apply wpt_keeps; [keeps|done]|].
  apply wp_bind. pose proof (stopOrder_either (fun i : nat => clock (i + 10)%nat) c Ht) as Hst.
  unfold wpx at 1, try_err. unfold wpx in Hst. destruct (stopOrder _ c) as [[a|e|w] c2].
  - apply closeOrder_now_track; [by left|by left].
  - destruct Hst as [Hs| ->]; apply closeOrder_now_track; auto. by left.
  - done.
Qed.

(** ** Opening an order *)

Hypothesis verify_data : forall id h sig (w w2 : W), RoleVerify id h sig w = (Ok true, w2) -> sig_Data sig <> [].
Hypothesis HN : 0 <= N.

Lemma stopOrder_throw {A} clock e c : T c -> wp_live T (let! _ := try_err (stopOrder clock) in throw (A := A) e) (fun _ => T) c.
Proof. intros Ht. apply wpt_try_then; [by apply stopOrder_track|]. intros r c2 Ht2. by apply wp_throw. Qed.

Lemma createOrder_init_track cf clock quo c : T c -> pin_orderState (uc_pin c) = Order_Init ->
  match quo with Some quo => qu_ProID quo = pin_pro (uc_pin c) | None => True end -> WPT (createOrder_init cf clock quo) c.
Proof.
  intros Ht Ho Hq. unfold createOrder_init. apply wp_bind, wp_deref; [done|]. intros q ->.
  apply wp_bind, wp_deref; [done|]. intros sp Hsp. destruct (sp >? _); [by apply stopOrder_throw|].
  destruct (negb _); [by apply stopOrder_throw|].
  destruct Ht as [Hs|(cur & Hr & Hf)]; [apply wpt_stopped; [keeps|done]|].
  destruct cur as [n|cb k]; [|destruct Hf as ([E|E] & _); state_clash]. destruct Hf as (Hn & Hseq & Hfl & _).
  set (b := order_of_quotation cf (uc_pin c) q (clock 0%nat)).
  apply wp_bind, wp_on_pin. change (order_of_quotation cf (uc_pin c) q (clock 0%nat)) with b.
  set (c1 := set_uc_pin _ c).
  assert (Ht1 : T c1). { right. exists (CIdle n). split; [exact Hr|]. cbn. split_and!; [done..|]. by left. }
  apply wp_bind, wp_pin_base. intros b1 Hb1. apply wp_bind, wp_deref; [done|]. intros h _.
  apply wp_bind, wpt_same; [apply same_usr_env|exact Ht1|]. intros osig c2 [Ep Em].
  apply wp_bind, wp_on_pin, wp_bind, wp_on_pin. apply wpt_keeps; [keeps|].
  right. exists (CIdle n). cbn. rewrite Ep, Em. split; [exact Hr|]. split_and!; [exact Hn|exact Hseq|exact Hfl|]. right.
  split_and!; [done..|]. eexists. split; [done|]. cbn. rewrite Hsp. split_and!; try done.
Qed.

Lemma createOrder_wait_track clock c : T c -> pin_orderState (uc_pin c) = Order_Wait -> WPT (createOrder_wait clock) c.
Proof.
  intros Ht Ho. unfold createOrder_wait. apply wp_bind, wp_gets, wp_bind, wp_pin_base. intros b _. cbv zeta.
  assert (Hagain : WPT (on_pin (set_pin_orderState (fun _ => Order_Init))) c).
  { apply wp_on_pin. destruct Ht as [Hs|(cur & Hr & Hf)]; [by left|]. right. exists cur. split; [exact Hr|].
    destruct cur as [n|n k]; [|destruct Hf as ([E|E] & _); state_clash].
    destruct Hf as (Hn & Hseq & Hfl & _). split_and!; [done..|]. by left. }
  destruct (_ || _); [exact Hagain|]. destruct (_ || _); [exact Hagain|].
  destruct (_ && _); [apply wpt_try; by apply stopOrder_track|]. apply wpt_keeps; [keeps|done].
Qed.

Lemma createOrder_track cf clock quo c : T c ->
  match quo with Some quo => qu_ProID quo = pin_pro (uc_pin c) | None => True end -> WPT (usr_createOrder cf clock quo) c.
Proof.
  intros Ht Hq. unfold usr_createOrder. apply wp_bind, wp_gets, wp_bind, wp_check; [done|]. intros _. apply wp_bind.
  assert (Htail : forall c2, T c2 -> WPT (let! o := the_pin in if bool_decide (pin_orderState o = Order_Wait) then createOrder_wait clock else ret tt) c2).
  { intros c2 Ht2. apply wp_bind, wp_gets. case_bool_decide; [by apply createOrder_wait_track|done]. }
  case_bool_decide as Ho; [|by apply wp_ret, Htail].
  eapply wp_mono; [by apply createOrder_init_track|]. intros [] c2 Ht2. by apply Htail.
Qed.

(** The saves that cannot fail. *)
#[local] Transparent usr_saveOrderBase usr_saveOrderState usr_saveOrderSeq usr_saveSeqState usr_Put on_pin.
Lemma wp_saves (I : usrCtx -> Prop) (m : M usrCtx unit) c Q :
  Keeps same_pin m -> (forall e c2, m c <> (Err e, c2)) -> (forall c2, same_pin c c2 -> Q tt c2) -> wp_live I m Q c.
Proof. intros Hm He HQ. specialize (Hm c). unfold wpx. destruct (m c) as [[[]|e|w] c2] eqn:E; [by apply HQ|by destruct (He e c2)|done]. Qed.
Lemma saveOrderBase_total c e c2 : usr_saveOrderBase c <> (Err e, c2).
Proof.
  unfold usr_saveOrderBase, pin_the_base, the_pin, bind, gets, deref, of_option. destruct (pin_base (uc_pin c)) as [b|]; [|done]. cbn.
  by destruct (marshal_total b) as [d ->].
Qed.
Lemma saveOrderState_total c e c2 : usr_saveOrderState c <> (Err e, c2).
Proof.
  unfold usr_saveOrderState, pin_the_base, the_pin, bind, gets, deref, of_option. destruct (pin_base (uc_pin c)) as [b|]; [|done]. cbn.
  match goal with |- context [marshal ?x] => by destruct (marshal_total x) as [d ->] end.
Qed.
Lemma saveOrderSeq_total c e c2 : usr_saveOrderSeq c <> (Err e, c2).
Proof.
  unfold usr_saveOrderSeq, pin_the_base, pin_the_seq, the_pin, bind, gets, deref, of_option.
  destruct (pin_base (uc_pin c)) as [b|]; [|done]. cbn. destruct (pin_seq (uc_pin c)) as [q|]; [|done]. cbn.
  by destruct (marshal_total q) as [d ->].
Qed.
Lemma saveSeqState_total c e c2 : usr_saveSeqState c <> (Err e, c2).
Proof.
  unfold usr_saveSeqState, pin_the_base, pin_the_seq, the_pin, bind, gets, deref, of_option.
  destruct (pin_base (uc_pin c)) as [b|]; [|done]. cbn. destruct (pin_seq (uc_pin c)) as [q|]; [|done]. cbn.
  match goal with |- context [marshal ?x] => by destruct (marshal_total x) as [d ->] end.
Qed.
#[local] Opaque usr_saveOrderBase usr_saveOrderState usr_saveOrderSeq usr_saveSeqState usr_Put on_pin.

Lemma runOrder_track clock ob c : T c -> WPT (runOrder clock ob) c.
Proof.
  intros [Hs|(cur & Hr & Hf)]; [apply wpt_stopped; [apply stop_runOrder|done]|].
  assert (Ht : T c) by (right; by exists cur).
  unfold runOrder. apply wp_bind, wp_gets, wp_bind, wp_of_option; [done|]. intros b Hb.
  apply wp_bind, wp_check; [done|]. intros Ho%bool_decide_eq_true. apply wp_bind, wp_deref; [done|]. intros h _.
  apply wp_bind, wpt_same; [apply same_verify|done|]. intros [] c1 [Ep Em].
  destruct cur as [n|cb k]; [|destruct Hf as ([E|E] & _); state_clash].
  destruct Hf as (Hn & Hseq & Hfl & [E|(_ & Hss & Hnum & b1 & Hb1 & [E1 E2] & E3 & Hsp & Hsz & Hpr)]); [state_clash|].
  assert (b1 = b) as -> by congruence.
  apply wp_bind, wp_on_pin. apply wp_bind, wp_saves; [apply same_saveOrderBase|apply saveOrderBase_total|].
  intros c2 [Ep2 Em2]. apply wp_bind, wp_saves; [apply same_saveOrderState|apply saveOrderState_total|].
  intros c3 [Ep3 Em3]. rewrite Ep2 in Ep3. rewrite Em2 in Em3.
  apply wp_bind, wp_pin_base. intros b3 Hb3. rewrite Ep3 in Hb3. cbn in Hb3. rewrite Ep, Hb in Hb3. injection Hb3 as <-.
  destruct (marshal_total (set_so_Psign (fun _ => so_Psign ob) b)) as [data Hd]. rewrite Hd. apply wp_bind, wp_ret.
  cbn. rewrite E1, E2. apply wp_bind. eapply wpt_push.
  - rewrite Ep3, Em3. cbn. rewrite Ep, Em. exact Hr.
  - unfold cursor_step. rewrite Ep3. cbn. rewrite Ep, (decode_marshal _ _ Hd). cbn. rewrite E1, E2, E3, Hsz, Hpr, !Z.eqb_refl. done.
  - intros Hr2. apply wp_on_pin. right. eexists. split; [exact Hr2|]. cbn. rewrite Ep3. cbn. rewrite Ep.
    split_and!; [by left|split_and!; cbn; [done|by rewrite Hpr|by rewrite Hsz]|by split|by rewrite Hn, E3|].
    exists (set_so_Psign (fun _ => so_Psign ob) b). rewrite Hb. split_and!; [done|done|].
    left. split_and!; [exact Hss|exact Hfl|exact Hnum|by split|]. cbn. by rewrite Hseq.
Qed.

(** ** Sequences *)

Lemma Merge_nil {A} `{!Run A} : Merge (A := A) [] = [].
Proof. unfold Merge. pose proof (go_sort_perm (A := A) run_less []) as Hp. apply Permutation_sym, Permutation_nil in Hp. by rewrite Hp. Qed.

Lemma createSeq_send_track c : T c -> WPT createSeq_send c.
Proof.
  intros [Hs|(cur & Hr & Hf)]; [apply wpt_stopped; [unfold createSeq_send; keeps|done]|].
  assert (Ht : T c) by (right; by exists cur).
  unfold createSeq_send. apply wp_bind, wp_gets. destruct (pin_seq (uc_pin c)) as [q|] eqn:Hq; [|by apply wp_throw].
  case_bool_decide as Hss; [|by apply wp_throw].
  apply wp_bind, wp_on_pin, wp_bind, wp_on_pin. apply wpt_keeps; [keeps|]. right. exists cur. split; [exact Hr|].
  destruct cur as [n|cb k]; [destruct Hf as (_ & E & _); congruence|].
  destruct Hf as (Ho & Hv & Hids & Hn & b & Hb & Hob & Ha). split_and!; [exact Ho|exact Hv|exact Hids|exact Hn|].
  exists b. split_and!; [exact Hb|exact Hob|].
  destruct Ha as [(E & _)|[(E & _)|[(_ & (q1 & Hq1 & Hsq & Hnum & Hj & Hsz & Hpr & Hsg & Hu & Hp & Hfl) & Hab)|([E|E] & _)]]]; try state_clash.
  right; right; left. split_and!; [exact Hss| |exact Hab]. exists (set_sos_OrderSeq (set_os_Segments Merge) q1). cbn.
  rewrite Hq1, Hj, Hsg, !Merge_nil. by split_and!.
Qed.

Lemma createSeq_track clock c : T c -> WPT (createSeq clock) c.
Proof.
  intros Ht. unfold createSeq. apply wp_bind, wp_gets, wp_bind, wp_of_option; [done|]. intros b Hb.
  apply wp_bind, wp_check; [done|]. intros Ho%bool_decide_eq_true.
  case_bool_decide as Hss; [|by apply createSeq_send_track]. destruct (_ =? 0); [done|].
  apply wp_bind. unfold big_Set. destruct (so_Price b) as [price|] eqn:Hpr; [|by apply wp_panic]. apply wp_ret.
  apply wp_bind, wp_on_pin. apply createSeq_send_track.
  destruct Ht as [Hs|(cur & Hr & Hf)]; [by left|]. right. exists cur. split; [exact Hr|].
  destruct cur as [n|cb k]; [destruct Hf as (_ & _ & _ & [E|(E & _)]); state_clash|].
  destruct Hf as (_ & Hv & [E1 E2] & Hn & b1 & Hb1 & Hob & Ha). assert (b1 = b) as -> by congruence.
  split_and!; [by left|exact Hv|by split|exact Hn|]. exists b. split_and!; [exact Hb|exact Hob|].
  destruct Ha as [(_ & Hfl & <- & Hab & _)|[(_ & E & _)|[(E & _)|([E|E] & _)]]]; try state_clash.
  right; right; left. split_and!; [done| |exact Hab]. eexists. split; [done|]. unfold seq_of. cbn.
  rewrite Hob, Hpr. by split_and!.
Qed.

Lemma sendSeq_track clock c : T c -> WPT (sendSeq clock) c.
Proof.
  intros Ht. unfold sendSeq. apply wp_bind, wp_gets, wp_bind, wp_of_option; [done|]. intros b Hb.
  apply wp_bind, wp_check; [done|]. intros Ho%bool_decide_eq_true.
  destruct (pin_seq (uc_pin c)) as [q|] eqn:Hq; [|by apply wp_throw]. case_bool_decide as Hss; [|by apply wp_throw].
  apply wp_bind, wp_on_pin. apply wpt_keeps; [keeps|].
  destruct Ht as [Hs|(cur & Hr & Hf)]; [by left|]. right. exists cur. split; [exact Hr|].
  destruct cur as [n|cb k]; [destruct Hf as (_ & E & _); congruence|].
  destruct Hf as (_ & Hv & Hids & Hn & b1 & Hb1 & Hob & Ha). assert (b1 = b) as -> by congruence.
  split_and!; [by left|exact Hv|exact Hids|exact Hn|]. exists b. split_and!; [exact Hb|exact Hob|].
  destruct Ha as [(E & _)|[(E & _)|[(_ & (q1 & Hq1 & Hsq & Hnum & _ & Hsz & Hpr & Hsg & Hu & _) & Hab)|([E|E] & _)]]]; try state_clash.
  right; right; right. split; [by left|]. exists q1. split_and!; try done.
  destruct Hv as ([p Hp] & [P HP] & Hu64), Hab as [Eb1 Eb2]. exists 0, p, P. rewrite Hsz, Hpr, Hsg, Eb1, Eb2, HP.
  split_and!; [lia|exact HN|done|done|f_equal; lia|rewrite Z.mul_0_l, Z.add_0_r, u64_id; done|done].
Qed.

(** Changes of the sequence and of the order under way that keep what they are and their sums. *)
Definition keeps_seq (f : SignedOrderSeq -> SignedOrderSeq) : Prop := forall q0,
  let q := sos_OrderSeq q0 in let r := sos_OrderSeq (f q0) in
  os_UserID r = os_UserID q /\ os_ProID r = os_ProID q /\ os_Nonce r = os_Nonce q /\ os_SeqNum r = os_SeqNum q /\
  os_Size r = os_Size q /\ os_Price r = os_Price q /\ segs_count (os_Segments r) = segs_count (os_Segments q).

Lemma on_seq_track f c : T c -> keeps_seq f ->
  (forall q, sos_UserDataSig (f q) = sos_UserDataSig q \/ pin_seqState (uc_pin c) = OrderSeq_Commit /\ pin_inflight (uc_pin c) = false) ->
  pin_seqState (uc_pin c) = OrderSeq_Send \/ pin_seqState (uc_pin c) = OrderSeq_Commit ->
  T (set_uc_pin (set_pin_seq (fmap f)) c).
Proof.
  intros [Hs|(cur & Hr & Hf)] Hids Hsig Hss; [by left|]. right. exists cur. split; [exact Hr|].
  destruct cur as [n|cb k].
  - destruct Hf as (Hn & Hq & Hfl & [E|(E1 & E2 & _)]); [|destruct Hss; state_clash].
    split_and!; [exact Hn|cbn; by rewrite Hq|exact Hfl|by left].
  - destruct Hf as (Ho & Hv & Hp & Hn & b & Hb & Hob & Ha). split_and!; [exact Ho|exact Hv|exact Hp|exact Hn|].
    exists b. split_and!; [exact Hb|exact Hob|].
    destruct Ha as [(E & _)|[(E & _)|[(E & _)|(_ & q & Hq & Hsq & Hnum & (m & p & P & Hm & A1 & A2 & A3 & A4 & A5) & Hu)]]];
      try (destruct Hss; state_clash).
    right; right; right. split; [exact Hss|]. exists (f q). cbn. rewrite Hq.
    destruct (Hids q) as (F1 & F2 & F3 & F4 & F5 & F6 & F7). unfold seq_of. rewrite F1, F2, F3, F4.
    split_and!; [done|apply Hsq..|exact Hnum| |].
    + exists m, p, P. rewrite F5, F6, F7. split_and!; try done; apply Hm.
    + intros Hc. destruct (Hsig q) as [-> |[Hco Hfl]]; [by apply Hu|]. destruct Hc; [state_clash|congruence].
Qed.

Lemma on_base_track f c : T c -> (forall b, so_OrderBase (f b) = so_OrderBase b) ->
  pin_seqState (uc_pin c) = OrderSeq_Send \/ pin_seqState (uc_pin c) = OrderSeq_Commit ->
  T (set_uc_pin (set_pin_base (fmap f)) c).
Proof.
  intros [Hs|(cur & Hr & Hf)] Hids Hss; [by left|]. right. exists cur. split; [exact Hr|].
  destruct cur as [n|cb k].
  - destruct Hf as (Hn & Hq & Hfl & [E|(E1 & E2 & _)]); [|destruct Hss; state_clash].
    split_and!; [exact Hn|exact Hq|exact Hfl|by left].
  - destruct Hf as (Ho & Hv & Hp & Hn & b & Hb & Hob & Ha). split_and!; [exact Ho|exact Hv|exact Hp|exact Hn|].
    exists (f b). cbn. rewrite Hb, Hids. split_and!; [done|exact Hob|].
    destruct Ha as [(E & _)|[(E & _)|[(E & _)|Ha]]]; try (destruct Hss; state_clash). right; right; right. exact Ha.
Qed.

Lemma keeps_seq_Merge : keeps_seq (set_sos_OrderSeq (set_os_Segments Merge)).
Proof. intros q. cbn. rewrite segs_count_Merge. by split_and!. Qed.

Lemma commitSeq_sign_track cf clock c : T c -> pin_seqState (uc_pin c) = OrderSeq_Commit -> pin_inflight (uc_pin c) = false ->
  WPT (commitSeq_sign cf clock) c.
Proof.
  intros Ht Hss Hfl. unfold commitSeq_sign. apply wp_bind, wp_on_pin, wp_bind, wp_on_pin.
  set (c1 := set_uc_pin _ (set_uc_pin _ c)).
  assert (Ht1 : T c1). { apply on_seq_track; [|apply keeps_seq_Merge|by left|by right]. by apply (trk_core c). }
  apply wp_bind, wp_pin_seq. intros q Hq. apply wp_bind, wpt_same; [apply same_usr_env|exact Ht1|]. intros ssig c2 H12.
  pose proof (same_trk _ _ H12 _ _ Ht1) as Ht2. destruct H12 as [Ep2 _].
  apply wp_bind, wp_pin_base. intros b Hb. apply wp_bind, wp_on_pin.
  assert (Ht3 : T (set_uc_pin (set_pin_base (fmap (set_so_Size (fun _ => os_Size (sos_OrderSeq q))))) c2)).
  { apply on_base_track; [exact Ht2|done|]. rewrite Ep2. right. exact Hss. }
  apply wp_bind, wp_big_Set. intros y. apply wp_bind, wp_on_pin.
  assert (Ht4 : T (set_uc_pin (set_pin_base (fmap (set_so_Price (fun _ => y)))) (set_uc_pin (set_pin_base (fmap (set_so_Size (fun _ => os_Size (sos_OrderSeq q))))) c2))).
  { apply on_base_track; [exact Ht3|done|]. cbn. rewrite Ep2. right. exact Hss. }
  apply wp_bind, wp_pin_base. intros b4 _. apply wp_bind, wp_deref; [done|]. intros h _.
  apply wp_bind, wpt_same; [apply same_usr_env|exact Ht4|]. intros osig c5 H45.
  pose proof (same_trk _ _ H45 _ _ Ht4) as Ht5. destruct H45 as [Ep5 _].
  apply wp_bind, wp_on_pin. apply wpt_keeps; [keeps|].
  apply on_seq_track; [exact Ht5|by intros q0| |]; rewrite Ep5; cbn; rewrite Ep2; [intros q0|]; right; [split; [exact Hss|exact Hfl]|exact Hss].
Qed.

Lemma commitSeq_track cf clock c : T c -> WPT (commitSeq cf clock) c.
Proof.
  intros Ht. unfold commitSeq. apply wp_bind, wp_gets, wp_bind, wp_of_option; [done|]. intros b Hb.
  apply wp_bind, wp_check; [done|]. intros _. apply wp_bind, wp_of_option; [done|]. intros q Hq.
  case_bool_decide as Hsend.
  - apply wp_on_pin. destruct Ht as [Hs|(cur & Hr & Hf)]; [by left|]. right. exists cur. split; [exact Hr|].
    destruct cur as [n|cb k]; [destruct Hf as (_ & E & _); congruence|].
    destruct Hf as (Ho & Hv & Hp & Hn & b1 & Hb1 & Hob & Ha). split_and!; [exact Ho|exact Hv|exact Hp|exact Hn|].
    exists b1. split_and!; [exact Hb1|exact Hob|].
    destruct Ha as [(E & _)|[(E & _)|[(E & _)|(_ & q1 & Hq1 & Hsq & Hnum & Hab & Hu)]]]; try state_clash.
    right; right; right. split; [by right|]. exists q1. split_and!; try done. intros _. apply Hu. by left.
  - case_bool_decide as Hc; [|by apply wp_throw]. destruct (pin_inflight (uc_pin c)) eqn:Hfl; [done|].
    by apply commitSeq_sign_track.
Qed.

(** The provider answers for a sequence the user has signed. *)
Definition reply_due c : Prop := forall q, pin_seq (uc_pin c) = Some q ->
  pin_seqState (uc_pin c) = OrderSeq_Commit -> sig_Data (sos_UserDataSig q) <> [].

#[local] Transparent usr_Put usr_env on_pin.
Lemma amounts_ok_above cb q : usr_above N cb q -> N < 2 ^ 63 -> amounts_ok cb q = true.
Proof.
  intros (m & p & P & Hm & A1 & A2 & A3 & A4 & A5) Hlt. unfold amounts_ok. rewrite A1, A2, A3, A4, A5.
  rewrite (u64_id m), i64_id by (unfold is_u64; lia). rewrite u64_add_r, Z.eqb_refl. apply Z.eqb_eq. lia.
Qed.

Hypothesis HN63 : N < 2 ^ 63.
Lemma finishSeq_push_track cf c cb k b q :
  cf_localID cf = pin_localID (uc_pin c) ->
  cursor_run (pin_localID (uc_pin c)) (pin_pro (uc_pin c)) cur0 (uc_msgs c) = Some (COpen cb k) ->
  (pin_orderState (uc_pin c) = Order_Running \/ pin_orderState (uc_pin c) = Order_Closing) ->
  valued cb -> ids_of (uc_pin c) (so_OrderBase cb) -> pin_nonce (uc_pin c) = u64 (ob_Nonce (so_OrderBase cb) + 1) ->
  pin_base (uc_pin c) = Some b -> so_OrderBase b = so_OrderBase cb ->
  so_Size b = os_Size (sos_OrderSeq q) -> so_Price b = os_Price (sos_OrderSeq q) ->
  pin_seq (uc_pin c) = Some q -> seq_of (uc_pin c) q (ob_Nonce (so_OrderBase cb)) k -> pin_seqNum (uc_pin c) = u32 (k + 1) ->
  usr_above N cb (sos_OrderSeq q) -> pin_inflight (uc_pin c) = false -> sig_Data (sos_ProDataSig q) <> [] ->
  wp_live T (finishSeq_push cf) (fun _ => T) c.
Proof.
  intros Hcf Hr Ho Hv Hids Hn Hb Hob Hsz Hpr Hq Hsq Hnum Hab Hfl Hsig.
  unfold finishSeq_push. apply wp_bind, wp_pin_seq. intros q1 Hq1.
  assert (q1 = q) as -> by congruence. destruct (marshal_total q) as [data Hd]. rewrite Hd. apply wp_bind, wp_ret.
  apply wp_bind, wp_gets. destruct Hsq as (F1 & F2 & F3 & F4). cbv zeta.
  apply wp_bind. eapply wpt_push; [exact Hr| |].
  - unfold cursor_step. cbn. rewrite (decode_marshal _ _ Hd), Hcf. cbn.
    rewrite F1, F2, F3, F4, !Z.eqb_refl, amounts_ok_above by done. done.
  - intros Hr2. apply wp_bind.
    assert (Hfin : forall c2, uc_pin c2 = uc_pin c -> uc_msgs c2 = uc_msgs c ++ [order_msg (cf_localID cf) (pin_pro (uc_pin c)) AddDataOrder data] ->
      wp_live T (on_pin (fun o => set_pin_failCnt (fun _ => 0) (set_pin_seqState (fun _ => OrderSeq_Init) o))) (fun _ => T) c2).
    { intros c2 Ep Em. apply wp_on_pin. right. exists (COpen (seq_base q cb) (u32 (k + 1))). cbn. rewrite Ep, Em. split; [exact Hr2|].
      destruct Hab as (m & p & P & Hm & A1 & A2 & A3 & A4 & A5).
      split_and!; [exact Ho|split_and!; cbn; [by rewrite A1|by rewrite A3|rewrite A4; apply u64_range]|exact Hids|exact Hn|].
      exists b. split_and!; [exact Hb|exact Hob|]. left. split_and!; [done|exact Hfl|exact Hnum|by split|].
      cbn. rewrite Hq. by intros q2 [= <-]. }
    match goal with |- wpx _ _ (match ?x with _ => _ end) _ _ => destruct x end;
      [apply wp_modify|apply wp_ret]; by apply Hfin.
Qed.

Lemma wp_verify_ign id h sig e (Q : unit -> usrCtx -> Prop) c : T c ->
  (sig_Data sig <> [] -> forall c2, same_pin c c2 -> Q tt c2) -> wp_live T (usr_verify_ign id h sig e) Q c.
Proof.
  intros Ht HQ. unfold usr_verify_ign. apply wp_bind. unfold wpx at 1, try_err, usr_env, zoom.
  destruct (RoleVerify id h sig (uc_env c)) as [[ok|er|w] w2] eqn:E; [|by apply wp_check|done].
  apply wp_check; [exact Ht|]. cbn. intros ->. apply HQ; [by eapply verify_data|done].
Qed.
#[local] Opaque usr_Put usr_env on_pin.

Lemma finishSeq_track cf clock s c : T c -> cf_localID cf = pin_localID (uc_pin c) -> reply_due c -> WPT (finishSeq cf clock s) c.
Proof.
  intros [Hs|(cur & Hr & Hf)] Hcf Hdue; [apply wpt_stopped; [apply stop_finishSeq|done]|].
  assert (Ht : T c) by (right; by exists cur).
  unfold finishSeq. apply wp_bind, wp_gets, wp_bind, wp_of_option; [done|]. intros b Hb.
  apply wp_bind, wp_of_option; [done|]. intros q Hq. apply wp_bind, wp_check; [done|]. intros Hss%bool_decide_eq_true.
  apply wp_bind, wp_verify_ign; [done|]. intros Hsig c1 H1. pose proof (same_trk _ _ H1 _ _ Ht) as Ht1.
  apply wp_bind, wp_deref; [done|]. intros h _. apply wp_bind, wp_verify_ign; [done|]. intros _ c2 H2.
  assert (H12 : same_pin c c2) by (by etransitivity). destruct H12 as [Ep Em].
  destruct cur as [n|cb k]; [destruct Hf as (_ & E & _); congruence|].
  destruct Hf as (Ho & Hv & Hids & Hn & b1 & Hb1 & Hob & Ha). assert (b1 = b) as -> by congruence.
  destruct Ha as [(E & _)|[(E & _)|[(E & _)|(_ & q1 & Hq1 & Hsq & Hnum & Hab & Hu)]]]; try state_clash.
  assert (q1 = q) as -> by congruence.
  assert (Hfl : pin_inflight (uc_pin c) = false).
  { destruct (pin_inflight (uc_pin c)); [|done]. destruct (Hdue q Hq Hss). apply Hu. by right. }
  assert (exists x, os_Price (sos_OrderSeq q) = Some x) as (x & Hx) by (destruct Hab as (m & p & P & _ & _ & _ & A3 & _); eauto).
  apply wp_bind, wp_on_pin, wp_bind, wp_on_pin. apply wp_bind. unfold big_Set. rewrite Hx.
  destruct (so_Price b) as [P|]; [apply wp_ret|by apply wp_panic].
  apply wp_bind, wp_on_pin, wp_bind, wp_on_pin.
  apply wp_bind, wp_saves; [apply same_saveOrderSeq|apply saveOrderSeq_total|]. intros c3 [Ep3 Em3].
  apply wp_bind, wp_saves; [apply same_saveOrderBase|apply saveOrderBase_total|]. intros c4 [Ep4 Em4].
  apply wp_bind, wp_saves; [apply same_saveSeqState|apply saveSeqState_total|]. intros c5 [Ep5 Em5].
  rewrite Ep4, Ep3 in Ep5. rewrite Em4, Em3 in Em5. clear c3 c4 Ep3 Em3 Ep4 Em4.
  eapply (finishSeq_push_track cf c5 cb k _ (set_sos_ProSigs (sos_ProDataSig s) (sos_ProSig s) q));
    rewrite ?Ep5, ?Em5; cbn; rewrite ?Ep, ?Em, ?Hb, ?Hq; try done.
Qed.

(** ** The scheduler and the sender *)

Lemma wpt_seq {A B} (m : M usrCtx A) (f : A -> M usrCtx B) c :
  WPT m c -> (forall a c2, T c2 -> WPT (f a) c2) -> WPT (bind m f) c.
Proof. intros Hm Hf. apply wp_bind. eapply wp_mono; [exact Hm|]. intros a c2. apply Hf. Qed.
Lemma wpt_fail {A} (m : M usrCtx A) c : T c -> (forall c2, T c2 -> WPT m c2) -> WPT (do! fail_more; let! _ := try_err m in ret tt) c.
Proof. intros Ht Hm. apply wpt_seq; [apply wpt_keeps; [keeps|done]|]. intros _ c2 Ht2. by apply wpt_try, Hm. Qed.

Lemma check_avail_track cf clock nt c : T c -> WPT (check_avail cf clock nt) c.
Proof.
  intros Ht. unfold check_avail. apply wp_bind, wp_gets. destruct (_ <? 300); [apply wpt_keeps; [keeps|done]|].
  apply wpt_seq; [apply wpt_keeps; [keeps|done]|]. intros _ c1 Ht1.
  apply wpt_seq; [apply wpt_keeps; [keeps|done]|]. intros _ c2 Ht2.
  destruct (_ >? _); [by apply wpt_try, stopOrder_track|done].
Qed.

(** No sequence is left finished: [finishSeq] moves on. *)
Lemma check_running_track cf clock nt c : T c -> pin_orderState (uc_pin c) = Order_Running -> WPT (check_running cf clock nt) c.
Proof.
  intros Ht Ho. unfold check_running. apply wp_bind, wp_gets. destruct (_ >? _); [by apply wpt_try, closeOrder_track|]. cbv zeta.
  case_bool_decide as E1; [destruct (_ <? _); [by apply wpt_try, createSeq_track|done]|].
  case_bool_decide as E2; [destruct (_ >? _); [apply wpt_fail; [done|apply createSeq_track]|done]|].
  case_bool_decide as E3; [destruct (_ >? _); [by apply wpt_try, commitSeq_track|done]|].
  case_bool_decide as E4; [destruct (_ >? _); [apply wpt_fail; [done|intros; by apply commitSeq_track]|done]|].
  case_bool_decide as E5; [|done]. apply wp_on_pin. destruct Ht as [Hs|(cur & Hr & Hf)]; [by left|].
  destruct cur as [n|cb k]; [destruct Hf as (_ & _ & _ & [E|(E & _)]); state_clash|].
  destruct Hf as (_ & _ & _ & _ & b & _ & _ & [(E & _)|[(E & _)|[(E & _)|([E|E] & _)]]]); state_clash.
Qed.

Lemma check_closing_track cf clock nt c : T c -> pin_orderState (uc_pin c) = Order_Closing -> WPT (check_closing cf clock nt) c.
Proof.
  intros Ht Ho. unfold check_closing. apply wp_bind, wp_gets.
  case_bool_decide as E1; [by apply wpt_try, commitSeq_track|].
  case_bool_decide as E2; [destruct (_ >? _); [apply wpt_fail; [done|intros; by apply commitSeq_track]|done]|].
  destruct (_ || _) eqn:E3; [|done]. apply wp_bind, wp_on_pin. apply wpt_try, doneOrder_track.
  destruct Ht as [Hs|(cur & Hr & Hf)]; [by left|]. right. exists cur. split; [exact Hr|].
  destruct cur as [n|cb k]; [destruct Hf as (_ & _ & _ & [E|(E & _)]); state_clash|].
  destruct Hf as (_ & Hv & Hp & Hn & b & Hb & Hob & Ha). split_and!; [by right|exact Hv|exact Hp|exact Hn|].
  exists b. split_and!; [exact Hb|exact Hob|].
  destruct Ha as [(_ & Ha)|[(_ & _ & Ha)|[(_ & Ha)|([E|E] & _)]]]; [left| | |state_clash..].
  - split; [done|exact Ha].
  - right; left. split; [done|]. split; [exact Ho|exact Ha].
  - right; left. split; [done|]. split; [exact Ho|exact Ha].
Qed.

Lemma check_state_track cf clock nt c : T c -> WPT (check_state cf clock nt) c.
Proof.
  intros Ht. unfold check_state. apply wp_bind, wp_gets.
  case_bool_decide as E1; [apply wpt_keeps; [keeps|done]|].
  case_bool_decide as E2.
  { destruct (_ >? _); [|done]. apply wpt_fail; [done|]. intros c2 Ht2. by apply createOrder_track. }
  case_bool_decide as E3; [by apply check_running_track|]. case_bool_decide as E4; [by apply check_closing_track|].
  case_bool_decide as E5; [|done]. destruct (_ <? _); [|done]. apply wp_on_pin.
  destruct Ht as [Hs|(cur & Hr & Hf)]; [by left|].
  destruct cur as [n|n k]; [destruct Hf as (_ & _ & _ & [E|(E & _)])|destruct Hf as ([E|E] & _)]; state_clash.
Qed.

Lemma check_pin_track cf clock c : T c -> WPT (check_pin cf clock) c.
Proof.
  intros Ht. unfold check_pin. cbv zeta. apply wp_bind, wp_gets. destruct (pin_inStop (uc_pin c)); [done|].
  apply wpt_seq; [by apply check_avail_track|]. intros _ c1 Ht1. apply wp_bind, wp_gets.
  destruct (_ || _); [by apply wpt_try, stopOrder_track|]. destruct (negb _); [done|]. by apply check_state_track.
Qed.

(** What the events may be: quotations are handed to the instance of their
    provider, answers to a commit come after it. *)
Definition sched_ok c (e : sched_event) : Prop :=
  match e with
  | SQuotation quo => qu_ProID quo = pin_pro (uc_pin c)
  | SSeqFinish _ => reply_due c
  | _ => True
  end.

#[local] Transparent on_pin.
Lemma runOrderSched_track cf clock e c : T c -> cf_localID cf = pin_localID (uc_pin c) -> sched_ok c e ->
  WPT (runOrderSched cf clock e) c.
Proof.
  intros Ht Hcf He.
  assert (Hseen : T (set_uc_pin (set_pin_availTime (fun _ => clock 0%nat)) c)) by (by apply (trk_core c)).
  destruct e as [quo|ob|os|os| |desc]; cbn [runOrderSched].
  - apply wp_bind, wp_deref; [done|]. intros sp _. destruct (_ >? _); [apply wpt_keeps; [keeps|done]|].
    apply wp_bind, wp_on_pin, wp_bind, wp_on_pin. apply wpt_try, createOrder_track; [|exact He].
    apply trk_core; [by repeat split|]. by apply (trk_core c).
  - apply wp_bind, wp_on_pin. by apply wpt_try, runOrder_track.
  - apply wp_bind, wp_on_pin. by apply wpt_try, sendSeq_track.
  - apply wp_bind, wp_on_pin. by apply wpt_try, finishSeq_track.
  - by apply check_pin_track.
  - destruct desc; apply wpt_keeps; [keeps|done|keeps|done].
Qed.
#[local] Opaque on_pin.

Lemma idle_track c : T c -> T (set_uc_pin (set_pin_inflight (fun _ => false)) c).
Proof.
  intros [Hs|(cur & Hr & Hf)]; [by left|]. right. exists cur. split; [exact Hr|].
  destruct cur as [n|cb k]; [destruct Hf as (Hn & Hq & _ & Hc); split_and!; [exact Hn|exact Hq|done|exact Hc]|].
  destruct Hf as (Ho & Hv & Hp & Hn & b & Hb & Hob & Ha). split_and!; [exact Ho|exact Hv|exact Hp|exact Hn|].
  exists b. split_and!; [exact Hb|exact Hob|].
  assert (Hprep : forall m, prepared (uc_pin c) b m k -> prepared (set_pin_inflight (fun _ => false) (uc_pin c)) b m k).
  { intros m (q & F1 & F2 & F3 & F4 & F5 & F6 & F7 & F8 & F9 & _). exists q. by split_and!. }
  destruct Ha as [(E1 & _ & E2)|[(E1 & E2 & F & Hab)|[(E1 & F & Hab)|(E1 & q & F1 & F2 & F3 & F4 & F5)]]].
  - left. split; [exact E1|]. split; [done|exact E2].
  - right; left. split; [exact E1|]. split; [exact E2|]. split; [by apply Hprep|exact Hab].
  - right; right; left. split; [exact E1|]. split; [by apply Hprep|exact Hab].
  - right; right; right. split; [exact E1|]. exists q. split_and!; try done. intros [E|E]; [|done]. apply F5. by left.
Qed.

(** A chunk is in flight for a sequence that is open or waits to be signed. *)
Definition filling c : Prop :=
  pin_inStop (uc_pin c) = true \/ pin_seqState (uc_pin c) = OrderSeq_Send \/ pin_seqState (uc_pin c) = OrderSeq_Commit.
Lemma inflight_filling c : T c -> pin_inflight (uc_pin c) = true -> filling c.
Proof.
  intros [Hs|(cur & Hr & Hf)] Hfl; [by left|]. right.
  destruct cur as [n|cb k]; [destruct Hf as (_ & _ & E & _); congruence|].
  destruct Hf as (_ & _ & _ & _ & b & _ & _ & [(_ & E & _)|[(_ & _ & (q & _ & _ & _ & _ & _ & _ & _ & _ & _ & E) & _)|
    [(_ & (q & _ & _ & _ & _ & _ & _ & _ & _ & _ & E) & _)|(E & _)]]]); [congruence..|exact E].
Qed.

Lemma filling_sjq f c : T c -> filling c -> T (set_uc_pin (set_pin_sjq f) c).
Proof.
  intros [Hs|(cur & Hr & Hf)] [Hs2|Hss]; [by left..|]. right. exists cur. split; [exact Hr|].
  destruct cur as [n|cb k]; [exact Hf|]. destruct Hf as (Ho & Hv & Hp & Hn & b & Hb & Hob & Ha).
  split_and!; [exact Ho|exact Hv|exact Hp|exact Hn|]. exists b. split_and!; [exact Hb|exact Hob|].
  destruct Ha as [(E & _)|[(E & _)|[(E & _)|Ha]]]; [destruct Hss; state_clash..|]. right; right; right. exact Ha.
Qed.

(** A job in hand is announced. *)
#[local] Transparent on_pin.
Lemma sendChunk_take_track got i c : T c ->
  wp_live T (sendChunk_take got i) (fun sd c2 => T c2 /\ (sd_job sd <> None -> pin_inflight (uc_pin c2) = true)) c.
Proof.
  intros Ht. unfold sendChunk_take. apply wp_bind, wp_gets. destruct (negb (send_ready _) || _) eqn:Hready; [by apply wp_ret|].
  cbv zeta. destruct (_ !! _) as [bid|]; [|by apply wp_panic]. destruct (pin_jobs (uc_pin c) !! bid) as [[|sj l]|]; [by apply wp_ret| |by apply wp_ret].
  apply wp_bind, wp_pin_seq. intros q Hq. destruct (AggSegsQueue_Has _ _ _ _).
  - apply wp_bind. eapply wp_mono; [apply wpt_keeps; [keeps|exact Ht]|]. intros [] c2 Ht2. by apply wp_ret.
  - apply wp_bind, wp_on_pin, wp_ret. split; [|done].
    apply orb_false_iff in Hready as [Hready%negb_false_iff _]. unfold send_ready in Hready.
    apply andb_true_iff in Hready as [[_ Hss]%andb_true_iff _]. rewrite Hq in Hss. apply bool_decide_eq_true in Hss.
    destruct Ht as [Hs|(cur & Hr & Hf)]; [by left|]. right. exists cur. split; [exact Hr|].
    destruct cur as [n|cb k]; [destruct Hf as (_ & E & _); congruence|].
    destruct Hf as (Ho & Hv & Hp & Hn & b & Hb & Hob & Ha). split_and!; [exact Ho|exact Hv|exact Hp|exact Hn|].
    exists b. split_and!; [exact Hb|exact Hob|].
    destruct Ha as [(E & _)|[(E & _)|[(E & _)|(E1 & q1 & F1 & F2 & F3 & F4 & F5)]]]; try state_clash.
    right; right; right. split; [exact E1|]. exists q1. split_and!; try done. intros _. apply F5. by left.
Qed.

#[local] Opaque on_pin.
End Handlers.

(** ** A chunk arrives *)

Lemma follows_mono N N1 o cur : N <= N1 -> follows N o cur -> follows N1 o cur.
Proof.
  intros HN. destruct cur as [n|cb k]; [done|]. intros (Ho & Hv & Hp & Hn & b & Hb & Hob & Ha).
  split_and!; [exact Ho|exact Hv|exact Hp|exact Hn|]. exists b. split_and!; [exact Hb|exact Hob|].
  destruct Ha as [Ha|[Ha|[Ha|(E & q & F1 & F2 & F3 & (m & p & P & Hm & A) & F5)]]]; [by left|by right; left|by right; right; left|].
  right; right; right. split; [exact E|]. exists q. split_and!; try done. exists m, p, P. split; [lia|exact A].
Qed.
Lemma tracks_mono N N1 cur0 c : N <= N1 -> tracks N cur0 c -> tracks N1 cur0 c.
Proof. intros HN [Hs|(cur & Hr & Hf)]; [by left|]. right. exists cur. split; [exact Hr|]. by eapply follows_mono. Qed.

Lemma chunk_added N cur0 c b q x y sid (c1 := set_uc_pin (set_pin_seq (fmap (set_sos_OrderSeq (set_os_Segments (fun s => Merge (Push s (one_segment sid))))))) c) :
  0 <= N -> tracks N cur0 c -> filling c -> pin_base (uc_pin c) = Some b -> pin_seq (uc_pin c1) = Some q ->
  os_Price (sos_OrderSeq q) = Some x -> ob_SegPrice (so_OrderBase b) = Some y ->
  tracks (N + 1) cur0 (set_uc_pin (set_pin_seq (fmap (set_sos_OrderSeq (fun s => set_os_amounts (u64 (os_Size s + DefaultSegSize)) (Some (x + y)) s)))) c1).
Proof.
  intros HN [Hs|(cur & Hr & Hf)] [Hs2|Hss] Hb Hq Hx Hy; [by left..|]. right. exists cur. split; [exact Hr|].
  destruct cur as [n|cb k]; [destruct Hf as (_ & E & _); cbn in Hq; rewrite E in Hq; discriminate Hq|].
  destruct Hf as (Ho & Hv & Hp & Hn & b1 & Hb1 & Hob & Ha). assert (b1 = b) as -> by congruence.
  split_and!; [exact Ho|exact Hv|exact Hp|exact Hn|]. exists b. split_and!; [exact Hb|exact Hob|].
  destruct Ha as [(E & _)|[(E & _)|[(E & _)|(E & q0 & F1 & F2 & F3 & (m & p & P & Hm & A1 & A2 & A3 & A4 & A5) & F5)]]];
    [destruct Hss; state_clash..|].
  cbn in Hq. rewrite F1 in Hq. cbn in Hq. injection Hq as <-. cbn in Hx.
  assert (y = p) as -> by (rewrite Hob in Hy; congruence).
  right; right; right. split; [exact E|]. eexists. split; [cbn; rewrite F1; cbn; done|]. cbn. split_and!; try done.
  exists (m + 1), p, P. cbn. split_and!; [lia|lia|done|done|..].
  - rewrite A3 in Hx. injection Hx as <-. f_equal. lia.
  - rewrite A4, u64_add_l. f_equal. lia.
  - rewrite segs_count_Merge, segs_count_Push, A5, u64_add_l. done.
Qed.

#[local] Transparent on_pin.
Lemma sendChunk_add_track N cur0 bid sj sid c : 0 <= N -> tracks N cur0 c -> filling c ->
  wp_live (tracks (N + 1) cur0) (sendChunk_add bid sj sid) (fun _ => tracks (N + 1) cur0) c.
Proof.
  intros HN Ht Hfill. unfold sendChunk_add. apply wp_bind, wp_on_pin.
  apply wp_bind, wp_pin_seq. intros q Hq. apply wp_bind, wp_pin_base. intros b Hb.
  apply wp_bind. unfold big_Add. apply wp_bind, wp_deref; [done|]. intros x Hx. apply wp_bind, wp_deref; [done|]. intros y Hy.
  pose proof (chunk_added N cur0 c b q x y sid HN Ht Hfill Hb Hq Hx Hy) as Ht2.
  apply wp_ret, wp_bind, wp_on_pin. match goal with |- wpx _ _ _ _ ?d => set (c2 := d) in * end.
  assert (Hf2 : filling c2) by exact Hfill.
  apply wp_bind, wp_on_pin. match goal with |- wpx _ _ _ _ ?d => set (c3 := d) end.
  assert (Ht3 : tracks (N + 1) cur0 c3) by (by apply filling_sjq).
  apply wpt_seq; [apply wpt_keeps; [keeps|done]|]. intros _ c4 Ht4.
  apply wp_bind. unfold set_idle at 1. apply wp_on_pin. apply wpt_keeps; [keeps|]. by apply idle_track.
Qed.

Lemma sendChunk_done_track N cur0 cf t bid sj c : 0 <= N -> tracks N cur0 c -> pin_inflight (uc_pin c) = true ->
  wp_live (tracks (N + 1) cur0) (sendChunk_done cf t bid sj) (fun _ => tracks (N + 1) cur0) c.
Proof.
  intros HN Ht Hfl. assert (Hup : forall c, tracks N cur0 c -> tracks (N + 1) cur0 c) by (intros c2; apply tracks_mono; lia).
  unfold sendChunk_done. destruct (NewSegmentID _ _ _ _) as [sid|]; [|by apply wp_on_pin, idle_track, Hup].
  apply wp_bind. unfold wpx at 1, try_err. pose proof (same_usr_env (GetSegmentLocation sid) c) as Hsame.
  destruct (usr_env (GetSegmentLocation sid) c) as [[loc|e|w] c1]; [| |done]; cbn [snd] in Hsame;
    pose proof (same_trk _ _ Hsame _ _ Ht) as Ht1; destruct Hsame as [Ep _].
  - apply wpt_seq; [apply wpt_keeps; [keeps|by apply Hup]|]. intros _ c2 Ht2.
    apply wp_bind, wp_on_pin. apply wpt_keeps; [keeps|]. by apply idle_track.
  - apply wp_bind, wp_gets, wp_bind. unfold wpx at 1.
    pose proof (same_usr_env (SendSegmentByID sid (pin_pro (uc_pin c1))) c1) as Hsame2.
    destruct (usr_env (SendSegmentByID _ _) c1) as [r c2]. cbn [snd] in Hsame2.
    pose proof (same_trk _ _ Hsame2 _ _ Ht1) as Ht2. destruct Hsame2 as [Ep2 _].
    assert (Hfill : filling c2) by (apply (inflight_filling N cur0); [done|by rewrite Ep2, Ep]).
    unfold sendChunk_sent. cbv zeta.
    assert (Harr : forall c3, tracks N cur0 c3 -> filling c3 ->
      wp_live (tracks (N + 1) cur0) (do! on_pin (set_pin_availTime (fun _ => t)); sendChunk_add bid sj sid) (fun _ => tracks (N + 1) cur0) c3).
    { intros c3 Ht3 Hf3. apply wp_bind, wp_on_pin. apply sendChunk_add_track; [done|by apply (trk_core c3)|exact Hf3]. }
    destruct r as [[]|e2|w]; [| |done].
    + apply wp_bind, wp_on_pin. apply Harr; [by apply (trk_core c2)|exact Hfill].
    + destruct (strings_Contains _ _); [|destruct (negb _)].
      * apply wpt_seq; [apply wpt_keeps; [keeps|by apply Hup]|]. intros _ c3 Ht3. apply wp_on_pin. by apply idle_track.
      * apply wp_bind, wp_on_pin. apply wpt_keeps; [keeps|by apply idle_track, Hup].
      * by apply Harr.
Qed.
#[local] Opaque on_pin.

(** ** Runs of one provider's goroutines *)

(** The scheduler and [addSeg] change neither the parties nor [inflight]; the
    sender does not change the parties. *)
Definition same_ids c c' : Prop := pin_localID (uc_pin c') = pin_localID (uc_pin c) /\ pin_pro (uc_pin c') = pin_pro (uc_pin c).
Definition same_fl c c' : Prop := same_ids c c' /\ pin_inflight (uc_pin c') = pin_inflight (uc_pin c).
#[local] Instance same_ids_preorder : PreOrder same_ids.
Proof. split; [intros c; by split|]. intros ? ? ? [? ?] [? ?]. split; congruence. Qed.
#[local] Instance same_fl_preorder : PreOrder same_fl.
Proof. split; [intros c; by repeat split|]. intros ? ? ? [? ?] [? ?]. split; [by etransitivity|congruence]. Qed.
Lemma same_pin_ids c c' : same_pin c c' -> same_ids c c'.
Proof. intros [E _]. unfold same_ids. by rewrite E. Qed.
Lemma same_pin_fl c c' : same_pin c c' -> same_fl c c'.
Proof. intros [E _]. unfold same_fl, same_ids. by rewrite E. Qed.

#[local] Transparent on_pin push_msg.
Lemma ids_pin f : (forall o, pin_localID (f o) = pin_localID o /\ pin_pro (f o) = pin_pro o) -> Keeps same_ids (on_pin (W := W) f).
Proof. intros Hf. apply keeps_modify. intros c. exact (Hf (uc_pin c)). Qed.
Lemma fl_pin f : (forall o, (pin_localID (f o) = pin_localID o /\ pin_pro (f o) = pin_pro o) /\ pin_inflight (f o) = pin_inflight o) ->
  Keeps same_fl (on_pin (W := W) f).
Proof. intros Hf. apply keeps_modify. intros c. exact (Hf (uc_pin c)). Qed.
Lemma fl_msg msg : Keeps same_fl (push_msg (W := W) msg).
Proof. apply keeps_modify. intros c. by repeat split. Qed.
#[local] Opaque on_pin push_msg.
#[local] Hint Extern 1 (Keeps same_ids _) => apply (keeps_weaken _ _ _ same_pin_ids); solve [eauto 3 with keeps typeclass_instances nocore] : keeps.
#[local] Hint Extern 1 (Keeps same_fl _) => apply (keeps_weaken _ _ _ same_pin_fl); solve [eauto 3 with keeps typeclass_instances nocore] : keeps.
#[local] Hint Extern 2 (Keeps same_ids (on_pin _)) => apply ids_pin; intros o0; by repeat split : keeps.
#[local] Hint Extern 2 (Keeps same_ids (on_pin_seq _)) => apply ids_pin; intros o0; by repeat split : keeps.
#[local] Hint Extern 2 (Keeps same_fl (on_pin _)) => apply fl_pin; intros o0; by repeat split : keeps.
#[local] Hint Extern 2 (Keeps same_fl (on_pin_seq _)) => apply fl_pin; intros o0; by repeat split : keeps.
#[local] Hint Extern 2 (Keeps same_fl (on_pin_base _)) => apply fl_pin; intros o0; by repeat split : keeps.
#[local] Hint Resolve fl_msg : keeps.

Lemma fl_doneOrder clock : Keeps same_fl (doneOrder (W := W) clock).
Proof. unfold doneOrder, done_reset. keeps. Qed.
#[local] Hint Resolve fl_doneOrder : keeps.
Lemma fl_stopOrder clock : Keeps same_fl (stopOrder (W := W) clock).
Proof. unfold stopOrder, stop_amounts, big_Set. keeps. Qed.
#[local] Hint Resolve fl_stopOrder : keeps.
Lemma fl_runOrderSched cf clock e : Keeps same_fl (runOrderSched (W := W) cf clock e).
Proof.
  unfold runOrderSched, check_pin, check_avail, check_state, check_running, check_closing, seen_now, fail_more,
    usr_createOrder, createOrder_init, createOrder_wait, closeOrder, closeOrder_now, runOrder, createSeq, createSeq_send, sendSeq,
    commitSeq, commitSeq_sign, finishSeq, finishSeq_push, big_Set, usr_verify_ign. keeps.
Qed.
Lemma fl_addSeg sj : Keeps same_fl (addSeg (W := W) sj).
Proof. unfold addSeg. keeps. Qed.
Lemma ids_drop bid : Keeps same_ids (drop_job (W := W) bid).
Proof. unfold drop_job. keeps. Qed.
#[local] Hint Resolve ids_drop : keeps.
Lemma ids_take got i : Keeps same_ids (sendChunk_take (W := W) got i).
Proof. unfold sendChunk_take. keeps. Qed.
Lemma ids_sent t bid sj sid r : Keeps same_ids (sendChunk_sent (W := W) t bid sj sid r).
Proof. unfold sendChunk_sent, sendChunk_add, big_Add, set_idle. keeps. Qed.
#[local] Hint Resolve ids_sent : keeps.
#[local] Transparent usr_env.
Lemma ids_done cf t bid sj : Keeps same_ids (sendChunk_done (W := W) cf t bid sj).
Proof.
  unfold sendChunk_done. destruct (NewSegmentID _ _ _ _); [|unfold set_idle; keeps].
  apply keeps_bind; [typeclasses eauto|keeps|]. intros [loc|]; [unfold set_idle; keeps|].
  apply keeps_bind; [typeclasses eauto|keeps|]. intros o. apply keeps_bind; [typeclasses eauto| |intros; apply ids_sent].
  intros c. unfold usr_env, zoom. by destruct (SendSegmentByID _ _ _).
Qed.
#[local] Opaque usr_env.

Definition event_ok (s : usrSys) (e : usr_event) : Prop :=
  match e with USched _ e => sched_ok (us_ctx s) e | _ => True end.
Definition usr_step cf (s s2 : usrSys) : Prop := exists e, event_ok s e /\ run_usr_event cf e s = Some s2.

(** An instance that expects the order of nonce [n], and nothing pushed yet. *)
Definition starts cf p n (s : usrSys) : Prop :=
  let o := uc_pin (us_ctx s) in
  pin_localID o = cf_localID cf /\ pin_pro o = p /\ pin_nonce o = n /\ pin_orderState o = Order_Init /\ pin_seq o = None /\
  pin_inflight o = false /\ uc_msgs (us_ctx s) = [] /\ sd_job (us_sender s) = None.

Definition sys_inv cf p n N (s : usrSys) : Prop :=
  tracks N (CIdle n) (us_ctx s) /\ pin_localID (uc_pin (us_ctx s)) = cf_localID cf /\ pin_pro (uc_pin (us_ctx s)) = p /\
  (sd_job (us_sender s) <> None -> pin_inflight (uc_pin (us_ctx s)) = true).

Section Runs.
Hypothesis verify_data : forall id h sig (w w2 : W), RoleVerify id h sig w = (Ok true, w2) -> sig_Data sig <> [].

Lemma usr_step_inv cf p n N s s2 : 0 <= N < 2 ^ 63 -> usr_step cf s s2 -> sys_inv cf p n N s -> sys_inv cf p n (N + 1) s2.
Proof.
  intros [HN HN63] (e & He & Hrun) (Ht & Hl & Hp & Hj).
  assert (Hup : forall c, tracks N (CIdle n) c -> tracks (N + 1) (CIdle n) c) by (intros c; apply tracks_mono; lia).
  destruct e as [clock e|sj|got|t]; cbn [run_usr_event] in Hrun.
  - pose proof (runOrderSched_track N (CIdle n) verify_data HN HN63 cf clock e _ Ht (eq_sym Hl) He) as Hw.
    pose proof (fl_runOrderSched cf clock e (us_ctx s)) as ((E1 & E2) & E3). unfold wpx in Hw.
    destruct (runOrderSched cf clock e (us_ctx s)) as [[[]|er|w] c2]; [..|done]; injection Hrun as <-; cbn in *;
      (split_and!; [by apply Hup|cbn; congruence|cbn; congruence|cbn; by rewrite E3]).
  - pose proof (trk_addSeg sj (us_ctx s) _ _ Ht) as Hw. pose proof (fl_addSeg sj (us_ctx s)) as ((E1 & E2) & E3).
    destruct (addSeg sj (us_ctx s)) as [[[]|er|w] c2]; [..|done]; injection Hrun as <-; cbn in *;
      (split_and!; [by apply Hup|cbn; congruence|cbn; congruence|cbn; by rewrite E3]).
  - destruct (sd_job (us_sender s)); [done|]. pose proof (sendChunk_take_track _ _ got (sd_i (us_sender s)) _ Ht) as Hw.
    pose proof (ids_take got (sd_i (us_sender s)) (us_ctx s)) as [E1 E2]. unfold wpx in Hw.
    destruct (sendChunk_take _ _ _) as [[sd|er|w] c2]; [|done..]. injection Hrun as <-. cbn in *.
    split_and!; [apply Hup, Hw|cbn; congruence|cbn; congruence|apply Hw].
  - destruct (sd_job (us_sender s)) as [[bid sj]|]; [|done].
    assert (Hfl : pin_inflight (uc_pin (us_ctx s)) = true) by by apply Hj.
    pose proof (sendChunk_done_track _ _ cf t bid sj _ HN Ht Hfl) as Hw.
    pose proof (ids_done cf t bid sj (us_ctx s)) as [E1 E2]. unfold wpx in Hw.
    destruct (sendChunk_done _ _ _ _ _) as [[[]|er|w] c2]; [..|done]; injection Hrun as <-; cbn in *;
      (split_and!; [exact Hw|cbn; congruence|cbn; congruence|done]).
Qed.

Lemma usr_steps_inv cf p n m N s s2 : 0 <= N -> N + Z.of_nat m < 2 ^ 63 ->
  nsteps (usr_step cf) m s s2 -> sys_inv cf p n N s -> sys_inv cf p n (N + Z.of_nat m) s2.
Proof.
  intros HN Hlt Hm. revert N HN Hlt. induction Hm as [s|m s s1 s2 Hs Hm IH]; intros N HN Hlt Hi; [by rewrite Z.add_0_r|].
  replace (N + Z.of_nat (S m)) with (N + 1 + Z.of_nat m) by lia. apply IH; [lia..|]. eapply usr_step_inv; [lia|done|done].
Qed.

(** C21. What a user sends to the data chain.  From an instance that expects the
    order of nonce [n], whatever quotations of its provider and answers arrive ([sched_ok]),
    but for answers to the end of a sequence that come before the user has signed it
    ([reply_due]; the code takes them), in fewer than 2^63 events, whatever the network
    does with the chunks and however handlers fail, the messages pushed for a provider
    that has not been stopped are a path of the data chain's machine: the order, its sequences numbered from zero, each with
    the size and the price of its segments on top of the previous one, the commit
    with their number, and then the order of the next nonce. *)
Theorem pushes_in_order cf p n m s0 s :
  starts cf p n s0 -> nsteps (usr_step cf) m s0 s -> Z.of_nat m < 2 ^ 63 -> pin_inStop (uc_pin (us_ctx s)) = false ->
  exists cur, cursor_run (cf_localID cf) p (CIdle n) (uc_msgs (us_ctx s)) = Some cur.
Proof.
  intros (E1 & E2 & E3 & E4 & E5 & E6 & E7 & E8) Hrun Hm Hst.
  assert (H0 : sys_inv cf p n 0 s0).
  { split_and!; [|done..|by rewrite E8]. right. exists (CIdle n). rewrite E7. split; [done|]. split_and!; [done..|by left]. }
  destruct (usr_steps_inv cf p n m 0 s0 s (Z.le_refl 0) Hm Hrun H0) as ([Hs|(cur & Hr & _)] & Hl & Hp & _); [congruence|].
  exists cur. by rewrite <-Hl, <-Hp.
Qed.
End Runs.
End UserProps.
