(* ===== verification/UserChain.v ===== *)
(** * UserChain: the data chain takes an order's messages by the cursor

    [UserProps] proves that a user pushes paths of [cursor_step]; here the machine
    is shown to be the data chain's own: a message of an order that a handler of
    [submodule/state] applies is a step of it, from the place the state has for the
    pair to the place it has afterwards.  So a message that is not the next step is
    refused. *)

From S2P Require Import Prelude GoMonad Codec Keys Segments SegmentID Types Tx Fr StateTypes State Roles Chunks Orders Challenge Pay Validate Block Handlers Frame Chain Lift OrderHistory ProOrder UserOrder UserSend UserProps.

Section UserChain.
Context `{!StateEnv, !SMTLaws}.
Implicit Types (s : StateMgr) (oi : orderInfo) (u p : Z) (msg : Message).

(** The place of the pair in the state. *)
Definition cursor_of oi : cursor :=
  match o_base oi with
  | None => CIdle (ns_Nonce (o_ns oi))
  | Some b => COpen b (ns_SeqNum (o_ns oi))
  end.
Definition cursor_at s u p : cursor := cursor_of (order_at s u p).

(** The pair a message is about. *)
Definition order_pair msg : option (Z * Z) :=
  if m_Method msg =? PreDataOrder then (fun so => (ob_UserID (so_OrderBase so), ob_ProID (so_OrderBase so))) <$> decode (A := SignedOrder) (m_Params msg)
  else if m_Method msg =? AddDataOrder then (fun sos => (os_UserID (sos_OrderSeq sos), os_ProID (sos_OrderSeq sos))) <$> decode (A := SignedOrderSeq) (m_Params msg)
  else if m_Method msg =? CommitDataOrder then (fun ocp => (ocp_UserID ocp, ocp_ProID ocp)) <$> decode (A := OrderCommitParas) (m_Params msg)
  else None.

(** Nothing that an entry is read from has changed. *)
Definition orders_same s s' : Prop :=
  same_orders s s' /\ forall u p key, order_key u p key -> read s' key = read s key.
#[local] Instance orders_same_preorder : PreOrder orders_same.
Proof.
  split; [intros s; by split|]. intros s1 s2 s3 [S1 R1] [S2 R2]. split; [by etransitivity|].
  intros u p key Hk. by rewrite (R2 u p), (R1 u p).
Qed.
Lemma orders_same_at s s' u p : orders_same s s' -> order_at s' u p = order_at s u p.
Proof.
  intros [Hs Hr]. unfold order_at. rewrite Hs. destruct (v_oInfo (cur s) !! (u, p)); [done|].
  apply stored_order_eq. intros key. apply Hr.
Qed.
#[local] Instance orders_same_StoreFrame : StoreFrame Applied orders_same.
Proof.
  split; [typeclasses eauto|..].
  - intros t vs v Ht s. pose proof (put_eff (NewKey (KMetaType t :: vs)) v s) as E. split; [unfold same_orders; by rewrite (se_cur _ _ _ E)|].
    intros u p key Ho%order_key_tag. eapply store_eff_read; [done|]. eapply has_tag_ne'; [exact Ho|].
    eapply tables_disjoint; [|exact Ht]. by vm_compute.
  - intros id x. by apply keeps_modify.
  - intros id f. by apply keeps_modify.
  - intros id s. destruct (roleOf_orders id s) as [Hs Hr]. by split.
Qed.

Lemma cached_at s u p oi : v_oInfo (cur s) !! (u, p) = Some oi -> cursor_at s u p = cursor_of oi.
Proof. intros E. unfold cursor_at, order_at. by rewrite E. Qed.

(** After an entry was written and saved. *)
Lemma saved_at s s' u p oi (m : M StateMgr unit) :
  Keeps (pair_evolve (u, p)) m -> m (put_order Applied (u, p) oi s) = (Ok tt, s') -> cursor_at s' u p = cursor_of oi.
Proof.
  intros Hm Hr. apply (keeps_Ok _ _ _ _ _ Hm) in Hr as [Hs _]. apply cached_at. unfold same_orders in Hs.
  rewrite Hs. simpl. by rewrite lookup_insert_eq.
Qed.

Lemma createOrder_cursor s msg s2 u p : order_pair msg = Some (u, p) -> m_Method msg = PreDataOrder -> m_To msg = p ->
  createOrder msg s = (Ok tt, s2) -> cursor_step u p (cursor_at s u p) msg = Some (cursor_at s2 u p).
Proof.
  intros Hpair Hm Hto Hr. unfold createOrder in Hr.
  apply bind_Ok in Hr as (or & ? & (-> & Hd & Hsz & Hpr & _ & _ & Hu)%createOrder_paras_Ok & Hr).
  unfold order_pair in Hpair. rewrite Hm, Hd in Hpair. injection Hpair as Eu Ep.
  apply bind_Ok in Hr as ([] & s1 & Hv & Hr).
  apply (keeps_Ok orders_same) in Hv; [|apply (keeps_verify_order Applied); typeclasses eauto].
  apply bind_Ok in Hr as (oi & s3 & (_ & Hc & Hoi)%orderOf_Ok & Hr). rewrite (orders_same_at _ _ _ _ Hv), Eu, Ep in Hoi.
  apply bind_Ok in Hr as ([] & ? & [Hn%Z.eqb_eq ->]%check_Ok & Hr).
  apply bind_Ok in Hr as ([] & ? & [Hq%Z.eqb_eq ->]%check_Ok & Hr).
  apply bind_Ok in Hr as ([] & s4 & Ht & Hr). unfold createOrder_times in Ht.
  apply bind_Ok in Ht as ([] & ? & [Hb%bool_decide_eq_true ->]%check_Ok & Ht).
  apply bind_Ok in Ht as ([] & ? & [_ ->]%check_Ok & Ht).
  apply bind_Ok in Ht as ([] & ? & [_ ->]%check_Ok & [_ ->]%check_Ok).
  apply bind_Ok in Hr as ([] & s5 & ->%modify_Ok & Hr).
  rewrite (upd_order_put _ _ _ _ Hc) in Hr. apply saved_at in Hr; [|apply pair_createOrder_save].
  rewrite Eu, Ep in Hr. rewrite Hr. unfold cursor_at, cursor_of. rewrite <-Hoi, Hb. cbn. rewrite Hq.
  unfold cursor_step. rewrite Hm, Hd. cbn. rewrite Hu, Eu, Ep, Hto, <-Hn, Hsz, Hpr, !Z.eqb_refl. done.
Qed.

Lemma addSeq_cursor s msg s2 u p : order_pair msg = Some (u, p) -> m_Method msg = AddDataOrder -> m_To msg = p ->
  order_ok u p (order_at s u p) ->
  addSeq msg s = (Ok tt, s2) -> cursor_step u p (cursor_at s u p) msg = Some (cursor_at s2 u p).
Proof.
  intros Hpair Hm Hto Hok Hr. unfold addSeq in Hr.
  apply bind_Ok in Hr as ([sos [uri pri]] & s1 & Hp & Hr).
  assert (Hpre : decode (m_Params msg) = Some sos /\ m_From msg = os_UserID (sos_OrderSeq sos)).
  { unfold addSeq_pre in Hp. apply bind_Ok in Hp as (sos1 & ? & [Hd ->]%of_option_Ok & Hp).
    apply bind_Ok in Hp as (? & ? & _ & Hp). apply bind_Ok in Hp as ([] & ? & [Hf%Z.eqb_eq ->]%check_Ok & Hp).
    apply bind_Ok in Hp as (? & ? & _ & Hp). apply bind_Ok in Hp as (? & ? & _ & Hp).
    apply bind_Ok in Hp as (? & ? & _ & Hp). apply bind_Ok in Hp as (? & ? & _ & [[= -> _ _] _]%ret_Ok). done. }
  destruct Hpre as [Hd Hf]. unfold order_pair in Hpair. rewrite Hm, Hd in Hpair. injection Hpair as Eu Ep.
  apply (keeps_Ok orders_same) in Hp; [|apply (keeps_addSeq_pre Applied); typeclasses eauto].
  apply bind_Ok in Hr as ([oi base] & s3 & Ho & Hr). simpl in Ho, Hr. unfold addSeq_order in Ho.
  apply bind_Ok in Ho as (oi1 & s4 & (_ & Hc & Hoi)%orderOf_Ok & Ho). rewrite (orders_same_at _ _ _ _ Hp), Eu, Ep in Hoi.
  apply bind_Ok in Ho as (base1 & ? & [Hb ->]%of_option_Ok & Ho).
  apply bind_Ok in Ho as ([] & ? & [Hn%Z.eqb_eq ->]%check_Ok & Ho).
  apply bind_Ok in Ho as ([] & ? & [Hq%Z.eqb_eq ->]%check_Ok & [[= -> ->] ->]%ret_Ok).
  apply bind_Ok in Hr as (ui & s5 & _ & Hr). apply bind_Ok in Hr as ([] & s6 & Ha & Hr).
  unfold addSeq_amounts in Ha.
  apply bind_Ok in Ha as ([] & ? & [Hsz ->]%check_Ok & Ha).
  apply bind_Ok in Ha as (segPrice & ? & [Hsp ->]%deref_Ok & Ha).
  apply bind_Ok in Ha as (basePrice & ? & [Hbp ->]%deref_Ok & Ha).
  apply bind_Ok in Ha as (soPrice & ? & [Hop ->]%deref_Ok & Ha).
  apply bind_Ok in Ha as ([] & ? & [Hpr ->]%check_Ok & _).
  apply bind_Ok in Hr as ([] & s7 & _ & Hr). apply bind_Ok in Hr as ([] & s8 & ->%modify_Ok & Hr).
  apply saved_at in Hr; [|apply pair_addSeq_save]. rewrite Eu, Ep in Hr. rewrite Hr.
  subst oi1. destruct (ok_open _ _ _ Hok base1 Hb) as (_ & _ & Hnon).
  unfold cursor_at, cursor_of. rewrite Hb. cbn. unfold cursor_step. rewrite Hm, Hd. cbn.
  unfold amounts_ok. rewrite Hsz, Hsp, Hbp, Hop, Hpr, Hf, Eu, Ep, Hto, Hnon, Hn, Hq, !Z.eqb_refl. done.
Qed.

Lemma commitOrder_cursor s msg s2 u p : order_pair msg = Some (u, p) -> m_Method msg = CommitDataOrder -> m_To msg = p ->
  order_ok u p (order_at s u p) ->
  commitOrder msg s = (Ok tt, s2) -> cursor_step u p (cursor_at s u p) msg = Some (cursor_at s2 u p).
Proof.
  intros Hpair Hm Hto Hok Hr. unfold commitOrder, commitOrder_mem in Hr.
  apply bind_Ok in Hr as (r & s9 & Hmem & Hr).
  apply bind_Ok in Hmem as (ocp & ? & [Hd ->]%of_option_Ok & Hmem).
  unfold order_pair in Hpair. rewrite Hm, Hd in Hpair. injection Hpair as Eu Ep.
  apply bind_Ok in Hmem as ([] & ? & [Hf%Z.eqb_eq ->]%check_Ok & Hmem).
  apply bind_Ok in Hmem as (oi & s1 & (_ & Hc & Hoi)%orderOf_Ok & Hmem). rewrite Eu, Ep in Hoi.
  apply bind_Ok in Hmem as ([] & ? & [Hn%Z.eqb_eq ->]%check_Ok & Hmem).
  apply bind_Ok in Hmem as ([] & ? & [Hq%Z.eqb_eq ->]%check_Ok & Hmem).
  apply bind_Ok in Hmem as (base & ? & [Hb ->]%deref_Ok & Hmem).
  apply bind_Ok in Hmem as ([] & ? & [Hz ->]%check_Ok & Hmem).
  apply bind_Ok in Hmem as ([] & ? & ->%modify_Ok & [-> ->]%ret_Ok). simpl in Hr.
  apply saved_at in Hr; [|apply pair_saveOrderState]. rewrite Eu, Ep in Hr. rewrite Hr.
  subst oi. destruct (ok_open _ _ _ Hok base Hb) as (_ & _ & Hnon).
  unfold cursor_at, cursor_of. rewrite Hb. cbn. unfold cursor_step. rewrite Hm, Hd. cbn.
  rewrite Hf, Eu, Ep, Hto, Hnon, Hn, Hq, Hz, !Z.eqb_refl. done.
Qed.

(** C22. The data chain's machine.  When the data chain applies a message of an
    order, the message is the step of [cursor_step] from the place of its pair, and
    leaves the pair at the place the step leads to; anything else is refused.  The
    hypothesis on the entry holds along every chain. *)
Theorem chain_takes_path s msg s2 u p :
  order_pair msg = Some (u, p) -> m_To msg = p -> order_ok u p (order_at s u p) ->
  apply_method msg s = (Ok tt, s2) ->
  cursor_step u p (cursor_at s u p) msg = Some (cursor_at s2 u p).
Proof.
  intros Hpair Hto Hok Hr. unfold order_pair in Hpair.
  destruct (m_Method msg =? PreDataOrder) eqn:E1; [|destruct (m_Method msg =? AddDataOrder) eqn:E2;
    [|destruct (m_Method msg =? CommitDataOrder) eqn:E3; [|done]]].
  - apply Z.eqb_eq in E1. unfold apply_method in Hr. rewrite E1 in Hr. apply createOrder_cursor; [|done..].
    unfold order_pair. by rewrite E1.
  - apply Z.eqb_eq in E2. unfold apply_method in Hr. rewrite E2 in Hr. apply addSeq_cursor; [|done..].
    unfold order_pair. by rewrite E2.
  - apply Z.eqb_eq in E3. unfold apply_method in Hr. rewrite E3 in Hr. apply commitOrder_cursor; [|done..].
    unfold order_pair. by rewrite E3.
Qed.
End UserChain.
