(* ===== verification/UserRuns.v ===== *)
(** * UserRuns: a user and its provider

    The user's order service on the concrete interfaces of [ProRuns], with
    provider 9 answering: an order is made and signed, a sequence is opened,
    filled with one segment, signed by both and sent to the data chain.  The runs
    are the witnesses of the theorems about the user, and show what goes wrong
    when a provider is stopped. *)

From S2P Require Import Prelude GoMonad Codec Keys Segments SegmentID Types Tx Fr StateTypes Concrete State Orders Challenge Pay Validate Block Scenario Handlers Chain OrderScenario OrderHistory HotStuff Restrict ProOrder ProRuns UserOrder UserSend UserProps UserChain.


#[export] Instance wire_SegJob : Wire SegJob.
Proof.
  refine (wire_iso (fun r => (sj_JobID r, sj_BucketID r, sj_Start r, sj_Length r, sj_ChunkID r)) (fun '(a0, a1, a2, a3, a4) => mkSegJob a0 a1 a2 a3 a4) _).
  by intros [].
Defined.

(** Segments are nowhere yet, and every provider takes them. *)
#[export] Instance toy_sends : ISendService world := {
  GetSegmentLocation _ := throw "not found";
  SendSegmentByID _ _ := ret tt;
  PutSegmentLocation _ _ := ret tt;
  DeleteSegment _ := ret tt;
}.

Definition cf7 : usrConf := mkUsrConf 7 fs7 150 (150 * Day) (2 * Day) 300.
Notation toy_ctx := (usrCtx (W := world)).
Notation toy_sys := (usrSys (W := world)).
Definition opi0 : OrderPayInfo := mkOrderPayInfo 9 0 0 0 0 (Some 0) (Some 0) (Some 0).
(** An instance of the first order with provider 9, which has just been seen. *)
Definition pin0 : proInst :=
  mkProInst 7 9 "" now now 0 0 0 opi0 None 0 Order_Init None 0 OrderSeq_Init [] false [] ∅ 0 0 0 true false.
Definition u0 : toy_sys := mkUsrSys (mkUsrCtx pin0 ∅ [] [] [] [] ∅) (mkSender 0 None).

Definition step_usr (s : toy_sys) (e : usr_event) : toy_sys := default s (run_usr_event cf7 e s).
Definition at_time (t : Z) : nat -> Z := fun _ => now + t.
Definition task_data (t : task) : bytes := match t with TNewOrderAck _ d | TNewSeqAck _ d | TSeqFinishAck _ d => d | _ => [] end.
(** The data of the last request sent. *)
Definition last_request (s : toy_sys) : bytes := default [] (task_data <$> last (uc_tasks (us_ctx s))).

(** ** One order, one sequence, one segment *)

Definition quote : Quotation := mkQuotation 9 0 (Some 120) (Some DefaultPiecePrice).
Definition job5 : SegJob := mkSegJob 1 0 5 1 3.
Definition answer (r : outcome bytes) : bytes := match r with Ok d => d | _ => [] end.
Definition got_seq (d : bytes) : usr_event :=
  USched (at_time 0) (SSeqNew (default (unsigned_seq (ProRuns.seq_of 0 0 0 [])) (decode d))).
Definition got_order (d : bytes) : usr_event := USched (at_time 0) (SOrder (default (ProRuns.order_of 0 0 0) (decode d))).
Definition got_finish (t : Z) (d : bytes) : usr_event :=
  USched (at_time t) (SSeqFinish (default (unsigned_seq (ProRuns.seq_of 0 0 0 [])) (decode d))).
Definition tick (t : Z) : usr_event := USched (at_time t) SCheck.

(** A job, a quotation: the order is requested. *)
Definition u1 : toy_sys := Eval vm_compute in step_usr (step_usr u0 (UAddSeg job5)) (USched (at_time 0) (SQuotation quote)).
Definition p1 := HandleCreateOrder clock0 (last_request u1) m0.
(** The provider's signature; the first tick opens a sequence. *)
Definition u2 : toy_sys := Eval vm_compute in step_usr (step_usr u1 (got_order (answer p1.1))) (tick 0).
Definition p2 := HandleCreateSeq clock0 7 (last_request u2) p1.2.
(** The sequence may be filled; a chunk is sent and arrives. *)
Definition u3 : toy_sys := Eval vm_compute in step_usr (step_usr u2 (got_seq (answer p2.1))) (UTake true).
Definition p3 := HandleData clock0 7 (segment7 5) p2.2.
Definition u4 : toy_sys := Eval vm_compute in step_usr u3 (UDone now).
(** The time of the sequence is up: it is closed, and signed at a later tick. *)
Definition u5 : toy_sys := Eval vm_compute in step_usr u4 (tick 400).
Definition u6 : toy_sys := Eval vm_compute in step_usr u5 (tick 500).
Definition p6 := HandleFinishSeq clock0 7 (last_request u6) p3.2.
Definition u7 : toy_sys := Eval vm_compute in step_usr u6 (got_finish 510 (answer p6.1)).

(** The pieces fit: each of the provider's answers moves the user on. *)
Definition place (s : toy_sys) : OrderState * OrderSeqState * list Z :=
  let c := us_ctx s in (pin_orderState (uc_pin c), pin_seqState (uc_pin c), m_Method <$> uc_msgs c).
Example user_run : place <$> [u1; u2; u3; u4; u6; u7] =
  [(Order_Wait, OrderSeq_Init, []); (Order_Running, OrderSeq_Prepare, [PreDataOrder]);
   (Order_Running, OrderSeq_Send, [PreDataOrder]); (Order_Running, OrderSeq_Send, [PreDataOrder]);
   (Order_Running, OrderSeq_Commit, [PreDataOrder]); (Order_Running, OrderSeq_Init, [PreDataOrder; AddDataOrder])].
Proof. vm_compute. reflexivity. Qed.

(** ** The runs are runs of the service *)

Lemma u0_starts : starts cf7 9 0 u0.
Proof. by repeat split. Qed.
Lemma toy_verify_data id h sig (w w2 : world) : RoleVerify id h sig w = (Ok true, w2) -> sig_Data sig <> [].
Proof.
  intros [= Hv%bool_decide_eq_true _]. subst sig. discriminate.
Qed.
(** A list of events, each of which is possible. *)
Definition event_okb (s : toy_sys) (e : usr_event) : bool :=
  let o := uc_pin (us_ctx s) in
  match e with
  | USched _ (SQuotation quo) => qu_ProID quo =? pin_pro o
  | USched _ (SSeqFinish _) =>
      match pin_seq o with Some q => negb (bool_decide (sig_Data (sos_UserDataSig q) = [])) | None => true end
  | _ => true
  end.
Lemma event_okb_ok s e : event_okb s e = true -> event_ok s e.
Proof.
  destruct e as [clock [quo|ob|os|os| |desc]| | |]; simpl; try done.
  - apply Z.eqb_eq.
  - intros Hb q Hq _. rewrite Hq in Hb. by apply negb_true_iff, bool_decide_eq_false in Hb.
Qed.
Fixpoint run_usr (l : list usr_event) (s : toy_sys) : option toy_sys :=
  match l with
  | [] => Some s
  | e :: l => if event_okb s e then match run_usr_event cf7 e s with Some s => run_usr l s | None => None end else None
  end.
Lemma run_usr_steps l s s2 : run_usr l s = Some s2 -> nsteps (usr_step cf7) (length l) s s2.
Proof.
  revert s. induction l as [|e l IH]; intros s; simpl; [intros [= ->]; constructor|].
  destruct (event_okb s e) eqn:He; [|done]. destruct (run_usr_event cf7 e s) as [s1|] eqn:Hr; [|done].
  intros Hl. econstructor; [exists e; split; [by apply event_okb_ok|exact Hr]|by apply IH].
Qed.

Definition run7 : list usr_event :=
  [UAddSeg job5; USched (at_time 0) (SQuotation quote); got_order (answer p1.1); tick 0; got_seq (answer p2.1); UTake true;
   UDone now; tick 400; tick 500; got_finish 510 (answer p6.1)].
Lemma u7_run : run_usr run7 u0 = Some u7.
Proof. vm_cast_no_check (eq_refl (Some u7)). Qed.

Lemma pushes_in_order_witness :
  starts cf7 9 0 u0 /\ length (uc_msgs (us_ctx u7)) = 2%nat /\ exists cur, cursor_run (cf_localID cf7) 9 (CIdle 0) (uc_msgs (us_ctx u7)) = Some cur.
Proof.
  split; [apply u0_starts|]. split; [vm_compute; reflexivity|].
  apply (pushes_in_order (W := world) toy_verify_data cf7 9 0 10 u0 u7 u0_starts (run_usr_steps run7 u0 u7 u7_run)); [vm_compute; reflexivity|reflexivity].
Defined.

(** ** The data chain's machine on the state of the chain *)

(** User 7's first order, on the state of the chain that knows both parties. *)
Definition open7 : Message := order_msg 7 9 PreDataOrder (enc OrderScenario.first_order).
Definition c0 : StateMgr := (NewTxn st2).2.
Definition c1 : StateMgr := (apply_method open7 c0).2.
Lemma open7_run : apply_method open7 c0 = (Ok tt, c1).
Proof. refine (run_value _ _ _ _). vm_compute. reflexivity. Qed.
Lemma c0_order_ok : order_ok 7 9 (order_at c0 7 9).
Proof.
  assert (E : o_base (order_at c0 7 9) = None) by (vm_compute; reflexivity).
  split; [intros _|intros base; by rewrite E..]. split; [vm_compute; reflexivity|]. apply toy_fr_eq. vm_compute. reflexivity.
Qed.
Lemma chain_takes_path_witness :
  cursor_at c0 7 9 = CIdle 0 /\ cursor_step 7 9 (cursor_at c0 7 9) open7 = Some (cursor_at c1 7 9).
Proof.
  split; [vm_compute; reflexivity|]. apply (chain_takes_path c0 open7 c1 7 9).
  - vm_compute. reflexivity.
  - reflexivity.
  - exact c0_order_ok.
  - exact open7_run.
Defined.

(** ** Stopping a provider *)

(** The provider has not been heard of for the length of an order. *)
Definition idle_time : Z := 3 * Day.

(** A provider that falls silent is stopped, and what has been sent is sent
    again.  The jobs of a finished sequence stay in the queue of the instance until
    the next sequence is opened; when the provider is stopped in between, the jobs
    whose segments both parties have signed are handed out again, and the stored
    queue of the sequence, from which they would be confirmed, is emptied. *)
Theorem stop_redoes_finished :
  let c := us_ctx (step_usr u7 (tick idle_time)) in
  uc_redo (us_ctx u7) = [] /\ uc_redo c = [job5] /\
  (exists sos, decode (m_Params (nth 1 (uc_msgs (us_ctx u7)) open7)) = Some sos /\
     AggSegsQueue_Has (os_Segments (sos_OrderSeq sos)) (sj_BucketID job5) (sj_Start job5) (sj_ChunkID job5) = true) /\
  uc_ds (us_ctx u7) !! SeqJobKey 7 9 0 0 = marshal [job5] /\ uc_ds c !! SeqJobKey 7 9 0 0 = marshal (A := list SegJob) [].
Proof.
  intros c. split; [vm_compute; reflexivity|]. split; [vm_compute; reflexivity|]. split.
  - eexists. split; [vm_compute; reflexivity|vm_compute; reflexivity].
  - split; [vm_compute; reflexivity|vm_compute; reflexivity].
Qed.
