(* ===== verification/Coder.v ===== *)
(** * Coder: chunks of a stripe

    [lib/code]: a stripe of data is cut into [DataCount] segments, extended by
    [ParityCount] parity segments, and each chunk carries the prefix of the
    layout, its segment, its tag, and parity of the tags of the whole stripe.
    [Decode] gives the data back from any [DataCount] good chunks; [Recover] fills
    in the missing chunks, tags included.

    The Reed-Solomon code and the tags of the proof of data possession are
    libraries.  A stripe is a slice that the functions write into; an empty chunk is
    a nil one. *)

From S2P Require Import Prelude GoMonad SegmentID StateTypes Types.

(** ** Libraries *)

Definition ErrShardNoData : string := "no shard data".
Definition ErrTooFewShards : string := "too few shards given".

(** [github.com/klauspost/reedsolomon]: an encoder for [dc] data and [pc] parity
    shards.  [rs_New] says that [New] succeeds; the others are its methods, with the
    shards they leave. *)
Class ReedSolomon := {
  rs_New : nat -> nat -> bool;
  rs_Encode : nat -> nat -> list bytes -> option (list bytes);
  rs_Verify : nat -> nat -> list bytes -> outcome bool;
  rs_Reconstruct : nat -> nat -> list bytes -> option (list bytes);
}.

(** The key set of a coder, and its verifier ([lib/crypto/pdp]). *)
Class CoderKeys (DV : Type) := {
  ck_GenTag : bytes -> bytes -> option bytes;             (** index, segment *)
  ck_VerifyTag : bytes -> bytes -> bytes -> option bool;
  ck_CheckTag : bytes -> bool;                            (** pdp.CheckTag(PDPV2, tag) *)
  ck_NewVerifier : option DV;
  ck_Add : bytes -> bytes -> bytes -> M DV unit;
  ck_Result : DV -> outcome bool;
  ck_Reset : DV -> DV;
}.

(** hash/crc32: the IEEE polynomial, reflected. *)
Definition crc32_bit (c : Z) : Z := if Z.odd c then Z.lxor (Z.shiftr c 1) 0xEDB88320 else Z.shiftr c 1.
Definition crc32_byte (c : Z) (b : ascii) : Z := Nat.iter 8 crc32_bit (Z.lxor c (Z_of_byte b)).
Definition crc32_ChecksumIEEE (data : bytes) : Z := Z.lxor (foldl crc32_byte 0xFFFFFFFF data) 0xFFFFFFFF.

(** ** common.go, tag.go: constants *)

Definition RsPolicy := 1.
Definition MulPolicy := 2.
Definition CurrentVersion := 1.
Definition CRC32 := 1.
Definition code_TagLen (flag : Z) : Z := if TagMap flag =? 0 then 48 else TagMap flag.

(** ** The coder *)

Record DataCoder (DV : Type) := mkDataCoder {
  dcd_Prefix : Prefix; dcd_chunkCount : nat; dcd_prefixSize : nat; dcd_tagCount : nat; dcd_tagSize : nat; dcd_fragmentSize : nat }.
Arguments mkDataCoder {DV}. Arguments dcd_Prefix {DV}. Arguments dcd_chunkCount {DV}. Arguments dcd_prefixSize {DV}.
Arguments dcd_tagCount {DV}. Arguments dcd_tagSize {DV}. Arguments dcd_fragmentSize {DV}.

Section Coder.
Context {DV : Type} `{!ReedSolomon, !CoderKeys DV}.
Implicit Types (d : DataCoder DV) (name : option bytes) (stripe group : list bytes).

Definition dcd_dc d : nat := Z.to_nat (p_DataCount (dcd_Prefix d)).
Definition dcd_pc d : nat := Z.to_nat (p_ParityCount (dcd_Prefix d)).
Definition dcd_seg d : nat := Z.to_nat (p_SegSize (dcd_Prefix d)).

(** preCompute; the numbers are counts of chunks and of bytes. *)
Definition preCompute (p : Prefix) : outcome (DataCoder DV) :=
  if (p_DataCount p <? 1) || (p_ParityCount p <? 1) then Err "policy is not supported"
  else
    let tagCount := 2 + Z.quot (p_ParityCount p - 1) (p_DataCount p) in
    let tagSize := code_TagLen (p_TagFlag p) in
    Ok (mkDataCoder p (Z.to_nat (p_DataCount p + p_ParityCount p)) DefaultPrefixLen (Z.to_nat tagCount) (Z.to_nat tagSize)
          (Z.to_nat (Z.of_nat DefaultPrefixLen + p_SegSize p + tagSize * tagCount))).

Definition NewDataCoderWithPrefix (p : Prefix) : outcome (DataCoder DV) :=
  match ck_NewVerifier with
  | None => Err "verifier"
  | Some _ => preCompute p
  end.

Definition NewDataCoder (version policy dataCount parityCount tagFlag segSize : Z) : outcome (DataCoder DV) :=
  if policy =? RsPolicy then
    NewDataCoderWithPrefix (mkPrefix (u32 version) (u32 policy) (u32 dataCount) (u32 parityCount) (u32 tagFlag) (u32 DefaultSegSize))
  else if policy =? MulPolicy then
    NewDataCoderWithPrefix
      (mkPrefix (u32 version) (u32 policy) (u32 1) (u32 (dataCount + parityCount - 1)) (u32 tagFlag) (u32 DefaultSegSize))
  else Err "policy is not supported".

(** ** Encode *)

Definition GenTag d (index data : bytes) : outcome bytes :=
  if p_TagFlag (dcd_Prefix d) =? CRC32 then Ok (put_be 4 (crc32_ChecksumIEEE data))
  else if p_TagFlag (dcd_Prefix d) =? PDPV2 then
    match ck_GenTag index data with Some tag => Ok tag | None => Err "tag" end
  else Err "tag flag is not supported".

(** The tags of chunks [j], [j+1], ...; each is copied into its place. *)
Fixpoint gen_tags d (name : bytes) (j : nat) group : outcome (list bytes) :=
  match group with
  | [] => Ok []
  | data :: group =>
      match GenTag d (SetChunkID (Z.of_nat j) name) data with
      | Ok tag =>
          match gen_tags d name (S j) group with
          | Ok tags => Ok (copy_into (dcd_tagSize d) tag :: tags)
          | r => r
          end
      | Err e => Err e
      | Panic w => Panic w
      end
  end.

Definition zeros (n : nat) : bytes := replicate n (byte_of_Z 0).

(** The segments of the chunks: the data, and room for the parity. *)
Definition data_group d (data : bytes) : list bytes :=
  map (fun i => slice (i * dcd_seg d) ((i + 1) * dcd_seg d) data) (seq 0 (dcd_dc d)) ++ replicate (dcd_chunkCount d - dcd_dc d) (zeros (dcd_seg d)).

Definition encode_group d group : outcome (list bytes) :=
  let policy := p_Policy (dcd_Prefix d) in
  if policy =? MulPolicy then
    Ok (take (dcd_dc d) group ++ replicate (dcd_chunkCount d - dcd_dc d) (copy_into (dcd_seg d) (nth 0 group [])))
  else if policy =? RsPolicy then
    match rs_Encode (dcd_dc d) (dcd_pc d) group with Some group => Ok group | None => Err "encode" end
  else Err "policy is not supported".

(** The tag of chunk [k] on level [j] is entry [j*chunkCount+k] of the group. *)
Definition chunk_tags d (tags : list bytes) (k : nat) : bytes :=
  concat (map (fun j => nth (j * dcd_chunkCount d + k) tags []) (seq 0 (dcd_tagCount d))).
Definition build_chunk d group (tags : list bytes) (k : nat) : bytes :=
  copy_into (dcd_prefixSize d) (Prefix_Serialize (dcd_Prefix d)) ++ nth k group [] ++ chunk_tags d tags k.

Definition Encode d (ncidPrefix data : bytes) : outcome (list bytes) :=
  let dc := dcd_dc d in
  let cc := dcd_chunkCount d in
  if (length data =? 0)%nat then Err "data length is wrong"
  else if (dc * dcd_seg d <? length data)%nat then Err "data length is too large"
  else if negb (rs_New dc (dcd_pc d) && rs_New cc (cc * (dcd_tagCount d - 1))) then Err "reedsolomon"
  else
    match encode_group d (data_group d (copy_into (dc * dcd_seg d) data)) with
    | Ok group =>
        match gen_tags d ncidPrefix 0 group with
        | Ok tags =>
            let empty := replicate (cc * (dcd_tagCount d - 1)) (zeros (dcd_tagSize d)) in
            match rs_Encode cc (cc * (dcd_tagCount d - 1)) (tags ++ empty) with
            | Some tags => Ok (map (build_chunk d group tags) (seq 0 cc))
            | None => Err "encode"
            end
        | Err e => Err e
        | Panic w => Panic w
        end
    | r => r
    end.

(** ** VerifyStripe, VerifyChunk *)

(** What the methods work on: the caller's slice of chunks and the verifier. *)
Record coderSt := mkCoderSt { cst_stripe : list bytes; cst_dv : DV }.
Definition set_cst_stripe f (c : coderSt) := mkCoderSt (f (cst_stripe c)) (cst_dv c).
Definition set_cst_dv f (c : coderSt) := mkCoderSt (cst_stripe c) (f (cst_dv c)).
Definition on_dv {A} (m : M DV A) : M coderSt A := zoom cst_dv (fun v => set_cst_dv (fun _ => v)) m.

Definition VerifyPrefix d (pre : Prefix) : bool :=
  let p := dcd_Prefix d in
  (p_Version pre =? p_Version p) && (p_DataCount pre =? p_DataCount p) && (p_ParityCount pre =? p_ParityCount p)
  && (p_Policy pre =? p_Policy p) && (p_SegSize pre =? p_SegSize p) && (p_TagFlag pre =? p_TagFlag p).

Definition chunk_seg d (chunk : bytes) : bytes := slice (dcd_prefixSize d) (dcd_prefixSize d + dcd_seg d) chunk.
Definition chunk_tag d (chunk : bytes) : bytes :=
  slice (dcd_prefixSize d + dcd_seg d) (dcd_prefixSize d + dcd_seg d + dcd_tagSize d) chunk.

(** name is f.e. fsID_bucketID_stripeID_chunkID *)
Definition VerifyChunk d (name : bytes) (data : bytes) : outcome bool :=
  if (length data <? dcd_fragmentSize d)%nat then Err "data length is shorter"
  else match ck_VerifyTag name (chunk_seg d data) (chunk_tag d data) with Some ok => Ok ok | None => Err "tag" end.

Definition drop_chunk (j : nat) : M coderSt unit := modify (set_cst_stripe <[j := []]>).

(** One chunk; a bad one is dropped. *)
Definition verify_entry d name (good j : nat) : M coderSt nat :=
  let! stripe := gets cst_stripe in
  let chunk := nth j stripe [] in
  if negb (length chunk =? dcd_fragmentSize d)%nat then do! drop_chunk j; ret good
  else
    match DeserializePrefix chunk with
    | None => do! drop_chunk j; ret good
    | Some (pre, _) =>
        if negb (VerifyPrefix d pre) then do! drop_chunk j; ret good
        else
          match name with
          | Some name =>
              let! r := try_err (on_dv (ck_Add (SetChunkID (Z.of_nat j) name) (chunk_seg d chunk) (chunk_tag d chunk))) in
              match r with Some _ => ret (S good) | None => do! drop_chunk j; ret good end
          | None => if ck_CheckTag (chunk_tag d chunk) then ret (S good) else do! drop_chunk j; ret good
          end
    end.

(** The verifier of the whole stripe has failed: chunk by chunk. *)
Definition verify_each d (name : bytes) (acc : bool * nat) (j : nat) : M coderSt (bool * nat) :=
  let! stripe := gets cst_stripe in
  let chunk := nth j stripe [] in
  if (length chunk =? dcd_fragmentSize d)%nat then
    match VerifyChunk d (SetChunkID (Z.of_nat j) name) chunk with
    | Ok true => ret (acc.1, S acc.2)
    | Panic w => panic w
    | _ => do! drop_chunk j; ret (acc.1 && negb (j <? dcd_dc d)%nat, acc.2)
    end
  else ret acc.

Definition VerifyStripe d name : M coderSt (bool * nat) :=
  let! stripe := gets cst_stripe in
  do! check (dcd_dc d <=? length stripe)%nat "stripe data is not enough";
  do! modify (set_cst_dv ck_Reset);
  let! good := for_fold (seq 0 (length stripe)) 0%nat (verify_entry d name) in
  let! stripe := gets cst_stripe in
  let directRead := forallb (fun j => negb (length (nth j stripe []) =? 0)%nat) (seq 0 (dcd_dc d)) in
  do! check (dcd_dc d <=? good)%nat "the recovered data is incorrect";
  match name with
  | None => ret (directRead, good)
  | Some name =>
      let! v := gets cst_dv in
      match ck_Result v with
      | Ok true => ret (directRead, good)
      | Panic w => panic w
      | _ => for_fold (seq 0 (length stripe)) (directRead, 0%nat) (verify_each d name)
      end
  end.

(** ** Recover *)

(** The loop copies the first shard that is there into the missing ones. *)
Definition copy_missing (cc : nat) (data : list bytes) : option (list bytes) :=
  match filter (fun x => x <> []) (take cc data) with
  | [] => None
  | x :: _ => Some (map (fun y => match y with [] => x | _ => y end) (take cc data) ++ drop cc data)
  end.

Definition recoverData d (data : list bytes) (dc pc : nat) : outcome (list bytes) :=
  if (1 <? dc)%nat then
    if negb (rs_New dc pc) then Err "reedsolomon"
    else
      let again :=
        match rs_Reconstruct dc pc data with
        | None => Err "reconstruct"
        | Some data =>
            match rs_Verify dc pc data with
            | Ok true => Ok data
            | Ok false => Err "data is broken"
            | Err e => Err e
            | Panic w => Panic w
            end
        end in
      match rs_Verify dc pc data with
      | Ok true => Ok data
      | Ok false => again
      | Err e => if bool_decide (e = ErrShardNoData) || bool_decide (e = ErrTooFewShards) then Err e else again
      | Panic w => Panic w
      end
  else if (dc =? 1)%nat then
    match copy_missing (dcd_chunkCount d) data with
    | Some data => Ok data
    | None => Err "the recovered data is incorrect"
    end
  else Err "policy is not supported".

(** Segments and tags of the fields; [None] for a missing chunk. *)
Definition field_seg d (field : bytes) : bytes := take (dcd_seg d) field.
Definition field_tag d (j : nat) (field : bytes) : bytes :=
  match field with
  | [] => []
  | _ => slice (dcd_seg d + j * dcd_tagSize d) (dcd_seg d + (j + 1) * dcd_tagSize d) field
  end.
Definition tag_group d (fields : list bytes) : list bytes :=
  concat (map (fun j => map (field_tag d j) fields) (seq 0 (dcd_tagCount d))).

Definition faults (fields : list bytes) : list nat :=
  filter (fun i => nth i fields [] = []) (seq 0 (length fields)).

(** The tags of the missing chunks are checked; [order] is the order in which the
    map of the faults is visited. *)
Definition check_faults d name (data tags : list bytes) (order : list nat) : M coderSt unit :=
  match name with
  | Some name =>
      do! modify (set_cst_dv ck_Reset);
      do! for_each order (fun i => on_dv (ck_Add (SetChunkID (Z.of_nat i) name) (nth i data []) (nth i tags [])));
      let! v := gets cst_dv in
      match ck_Result v with
      | Ok true => ret tt
      | Panic w => panic w
      | _ => throw "the recovered data is incorrect"
      end
  | None => for_each order (fun i => check (ck_CheckTag (nth i tags [])) "tag")
  end.

(** The fields with the missing ones filled in. *)
Definition recoverField d (visit : list nat -> list nat) name (fields : list bytes) : M coderSt (list bytes) :=
  let! data := of_outcome (recoverData d (map (field_seg d) fields) (dcd_dc d) (dcd_pc d)) in
  let cc := dcd_chunkCount d in
  let! tags := of_outcome (recoverData d (tag_group d fields) cc (cc * (dcd_tagCount d - 1))) in
  do! check_faults d name data tags (visit (faults fields));
  ret (map (fun i => match nth i fields [] with
                     | [] => nth i data [] ++ chunk_tags d tags i
                     | field => field
                     end) (seq 0 cc)).

(** [stripe] as the loop leaves it: one entry per chunk, a bad one emptied. *)
Definition fit_stripe d stripe : list bytes :=
  map (fun i => let chunk := nth i stripe [] in
                if (length chunk =? dcd_fragmentSize d)%nat then chunk else []) (seq 0 (dcd_chunkCount d))
  ++ drop (dcd_chunkCount d) stripe.

(** A slice shorter than the number of chunks is extended by [append] into a new
    array, so that the caller does not see what is recovered; the length of a slice
    is taken to be its capacity. *)
Definition Recover d (visit : list nat -> list nat) name : M coderSt unit :=
  let! r := VerifyStripe d name in
  do! check (dcd_dc d <=? r.2)%nat "the recovered data is incorrect";
  let! stripe := gets cst_stripe in
  let fit := fit_stripe d stripe in
  let cc := dcd_chunkCount d in
  let fields := map (fun chunk => slice (dcd_prefixSize d) (dcd_fragmentSize d) chunk) (take cc fit) in
  let! fields := recoverField d visit name fields in
  let full := map (fun i => match nth i fit [] with
                            | [] => Prefix_Serialize (dcd_Prefix d) ++ nth i fields []
                            | chunk => chunk
                            end) (seq 0 cc) ++ drop cc fit in
  modify (set_cst_stripe (fun s => if (length s <? cc)%nat then s else full)).

(** ** Decode *)

Definition read_segs d stripe : outcome (list bytes) :=
  let chunks := take (dcd_dc d) stripe in
  if forallb (fun chunk => (dcd_prefixSize d + dcd_seg d <=? length chunk)%nat) chunks
  then Ok (map (chunk_seg d) chunks) else Panic "slice bounds out of range".

Definition Decode d (visit : list nat -> list nat) name : M coderSt bytes :=
  let! r := VerifyStripe d name in
  do! check (dcd_dc d <=? r.2)%nat "the recovered data is incorrect";
  do! (if r.1 then ret tt else Recover d visit None);
  let! stripe := gets cst_stripe in
  let! segs := of_outcome (read_segs d stripe) in
  ret (concat segs).
(** ** common.go: VerifyChunkLength, Verify, Repair *)

(** The length that the prefix of a chunk asks for; [ParityCount-1] is a uint32. *)
Definition VerifyChunkLength (data : bytes) : outcome unit :=
  if (length data =? 0)%nat then Err "data length is zero"
  else
    match DeserializePrefix data with
    | None => Err "prefix"
    | Some (pre, _) =>
        if negb (p_Version pre =? 1) then Err "version is not supported"
        else if p_DataCount pre =? 0 then Err "policy is not supported"
        else
          let fragSize := p_SegSize pre + code_TagLen (p_TagFlag pre) * u32 (2 + u32 (p_ParityCount pre - 1) / p_DataCount pre)
                          + Z.of_nat DefaultPrefixLen in
          if Z.of_nat (length data) =? fragSize then Ok tt else Err "data length is wrong"
    end.

(** [key]: the key set and its public key are there. *)
Definition Verify (key : bool) (name data : bytes) : outcome bool :=
  if (length data =? 0)%nat || negb key then Ok false
  else if (length data <? DefaultPrefixLen)%nat then Panic "slice bounds out of range"
  else
    match DeserializePrefix (take DefaultPrefixLen data) with
    | None => Ok false
    | Some (pre, _) =>
        if (p_Version pre =? 0) || (p_DataCount pre =? 0) then Ok false
        else
          match NewDataCoderWithPrefix pre with
          | Ok d =>
              match VerifyChunk d name data with
              | Ok ok => Ok ok
              | Err _ => Ok false
              | Panic w => Panic w
              end
          | Err _ => Ok false
          | Panic w => Panic w
          end
    end.

(** The layout is read from the first chunk that is long enough; without one the
    prefix stays nil.  The verifier of the new coder is the one at hand. *)
Definition Repair (visit : list nat -> list nat) : M coderSt unit :=
  let! stripe := gets cst_stripe in
  match filter (fun s => (DefaultPrefixLen <= length s)%nat) stripe with
  | [] => match ck_NewVerifier with None => throw "verifier" | Some _ => panic "invalid memory address" end
  | s :: _ =>
      match DeserializePrefix s with
      | None => throw "prefix"
      | Some (pre, _) => let! d := of_outcome (NewDataCoderWithPrefix pre) in Recover d visit None
      end
  end.
End Coder.
