(* ===== verification/CoderProps.v ===== *)
(** * CoderProps: any [DataCount] chunks give the data back

    A stripe that [Encode] made, with some chunks lost but [DataCount] left, is
    restored by [Recover] chunk by chunk, prefixes and tags included, and read by
    [Decode]; with fewer chunks both refuse. *)

From S2P Require Import Prelude GoMonad SegmentID StateTypes Types Coder.

(** ** Losing chunks *)

(** [keep] says which shards are left; the others are nil. *)
Definition erase (keep : list bool) (l : list bytes) : list bytes := zip_with (fun b x => if (b : bool) then x else []) keep l.
Definition kept (keep : list bool) : nat := count_occ bool_dec keep true.

(** The documented behaviour of the code: systematic, and any [dc] shards determine
    the others. *)
Class RSLaws `{!ReedSolomon} := {
  rs_parity : nat -> nat -> list bytes -> list bytes;
  rs_parity_shape dc pc data n : rs_New dc pc = true -> length data = dc -> Forall (fun x => length x = n) data ->
    length (rs_parity dc pc data) = pc /\ Forall (fun x => length x = n) (rs_parity dc pc data);
  rs_Encode_ok dc pc data room n : rs_New dc pc = true -> length data = dc -> length room = pc -> (0 < n)%nat ->
    Forall (fun x => length x = n) (data ++ room) -> rs_Encode dc pc (data ++ room) = Some (data ++ rs_parity dc pc data);
  rs_Verify_ok dc pc data n : rs_New dc pc = true -> length data = dc -> (0 < n)%nat -> Forall (fun x => length x = n) data ->
    rs_Verify dc pc (data ++ rs_parity dc pc data) = Ok true;
  rs_Verify_missing dc pc data n keep : rs_New dc pc = true -> length data = dc -> (0 < n)%nat -> Forall (fun x => length x = n) data ->
    length keep = (dc + pc)%nat -> (dc <= kept keep)%nat -> (kept keep < dc + pc)%nat ->
    exists e, rs_Verify dc pc (erase keep (data ++ rs_parity dc pc data)) = Err e /\ e <> ErrShardNoData /\ e <> ErrTooFewShards;
  rs_Reconstruct_ok dc pc data n keep : rs_New dc pc = true -> length data = dc -> (0 < n)%nat -> Forall (fun x => length x = n) data ->
    length keep = (dc + pc)%nat -> (dc <= kept keep)%nat ->
    rs_Reconstruct dc pc (erase keep (data ++ rs_parity dc pc data)) = Some (data ++ rs_parity dc pc data);
}.

(** Tags have their size and pass the check. *)
Class KeyLaws {DV} `{!CoderKeys DV} := {
  ck_GenTag_good index data tag : ck_GenTag index data = Some tag -> length tag = 48%nat /\ ck_CheckTag tag = true;
}.

Lemma length_erase keep l : length keep = length l -> length (erase keep l) = length l.
Proof. intros E. unfold erase. rewrite length_zip_with. lia. Qed.
Lemma erase_app k1 k2 l1 l2 : length k1 = length l1 -> erase (k1 ++ k2) (l1 ++ l2) = erase k1 l1 ++ erase k2 l2.
Proof. intros E. unfold erase. by rewrite zip_with_app. Qed.
Lemma kept_app k1 k2 : kept (k1 ++ k2) = (kept k1 + kept k2)%nat.
Proof. apply count_occ_app. Qed.
Lemma kept_le keep : (kept keep <= length keep)%nat.
Proof. apply count_occ_bound. Qed.
Lemma erase_all keep l : length keep = length l -> kept keep = length keep -> erase keep l = l.
Proof.
  revert l. induction keep as [|b keep IH]; intros [|x l]; try done. intros [= E] Hk. unfold kept in Hk. simpl in Hk.
  pose proof (kept_le keep). unfold kept in *. destruct b; simpl in Hk; [|lia]. unfold erase. simpl. f_equal. apply IH; [done|unfold kept; lia].
Qed.

(** By index. *)
Lemma erase_map keep (f : nat -> bytes) i :
  erase keep (map f (seq i (length keep))) = map (fun j => if nth (j - i) keep false then f j else []) (seq i (length keep)).
Proof.
  revert i. induction keep as [|b keep IH]; intros i; [done|]. unfold erase in *. simpl. rewrite Nat.sub_diag. f_equal.
  rewrite IH. apply map_ext_in. intros j [Hj _]%in_seq. replace (j - i)%nat with (S (j - S i)) by lia. done.
Qed.
Lemma list_by_index (l : list bytes) : l = map (fun i => nth i l []) (seq 0 (length l)).
Proof.
  induction l as [|x l IH]; [done|]. simpl. f_equal. rewrite IH at 1. rewrite <-seq_shift, map_map. done.
Qed.
Lemma nth_map_seq (f : nat -> bytes) i n : (i < n)%nat -> nth i (map f (seq 0 n)) [] = f i.
Proof. intros Hi. rewrite (nth_indep _ [] (f 0%nat)) by (by rewrite length_map, length_seq). by rewrite map_nth, seq_nth. Qed.
Lemma erase_index keep (l : list bytes) : length keep = length l ->
  erase keep l = map (fun i => if nth i keep false then nth i l [] else []) (seq 0 (length l)).
Proof.
  intros E. rewrite (list_by_index l) at 1. rewrite <-E, erase_map. apply map_ext_in. intros i _. by rewrite Nat.sub_0_r.
Qed.

Lemma forallb_ext_in {A} (f g : A -> bool) l : (forall x, In x l -> f x = g x) -> forallb f l = forallb g l.
Proof. induction l as [|x l IH]; intros Hfg; [done|]. cbn. rewrite Hfg by by left. rewrite IH; [done|]. intros y Hy. apply Hfg. by right. Qed.

(** A group in rows of [cc]. *)
Lemma rows_concat (l : list bytes) tc cc : length l = (tc * cc)%nat ->
  l = concat (map (fun j => map (fun i => nth (j * cc + i) l []) (seq 0 cc)) (seq 0 tc)).
Proof.
  revert l. induction tc as [|tc IH]; intros l E; [by destruct l|].
  rewrite <-(firstn_skipn cc l) at 1. simpl seq. cbn [map concat]. f_equal.
  - rewrite (list_by_index (take cc l)) at 1. rewrite length_take, Nat.min_l by (rewrite E; simpl; lia).
    apply map_ext_in. intros i [_ Hi]%in_seq. rewrite nth_firstn. replace (i <? cc)%nat with true by (symmetry; apply Nat.ltb_lt; lia). done.
  - rewrite (IH (drop cc l)) by (rewrite length_drop, E; simpl; lia). f_equal. rewrite <-seq_shift, map_map. apply map_ext. intros j.
    apply map_ext. intros i. rewrite nth_skipn. f_equal. lia.
Qed.
Lemma erase_rows keep (f : nat -> nat -> bytes) tc j0 :
  erase (concat (replicate tc keep)) (concat (map (fun j => map (f j) (seq 0 (length keep))) (seq j0 tc)))
  = concat (map (fun j => map (fun i => if nth i keep false then f j i else []) (seq 0 (length keep))) (seq j0 tc)).
Proof.
  revert j0. induction tc as [|tc IH]; intros j0; [done|]. simpl. rewrite erase_app by (by rewrite length_map, length_seq). f_equal; [|apply IH].
  rewrite erase_map. apply map_ext. intros i. by rewrite Nat.sub_0_r.
Qed.
Lemma kept_rows keep tc : kept (concat (replicate tc keep)) = (tc * kept keep)%nat.
Proof. induction tc as [|tc IH]; [done|]. simpl. by rewrite kept_app, IH. Qed.
Lemma length_rows (keep : list bool) tc : length (concat (replicate tc keep)) = (tc * length keep)%nat.
Proof. induction tc as [|tc IH]; [done|]. simpl. by rewrite length_app, IH. Qed.

Section CoderProps.
Context {DV : Type} `{!ReedSolomon, !CoderKeys DV, !RSLaws, !KeyLaws}.
Implicit Types (d : DataCoder DV) (stripe group tags : list bytes) (keep : list bool) (v : DV).

(** A coder that [NewDataCoder] makes: one data chunk that is copied, or at least two
    of a Reed-Solomon code. *)
Record coder_ok d : Prop := mkCoderOk {
  co_made : preCompute (dcd_Prefix d) = Ok d;
  co_wf : prefix_wf (dcd_Prefix d);
  co_size : 0 < p_SegSize (dcd_Prefix d);
  co_flag : p_TagFlag (dcd_Prefix d) = PDPV2;
  co_policy : p_Policy (dcd_Prefix d) = MulPolicy /\ p_DataCount (dcd_Prefix d) = 1 \/
              p_Policy (dcd_Prefix d) = RsPolicy /\ 2 <= p_DataCount (dcd_Prefix d);
}.

Record coder_sizes d : Prop := mkCoderSizes {
  cz_dc : (1 <= dcd_dc d)%nat; cz_pc : (1 <= dcd_pc d)%nat; cz_cc : dcd_chunkCount d = (dcd_dc d + dcd_pc d)%nat;
  cz_prefix : dcd_prefixSize d = DefaultPrefixLen; cz_tag : dcd_tagSize d = 48%nat; cz_seg : (0 < dcd_seg d)%nat;
  cz_tc : (1 < dcd_tagCount d)%nat;
  cz_cover : (dcd_chunkCount d <= dcd_tagCount d * dcd_dc d)%nat;
  cz_fragment : dcd_fragmentSize d = (DefaultPrefixLen + dcd_seg d + 48 * dcd_tagCount d)%nat;
}.

Lemma coder_ok_sizes d : coder_ok d -> coder_sizes d.
Proof.
  intros [Hm Hwf Hs Hf _]. unfold preCompute in Hm. destruct (_ || _) eqn:E; [done|]. apply orb_false_iff in E as [E1%Z.ltb_ge E2%Z.ltb_ge].
  injection Hm as Ed. rewrite Hf in Ed. change (code_TagLen PDPV2) with 48 in Ed.
  set (p := dcd_Prefix d) in *. set (DC := p_DataCount p) in *. set (PC := p_ParityCount p) in *.
  assert (Hq : 0 <= Z.quot (PC - 1) DC /\ DC * Z.quot (PC - 1) DC <= PC - 1 < DC * Z.quot (PC - 1) DC + DC).
  { rewrite Z.quot_div_nonneg by lia. pose proof (Z.div_mod (PC - 1) DC ltac:(lia)). pose proof (Z.mod_pos_bound (PC - 1) DC ltac:(lia)).
    pose proof (Z.div_pos (PC - 1) DC ltac:(lia) ltac:(lia)). lia. }
  set (q := Z.quot (PC - 1) DC) in *.
  assert (E3 : dcd_chunkCount d = Z.to_nat (DC + PC)) by (by rewrite <-Ed).
  assert (E4 : dcd_prefixSize d = DefaultPrefixLen) by (by rewrite <-Ed).
  assert (E5 : dcd_tagCount d = Z.to_nat (2 + q)) by (by rewrite <-Ed).
  assert (E6 : dcd_tagSize d = 48%nat) by (by rewrite <-Ed).
  assert (E7 : dcd_fragmentSize d = Z.to_nat (Z.of_nat DefaultPrefixLen + p_SegSize p + 48 * (2 + q))) by (by rewrite <-Ed).
  unfold DefaultPrefixLen in *. split; unfold dcd_dc, dcd_pc, dcd_seg; fold p; fold DC; fold PC; rewrite ?E3, ?E4, ?E5, ?E6, ?E7; try lia; done || (unfold DefaultPrefixLen; lia).
Qed.

Lemma coder_counts d : coder_ok d ->
  1 <= p_DataCount (dcd_Prefix d) /\ 1 <= p_ParityCount (dcd_Prefix d) /\ p_DataCount (dcd_Prefix d) < 2^32 /\
  dcd_tagCount d = Z.to_nat (2 + (p_ParityCount (dcd_Prefix d) - 1) / p_DataCount (dcd_Prefix d)).
Proof.
  intros [Hm Hwf _ _ _]. unfold preCompute in Hm. destruct (_ || _) eqn:E; [done|]. apply orb_false_iff in E as [E1%Z.ltb_ge E2%Z.ltb_ge].
  split_and!; [done..|unfold prefix_wf, is_u32 in Hwf; lia|]. injection Hm as Ed. rewrite <-Ed at 1. cbn [dcd_tagCount]. by rewrite Z.quot_div_nonneg by lia.
Qed.

(** ** What Encode makes *)

(** The segments are a codeword; so are the tags, which pass the check. *)
Record encoded d group tags : Prop := mkEncoded {
  en_group : length group = dcd_chunkCount d /\ Forall (fun x => length x = dcd_seg d) group;
  en_seg : p_Policy (dcd_Prefix d) = MulPolicy /\ (exists x, group = replicate (dcd_chunkCount d) x) \/
           p_Policy (dcd_Prefix d) = RsPolicy /\ rs_New (dcd_dc d) (dcd_pc d) = true /\
             group = take (dcd_dc d) group ++ rs_parity (dcd_dc d) (dcd_pc d) (take (dcd_dc d) group);
  en_tags : exists l0, length l0 = dcd_chunkCount d /\ Forall (fun x => length x = 48%nat /\ ck_CheckTag x = true) l0 /\
    rs_New (dcd_chunkCount d) (dcd_chunkCount d * (dcd_tagCount d - 1)) = true /\
    tags = l0 ++ rs_parity (dcd_chunkCount d) (dcd_chunkCount d * (dcd_tagCount d - 1)) l0;
}.

Definition chunks d group tags : list bytes := map (build_chunk d group tags) (seq 0 (dcd_chunkCount d)).

Lemma gen_tags_Ok d name j group tags : p_TagFlag (dcd_Prefix d) = PDPV2 -> dcd_tagSize d = 48%nat ->
  gen_tags d name j group = Ok tags ->
  length tags = length group /\ Forall (fun x => length x = 48%nat /\ ck_CheckTag x = true) tags.
Proof.
  intros Hf Hs. revert j tags. induction group as [|data group IH]; intros j tags; simpl.
  { intros [= <-]. split; [done|constructor]. }
  unfold GenTag. rewrite Hf. change (PDPV2 =? CRC32) with false. rewrite Z.eqb_refl.
  destruct (ck_GenTag _ _) as [tag|] eqn:E; [|done]. destruct (gen_tags d name (S j) group) as [tags'|e|w] eqn:E2; [|done..].
  intros [= <-]. destruct (IH _ _ E2) as [Hl Hall]. simpl. split; [by rewrite Hl|].
  destruct (ck_GenTag_good _ _ _ E) as [Hlen Hck]. rewrite Hs, copy_into_exact by done. by constructor.
Qed.

(** The data is padded to a whole stripe. *)
Definition stripe_data d (data : bytes) : bytes := copy_into (dcd_dc d * dcd_seg d) data.

Lemma slices_concat (x : bytes) n w : length x = (n * w)%nat ->
  concat (map (fun i => slice (i * w) ((i + 1) * w) x) (seq 0 n)) = x /\
  Forall (fun y => length y = w) (map (fun i => slice (i * w) ((i + 1) * w) x) (seq 0 n)).
Proof.
  revert x. induction n as [|n IH]; intros x E; [by destruct x|]. simpl seq. cbn [map concat].
  assert (Hs : map (fun i => slice (i * w) ((i + 1) * w) x) (seq 1 n) = map (fun i => slice (i * w) ((i + 1) * w) (drop w x)) (seq 0 n)).
  { rewrite <-seq_shift, map_map. apply map_ext. intros i. unfold slice. rewrite skipn_skipn. f_equal; [lia|f_equal; lia]. }
  rewrite Hs. destruct (IH (drop w x)) as [Hcat Hwid]; [rewrite length_drop, E; simpl; lia|]. rewrite Hcat. split.
  - unfold slice. simpl. rewrite drop_0, Nat.add_0_r, Nat.sub_0_r. apply firstn_skipn.
  - constructor; [|exact Hwid]. rewrite length_slice; simpl in *; lia.
Qed.

Lemma data_group_ok d (data : bytes) (g := map (fun i => slice (i * dcd_seg d) ((i + 1) * dcd_seg d) (stripe_data d data)) (seq 0 (dcd_dc d))) :
  dcd_chunkCount d = (dcd_dc d + dcd_pc d)%nat ->
  data_group d (stripe_data d data) = g ++ replicate (dcd_pc d) (zeros (dcd_seg d)) /\ length g = dcd_dc d /\
  Forall (fun x => length x = dcd_seg d) g /\ concat g = stripe_data d data.
Proof.
  intros Hcc. destruct (slices_concat (stripe_data d data) (dcd_dc d) (dcd_seg d)) as [Hcat Hwid]; [apply length_copy_into|].
  split_and!; [|by unfold g; rewrite length_map, length_seq|done..]. unfold data_group. do 2 f_equal. lia.
Qed.

Lemma Forall_width (l : list bytes) (w : nat) x : Forall (fun y => length y = w) l -> nth 0 l x = x \/ length (nth 0 l x) = w.
Proof. intros []; [by left|by right]. Qed.

Lemma encode_group_ok d (data : bytes) group : coder_ok d -> rs_New (dcd_dc d) (dcd_pc d) = true ->
  encode_group d (data_group d (stripe_data d data)) = Ok group ->
  length group = dcd_chunkCount d /\ Forall (fun x => length x = dcd_seg d) group /\
  concat (take (dcd_dc d) group) = stripe_data d data /\
  (p_Policy (dcd_Prefix d) = MulPolicy /\ (exists x, group = replicate (dcd_chunkCount d) x) \/
   p_Policy (dcd_Prefix d) = RsPolicy /\ rs_New (dcd_dc d) (dcd_pc d) = true /\
     group = take (dcd_dc d) group ++ rs_parity (dcd_dc d) (dcd_pc d) (take (dcd_dc d) group)).
Proof.
  intros Hok Hrs. pose proof (coder_ok_sizes d Hok) as Hz. destruct Hz as [Hdc Hpc Hcc _ _ Hseg _ _ _]. destruct (data_group_ok d data Hcc) as (-> & Hg & Hgw & Hcat).
  set (g := map _ (seq 0 (dcd_dc d))) in *. unfold encode_group.
  destruct (co_policy d Hok) as [[Hp Hd1]|[Hp _]]; rewrite Hp.
  - rewrite Z.eqb_refl. intros [= <-].
    assert (Hdc1 : dcd_dc d = 1%nat) by (unfold dcd_dc; by rewrite Hd1).
    rewrite Hdc1 in Hg. destruct g as [|x [|]]; try done. rewrite Hdc1, Hcc, Hdc1. cbn [app take nth].
    replace (1 + dcd_pc d - 1)%nat with (dcd_pc d) by lia.
    assert (Hx : length x = dcd_seg d) by (by inversion Hgw). rewrite copy_into_exact by done.
    split_and!; [simpl; by rewrite length_replicate|..].
    + constructor; [done|]. apply Forall_replicate. done.
    + exact Hcat.
    + left. split; [done|]. by exists x.
  - change (RsPolicy =? MulPolicy) with false. rewrite Z.eqb_refl.
    rewrite (rs_Encode_ok _ _ _ _ (dcd_seg d) Hrs Hg (length_replicate _ _) Hseg)
      by (apply Forall_app; split; [done|apply Forall_replicate, length_replicate]).
    intros [= <-]. destruct (rs_parity_shape (dcd_dc d) (dcd_pc d) g _ Hrs Hg Hgw) as [Hpl Hpw].
    split_and!; [by rewrite length_app, Hg, Hpl|by apply Forall_app|by rewrite take_app_length' |].
    right. split_and!; [done..|]. by rewrite take_app_length'.
Qed.

Lemma gen_tags_nth d name j group tags i : p_TagFlag (dcd_Prefix d) = PDPV2 -> dcd_tagSize d = 48%nat ->
  gen_tags d name j group = Ok tags -> (i < length group)%nat ->
  ck_GenTag (SetChunkID (Z.of_nat (j + i)) name) (nth i group []) = Some (nth i tags []).
Proof.
  intros Hf Hs. revert j i tags. induction group as [|data group IH]; intros j i tags; simpl; [lia|].
  unfold GenTag. rewrite Hf. change (PDPV2 =? CRC32) with false. rewrite Z.eqb_refl.
  destruct (ck_GenTag _ _) as [tag|] eqn:E; [|done]. destruct (gen_tags d name (S j) group) as [tags'|e|w] eqn:E2; [|done..].
  intros [= <-] Hi. destruct (ck_GenTag_good _ _ _ E) as [Hlen _]. rewrite Hs, copy_into_exact by done.
  destruct i as [|i]; [by rewrite Nat.add_0_r|]. rewrite <-plus_n_Sm. apply (IH (S j) i tags' E2). lia.
Qed.

(** A stripe that [Encode] returns consists of such chunks. *)
Lemma Encode_makes d name data stripe : coder_ok d -> Encode d name data = Ok stripe ->
  exists group tags, (encoded d group tags /\ stripe = chunks d group tags /\ concat (take (dcd_dc d) group) = stripe_data d data) /\
    forall i, (i < dcd_chunkCount d)%nat -> ck_GenTag (SetChunkID (Z.of_nat i) name) (nth i group []) = Some (nth i tags []).
Proof.
  intros Hok. pose proof (coder_ok_sizes d Hok) as Hz. unfold Encode. destruct (_ =? 0)%nat; [done|]. destruct (_ <? _)%nat; [done|].
  destruct (negb _) eqn:Hrs; [done|]. apply negb_false_iff, andb_true_iff in Hrs as [Hrs1 Hrs2].
  fold (stripe_data d data). destruct (encode_group _ _) as [group|e|w] eqn:Eg; [|done..].
  destruct (encode_group_ok d data group Hok Hrs1 Eg) as (Hl & Hw & Hcat & Hseg).
  destruct (gen_tags d name 0 group) as [l0|e|w] eqn:Et; [|done..].
  destruct (gen_tags_Ok _ _ _ _ _ (co_flag d Hok) (cz_tag d Hz) Et) as [Hl0 Hck].
  assert (Hl0w : Forall (fun x => length x = 48%nat) l0) by (eapply Forall_impl; [exact Hck|by intros x []]).
  rewrite (rs_Encode_ok _ _ l0 _ 48 Hrs2) by (rewrite ?length_replicate; first [congruence|lia|
    apply Forall_app; split; [done|apply Forall_replicate; rewrite (cz_tag d Hz); apply length_replicate]]).
  intros [= <-]. eexists group, _. split; [split; [|by split]|].
  - split; [done|done|]. exists l0. split_and!; congruence || done.
  - intros i Hi. rewrite app_nth1 by lia. apply (gen_tags_nth d name 0 group l0 i (co_flag d Hok) (cz_tag d Hz) Et). lia.
Qed.
Lemma Encode_Ok d name data stripe : coder_ok d -> Encode d name data = Ok stripe ->
  exists group tags, encoded d group tags /\ stripe = chunks d group tags /\ concat (take (dcd_dc d) group) = stripe_data d data.
Proof. intros Hok He. destruct (Encode_makes d name data stripe Hok He) as (group & tags & Hen & _). by exists group, tags. Qed.

(** ** The parts of a chunk *)

Section Chunks.
Variables (d : DataCoder DV) (group tags : list bytes).
Hypotheses (Hok : coder_ok d) (Hen : encoded d group tags).

Lemma tags_shape : length tags = (dcd_tagCount d * dcd_chunkCount d)%nat /\ Forall (fun x => length x = 48%nat) tags.
Proof.
  destruct (en_tags _ _ _ Hen) as (l0 & Hl & Hck & Hnew & ->). pose proof (coder_ok_sizes d Hok) as Hz.
  assert (Hl0w : Forall (fun x => length x = 48%nat) l0) by (eapply Forall_impl; [exact Hck|by intros x []]).
  destruct (rs_parity_shape (dcd_chunkCount d) (dcd_chunkCount d * (dcd_tagCount d - 1)) l0 _ Hnew Hl Hl0w) as [Hpl Hpw].
  split; [|by apply Forall_app]. rewrite length_app, Hl, Hpl. pose proof (cz_tc d Hz). nia.
Qed.
Lemma tags_width i : (i < dcd_tagCount d * dcd_chunkCount d)%nat -> length (nth i tags []) = 48%nat.
Proof. destruct tags_shape as [Hl Hw]. rewrite Forall_forall in Hw. intros Hi. apply Hw, list_elem_of_In, nth_In. lia. Qed.
Lemma group_width i : (i < dcd_chunkCount d)%nat -> length (nth i group []) = dcd_seg d.
Proof. destruct (en_group _ _ _ Hen) as [Hl Hw]. rewrite Forall_forall in Hw. intros Hi. apply Hw, list_elem_of_In, nth_In. lia. Qed.

Lemma concat_width {A} (f : nat -> list A) w n : (forall j, (j < n)%nat -> length (f j) = w) ->
  length (concat (map f (seq 0 n))) = (n * w)%nat /\
  forall j, (j < n)%nat -> take w (drop (j * w) (concat (map f (seq 0 n)))) = f j.
Proof.
  revert f. induction n as [|n IH]; intros f Hf; [split; [done|lia]|]. simpl seq. rewrite <-seq_shift, map_cons, map_map. cbn [concat].
  destruct (IH (fun j => f (S j))) as [Hl Hn]; [intros j Hj; apply Hf; lia|]. split; [rewrite length_app, Hl, Hf by lia; lia|].
  intros [|j] Hj; [rewrite drop_0, take_app_length' by (symmetry; apply Hf; lia); done|].
  rewrite drop_app_ge, Hf by (rewrite ?Hf by lia; lia). replace (S j * w - w)%nat with (j * w)%nat by lia. apply Hn. lia.
Qed.

Lemma chunk_tags_ok i : (i < dcd_chunkCount d)%nat -> length (chunk_tags d tags i) = (dcd_tagCount d * 48)%nat /\
  forall j, (j < dcd_tagCount d)%nat -> slice (j * 48) ((j + 1) * 48) (chunk_tags d tags i) = nth (j * dcd_chunkCount d + i) tags [].
Proof.
  intros Hi. destruct (concat_width (fun j => nth (j * dcd_chunkCount d + i) tags []) 48 (dcd_tagCount d)) as [Hl Hn].
  { intros j Hj. apply tags_width. nia. }
  split; [exact Hl|]. intros j Hj. etransitivity; [|exact (Hn j Hj)]. unfold slice, chunk_tags. f_equal. lia.
Qed.

Lemma chunk_layout i : (i < dcd_chunkCount d)%nat ->
  build_chunk d group tags i = Prefix_Serialize (dcd_Prefix d) ++ nth i group [] ++ chunk_tags d tags i /\
  length (build_chunk d group tags i) = dcd_fragmentSize d.
Proof.
  intros Hi. pose proof (coder_ok_sizes d Hok) as Hz. unfold build_chunk. rewrite (cz_prefix d Hz), copy_into_exact by apply length_Prefix_Serialize.
  split; [done|]. rewrite !length_app, length_Prefix_Serialize, group_width by done. destruct (chunk_tags_ok i Hi) as [-> _].
  rewrite (cz_fragment d Hz). lia.
Qed.

Lemma chunk_parts i : (i < dcd_chunkCount d)%nat -> let x := build_chunk d group tags i in
  DeserializePrefix x = Some (dcd_Prefix d, DefaultPrefixLen) /\ chunk_seg d x = nth i group [] /\ chunk_tag d x = nth i tags [] /\
  slice (dcd_prefixSize d) (dcd_fragmentSize d) x = nth i group [] ++ chunk_tags d tags i.
Proof.
  intros Hi x. unfold x. destruct (chunk_layout i Hi) as [-> _]. pose proof (coder_ok_sizes d Hok) as Hz.
  pose proof (group_width i Hi) as Hg. destruct (chunk_tags_ok i Hi) as [Htl Htn].
  split; [apply DeserializePrefix_Serialize, (co_wf d Hok)|]. unfold chunk_seg, chunk_tag. rewrite (cz_prefix d Hz), (cz_tag d Hz).
  rewrite !(slice_app_skip (Prefix_Serialize _)) by (rewrite length_Prefix_Serialize; lia). rewrite length_Prefix_Serialize, Nat.sub_diag.
  replace (DefaultPrefixLen + dcd_seg d - DefaultPrefixLen)%nat with (dcd_seg d) by lia.
  replace (DefaultPrefixLen + dcd_seg d + 48 - DefaultPrefixLen)%nat with (dcd_seg d + 48)%nat by lia.
  split_and!.
  - by apply slice_app_here.
  - rewrite slice_app_skip by lia. rewrite Hg, Nat.sub_diag. replace (dcd_seg d + 48 - dcd_seg d)%nat with 48%nat by lia.
    apply (Htn 0%nat). pose proof (cz_tc d Hz). lia.
  - rewrite <-(app_nil_r (nth i group [] ++ chunk_tags d tags i)) at 1. apply slice_app_here.
    rewrite length_app, Hg, Htl, (cz_fragment d Hz). lia.
Qed.

(** What a base segment reads of a chunk. *)
Lemma chunk_segment i id : (i < dcd_chunkCount d)%nat -> let bs := mkBaseSegment id (build_chunk d group tags i) in
  BaseSegment_Content bs = Some (nth i group []) /\ exists rest, BaseSegment_Tags bs = Some (nth i tags [] :: rest).
Proof.
  intros Hi bs. pose proof (coder_ok_sizes d Hok) as Hz. destruct (coder_counts d Hok) as (Hdc & Hpc & _ & Etc). pose proof (cz_tc d Hz).
  destruct (chunk_parts i Hi) as (Hp & Hseg & Htag & _). destruct (chunk_layout i Hi) as [_ Hl]. unfold bs, BaseSegment_Content, BaseSegment_Tags. cbn [bs_data].
  rewrite Hp, Hl. unfold chunk_seg, dcd_seg in Hseg. rewrite (cz_prefix d Hz) in Hseg. rewrite Hseg.
  unfold chunk_tag, dcd_seg in Htag. rewrite (cz_prefix d Hz), (cz_tag d Hz) in Htag.
  pose proof (cz_fragment d Hz) as Hfr. unfold dcd_seg in Hfr. split.
  - replace (_ <? _)%nat with false by (symmetry; apply Nat.ltb_ge; rewrite Hfr; lia). done.
  - replace (_ || _) with false by (symmetry; apply orb_false_iff; split; apply Z.ltb_ge; lia). rewrite (co_flag d Hok). change (TagMap PDPV2) with 48.
    unfold tag_count. replace (_ =? _) with true; [|symmetry; apply Z.eqb_eq; rewrite Hfr, Etc; pose proof (co_size d Hok); lia]. cbn [negb].
    rewrite <-Etc. destruct (dcd_tagCount d) as [|n]; [lia|]. cbn [seq map]. change (Z.to_nat 48) with 48%nat.
    eexists. rewrite Nat.mul_0_l, Nat.add_0_r. f_equal. f_equal. rewrite <-Htag. f_equal; lia.
Qed.

Lemma field_parts i j : (i < dcd_chunkCount d)%nat -> (j < dcd_tagCount d)%nat -> let x := nth i group [] ++ chunk_tags d tags i in
  field_seg d x = nth i group [] /\ field_tag d j x = nth (j * dcd_chunkCount d + i) tags [] /\ x <> [].
Proof.
  intros Hi Hj x. pose proof (coder_ok_sizes d Hok) as Hz. pose proof (group_width i Hi) as Hg. destruct (chunk_tags_ok i Hi) as [Htl Htn].
  assert (Hx : x <> []). { intros E. apply (f_equal length) in E. unfold x in E. rewrite length_app, Hg in E. pose proof (cz_seg d Hz). simpl in E. lia. }
  split_and!; [|..|done].
  - unfold field_seg, x. by rewrite <-Hg, take_app_length.
  - unfold field_tag. destruct x as [|c x'] eqn:E; [done|]. rewrite <-E. unfold x. rewrite (cz_tag d Hz).
    rewrite slice_app_skip by lia. rewrite Hg.
    replace (dcd_seg d + j * 48 - dcd_seg d)%nat with (j * 48)%nat by lia.
    replace (dcd_seg d + (j + 1) * 48 - dcd_seg d)%nat with ((j + 1) * 48)%nat by lia. by apply Htn.
Qed.
End Chunks.

(** The tag of a chunk is the one made for its name and segment. *)
Lemma Encode_tagged d name data stripe : coder_ok d -> Encode d name data = Ok stripe ->
  length stripe = dcd_chunkCount d /\ Forall (fun x => length x = dcd_fragmentSize d) stripe /\
  forall i id, (i < dcd_chunkCount d)%nat -> exists seg tag rest, BaseSegment_Content (mkBaseSegment id (nth i stripe [])) = Some seg /\
    BaseSegment_Tags (mkBaseSegment id (nth i stripe [])) = Some (tag :: rest) /\ ck_GenTag (SetChunkID (Z.of_nat i) name) seg = Some tag.
Proof.
  intros Hok He. destruct (Encode_makes d name data stripe Hok He) as (group & tags & (Hen & -> & _) & Htags). pose proof (coder_ok_sizes d Hok) as Hz.
  split; [unfold chunks; by rewrite length_map, length_seq|]. split.
  - apply Forall_map, Forall_forall. intros i Hi%list_elem_of_In%in_seq. apply (chunk_layout d group tags Hok Hen). lia.
  - intros i id Hi. unfold chunks. rewrite nth_map_seq by done. destruct (chunk_segment d group tags Hok Hen i id Hi) as (Hc & rest & Ht).
    exists (nth i group []), (nth i tags []), rest. split; [done|]. split; [done|]. by apply Htags.
Qed.

(** ** Recovering a codeword *)

Lemma recoverData_rs d dc pc data n keep : (1 < dc)%nat -> rs_New dc pc = true -> length data = dc -> (0 < n)%nat ->
  Forall (fun x => length x = n) data -> length keep = (dc + pc)%nat -> (dc <= kept keep)%nat ->
  recoverData d (erase keep (data ++ rs_parity dc pc data)) dc pc = Ok (data ++ rs_parity dc pc data).
Proof.
  intros Hdc Hnew Hl Hn Hw Hk Hc. unfold recoverData. replace (1 <? dc)%nat with true by (symmetry; by apply Nat.ltb_lt).
  rewrite Hnew. cbn [negb]. destruct (rs_parity_shape dc pc data n Hnew Hl Hw) as [Hpl _].
  destruct (decide (kept keep < dc + pc)%nat) as [Hlt|Hge].
  - destruct (rs_Verify_missing dc pc data n keep Hnew Hl Hn Hw Hk Hc Hlt) as (e & -> & E1 & E2).
    rewrite !bool_decide_false by done. cbn [orb].
    rewrite (rs_Reconstruct_ok dc pc data n keep Hnew Hl Hn Hw Hk Hc). by rewrite (rs_Verify_ok dc pc data n).
  - pose proof (kept_le keep). rewrite erase_all by (rewrite ?length_app, ?Hl, ?Hpl; lia). by rewrite (rs_Verify_ok dc pc data n).
Qed.

Lemma erase_replicate keep (x : bytes) : erase keep (replicate (length keep) x) = map (fun b : bool => if b then x else []) keep.
Proof. induction keep as [|b keep IH]; [done|]. unfold erase in *. simpl. by rewrite IH. Qed.

Lemma recoverData_copy d x pc keep : length keep = dcd_chunkCount d -> x <> [] -> (1 <= kept keep)%nat ->
  recoverData d (erase keep (replicate (dcd_chunkCount d) x)) 1 pc = Ok (replicate (dcd_chunkCount d) x).
Proof.
  intros Hk Hx Hc. unfold recoverData. simpl. unfold copy_missing. rewrite <-Hk, erase_replicate.
  rewrite firstn_all2, skipn_all2 by (rewrite length_map; lia).
  assert (Hf : forall k : list bool, filter (fun y => y <> []) (map (fun b : bool => if b then x else []) k) = replicate (kept k) x).
  { induction k as [|[] k IH]; [done|..]; cbn [map].
    - rewrite filter_cons_True by done. by rewrite IH.
    - rewrite filter_cons_False by (intros E; by apply E). rewrite IH. done. }
  rewrite Hf. destruct (kept keep); [lia|]. cbn [replicate]. f_equal. rewrite map_map.
  rewrite app_nil_r. clear -Hx. induction keep as [|b keep IH]; [done|]. cbn [map length replicate]. rewrite IH. destruct b, x; done.
Qed.

(** ** One pass over a stripe with lost chunks *)

Section Pass.
Variables (d : DataCoder DV) (group tags : list bytes) (keep : list bool).
Hypotheses (Hok : coder_ok d) (Hen : encoded d group tags) (Hkeep : length keep = dcd_chunkCount d).

Definition lost : list bytes := erase keep (chunks d group tags).

Lemma lost_nth i : (i < dcd_chunkCount d)%nat -> nth i lost [] = if nth i keep false then build_chunk d group tags i else [].
Proof.
  intros Hi. unfold lost, chunks. rewrite <-Hkeep, erase_map, nth_map_seq by (by rewrite Hkeep). by rewrite Nat.sub_0_r.
Qed.
Lemma length_lost : length lost = dcd_chunkCount d.
Proof. unfold lost, chunks. by rewrite length_erase; rewrite length_map, length_seq. Qed.

Lemma drop_lost j : (j < dcd_chunkCount d)%nat -> nth j keep false = false -> <[j := []]> lost = lost.
Proof.
  intros Hj Hk. apply list_insert_id. pose proof (lost_nth j Hj) as E. rewrite Hk in E.
  destruct (nth_lookup_or_length lost j []) as [El|El]; [by rewrite El, E|]. rewrite length_lost in El. lia.
Qed.

Lemma tag_good i : (i < dcd_chunkCount d)%nat -> ck_CheckTag (nth i tags []) = true.
Proof.
  intros Hi. destruct (en_tags _ _ _ Hen) as (l0 & Hl & Hck & _ & ->). rewrite app_nth1 by (by rewrite Hl).
  rewrite Forall_forall in Hck. apply Hck, list_elem_of_In, nth_In. by rewrite Hl.
Qed.

Lemma VerifyPrefix_refl : VerifyPrefix d (dcd_Prefix d) = true.
Proof. unfold VerifyPrefix. by rewrite !Z.eqb_refl. Qed.

Lemma verify_entry_lost j good (c : coderSt) : (j < dcd_chunkCount d)%nat -> cst_stripe c = lost ->
  verify_entry d None good j c = (Ok (if nth j keep false then S good else good), c).
Proof.
  intros Hj Hc. unfold verify_entry. rewrite (bind_run _ _ _ _ _ (eq_refl : gets _ _ = _)), Hc, (lost_nth j Hj).
  pose proof (coder_ok_sizes d Hok) as Hz. destruct (nth j keep false) eqn:Hk.
  - destruct (chunk_layout _ _ _ Hok Hen j Hj) as [_ Hl]. destruct (chunk_parts _ _ _ Hok Hen j Hj) as (Hp & _ & Ht & _).
    rewrite Hl, Nat.eqb_refl, Hp, VerifyPrefix_refl. cbn [negb]. by rewrite Ht, tag_good.
  - replace (length [] =? dcd_fragmentSize d)%nat with false
      by (symmetry; apply Nat.eqb_neq; rewrite (cz_fragment d Hz); unfold DefaultPrefixLen; simpl; lia).
    cbn [negb]. unfold drop_chunk, bind, modify, ret. f_equal. destruct c as [st v]. unfold set_cst_stripe. cbn in *. subst st. by rewrite drop_lost.
Qed.

Lemma verify_all_lost k good i (c : coderSt) : k = drop i keep -> (i + length k = dcd_chunkCount d)%nat -> cst_stripe c = lost ->
  for_fold (seq i (length k)) good (verify_entry d None) c = (Ok (good + kept k)%nat, c).
Proof.
  revert i good. induction k as [|b k IH]; intros i good Hk Hi Hc; [cbn; unfold ret; by rewrite Nat.add_0_r|].
  cbn [length seq]. rewrite for_fold_cons. simpl in Hi.
  rewrite (bind_run _ _ _ _ _ (verify_entry_lost i good c ltac:(lia) Hc)).
  assert (Hb : nth i keep false = b /\ k = drop (S i) keep).
  { split; [|by rewrite <-(skipn_skipn 1), <-Hk]. rewrite <-(Nat.add_0_r i), <-nth_skipn, <-Hk. done. }
  destruct Hb as [-> Hk2]. rewrite (IH (S i) _ Hk2 ltac:(lia) Hc). do 2 f_equal. unfold kept. destruct b; simpl; lia.
Qed.

Definition readable : bool := forallb (fun j => nth j keep false) (seq 0 (dcd_dc d)).

Lemma readable_lost : forallb (fun j => negb (length (nth j lost []) =? 0)%nat) (seq 0 (dcd_dc d)) = readable.
Proof.
  unfold readable. pose proof (coder_ok_sizes d Hok) as Hz. pose proof (cz_cc d Hz) as Hcc.
  apply forallb_ext_in. intros j [_ Hj]%in_seq. rewrite lost_nth by lia. destruct (nth j keep false); [|done].
  destruct (chunk_layout _ _ _ Hok Hen j ltac:(lia)) as [_ ->]. rewrite (cz_fragment d Hz). done.
Qed.

Lemma VerifyStripe_lost (c : coderSt) : cst_stripe c = lost ->
  VerifyStripe d None c =
  (if (dcd_dc d <=? kept keep)%nat then Ok (readable, kept keep) else Err "the recovered data is incorrect", set_cst_dv ck_Reset c).
Proof.
  intros Hc. pose proof (coder_ok_sizes d Hok) as Hz. pose proof (cz_cc d Hz) as Hcc. unfold VerifyStripe.
  rewrite (bind_run _ _ _ _ _ (eq_refl : gets _ _ = _)), Hc, length_lost.
  rewrite (bind_run (check _ _) _ c tt c) by (unfold check; replace (_ <=? _)%nat with true by (symmetry; apply Nat.leb_le; lia); done).
  rewrite (bind_run _ _ _ _ _ (eq_refl : modify _ _ = _)).
  pose proof (verify_all_lost keep 0 0 (set_cst_dv ck_Reset c) eq_refl Hkeep Hc) as Hv. rewrite Hkeep in Hv.
  rewrite (bind_run _ _ _ _ _ Hv). rewrite (bind_run _ _ _ _ _ (eq_refl : gets _ _ = _)). cbn [cst_stripe set_cst_dv].
  rewrite Hc. cbv zeta. rewrite readable_lost. simpl Nat.add. unfold check. by destruct (dcd_dc d <=? kept keep)%nat.
Qed.

(** ** Recover *)

Lemma fit_lost : fit_stripe d lost = lost.
Proof.
  unfold fit_stripe. rewrite skipn_all2 by (by rewrite length_lost). rewrite app_nil_r.
  etransitivity; [|symmetry; apply (list_by_index lost)]. rewrite length_lost. apply map_ext_in. intros i [_ Hi]%in_seq. rewrite lost_nth by lia.
  destruct (nth i keep false); [|by destruct (_ =? _)%nat]. destruct (chunk_layout _ _ _ Hok Hen i Hi) as [_ ->]. by rewrite Nat.eqb_refl.
Qed.

Definition field i : bytes := nth i group [] ++ chunk_tags d tags i.
Definition lost_fields : list bytes := map (fun i => if nth i keep false then field i else []) (seq 0 (dcd_chunkCount d)).

Lemma fields_lost : map (fun chunk => slice (dcd_prefixSize d) (dcd_fragmentSize d) chunk) (take (dcd_chunkCount d) lost) = lost_fields.
Proof.
  rewrite firstn_all2 by (by rewrite length_lost). rewrite (list_by_index lost), length_lost, map_map. apply map_ext_in.
  intros i [_ Hi]%in_seq. rewrite lost_nth by lia. destruct (nth i keep false); [|unfold slice; by rewrite drop_nil, take_nil].
  by destruct (chunk_parts _ _ _ Hok Hen i Hi) as (_ & _ & _ & ->).
Qed.

Lemma segs_of_fields : map (field_seg d) lost_fields = erase keep group.
Proof.
  unfold lost_fields, field. rewrite map_map, erase_index; destruct (en_group _ _ _ Hen) as [Hl _]; rewrite Hl; [|by rewrite Hkeep].
  apply map_ext_in. intros i [_ Hi]%in_seq. pose proof (coder_ok_sizes d Hok) as Hz. pose proof (cz_tc d Hz).
  destruct (nth i keep false); [|unfold field_seg; by rewrite take_nil]. by destruct (field_parts _ _ _ Hok Hen i 0 Hi ltac:(lia)) as (-> & _).
Qed.

Definition rows : list bool := concat (replicate (dcd_tagCount d) keep).
Lemma tags_of_fields : tag_group d lost_fields = erase rows tags.
Proof.
  unfold tag_group, lost_fields, field, rows. destruct (tags_shape _ _ _ Hok Hen) as [Hl _].
  pose proof (rows_concat tags (dcd_tagCount d) (dcd_chunkCount d) Hl) as Hrows. rewrite <-Hkeep in Hrows.
  pose proof (erase_rows keep (fun j i => nth (j * length keep + i) tags []) (dcd_tagCount d) 0) as E. cbv beta in E. rewrite <-Hrows, Hkeep in E. rewrite E.
  f_equal. apply map_ext_in. intros j [_ Hj]%in_seq. rewrite map_map. apply map_ext_in. intros i [_ Hi]%in_seq.
  destruct (nth i keep false); [|done]. by destruct (field_parts _ _ _ Hok Hen i j Hi Hj) as (_ & -> & _).
Qed.

Hypothesis Henough : (dcd_dc d <= kept keep)%nat.

Lemma group_recovered : recoverData d (erase keep group) (dcd_dc d) (dcd_pc d) = Ok group.
Proof.
  pose proof (coder_ok_sizes d Hok) as Hz. pose proof (cz_cc d Hz) as Hcc. destruct (en_group _ _ _ Hen) as [Hl Hw].
  destruct (en_seg _ _ _ Hen) as [[Hp [x Hx]]|(Hp & Hnew & Hg)].
  - assert (Hdc : dcd_dc d = 1%nat). { destruct (co_policy d Hok) as [[_ E]|[E _]]; [unfold dcd_dc; by rewrite E|rewrite E in Hp; discriminate]. }
    rewrite Hx, Hdc. apply recoverData_copy; [done| |lia].
    intros ->. rewrite Hx in Hw. pose proof (cz_seg d Hz). destruct (dcd_chunkCount d); [lia|]. inversion Hw; simpl in *; lia.
  - assert (Hdc : (1 < dcd_dc d)%nat). { destruct (co_policy d Hok) as [[E _]|[_ E]]; [rewrite E in Hp; discriminate|unfold dcd_dc; lia]. }
    rewrite Hg. apply (recoverData_rs d _ _ _ (dcd_seg d)); [done..| |apply (cz_seg d Hz)| |lia|done].
    + rewrite length_take. lia.
    + by apply Forall_take.
Qed.

Lemma tags_recovered : recoverData d (erase rows tags) (dcd_chunkCount d) (dcd_chunkCount d * (dcd_tagCount d - 1)) = Ok tags.
Proof.
  pose proof (coder_ok_sizes d Hok) as Hz. destruct (en_tags _ _ _ Hen) as (l0 & Hl & Hck & Hnew & ->).
  pose proof (cz_tc d Hz). pose proof (cz_dc d Hz). pose proof (cz_pc d Hz). pose proof (cz_cc d Hz). pose proof (cz_cover d Hz).
  apply (recoverData_rs d _ _ _ 48); try done; try lia.
  - eapply Forall_impl; [exact Hck|by intros x []].
  - unfold rows. rewrite length_rows, Hkeep. nia.
  - unfold rows. rewrite kept_rows. nia.
Qed.

Lemma faults_in order : Permutation order (faults lost_fields) -> Forall (fun i => (i < dcd_chunkCount d)%nat) order.
Proof.
  intros ->. unfold faults. apply Forall_forall. intros i [_ Hi]%list_elem_of_filter.
  apply list_elem_of_In, in_seq in Hi. unfold lost_fields in Hi. rewrite length_map, length_seq in Hi. lia.
Qed.

Lemma check_faults_ok order c : Forall (fun i => (i < dcd_chunkCount d)%nat) order ->
  check_faults d None group tags order c = (Ok tt, c).
Proof.
  intros Ho. simpl. induction Ho as [|i order Hi Ho IH]; [done|]. rewrite for_each_cons. rewrite tag_good by done. exact IH.
Qed.

Lemma recoverField_lost visit c : (forall l, Permutation (visit l) l) ->
  recoverField d visit None lost_fields c = (Ok (map field (seq 0 (dcd_chunkCount d))), c).
Proof.
  intros Hvis. unfold recoverField. rewrite segs_of_fields, tags_of_fields, group_recovered, tags_recovered.
  rewrite (bind_run _ _ c group c eq_refl), (bind_run _ _ c tags c eq_refl). cbv zeta.
  rewrite (bind_run _ _ c tt c (check_faults_ok _ c (faults_in _ (Hvis _)))). unfold ret. do 2 f_equal.
  apply map_ext_in. intros i [_ Hi]%in_seq. unfold lost_fields. rewrite nth_map_seq by lia.
  destruct (nth i keep false); [|done]. unfold field.
  pose proof (coder_ok_sizes d Hok) as Hz. pose proof (cz_tc d Hz). destruct (field_parts _ _ _ Hok Hen i 0 Hi ltac:(lia)) as (_ & _ & Hne).
  by destruct (nth i group [] ++ chunk_tags d tags i).
Qed.

Lemma Recover_lost visit (c : coderSt) : (forall l, Permutation (visit l) l) -> cst_stripe c = lost ->
  Recover d visit None c = (Ok tt, mkCoderSt (chunks d group tags) (ck_Reset (cst_dv c))).
Proof.
  intros Hvis Hc. pose proof (coder_ok_sizes d Hok) as Hz. unfold Recover. pose proof (VerifyStripe_lost c Hc) as Hv.
  replace (dcd_dc d <=? kept keep)%nat with true in Hv by (symmetry; by apply Nat.leb_le). rewrite (bind_run _ _ _ _ _ Hv).
  set (c1 := set_cst_dv ck_Reset c). rewrite (bind_run (check _ _) _ c1 tt c1)
    by (unfold check; cbn [snd]; replace (dcd_dc d <=? kept keep)%nat with true by (symmetry; by apply Nat.leb_le); done).
  rewrite (bind_run _ _ _ _ _ (eq_refl : gets _ _ = _)). cbn [cst_stripe c1 set_cst_dv]. rewrite Hc, fit_lost, fields_lost. cbv zeta.
  rewrite (bind_run _ _ _ _ _ (recoverField_lost visit c1 Hvis)). unfold modify, set_cst_stripe. do 2 f_equal.
  cbn [cst_stripe c1 set_cst_dv]. rewrite Hc, length_lost, Nat.ltb_irrefl.
  rewrite skipn_all2 by (by rewrite length_lost). rewrite app_nil_r. apply map_ext_in. intros i [_ Hi]%in_seq.
  rewrite lost_nth, nth_map_seq by lia. destruct (chunk_layout _ _ _ Hok Hen i Hi) as [Hb Hl].
  destruct (nth i keep false); [|by rewrite Hb].
  destruct (build_chunk d group tags i) eqn:E; [|done]. rewrite (cz_fragment d Hz) in Hl. discriminate Hl.
Qed.

(** ** Decode *)

Lemma stripe_segs (chunk_list : list bytes) : (forall i, (i < dcd_dc d)%nat -> nth i chunk_list [] = build_chunk d group tags i) ->
  (dcd_dc d <= length chunk_list)%nat -> read_segs d chunk_list = Ok (take (dcd_dc d) group).
Proof.
  intros Hn Hl. pose proof (coder_ok_sizes d Hok) as Hz. pose proof (cz_cc d Hz) as Hcc. unfold read_segs.
  assert (E : take (dcd_dc d) chunk_list = map (build_chunk d group tags) (seq 0 (dcd_dc d))).
  { rewrite (list_by_index (take (dcd_dc d) chunk_list)), length_take, Nat.min_l by done. apply map_ext_in. intros i [_ Hi]%in_seq.
    rewrite nth_firstn. replace (i <? dcd_dc d)%nat with true by (symmetry; apply Nat.ltb_lt; lia). apply Hn. lia. }
  rewrite E. match goal with |- (if ?b then _ else _) = _ => assert (b = true) as -> end.
  { apply forallb_forall. intros x (i & <- & [_ Hi]%in_seq)%in_map_iff. apply Nat.leb_le.
    destruct (chunk_layout _ _ _ Hok Hen i ltac:(lia)) as [_ ->]. rewrite (cz_prefix d Hz), (cz_fragment d Hz). lia. }
  f_equal. rewrite map_map. destruct (en_group _ _ _ Hen) as [Hgl _].
  rewrite (list_by_index (take (dcd_dc d) group)), length_take, Nat.min_l by lia. apply map_ext_in. intros i [_ Hi]%in_seq.
  destruct (chunk_parts _ _ _ Hok Hen i ltac:(lia)) as (_ & -> & _). rewrite nth_firstn.
  by replace (i <? dcd_dc d)%nat with true by (symmetry; apply Nat.ltb_lt; lia).
Qed.

Lemma Decode_lost visit v : (forall l, Permutation (visit l) l) ->
  exists v2, Decode d visit None (mkCoderSt lost v)
  = (Ok (concat (take (dcd_dc d) group)), mkCoderSt (if readable then lost else chunks d group tags) v2).
Proof.
  intros Hvis. pose proof (coder_ok_sizes d Hok) as Hz. pose proof (cz_cc d Hz) as Hcc. unfold Decode.
  pose proof (VerifyStripe_lost (mkCoderSt lost v) eq_refl) as Hv.
  assert (Hle : (dcd_dc d <=? kept keep)%nat = true) by by apply Nat.leb_le. rewrite Hle in Hv.
  rewrite (bind_run _ _ _ _ _ Hv). set (c1 := set_cst_dv ck_Reset _). cbn [fst snd].
  rewrite (bind_run (check _ _) _ c1 tt c1) by (unfold check; by rewrite Hle).
  destruct readable eqn:Hread.
  - exists (ck_Reset v). rewrite (bind_run _ _ c1 tt c1 eq_refl), (bind_run _ _ _ _ _ (eq_refl : gets _ _ = _)). cbn [cst_stripe c1 set_cst_dv].
    rewrite (stripe_segs lost); [done| |rewrite length_lost; lia]. intros i Hi. rewrite lost_nth by lia.
    unfold readable in Hread. rewrite forallb_forall in Hread. rewrite Hread; [done|]. apply in_seq. lia.
  - exists (ck_Reset (ck_Reset v)). rewrite (bind_run _ _ _ _ _ (Recover_lost visit c1 Hvis eq_refl)).
    rewrite (bind_run _ _ _ _ _ (eq_refl : gets _ _ = _)). cbn [cst_stripe c1 set_cst_dv cst_dv].
    rewrite (stripe_segs (chunks d group tags)); [done| |unfold chunks; rewrite length_map, length_seq; lia].
    intros i Hi. unfold chunks. apply nth_map_seq. lia.
Qed.
End Pass.

Lemma Decode_enough d name data stripe keep visit v :
  coder_ok d -> Encode d name data = Ok stripe -> length keep = length stripe -> (forall l, Permutation (visit l) l) ->
  (dcd_dc d <= kept keep)%nat -> (Decode d visit None (mkCoderSt (erase keep stripe) v)).1 = Ok (stripe_data d data).
Proof.
  intros Hok He Hk Hvis Hle. destruct (Encode_Ok _ _ _ _ Hok He) as (group & tags & Hen & -> & <-).
  unfold chunks in Hk. rewrite length_map, length_seq in Hk.
  destruct (Decode_lost d group tags keep Hok Hen Hk Hle visit v Hvis) as [v2 E]. unfold lost in E. by rewrite E.
Qed.

(** C23. Erasure coding, with the tags of [PDPV2], which all callers use ([coder_ok]; see
    [checksums_never_decode] for the others).  Of the chunks [Encode] makes of a stripe,
    any [DataCount] are enough for [Decode] to give the data back, padded with zeros to
    a whole stripe; with fewer it refuses. *)
Theorem decode_encode d name data stripe keep visit v :
  coder_ok d -> Encode d name data = Ok stripe -> length keep = length stripe -> (forall l, Permutation (visit l) l) ->
  if (dcd_dc d <=? kept keep)%nat
  then (Decode d visit None (mkCoderSt (erase keep stripe) v)).1 = Ok (stripe_data d data)
  else (Decode d visit None (mkCoderSt (erase keep stripe) v)).1 = Err "the recovered data is incorrect".
Proof.
  intros Hok He Hk Hvis. destruct (_ <=? _)%nat eqn:Hle; [apply Nat.leb_le in Hle; by apply (Decode_enough d name)|].
  destruct (Encode_Ok _ _ _ _ Hok He) as (group & tags & Hen & -> & _). unfold chunks in Hk. rewrite length_map, length_seq in Hk. unfold Decode.
  pose proof (VerifyStripe_lost d group tags keep Hok Hen Hk (mkCoderSt (lost d group tags keep) v) eq_refl) as Hv.
  rewrite Hle in Hv. unfold bind. unfold lost in Hv. by rewrite Hv.
Qed.

Lemma lost_long d group tags keep x : coder_ok d -> encoded d group tags -> length keep = dcd_chunkCount d ->
  In x (lost d group tags keep) -> (DefaultPrefixLen <= length x)%nat -> DeserializePrefix x = Some (dcd_Prefix d, DefaultPrefixLen).
Proof.
  intros Hok Hen Hk Hin Hx. apply (In_nth _ _ []) in Hin as (i & Hi & <-). rewrite length_lost in Hi by done. rewrite lost_nth in Hx |- * by done.
  destruct (nth i keep false); [|cbn in Hx; unfold DefaultPrefixLen in Hx; lia]. by apply chunk_parts.
Qed.
Lemma first_long d group tags keep : coder_ok d -> encoded d group tags -> length keep = dcd_chunkCount d -> (0 < kept keep)%nat ->
  exists x rest, filter (fun s => (DefaultPrefixLen <= length s)%nat) (lost d group tags keep) = x :: rest /\
    DeserializePrefix x = Some (dcd_Prefix d, DefaultPrefixLen).
Proof.
  intros Hok Hen Hk Hc. pose proof (coder_ok_sizes d Hok) as Hz.
  apply (proj2 (count_occ_In bool_dec keep true)), (In_nth _ _ false) in Hc as (i & Hi & Hb). rewrite Hk in Hi.
  pose proof (lost_nth d group tags keep Hk i Hi) as En. rewrite Hb in En. destruct (chunk_layout d group tags Hok Hen i Hi) as [_ Hl].
  set (long := filter _ _). assert (Hin : build_chunk d group tags i ∈ long).
  { apply list_elem_of_filter. split; [rewrite Hl, (cz_fragment d Hz); lia|]. rewrite <-En. apply list_elem_of_In, nth_In. by rewrite length_lost. }
  destruct long as [|x rest] eqn:E; [by apply not_elem_of_nil in Hin|]. exists x, rest. split; [done|].
  assert (Hx : x ∈ long) by (rewrite E; by left). apply list_elem_of_filter in Hx as [Hx Hxin].
  apply (lost_long d group tags keep); [done..|by apply list_elem_of_In|done].
Qed.

(** C24. Repair, with the tags of [PDPV2].  From any [DataCount] chunks of a stripe [Recover] makes the whole
    stripe again, byte for byte: prefixes, segments and all tags; so does [Repair],
    which takes the layout from the first chunk that is left. *)
Theorem recover_encode d name data stripe keep visit v :
  coder_ok d -> Encode d name data = Ok stripe -> length keep = length stripe -> (dcd_dc d <= kept keep)%nat ->
  (forall l, Permutation (visit l) l) ->
  exists v2, Recover d visit None (mkCoderSt (erase keep stripe) v) = (Ok tt, mkCoderSt stripe v2) /\
    (is_Some (ck_NewVerifier (DV := DV)) -> Repair visit (mkCoderSt (erase keep stripe) v) = (Ok tt, mkCoderSt stripe v2)).
Proof.
  intros Hok He Hk Hle Hvis. destruct (Encode_Ok _ _ _ _ Hok He) as (group & tags & Hen & -> & _).
  unfold chunks in Hk. rewrite length_map, length_seq in Hk. pose proof (coder_ok_sizes d Hok) as Hz.
  exists (ck_Reset v). pose proof (Recover_lost d group tags keep Hok Hen Hk Hle visit (mkCoderSt (lost d group tags keep) v) Hvis eq_refl) as Hr.
  split; [done|]. intros [v0 Hv0]. destruct (first_long d group tags keep Hok Hen Hk) as (x & rest & Ef & Ep); [pose proof (cz_dc d Hz); lia|].
  unfold Repair. rewrite (bind_run _ _ _ _ _ (eq_refl : gets _ _ = _)). cbn [cst_stripe]. unfold lost in Ef. rewrite Ef, Ep.
  unfold NewDataCoderWithPrefix. rewrite Hv0, (co_made d Hok). cbn [of_outcome]. exact Hr.
Qed.

(** The length that a chunk's own prefix asks for is the length it has. *)
Theorem encoded_length d name data stripe :
  coder_ok d -> p_Version (dcd_Prefix d) = 1 -> p_ParityCount (dcd_Prefix d) < 2^31 -> Encode d name data = Ok stripe -> Forall (fun x => VerifyChunkLength x = Ok tt) stripe.
Proof.
  intros Hok Hv Hpc He. destruct (Encode_Ok _ _ _ _ Hok He) as (group & tags & Hen & -> & _). pose proof (coder_ok_sizes d Hok) as Hz.
  apply Forall_map, Forall_forall. intros i Hi%list_elem_of_In%in_seq. cbn in Hi. destruct Hi as [_ Hi].
  destruct (chunk_parts d group tags Hok Hen i Hi) as (Hp & _). destruct (chunk_layout d group tags Hok Hen i Hi) as [_ Hl].
  destruct (coder_counts d Hok) as (Hdc & Hpc1 & Hdc2 & Etc). unfold VerifyChunkLength. rewrite Hl, Hp, Hv, (cz_fragment d Hz), (co_flag d Hok).
  change (code_TagLen PDPV2) with 48. change (1 =? 1) with true. replace (_ =? 0)%nat with false by (symmetry; apply Nat.eqb_neq; unfold DefaultPrefixLen; lia).
  replace (p_DataCount _ =? 0) with false by (symmetry; apply Z.eqb_neq; lia). cbn [negb].
  rewrite (u32_id (_ - 1)) by (unfold is_u32; lia).
  assert (Hq : 0 <= (p_ParityCount (dcd_Prefix d) - 1) / p_DataCount (dcd_Prefix d) <= p_ParityCount (dcd_Prefix d) - 1)
    by (split; [apply Z.div_pos; lia|apply Z.div_le_upper_bound; nia]).
  rewrite u32_id by (unfold is_u32; lia). match goal with |- context [?a =? ?b] => assert (E : a = b) end.
  { pose proof (cz_seg d Hz). unfold dcd_seg in *. rewrite Etc. lia. }
  by rewrite E, Z.eqb_refl.
Qed.

(** ** Coders with checksums *)

Lemma for_fold_const {B} (l : list nat) (f : nat -> nat -> M B nat) good (I : B -> Prop) c :
  (forall j g c, I c -> exists c2, f g j c = (Ok g, c2) /\ I c2) -> I c -> exists c2, for_fold l good f c = (Ok good, c2) /\ I c2.
Proof.
  intros Hf. revert c. induction l as [|j l IH]; intros c Hc; [by exists c|]. rewrite for_fold_cons.
  destruct (Hf j good c Hc) as (c2 & E & Hc2). rewrite (bind_run _ _ _ _ _ E). by apply IH.
Qed.

(** A coder whose tags are checksums decodes nothing: [VerifyStripe] takes the
    tag of every chunk for a point of the curve, which four bytes are not, and so
    it drops all of them. *)
Theorem checksums_never_decode d visit stripe v :
  preCompute (dcd_Prefix d) = Ok d -> p_TagFlag (dcd_Prefix d) = CRC32 ->
  (forall tag, ck_CheckTag tag = true -> length tag = 48%nat) ->
  exists e, (Decode d visit None (mkCoderSt stripe v)).1 = Err e.
Proof.
  intros Hm Hf Hck. unfold preCompute in Hm. destruct (_ || _) eqn:Hb; [done|]. apply orb_false_iff in Hb as [Hdc%Z.ltb_ge _].
  injection Hm as Ed. rewrite Hf in Ed. change (code_TagLen CRC32) with 4 in Ed.
  assert (E4 : dcd_tagSize d = 4%nat) by (by rewrite <-Ed).
  unfold Decode, VerifyStripe, bind, gets, check. cbn [cst_stripe]. destruct (dcd_dc d <=? length stripe)%nat; [|by eexists].
  cbn [ret modify]. destruct (for_fold_const (seq 0 (length stripe)) (verify_entry d None) 0%nat (fun _ => True) (set_cst_dv ck_Reset (mkCoderSt stripe v)))
    as (c2 & E & _); [|done|].
  - intros j g c _. unfold verify_entry, drop_chunk, bind, gets. destruct (negb _); [by eexists|].
    destruct (DeserializePrefix _) as [[pre n]|]; [|by eexists]. destruct (negb _); [by eexists|].
    destruct (ck_CheckTag _) eqn:Ht; [|by eexists]. apply Hck in Ht. unfold chunk_tag in Ht. rewrite E4 in Ht.
    unfold slice in Ht. rewrite length_take in Ht. lia.
  - unfold ret, modify. rewrite E. replace (dcd_dc d <=? 0)%nat with false by (symmetry; apply Nat.leb_gt; unfold dcd_dc; lia). by eexists.
Qed.
End CoderProps.
