(* ===== verification/CoderRuns.v ===== *)
(** * CoderRuns: a small code

    A Reed-Solomon code for two data and two parity shards over the field of four
    elements, and the code that repeats one shard, satisfy the laws of the library;
    with tags that are digests the coder runs on them.  The runs are the
    witnesses of the theorems about [lib/code]. *)

From Stdlib Require Import Btauto.
From S2P Require Import Prelude GoMonad SegmentID StateTypes Types Concrete Coder CoderProps.

(** ** Bytes as pairs over the field of four elements *)

Definition gf_add (x y : ascii) : ascii :=
  let 'Ascii a0 a1 a2 a3 a4 a5 a6 a7 := x in
  let 'Ascii b0 b1 b2 b3 b4 b5 b6 b7 := y in
  Ascii (xorb a0 b0) (xorb a1 b1) (xorb a2 b2) (xorb a3 b3) (xorb a4 b4) (xorb a5 b5) (xorb a6 b6) (xorb a7 b7).
(** Multiplication by the root of x^2 + x + 1. *)
Definition gf_mul (x : ascii) : ascii :=
  let 'Ascii b0 b1 b2 b3 b4 b5 b6 b7 := x in Ascii b4 b5 b6 b7 (xorb b0 b4) (xorb b1 b5) (xorb b2 b6) (xorb b3 b7).

Ltac gf := intros; repeat match goal with x : ascii |- _ => destruct x end; cbn; f_equal; btauto.
Lemma gf_from_p x y : gf_add x (gf_add x y) = y. Proof. gf. Qed.
Lemma gf_from_q x y : gf_mul (gf_mul (gf_add x (gf_add x (gf_mul y)))) = y. Proof. gf. Qed.
Lemma gf_p_from_b x y : gf_add y (gf_add x y) = x. Proof. gf. Qed.
Lemma gf_q_from_b x y : gf_add (gf_add x (gf_mul y)) (gf_mul y) = x. Proof. gf. Qed.
Lemma gf_pq x y : gf_mul (gf_add (gf_add x y) (gf_add x (gf_mul y))) = y. Proof. gf. Qed.
Lemma gf_p_b x y : gf_add (gf_add x y) y = x. Proof. gf. Qed.

Definition vadd : bytes -> bytes -> bytes := zip_with gf_add.
Definition vmul : bytes -> bytes := map gf_mul.

(** Equations on bytes hold on vectors of one length. *)
Lemma vector2 (f : bytes -> bytes -> bytes) (g : ascii -> ascii -> ascii) (h : ascii -> ascii -> ascii) a b :
  (forall a b, f a b = zip_with g a b) -> (forall x y, g x y = h x y) -> f a b = zip_with h a b.
Proof. intros -> Hg. revert b. induction a as [|x a IH]; intros [|y b]; try done. simpl. by rewrite Hg, IH. Qed.
Lemma zip_fst (a b : bytes) : length a = length b -> zip_with (fun x _ => x) a b = a.
Proof. revert b. induction a as [|x a IH]; intros [|y b] E; try done. injection E as E. simpl. by rewrite IH. Qed.
Lemma zip_snd (a b : bytes) : length a = length b -> zip_with (fun _ y => y) a b = b.
Proof. revert b. induction a as [|x a IH]; intros [|y b] E; try done. injection E as E. simpl. by rewrite IH. Qed.

Ltac vec := intros E; unfold vadd, vmul; revert E;
  match goal with |- length ?a = length ?b -> _ => revert b; induction a as [|? ? IH]; intros [|? ?] E; try done; injection E as E; cbn;
    f_equal; [first [apply gf_from_p|apply gf_from_q|apply gf_p_from_b|apply gf_q_from_b|apply gf_pq|apply gf_p_b]|by apply IH] end.
Lemma v_from_p a b : length a = length b -> vadd a (vadd a b) = b. Proof. vec. Qed.
Lemma v_from_q a b : length a = length b -> vmul (vmul (vadd a (vadd a (vmul b)))) = b. Proof. vec. Qed.
Lemma v_p_from_b a b : length a = length b -> vadd b (vadd a b) = a. Proof. vec. Qed.
Lemma v_q_from_b a b : length a = length b -> vadd (vadd a (vmul b)) (vmul b) = a. Proof. vec. Qed.
Lemma v_pq a b : length a = length b -> vmul (vadd (vadd a b) (vadd a (vmul b))) = b. Proof. vec. Qed.
Lemma v_p_b a b : length a = length b -> vadd (vadd a b) b = a. Proof. vec. Qed.

(** ** The two codes *)

Definition code22 (a b : bytes) : list bytes := [a; b; vadd a b; vadd a (vmul b)].
Definition some_missing (shards : list bytes) : bool := existsb (fun x => (length x =? 0)%nat) shards.
Definition all_missing (shards : list bytes) : bool := forallb (fun x => (length x =? 0)%nat) shards.

Definition solve22 (shards : list bytes) : option (bytes * bytes) :=
  match shards with
  | [(_ :: _) as a; (_ :: _) as b; _; _] => Some (a, b)
  | [(_ :: _) as a; []; (_ :: _) as p; _] => Some (a, vadd a p)
  | [(_ :: _) as a; []; []; (_ :: _) as q] => Some (a, vmul (vmul (vadd a q)))
  | [[]; (_ :: _) as b; (_ :: _) as p; _] => Some (vadd b p, b)
  | [[]; (_ :: _) as b; []; (_ :: _) as q] => Some (vadd q (vmul b), b)
  | [[]; []; (_ :: _) as p; (_ :: _) as q] => let b := vmul (vadd p q) in Some (vadd p b, b)
  | _ => None
  end.

Definition first_shard (shards : list bytes) : bytes := default [] (head (filter (fun x => x <> []) shards)).

#[export] Instance small_rs : ReedSolomon := {
  rs_New dc pc := ((dc =? 1) && negb (pc =? 0) || (dc =? 2) && (pc =? 2))%nat;
  rs_Encode dc pc shards :=
    if (dc =? 1)%nat then Some (replicate (S pc) (nth 0 shards []))
    else Some (code22 (nth 0 shards []) (nth 1 shards []));
  rs_Verify dc pc shards :=
    if all_missing shards then Err ErrShardNoData
    else if some_missing shards then Err "shard sizes do not match"
    else Ok (bool_decide (shards = if (dc =? 1)%nat then replicate (S pc) (nth 0 shards []) else code22 (nth 0 shards []) (nth 1 shards [])));
  rs_Reconstruct dc pc shards :=
    if (dc =? 1)%nat then Some (replicate (S pc) (first_shard shards))
    else match solve22 shards with Some (a, b) => Some (code22 a b) | None => None end;
}.

Definition small_parity (dc pc : nat) (data : list bytes) : list bytes :=
  if (dc =? 1)%nat then replicate pc (nth 0 data []) else drop 2 (code22 (nth 0 data []) (nth 1 data [])).

(** The two shapes a codeword has. *)
Lemma small_cases dc pc data n : rs_New dc pc = true -> length data = dc -> Forall (fun x => length x = n) data ->
  (exists x, dc = 1%nat /\ (0 < pc)%nat /\ data = [x] /\ length x = n /\ small_parity dc pc data = replicate pc x) \/
  (exists a b, dc = 2%nat /\ pc = 2%nat /\ data = [a; b] /\ length a = n /\ length b = n /\ small_parity dc pc data = drop 2 (code22 a b)).
Proof.
  intros Hnew Hl Hw. cbn in Hnew. apply orb_true_iff in Hnew as [Hnew|Hnew]; apply andb_true_iff in Hnew as [E1 E2].
  - apply Nat.eqb_eq in E1. apply negb_true_iff, Nat.eqb_neq in E2. destruct data as [|x [|]]; simpl in Hl; try lia.
    left. exists x. inversion Hw; subst. split_and!; [done|lia|done..].
  - apply Nat.eqb_eq in E1, E2. destruct data as [|a [|b [|]]]; simpl in Hl; try lia.
    right. exists a, b. inversion Hw as [|? ? Ha Hw2]; inversion Hw2; subst. by split_and!.
Qed.

Lemma length_vadd a b n : length a = n -> length b = n -> length (vadd a b) = n.
Proof. intros. unfold vadd. rewrite length_zip_with. lia. Qed.
Lemma length_vmul a : length (vmul a) = length a.
Proof. apply length_map. Qed.

Lemma Forall_code22 a b n : length a = n -> length b = n -> Forall (fun x => length x = n) (code22 a b).
Proof. intros. repeat constructor; try done; [by apply length_vadd|]. apply length_vadd; [done|]. by rewrite length_vmul. Qed.

Lemma all_missing_kept keep l n : (0 < n)%nat -> Forall (fun x => length x = n) l -> length keep = length l ->
  all_missing (erase keep l) = (kept keep =? 0)%nat /\ some_missing (erase keep l) = (kept keep <? length l)%nat.
Proof.
  intros Hn Hw. revert keep. induction Hw as [|x l Hx Hw IH]; intros [|b keep] E; try done. injection E as E.
  destruct (IH keep E) as [E1 E2]. unfold all_missing, some_missing in *. pose proof (kept_le keep) as Hle.
  unfold erase in *. cbn [zip_with forallb existsb length]. rewrite E1, E2. unfold kept in *. destruct b; cbn [count_occ bool_dec].
  - rewrite Hx. replace (n =? 0)%nat with false by (symmetry; apply Nat.eqb_neq; lia). simpl. split; [done|].
    destruct (Nat.ltb_spec (count_occ bool_dec keep true) (length l)), (Nat.ltb_spec (S (count_occ bool_dec keep true)) (S (length l))); done || lia.
  - simpl. split; [done|]. symmetry. apply Nat.ltb_lt. lia.
Qed.

Lemma solve22_ok a b n keep : (0 < n)%nat -> length a = n -> length b = n -> length keep = 4%nat -> (2 <= kept keep)%nat ->
  solve22 (erase keep (code22 a b)) = Some (a, b).
Proof.
  intros Hn Ha Hb Hk Hc. destruct keep as [|k0 [|k1 [|k2 [|k3 [|]]]]]; try done.
  pose proof (length_vadd a b n Ha Hb) as Hp. assert (Hq : length (vadd a (vmul b)) = n) by (apply length_vadd; by rewrite ?length_vmul).
  unfold code22, erase. cbn [zip_with].
  pose proof (v_from_p a b ltac:(congruence)) as F1. pose proof (v_from_q a b ltac:(congruence)) as F2.
  pose proof (v_p_from_b a b ltac:(congruence)) as F3. pose proof (v_q_from_b a b ltac:(congruence)) as F4.
  pose proof (v_pq a b ltac:(congruence)) as F5. pose proof (v_p_b a b ltac:(congruence)) as F6.
  set (p := vadd a b) in *. set (q := vadd a (vmul b)) in *. clearbody p q.
  destruct a as [|ca la], b as [|cb lb], p as [|cp lp], q as [|cq lq]; simpl in Ha, Hb, Hp, Hq; try lia.
  destruct k0, k1, k2, k3; unfold kept in Hc; simpl in Hc; try lia; cbn [solve22]; by rewrite ?F1, ?F2, ?F3, ?F4, ?F5, ?F6.
Qed.

Lemma first_shard_ok keep x n : (0 < n)%nat -> length x = n -> (1 <= kept keep)%nat -> first_shard (erase keep (replicate (length keep) x)) = x.
Proof.
  intros Hn Hx. rewrite erase_replicate. unfold first_shard. induction keep as [|[] keep IH]; cbn [map]; [unfold kept; simpl; lia|..].
  - intros _. rewrite filter_cons_True; [done|]. intros ->. simpl in Hx. lia.
  - intros Hc. rewrite filter_cons_False by (intros E; by apply E). apply IH. unfold kept in *. simpl in Hc. exact Hc.
Qed.

#[export] Instance small_rs_laws : RSLaws.
Proof.
  exists small_parity.
  - intros dc pc data n Hnew Hl Hw. destruct (small_cases _ _ _ _ Hnew Hl Hw) as [(x & -> & _ & -> & Hx & ->)|(a & b & -> & -> & -> & Ha & Hb & ->)].
    + split; [apply length_replicate|by apply Forall_replicate].
    + split; [done|]. apply Forall_drop. by apply Forall_code22.
  - intros dc pc data room n Hnew Hl Hr _ [Hw _]%Forall_app.
    destruct (small_cases _ _ _ _ Hnew Hl Hw) as [(x & -> & _ & -> & _ & ->)|(a & b & -> & -> & -> & _ & _ & ->)]; done.
  - intros dc pc data n Hnew Hl Hn Hw. pose proof (all_missing_kept (replicate (dc + pc) true)) as Hm.
    assert (Hkall : forall m, kept (replicate m true) = m) by (intros m; induction m as [|m IH]; [done|unfold kept in *; simpl; by rewrite IH]).
    destruct (small_cases _ _ _ _ Hnew Hl Hw) as [(x & -> & Hpc & -> & Hx & ->)|(a & b & -> & -> & -> & Ha & Hb & ->)].
    + destruct (Hm (replicate (S pc) x) n Hn ltac:(by apply Forall_replicate) ltac:(by rewrite !length_replicate)) as [E1 E2].
      rewrite erase_all in E1, E2 by (rewrite ?Hkall, !length_replicate; done). rewrite Hkall in E1, E2. rewrite length_replicate in E2.
      change ([x] ++ replicate pc x) with (replicate (S pc) x). cbn [rs_Verify small_rs]. rewrite E1, E2. simpl Nat.eqb. rewrite Nat.ltb_irrefl.
      cbv iota. cbn [nth replicate]. by rewrite bool_decide_true.
    + destruct (Hm (code22 a b) n Hn ltac:(by apply Forall_code22) eq_refl) as [E1 E2].
      rewrite erase_all in E1, E2 by done. cbn [rs_Verify small_rs]. change ([a; b] ++ drop 2 (code22 a b)) with (code22 a b). rewrite E1, E2.
      change (kept (replicate (2 + 2) true)) with 4%nat. cbn -[code22]. by rewrite bool_decide_true.
  - intros dc pc data n keep Hnew Hl Hn Hw Hk Hc Hlt.
    exists "shard sizes do not match". split; [|done]. cbn [rs_Verify small_rs].
    destruct (small_cases _ _ _ _ Hnew Hl Hw) as [(x & -> & Hpc & -> & Hx & ->)|(a & b & -> & -> & -> & Ha & Hb & ->)].
    + change ([x] ++ replicate pc x) with (replicate (S pc) x).
      destruct (all_missing_kept keep (replicate (S pc) x) n Hn ltac:(by apply Forall_replicate) ltac:(by rewrite length_replicate)) as [E1 E2].
      rewrite E1, E2, length_replicate. replace (kept keep =? 0)%nat with false by (symmetry; apply Nat.eqb_neq; lia).
      by replace (kept keep <? S pc)%nat with true by (symmetry; apply Nat.ltb_lt; lia).
    + change ([a; b] ++ drop 2 (code22 a b)) with (code22 a b).
      destruct (all_missing_kept keep (code22 a b) n Hn ltac:(by apply Forall_code22) ltac:(done)) as [E1 E2].
      rewrite E1, E2. replace (kept keep =? 0)%nat with false by (symmetry; apply Nat.eqb_neq; lia).
      by replace (kept keep <? length (code22 a b))%nat with true by (symmetry; apply Nat.ltb_lt; simpl; lia).
  - intros dc pc data n keep Hnew Hl Hn Hw Hk Hc.
    destruct (small_cases _ _ _ _ Hnew Hl Hw) as [(x & -> & Hpc & -> & Hx & ->)|(a & b & -> & -> & -> & Ha & Hb & ->)].
    + change ([x] ++ replicate pc x) with (replicate (S pc) x). cbn [rs_Reconstruct small_rs]. simpl Nat.eqb. cbv iota.
      change (1 + pc)%nat with (S pc) in Hk. rewrite <-Hk. by rewrite (first_shard_ok keep x n).
    + change ([a; b] ++ drop 2 (code22 a b)) with (code22 a b). cbn [rs_Reconstruct small_rs]. simpl Nat.eqb. cbv iota.
      by rewrite (solve22_ok a b n keep).
Defined.

(** ** Keys *)

#[export] Instance small_keys : CoderKeys (list (bytes * bytes)) := {
  ck_GenTag index data := Some (toy_digest 48 (index ++ data));
  ck_VerifyTag index data tag := Some (bool_decide (tag = toy_digest 48 (index ++ data)));
  ck_CheckTag tag := (length tag =? 48)%nat;
  ck_NewVerifier := Some [];
  ck_Add index data tag := modify (fun v => v ++ [(tag, toy_digest 48 (index ++ data))]);
  ck_Result v := Ok (forallb (fun p => bool_decide (p.1 = p.2)) v);
  ck_Reset _ := [];
}.
#[export] Instance small_key_laws : KeyLaws (DV := list (bytes * bytes)).
Proof. constructor. intros index data tag [= <-]. unfold toy_digest. rewrite length_put_be. split; [done|]. cbn. by rewrite length_put_be. Qed.

(** ** Runs *)

Definition copy_prefix : Prefix := mkPrefix 1 MulPolicy 1 1 PDPV2 4.
Definition copy_coder : DataCoder (list (bytes * bytes)) := mkDataCoder copy_prefix 2 24 2 48 124.
Definition run_name : bytes := replicate SEGMENTID_LEN (byte_of_Z 7).
Definition run_data : bytes := bytes_of_string "abc".
Definition run_stripe : list bytes := Eval vm_compute in match Encode copy_coder run_name run_data with Ok stripe => stripe | _ => [] end.

Lemma copy_coder_ok : coder_ok copy_coder.
Proof. split; [reflexivity|cbv -[Z.lt Z.le Z.pow]; lia|reflexivity..|]. left. split; reflexivity. Qed.

Lemma decode_encode_witness : (Decode copy_coder id None (mkCoderSt (erase [false; true] run_stripe) [])).1 = Ok (bytes_of_string "abc" ++ zeros 1) /\
  (Decode copy_coder id None (mkCoderSt (erase [false; false] run_stripe) [])).1 = Err "the recovered data is incorrect".
Proof.
  split.
  - pose proof (decode_encode copy_coder run_name run_data run_stripe [false; true] id [] copy_coder_ok) as H.
    apply H; [vm_compute; reflexivity|reflexivity|reflexivity].
  - pose proof (decode_encode copy_coder run_name run_data run_stripe [false; false] id [] copy_coder_ok) as H.
    apply H; [vm_compute; reflexivity|reflexivity|reflexivity].
Defined.

Lemma recover_encode_witness : exists v, Recover copy_coder id None (mkCoderSt (erase [false; true] run_stripe) []) = (Ok tt, mkCoderSt run_stripe v).
Proof.
  pose proof (recover_encode copy_coder run_name run_data run_stripe [false; true] id [] copy_coder_ok) as H.
  destruct H as (v & E & _); [vm_compute; reflexivity|reflexivity|apply Nat.leb_le; reflexivity|reflexivity|]. by exists v.
Defined.

Lemma encoded_length_witness : Forall (fun x => VerifyChunkLength x = Ok tt) run_stripe.
Proof. apply (encoded_length copy_coder run_name run_data run_stripe copy_coder_ok); [reflexivity|cbn; lia|vm_compute; reflexivity]. Defined.

(** The chunks of a coder with checksums: nothing of the stripe is missing. *)
Definition sum_coder : DataCoder (list (bytes * bytes)) := mkDataCoder (mkPrefix 1 MulPolicy 1 1 CRC32 4) 2 24 2 4 36.
Definition sum_stripe : list bytes := Eval vm_compute in match Encode sum_coder run_name run_data with Ok stripe => stripe | _ => [] end.

Lemma checksums_never_decode_witness : Encode sum_coder run_name run_data = Ok sum_stripe /\
  exists e, (Decode sum_coder id None (mkCoderSt sum_stripe [])).1 = Err e.
Proof.
  split; [vm_compute; reflexivity|]. apply checksums_never_decode; [reflexivity|reflexivity|]. intros tag Ht. by apply Nat.eqb_eq in Ht.
Defined.
