(* ===== verification/UserJobs.v ===== *)
(** * UserJobs: which chunks have been handed out, sent and confirmed

    The segment jobs of [service/user/order/data.go] and [common.go].  A job is a
    run of stripes of a bucket that the file system has cut and stored; for each
    of its chunks the order manager keeps three bits, handed out to a provider,
    sent, and confirmed by the data chain.  One goroutine ([runSegSched]) takes the
    jobs from four channels and hands out what is left on a timer. *)

From S2P Require Import Prelude GoMonad Codec Keys Segments Types Tx Fr StateTypes UserOrder UserSend.

(** The rest of the bit set library: [New(n)], [Clear], [Count]. *)
Class SegBits `{!BitSetOps} := {
  bs_sized : Z -> bitset;
  bs_clear : Z -> bitset -> bitset;
  bs_count : bitset -> Z;
}.

(** ** common.go *)

Record segJobStateStored := mkSegJobStateStored {
  sjs_SegJob : SegJob; sjs_Dispatch : list Z; sjs_Done : list Z; sjs_Confirm : list Z }.

Section UserJobs.
Context `{!StateEnv, !SegBits, !Codec SegJob, !Codec segJobStateStored}.

Record segJob := mkSegJobState { sg_SegJob : SegJob; sg_dispatch : bitset; sg_done : bitset; sg_confirm : bitset }.
Definition set_sg_dispatch f (s : segJob) := mkSegJobState (sg_SegJob s) (f (sg_dispatch s)) (sg_done s) (sg_confirm s).
Definition set_sg_done f (s : segJob) := mkSegJobState (sg_SegJob s) (sg_dispatch s) (f (sg_done s)) (sg_confirm s).
Definition set_sg_confirm f (s : segJob) := mkSegJobState (sg_SegJob s) (sg_dispatch s) (sg_done s) (f (sg_confirm s)).

Definition sg_stored (s : segJob) : segJobStateStored :=
  mkSegJobStateStored (sg_SegJob s) (bs_bytes (sg_dispatch s)) (bs_bytes (sg_done s)) (bs_bytes (sg_confirm s)).
Definition segJob_Serialize (s : segJob) : option bytes := marshal (sg_stored s).
Definition segJob_Deserialize (b : bytes) : option segJob :=
  match decode (A := segJobStateStored) b with
  | Some x => Some (mkSegJobState (sjs_SegJob x) (bs_from (sjs_Dispatch x)) (bs_from (sjs_Done x)) (bs_from (sjs_Confirm x)))
  | None => None
  end.

(** ** The part of the manager that the goroutine works on *)

Definition jobKey : Type := Z * Z.   (** bucketID, jobID *)

(** [m.segs], [m.ds], the providers of each bucket, the instances, and what is sent
    on [m.segRedoChan]. *)
Record jobsSt := mkJobsSt {
  js_segs : gmap jobKey segJob; js_ds : gmap bytes bytes; js_bucMap : gmap Z (list Z);
  js_insts : gmap Z proInst; js_redo : list SegJob }.
Definition set_js_segs f (s : jobsSt) := mkJobsSt (f (js_segs s)) (js_ds s) (js_bucMap s) (js_insts s) (js_redo s).
Definition set_js_ds f (s : jobsSt) := mkJobsSt (js_segs s) (f (js_ds s)) (js_bucMap s) (js_insts s) (js_redo s).
Definition set_js_insts f (s : jobsSt) := mkJobsSt (js_segs s) (js_ds s) (js_bucMap s) (f (js_insts s)) (js_redo s).
Definition set_js_redo f (s : jobsSt) := mkJobsSt (js_segs s) (js_ds s) (js_bucMap s) (js_insts s) (f (js_redo s)).

Section Manager.
Context (localID : Z).
Implicit Types (seg : segJob) (sj : SegJob) (jk : jobKey) (st : jobsSt).

Definition OpJobsKey (bid op : Z) : bytes := NewKey [KMetaType pb.MetaType_LFS_OpJobsKey; KUint64 localID; KUint64 bid; KUint64 op].
Definition OpStateKey (bid op : Z) : bytes := NewKey [KMetaType pb.MetaType_LFS_OpStateKey; KUint64 localID; KUint64 bid; KUint64 op].
Definition OpCountKey (bid : Z) : bytes := NewKey [KMetaType pb.MetaType_LFS_OpCountKey; KUint64 localID; KUint64 bid].

(** uint(sj.Length) * uint(sj.ChunkID) *)
Definition job_cnt sj : Z := u64 (sj_Length sj * sj_ChunkID sj).

Definition loadSegJob_ds (ds : gmap bytes bytes) (bucketID opID : Z) : outcome segJob :=
  match ds !! OpJobsKey bucketID opID with
  | None => Err "job"
  | Some data =>
      match decode (A := SegJob) data with
      | None => Err "job"
      | Some sj =>
          let fresh := mkSegJobState sj (bs_sized (job_cnt sj)) (bs_sized (job_cnt sj)) (bs_sized (job_cnt sj)) in
          match ds !! OpStateKey bucketID opID with
          | Some ((_ :: _) as data) =>
              match segJob_Deserialize data with
              | Some seg => Ok (set_sg_dispatch (fun _ => sg_done seg) seg)
              | None => Ok fresh
              end
          | _ => Ok fresh
          end
      end
  end.
Definition loadSegJob (bucketID opID : Z) : M jobsSt segJob :=
  let! ds := gets js_ds in of_outcome (loadSegJob_ds ds bucketID opID).

(** total, handed out, sent, confirmed *)
Definition GetSegJogState_ds (ds : gmap bytes bytes) (bucketID opID : Z) : Z * Z * Z * Z :=
  match loadSegJob_ds ds bucketID opID with
  | Ok seg => (i64 (sj_Length (sg_SegJob seg) * sj_ChunkID (sg_SegJob seg)), bs_count (sg_dispatch seg), bs_count (sg_done seg), bs_count (sg_confirm seg))
  | _ => (0, 0, 0, 0)
  end.

Definition seg_save seg : M jobsSt unit :=
  match segJob_Serialize seg with
  | Some data => modify (set_js_ds <[OpStateKey (sj_BucketID (sg_SegJob seg)) (sj_JobID (sg_SegJob seg)) := data]>)
  | None => ret tt
  end.
Definition seg_put jk seg : M jobsSt unit := modify (set_js_segs <[jk := seg]>).

(** The entry of a job, loaded when it is not there; the log line of a failed load
    reads a field of the missing entry. *)
Definition seg_entry sj : M jobsSt segJob :=
  let jk := (sj_BucketID sj, sj_JobID sj) in
  let! segs := gets js_segs in
  match segs !! jk with
  | Some seg => ret seg
  | None =>
      let! r := try_err (loadSegJob (sj_BucketID sj) (sj_JobID sj)) in
      match r with
      | Some seg => do! seg_put jk seg; ret seg
      | None => panic "nil pointer dereference"
      end
  end.

Definition addSegJob sj : M jobsSt unit :=
  let! segs := gets js_segs in
  match segs !! (sj_BucketID sj, sj_JobID sj) with
  | Some _ => ret tt
  | None =>
      let! seg := seg_entry sj in
      match segJob_Serialize seg with
      | Some data => modify (set_js_ds <[OpStateKey (sj_BucketID sj) (sj_JobID sj) := data]>)
      | None => ret tt
      end
  end.

(** The bit of stripe [sj.Start+i] of the chunk of [sj]. *)
Definition bit_of seg sj (i : Z) : Z :=
  u64 (u64 (u64 (sj_Start sj + i - sj_Start (sg_SegJob seg)) * sj_ChunkID (sg_SegJob seg)) + sj_ChunkID sj).

Definition finish_bit sj seg (i : Z) : segJob := set_sg_done (bs_set (bit_of seg sj i)) seg.
Definition confirm_bit sj seg (i : Z) : segJob :=
  let id := bit_of seg sj i in
  let seg := if bs_test (sg_done seg) id then seg else set_sg_done (bs_set id) seg in
  set_sg_confirm (bs_set id) seg.
Definition redo_bit sj seg (i : Z) : segJob :=
  let id := bit_of seg sj i in
  if bs_test (sg_confirm seg) id then set_sg_done (bs_set id) (set_sg_dispatch (bs_set id) seg)
  else set_sg_done (bs_clear id) (set_sg_dispatch (bs_clear id) seg).

(** [for i := 0; i < sj.Length; i++]; the entry is updated in place. *)
Definition each_bit (f : SegJob -> segJob -> Z -> segJob) sj seg : segJob := foldl (f sj) seg (seqZ 0 (sj_Length sj)).
Definition mark (f : SegJob -> segJob -> Z -> segJob) sj : M jobsSt segJob :=
  let! seg := seg_entry sj in
  let seg := each_bit f sj seg in
  do! seg_put (sj_BucketID sj, sj_JobID sj) seg;
  ret seg.

Definition finishSegJob sj : M jobsSt unit := let! seg := mark finish_bit sj in seg_save seg.

(** All chunks are sent and confirmed: the job leaves the memory, and its number is
    where the next start of the node begins to look. *)
Definition confirm_all sj seg : M jobsSt unit :=
  let cnt := job_cnt (sg_SegJob seg) in
  if (bs_count (sg_done seg) =? cnt) && (bs_count (sg_confirm seg) =? cnt) then
    let! ds := gets js_ds in
    match ds !! OpJobsKey (sj_BucketID sj) (sj_JobID sj) with
    | None => ret tt
    | Some val =>
        match decode (A := SegJob) val with
        | None => ret tt
        | Some nsj =>
            if job_cnt nsj =? cnt then
              do! modify (set_js_segs (delete (sj_BucketID sj, sj_JobID sj)));
              modify (set_js_ds <[OpCountKey (sj_BucketID (sg_SegJob seg)) := put_be 8 (sj_JobID (sg_SegJob seg))]>)
            else ret tt
        end
    end
  else ret tt.

Definition confirmSegJob sj : M jobsSt unit :=
  let! seg := mark confirm_bit sj in
  match segJob_Serialize seg with
  | None => ret tt
  | Some _ => do! seg_save seg; confirm_all sj seg
  end.

Definition redoSegJob sj : M jobsSt unit := let! seg := mark redo_bit sj in seg_save seg.

(** ** dispatch *)

Definition inst_addSeg sj (o : proInst) : option proInst :=
  match addSeg sj (mkUsrCtx o ∅ [] [] [] [] tt) with
  | (Ok _, c) => Some (uc_pin c)
  | _ => None
  end.

(** Chunk [i] of stripe [s] to provider [pid]. *)
Definition dispatch_chunk (pid i : Z) (acc : segJob * gmap Z proInst) (s : Z) : segJob * gmap Z proInst :=
  let '(seg, insts) := acc in
  let job := sg_SegJob seg in
  let id := u64 (u64 (s * sj_ChunkID job) + i) in
  if bs_test (sg_dispatch seg) id then acc
  else
    match insts !! pid with
    | None => acc
    | Some o =>
        match inst_addSeg (mkSegJob (sj_JobID job) (sj_BucketID job) (u64 (sj_Start job + s)) 1 (u32 i)) o with
        | Some o => (set_sg_dispatch (bs_set id) seg, <[pid := o]> insts)
        | None => acc
        end
    end.

(** The providers of the bucket in turn; a chunk without one has all ones. *)
Definition dispatch_pro (acc : segJob * gmap Z proInst) (ip : nat * Z) : segJob * gmap Z proInst :=
  if ip.2 =? 2^64 - 1 then acc
  else
    match acc.2 !! ip.2 with
    | None => acc
    | Some _ => foldl (dispatch_chunk ip.2 (Z.of_nat ip.1)) acc (seqZ 0 (sj_Length (sg_SegJob acc.1)))
    end.

Definition dispatch_seg jk : M jobsSt unit :=
  let! segs := gets js_segs in
  match segs !! jk with
  | None => ret tt
  | Some seg =>
      if bs_count (sg_dispatch seg) =? job_cnt (sg_SegJob seg) then ret tt
      else
        let! bucMap := gets js_bucMap in
        match bucMap !! sj_BucketID (sg_SegJob seg) with
        | None | Some [] => ret tt
        | Some pros =>
            let! insts := gets js_insts in
            let '(seg, insts) := foldl dispatch_pro (seg, insts) (zip (seq 0 (length pros)) pros) in
            do! modify (set_js_insts (fun _ => insts));
            do! seg_put jk seg;
            seg_save seg
        end
  end.

(** [order]: the jobs the map yields before the eight seconds are over. *)
Definition dispatch (order : list jobKey) : M jobsSt unit := for_each order dispatch_seg.

(** ** runSegSched, loadUnfinishedSegJobs *)

Inductive segEvent :=
  | EvAdd (sj : SegJob)
  | EvRedo (sj : SegJob)
  | EvSent (sj : SegJob)
  | EvConfirm (sj : SegJob)
  | EvTick (order : list jobKey).

Definition runSegSched (e : segEvent) : M jobsSt unit :=
  match e with
  | EvAdd sj => addSegJob sj
  | EvRedo sj => redoSegJob sj
  | EvSent sj => finishSegJob sj
  | EvConfirm sj => confirmSegJob sj
  | EvTick order => dispatch order
  end.

(** [recovery]: MEFS_RECOVERY_MODE is set. *)
Definition unfinished_from (recovery : bool) (ds : gmap bytes bytes) (bucketID : Z) : Z :=
  if recovery then 0
  else match ds !! OpCountKey bucketID with
       | Some val => if (8 <=? length val)%nat then u64 (get_be (take 8 val) + 1) else 0
       | None => 0
       end.

Definition unfinished_job (bucketID : Z) (i : Z) : M jobsSt unit :=
  let! r := try_err (loadSegJob bucketID i) in
  match r with
  | None => ret tt
  | Some seg =>
      if bs_count (sg_confirm seg) =? job_cnt (sg_SegJob seg) then ret tt
      else modify (set_js_redo (fun l => l ++ [sg_SegJob seg]))
  end.

Definition loadUnfinishedSegJobs (recovery : bool) (bucketID opID : Z) : M jobsSt unit :=
  let! ds := gets js_ds in
  let from := unfinished_from recovery ds bucketID in
  for_each (seqZ from (opID - from)) (unfinished_job bucketID).
End Manager.
End UserJobs.
