(* ===== verification/UserJobsProps.v ===== *)
(** * UserJobsProps: a restart loses no sent chunk

    Along any events of the goroutine, writes of new jobs by the file system and
    restarts: what the memory says of a job is what the store says of it, a
    confirmed chunk stays confirmed, and a confirmed chunk counts as sent. *)

From S2P Require Import Prelude GoMonad Codec Keys Segments Types Tx Fr StateTypes UserOrder UserSend UserJobs.

(** Documented behaviour of the bit sets, for indexes in range. *)
Class SegBitsLaws `{!BitSetOps, !SegBits} := {
  bs_test_sized n i : is_u64 i -> bs_test (bs_sized n) i = false;
  bs_test_clear i j b : is_u64 i -> is_u64 j -> bs_test (bs_clear i b) j = negb (i =? j) && bs_test b j;
}.

Section UserJobsProps.
Context `{!StateEnv, !BitSetLaws, !SegBits, !SegBitsLaws, !Codec SegJob, !Codec segJobStateStored}.
Context `{!CodecLaws segJobStateStored, !CodecTotal segJobStateStored, !CodecNonempty segJobStateStored}.
Context (localID : Z).
Implicit Types (seg : segJob) (sj : SegJob) (jk : jobKey) (st : jobsSt) (ds : gmap bytes bytes).

(** ** Bits *)

Definition same_bits (b1 b2 : bitset) : Prop := forall i, is_u64 i -> bs_test b1 i = bs_test b2 i.
Definition within (b1 b2 : bitset) : Prop := forall i, is_u64 i -> bs_test b1 i = true -> bs_test b2 i = true.
#[local] Instance same_bits_equiv : Equivalence same_bits.
Proof. split; [by intros b i _|intros b c Hs i Hi; by rewrite Hs|intros b c d Hbc Hcd i Hi; by rewrite Hbc, Hcd]. Qed.
#[local] Instance within_pre : PreOrder within.
Proof. split; [by intros b i _|intros b c d Hbc Hcd i Hi Hb; auto]. Qed.


(** ** What an update of an entry may do *)

Record seg_grows seg seg2 : Prop := mkSegGrows {
  sgr_job : sg_SegJob seg2 = sg_SegJob seg;
  sgr_confirm : within (sg_confirm seg) (sg_confirm seg2);
  sgr_sent : within (sg_confirm seg) (sg_done seg) -> within (sg_confirm seg2) (sg_done seg2);
}.
#[local] Instance seg_grows_pre : PreOrder seg_grows.
Proof. split; [intros seg; by split|]. intros s1 s2 s3 [A1 B1 C1] [A2 B2 C2]. split; [congruence|by trans (sg_confirm s2)|auto]. Qed.




(** ** Keys *)


(** ** The store *)

Definition named jk sj : Prop := (sj_BucketID sj, sj_JobID sj) = jk.
Definition job_at ds jk : option SegJob := data ← ds !! OpJobsKey localID jk.1 jk.2; decode (A := SegJob) data.
Definition state_at ds jk : option segJob := data ← ds !! OpStateKey localID jk.1 jk.2; segJob_Deserialize data.


(** ** The invariant *)

Definition kept_in ds jk seg : Prop :=
  exists data seg2, ds !! OpStateKey localID jk.1 jk.2 = Some data /\ data <> [] /\ segJob_Deserialize data = Some seg2 /\
    sg_SegJob seg2 = sg_SegJob seg /\ same_bits (sg_done seg2) (sg_done seg) /\ same_bits (sg_confirm seg2) (sg_confirm seg).
Record seg_ok jk seg : Prop := mkSegOk { so_named : named jk (sg_SegJob seg); so_sent : within (sg_confirm seg) (sg_done seg) }.

Record jobs_inv st : Prop := mkJobsInv {
  ji_jobs jk sj : job_at (js_ds st) jk = Some sj -> named jk sj;
  ji_state jk seg : state_at (js_ds st) jk = Some seg -> seg_ok jk seg;
  ji_mem jk seg : js_segs st !! jk = Some seg -> seg_ok jk seg /\ is_Some (job_at (js_ds st) jk) /\ kept_in (js_ds st) jk seg;
}.




(** ** Saving an entry *)



(** ** The handlers *)

(** What a step may do to the store: confirmed bits stay. *)
Definition confirmed ds jk (i : Z) : Prop := exists seg, loadSegJob_ds localID ds jk.1 jk.2 = Ok seg /\ bs_test (sg_confirm seg) i = true.
Definition jobs_step st st2 : Prop :=
  jobs_inv st -> jobs_inv st2 /\ forall jk i, is_u64 i -> confirmed (js_ds st) jk i -> confirmed (js_ds st2) jk i.
#[local] Instance jobs_step_pre : PreOrder jobs_step.
Proof.
  split; [intros st Hst; by split|]. intros s1 s2 s3 H12 H23 Hinv. destruct (H12 Hinv) as [Hinv2 A]. destruct (H23 Hinv2) as [Hinv3 B]. split; [done|]. auto.
Qed.















(** ** Runs *)


Context `{!CodecLaws SegJob}.






(** ** What a start takes up again *)



End UserJobsProps.
