(* ===== verification/UserJobsRuns.v ===== *)
(** * UserJobsRuns: jobs and a restart

    Runs of the job bookkeeping with concrete encodings: the witnesses of the
    theorems about restarts. *)

From S2P Require Import Prelude GoMonad Codec Keys Segments Types Tx Fr StateTypes UserOrder UserSend UserJobs UserJobsProps Concrete UserRuns.

#[export] Instance wire_segJobStateStored : Wire segJobStateStored.
Proof.
  refine (wire_iso (fun x => (sjs_SegJob x, sjs_Dispatch x, sjs_Done x, sjs_Confirm x))
    (fun '(a, b, c, d) => mkSegJobStateStored a b c d) _). by intros [].
Defined.

#[export] Instance segJobStateStored_nonempty : CodecNonempty segJobStateStored.
Proof. intros [[i b st l c] d0 d1 d2] bs [= <-]. simpl. by destruct i as [|p|p]. Qed.

(** The number of bits set among the first ones. *)
Definition popcount (n : nat) (x : Z) : Z := Z.of_nat (length (filter (fun i => Z.testbit x (Z.of_nat i) = true) (seq 0 n))).
#[export] Instance toy_segbits : SegBits := { bs_sized _ := 0 : bitset; bs_clear i b := Z.clearbit b i; bs_count b := popcount 64 b }.
#[export] Instance toy_segbits_laws : SegBitsLaws.
Proof.
  constructor; unfold is_u64; intros; cbn.
  - apply Z.bits_0.
  - rewrite Z.clearbit_eqb by lia. destruct (i =? j), (Z.testbit b j); done.
Qed.






