(* ===== verification/Aes.v ===== *)
(** * Aes: the encryption of a stripe

    [lib/crypto/aes]: CBC over the block cipher, with the initial vector taken from
    the key.  A stripe is padded to whole blocks before it is encrypted and to a
    whole stripe after it, so that what is decrypted is longer than what was
    encrypted. *)

From S2P Require Import Prelude GoMonad SegmentID.

(** crypto/aes on one block, and blake3.Sum256. *)
Class AesEnv := {
  aes_Encrypt : bytes -> bytes -> bytes;   (** key, block *)
  aes_Decrypt : bytes -> bytes -> bytes;
  blake3_Sum256 : bytes -> bytes;
}.

(** A block cipher: permutations of blocks. *)
Class AesLaws `{!AesEnv} := {
  aes_block key b : length b = 16%nat -> length (aes_Encrypt key b) = 16%nat /\ aes_Decrypt key (aes_Encrypt key b) = b;
  aes_block_dec key b : length b = 16%nat -> length (aes_Decrypt key b) = 16%nat;
  blake3_len b : length (blake3_Sum256 b) = 32%nat;
}.

Definition KeySize : nat := 32.
Definition BlockSize : nat := 16.

Section Aes.
Context `{!AesEnv}.
Implicit Types (key iv data b : bytes).

Definition ContructAesKey (basekey : bytes) (bucketID objectID stripeID : Z) : bytes :=
  let hres := blake3_Sum256 (basekey ++ put_be 8 bucketID) in
  blake3_Sum256 (copy_into 32 hres ++ put_be 8 objectID ++ put_be 8 stripeID).

(** A [cipher.BlockMode] is its key and vector. *)
Definition ContructAesMode key : option (bytes * bytes) :=
  if negb (length key =? KeySize)%nat then None else Some (key, take BlockSize (blake3_Sum256 key)).

Definition xor_bytes : bytes -> bytes -> bytes := zip_with (fun x y => byte_of_Z (Z.lxor (Z_of_byte x) (Z_of_byte y))).

(** cipher.NewCBCEncrypter, cipher.NewCBCDecrypter *)
Fixpoint cbc_enc (n : nat) key iv data : bytes :=
  match n with
  | O => []
  | S n => let c := aes_Encrypt key (xor_bytes iv (take BlockSize data)) in c ++ cbc_enc n key c (drop BlockSize data)
  end.
Fixpoint cbc_dec (n : nat) key iv data : bytes :=
  match n with
  | O => []
  | S n => let c := take BlockSize data in xor_bytes iv (aes_Decrypt key c) ++ cbc_dec n key c (drop BlockSize data)
  end.

(** CryptBlocks *)
Definition CryptBlocks (f : nat -> bytes -> bytes -> bytes -> bytes) (mode : bytes * bytes) data : outcome bytes :=
  if negb (length data mod BlockSize =? 0)%nat then Panic "crypto/cipher: input not full blocks"
  else Ok (f (length data / BlockSize)%nat mode.1 mode.2 data).
Definition EncryptBlocks := CryptBlocks cbc_enc.
Definition DecryptBlocks := CryptBlocks cbc_dec.

Definition PKCS5Padding data : bytes :=
  let padding := (BlockSize - length data mod BlockSize)%nat in data ++ replicate padding (byte_of_Z (Z.of_nat padding)).

(** AesEncrypt, AesDecrypt: the vector is the head of the key. *)
Definition AesEncrypt data key : option bytes :=
  if negb (length data mod BlockSize =? 0)%nat then None
  else if negb (length key =? KeySize)%nat then None
  else Some (cbc_enc (length data / BlockSize) key (take BlockSize key) data).
Definition AesDecrypt data key : option bytes :=
  if negb (length data mod BlockSize =? 0)%nat then None
  else if negb (length key =? KeySize)%nat then None
  else Some (cbc_dec (length data / BlockSize) key (take BlockSize key) data).

(** ** Decrypting more than was encrypted *)

Lemma length_xor a b : length a = length b -> length (xor_bytes a b) = length b.
Proof. intros E. unfold xor_bytes. rewrite length_zip_with. lia. Qed.
Lemma xor_xor a b : length a = length b -> xor_bytes a (xor_bytes a b) = b.
Proof.
  revert b. induction a as [|x a IH]; intros [|y b] E; try done. injection E as E. simpl. f_equal; [|by apply IH].
  rewrite Z_of_byte_of_Z. rewrite Z.mod_small.
  - by rewrite <-Z.lxor_assoc, Z.lxor_nilpotent, Z.lxor_0_l, byte_of_Z_of_byte.
  - pose proof (Z_of_byte_range x). pose proof (Z_of_byte_range y). split; [apply Z.lxor_nonneg; lia|].
    destruct (Z.eq_dec (Z.lxor (Z_of_byte x) (Z_of_byte y)) 0) as [->|Hne]; [lia|]. change 256 with (2 ^ 8). apply Z.log2_lt_pow2.
    + assert (0 <= Z.lxor (Z_of_byte x) (Z_of_byte y)) by (apply Z.lxor_nonneg; lia). lia.
    + eapply Z.le_lt_trans; [apply Z.log2_lxor; lia|]. pose proof (Z.log2_le_mono (Z_of_byte x) 255 ltac:(lia)).
      pose proof (Z.log2_le_mono (Z_of_byte y) 255 ltac:(lia)). change (Z.log2 255) with 7 in *. lia.
Qed.

Context `{!AesLaws}.

Lemma length_cbc_enc n key iv data : length iv = 16%nat -> length data = (n * 16)%nat -> length (cbc_enc n key iv data) = (n * 16)%nat.
Proof.
  revert iv data. induction n as [|n IH]; intros iv data Hiv Hd; [done|]. simpl.
  assert (Hx : length (xor_bytes iv (take BlockSize data)) = 16%nat) by (rewrite length_xor; rewrite length_take; unfold BlockSize; lia).
  destruct (aes_block key _ Hx) as [Hl _]. rewrite length_app, IH; [lia|done|]. rewrite length_drop. unfold BlockSize. lia.
Qed.

(** Decryption reads no block after the ones it gives back: the head of what is
    decrypted is what was encrypted, whatever follows it. *)
Lemma cbc_prefix n m key iv data rest :
  length iv = 16%nat -> length data = (n * 16)%nat ->
  take (n * 16) (cbc_dec (n + m) key iv (cbc_enc n key iv data ++ rest)) = data.
Proof.
  revert iv data. induction n as [|n IH]; intros iv data Hiv Hd; [by destruct data|]. cbn [cbc_enc Nat.add cbc_dec].
  set (x := xor_bytes iv (take BlockSize data)). assert (Hx : length x = 16%nat) by (unfold x; rewrite length_xor; rewrite length_take; unfold BlockSize; lia).
  destruct (aes_block key x Hx) as [Hl Hdec]. rewrite <-app_assoc.
  rewrite (take_app_length' _ _ BlockSize), (drop_app_length' _ _ BlockSize) by exact (eq_sym Hl). rewrite Hdec. unfold x at 1. rewrite xor_xor by (rewrite length_take; unfold BlockSize; lia).
  replace (S n * 16)%nat with (length (take BlockSize data) + n * 16)%nat by (rewrite length_take; unfold BlockSize; lia).
  rewrite take_app_add, (IH (aes_Encrypt key x) (drop BlockSize data) Hl).
  - apply take_drop.
  - rewrite length_drop. unfold BlockSize. lia.
Qed.
End Aes.
