(* ===== verification/Lfs.v ===== *)
(** * Lfs: the file system of a user

    [service/user/lfs]: a super block, buckets, and objects made of parts.  Every
    change of a bucket is an operation record, numbered in the bucket and stored
    under its number; an object is the list of the numbers of its operations.
    A start of the node reads the super block and the buckets and replays the
    operations of each object ([load]); [Recontruct] replays the operations of a
    whole bucket.

    A bucket is locked while it is worked on: such a function runs on the bucket and
    the rest of the service.  Pointers to objects are positions in the heap of their
    bucket, shared by the tree of names and the map of numbers.  Readings of the
    clock are numbered. *)

From S2P Require Import Prelude GoMonad Codec Keys Segments SegmentID Types Tx Fr StateTypes Coder UserOrder UserSend UserJobs Aes.

(** ** lib/pb/fs.proto *)

Record SuperBlockInfo := mkSuperBlockInfo {
  sbi_Version : Z; sbi_ReplicaNum : Z; sbi_NextBucketID : Z }.
Definition set_sbi_Version f (x : SuperBlockInfo) := mkSuperBlockInfo (f (sbi_Version x)) (sbi_ReplicaNum x) (sbi_NextBucketID x).
Definition set_sbi_ReplicaNum f (x : SuperBlockInfo) := mkSuperBlockInfo (sbi_Version x) (f (sbi_ReplicaNum x)) (sbi_NextBucketID x).
Definition set_sbi_NextBucketID f (x : SuperBlockInfo) := mkSuperBlockInfo (sbi_Version x) (sbi_ReplicaNum x) (f (sbi_NextBucketID x)).
Record BucketInfo := mkBucketInfo {
  bki_BucketID : Z; bki_CTime : Z; bki_MTime : Z; bki_Length : Z; bki_UsedBytes : Z; bki_NextObjectID : Z; bki_NextOpID : Z; bki_Deletion : bool; bki_Name : string; bki_Root : bytes }.
Definition set_bki_BucketID f (x : BucketInfo) := mkBucketInfo (f (bki_BucketID x)) (bki_CTime x) (bki_MTime x) (bki_Length x) (bki_UsedBytes x) (bki_NextObjectID x) (bki_NextOpID x) (bki_Deletion x) (bki_Name x) (bki_Root x).
Definition set_bki_CTime f (x : BucketInfo) := mkBucketInfo (bki_BucketID x) (f (bki_CTime x)) (bki_MTime x) (bki_Length x) (bki_UsedBytes x) (bki_NextObjectID x) (bki_NextOpID x) (bki_Deletion x) (bki_Name x) (bki_Root x).
Definition set_bki_MTime f (x : BucketInfo) := mkBucketInfo (bki_BucketID x) (bki_CTime x) (f (bki_MTime x)) (bki_Length x) (bki_UsedBytes x) (bki_NextObjectID x) (bki_NextOpID x) (bki_Deletion x) (bki_Name x) (bki_Root x).
Definition set_bki_Length f (x : BucketInfo) := mkBucketInfo (bki_BucketID x) (bki_CTime x) (bki_MTime x) (f (bki_Length x)) (bki_UsedBytes x) (bki_NextObjectID x) (bki_NextOpID x) (bki_Deletion x) (bki_Name x) (bki_Root x).
Definition set_bki_UsedBytes f (x : BucketInfo) := mkBucketInfo (bki_BucketID x) (bki_CTime x) (bki_MTime x) (bki_Length x) (f (bki_UsedBytes x)) (bki_NextObjectID x) (bki_NextOpID x) (bki_Deletion x) (bki_Name x) (bki_Root x).
Definition set_bki_NextObjectID f (x : BucketInfo) := mkBucketInfo (bki_BucketID x) (bki_CTime x) (bki_MTime x) (bki_Length x) (bki_UsedBytes x) (f (bki_NextObjectID x)) (bki_NextOpID x) (bki_Deletion x) (bki_Name x) (bki_Root x).
Definition set_bki_NextOpID f (x : BucketInfo) := mkBucketInfo (bki_BucketID x) (bki_CTime x) (bki_MTime x) (bki_Length x) (bki_UsedBytes x) (bki_NextObjectID x) (f (bki_NextOpID x)) (bki_Deletion x) (bki_Name x) (bki_Root x).
Definition set_bki_Deletion f (x : BucketInfo) := mkBucketInfo (bki_BucketID x) (bki_CTime x) (bki_MTime x) (bki_Length x) (bki_UsedBytes x) (bki_NextObjectID x) (bki_NextOpID x) (f (bki_Deletion x)) (bki_Name x) (bki_Root x).
Definition set_bki_Name f (x : BucketInfo) := mkBucketInfo (bki_BucketID x) (bki_CTime x) (bki_MTime x) (bki_Length x) (bki_UsedBytes x) (bki_NextObjectID x) (bki_NextOpID x) (bki_Deletion x) (f (bki_Name x)) (bki_Root x).
Definition set_bki_Root f (x : BucketInfo) := mkBucketInfo (bki_BucketID x) (bki_CTime x) (bki_MTime x) (bki_Length x) (bki_UsedBytes x) (bki_NextObjectID x) (bki_NextOpID x) (bki_Deletion x) (bki_Name x) (f (bki_Root x)).
Record ObjectForm := mkObjectForm { of_OpRecord : list Z }.
Record ObjectInfo := mkObjectInfo {
  oin_ObjectID : Z; oin_BucketID : Z; oin_Time : Z; oin_Expire : Z; oin_Name : string; oin_Encryption : string; oin_UserDefined : gmap string string }.
Definition set_oin_Name (f : string -> string) (x : ObjectInfo) := mkObjectInfo (oin_ObjectID x) (oin_BucketID x) (oin_Time x) (oin_Expire x) (f (oin_Name x)) (oin_Encryption x) (oin_UserDefined x).
Record ObjectDeleteInfo := mkObjectDeleteInfo { odi_ObjectID : Z; odi_Time : Z }.
Record ObjectRenameInfo := mkObjectRenameInfo { ori_ObjectID : Z; ori_Name : string; ori_Time : Z }.
Record ObjectPartInfo := mkObjectPartInfo {
  part_ObjectID : Z; part_Length : Z; part_Offset : Z; part_StoredBytes : Z; part_Time : Z; part_ETag : bytes }.
Record BucketNameInfo := mkBucketNameInfo { bni_BucketID : Z; bni_Time : Z; bni_Name : string }.
Record OpRecord := mkOpRecord { opr_Type : Z; opr_OpID : Z; opr_Time : Z; opr_Payload : bytes }.

Definition OpRecord_CreateObject := 1.
Definition OpRecord_AddData := 2.
Definition OpRecord_DeleteObject := 3.
Definition OpRecord_Rename := 4.
Definition OpRecord_CreateOption := 11.
Definition OpRecord_SetName := 12.

Definition MetaType_LFS_SuperBlockInfoKey := 10.
Definition MetaType_LFS_BucketInfoKey := 11.
Definition MetaType_LFS_ObjectInfoKey := 12.
Definition MetaType_LFS_BucketOptionKey := 13.
Definition MetaType_LFS_OpInfoKey := 14.

(** The codecs of these messages. *)
Class LfsCodecs := {
  lc_SuperBlockInfo :: Codec SuperBlockInfo;
  lc_BucketInfo :: Codec BucketInfo;
  lc_ObjectForm :: Codec ObjectForm;
  lc_ObjectInfo :: Codec ObjectInfo;
  lc_ObjectDeleteInfo :: Codec ObjectDeleteInfo;
  lc_ObjectRenameInfo :: Codec ObjectRenameInfo;
  lc_ObjectPartInfo :: Codec ObjectPartInfo;
  lc_BucketNameInfo :: Codec BucketNameInfo;
  lc_OpRecord :: Codec OpRecord;
}.

(** The red-black tree [github.com/sakeven/RbTree], with names as keys. *)
Class NameTree := {
  tree : Type;
  tr_new : tree;
  tr_Find : string -> tree -> option nat;
  tr_Insert : string -> nat -> tree -> tree;
  tr_Delete : string -> tree -> tree;
}.

(** Other libraries: the checks of [s3utils] on names, CIDs as text, and the
    digest of all that was written so far ([crypto/md5] or the tree of [lib/etag], by
    the options of the object). *)
Class LfsLibs := {
  ll_bucket_name : string -> bool;
  ll_object_name : string -> bool;
  ll_cid : bytes -> option string;
  ll_digest : gmap string string -> bytes -> bytes;
}.

(** What the chain says of the user's buckets. *)
Class ChainView := {
  StateGetBucketAt : option Z;
  StateGetBucOpt : Z -> option BucketOption;
  StateGetBucMeta : Z -> option string;
}.

(** ** meta.go: super block, bucket, object *)

Record object := mkObject {
  lo_ObjectInfo : ObjectInfo; lo_Parts : list ObjectPartInfo; lo_Size : Z; lo_StoredBytes : Z; lo_Mtime : Z; lo_State : option (Z * Z * Z * Z); lo_ETag : bytes; lo_ops : list Z; lo_deletion : bool; lo_dirty : bool; lo_pin : bool }.
Definition set_lo_ObjectInfo f (x : object) := mkObject (f (lo_ObjectInfo x)) (lo_Parts x) (lo_Size x) (lo_StoredBytes x) (lo_Mtime x) (lo_State x) (lo_ETag x) (lo_ops x) (lo_deletion x) (lo_dirty x) (lo_pin x).
Definition set_lo_Parts f (x : object) := mkObject (lo_ObjectInfo x) (f (lo_Parts x)) (lo_Size x) (lo_StoredBytes x) (lo_Mtime x) (lo_State x) (lo_ETag x) (lo_ops x) (lo_deletion x) (lo_dirty x) (lo_pin x).
Definition set_lo_Size f (x : object) := mkObject (lo_ObjectInfo x) (lo_Parts x) (f (lo_Size x)) (lo_StoredBytes x) (lo_Mtime x) (lo_State x) (lo_ETag x) (lo_ops x) (lo_deletion x) (lo_dirty x) (lo_pin x).
Definition set_lo_StoredBytes f (x : object) := mkObject (lo_ObjectInfo x) (lo_Parts x) (lo_Size x) (f (lo_StoredBytes x)) (lo_Mtime x) (lo_State x) (lo_ETag x) (lo_ops x) (lo_deletion x) (lo_dirty x) (lo_pin x).
Definition set_lo_Mtime f (x : object) := mkObject (lo_ObjectInfo x) (lo_Parts x) (lo_Size x) (lo_StoredBytes x) (f (lo_Mtime x)) (lo_State x) (lo_ETag x) (lo_ops x) (lo_deletion x) (lo_dirty x) (lo_pin x).
Definition set_lo_State f (x : object) := mkObject (lo_ObjectInfo x) (lo_Parts x) (lo_Size x) (lo_StoredBytes x) (lo_Mtime x) (f (lo_State x)) (lo_ETag x) (lo_ops x) (lo_deletion x) (lo_dirty x) (lo_pin x).
Definition set_lo_ETag f (x : object) := mkObject (lo_ObjectInfo x) (lo_Parts x) (lo_Size x) (lo_StoredBytes x) (lo_Mtime x) (lo_State x) (f (lo_ETag x)) (lo_ops x) (lo_deletion x) (lo_dirty x) (lo_pin x).
Definition set_lo_ops f (x : object) := mkObject (lo_ObjectInfo x) (lo_Parts x) (lo_Size x) (lo_StoredBytes x) (lo_Mtime x) (lo_State x) (lo_ETag x) (f (lo_ops x)) (lo_deletion x) (lo_dirty x) (lo_pin x).
Definition set_lo_deletion f (x : object) := mkObject (lo_ObjectInfo x) (lo_Parts x) (lo_Size x) (lo_StoredBytes x) (lo_Mtime x) (lo_State x) (lo_ETag x) (lo_ops x) (f (lo_deletion x)) (lo_dirty x) (lo_pin x).
Definition set_lo_dirty f (x : object) := mkObject (lo_ObjectInfo x) (lo_Parts x) (lo_Size x) (lo_StoredBytes x) (lo_Mtime x) (lo_State x) (lo_ETag x) (lo_ops x) (lo_deletion x) (f (lo_dirty x)) (lo_pin x).
Definition set_lo_pin f (x : object) := mkObject (lo_ObjectInfo x) (lo_Parts x) (lo_Size x) (lo_StoredBytes x) (lo_Mtime x) (lo_State x) (lo_ETag x) (lo_ops x) (lo_deletion x) (lo_dirty x) (f (lo_pin x)).

(** process.go: the coder of a bucket and its numbers. *)
Record dataProcess (DV : Type) := mkDataProcess {
  dp_bucketID : Z; dp_dataCount : Z; dp_parityCount : Z; dp_stripeSize : Z; dp_fsID : bytes; dp_coder : DataCoder DV }.
Arguments mkDataProcess {DV}. Arguments dp_bucketID {DV}. Arguments dp_dataCount {DV}. Arguments dp_parityCount {DV}.
Arguments dp_stripeSize {DV}. Arguments dp_fsID {DV}. Arguments dp_coder {DV}.

Section Lfs.
Context `{!StateEnv, !SegBits, !Codec SegJob, !Codec segJobStateStored, !LfsCodecs, !NameTree, !LfsLibs, !AesEnv} {DV : Type}.

Record bucket := mkBucket {
  bu_BucketOption : BucketOption; bu_BucketInfo : BucketInfo; bu_Confirmed : bool; bu_objectTree : tree; bu_objects : gmap Z nat; bu_heap : list object; bu_writable : bool; bu_partial : bool; bu_dirty : bool }.
Definition set_bu_BucketOption f (x : bucket) := mkBucket (f (bu_BucketOption x)) (bu_BucketInfo x) (bu_Confirmed x) (bu_objectTree x) (bu_objects x) (bu_heap x) (bu_writable x) (bu_partial x) (bu_dirty x).
Definition set_bu_BucketInfo f (x : bucket) := mkBucket (bu_BucketOption x) (f (bu_BucketInfo x)) (bu_Confirmed x) (bu_objectTree x) (bu_objects x) (bu_heap x) (bu_writable x) (bu_partial x) (bu_dirty x).
Definition set_bu_Confirmed f (x : bucket) := mkBucket (bu_BucketOption x) (bu_BucketInfo x) (f (bu_Confirmed x)) (bu_objectTree x) (bu_objects x) (bu_heap x) (bu_writable x) (bu_partial x) (bu_dirty x).
Definition set_bu_objectTree f (x : bucket) := mkBucket (bu_BucketOption x) (bu_BucketInfo x) (bu_Confirmed x) (f (bu_objectTree x)) (bu_objects x) (bu_heap x) (bu_writable x) (bu_partial x) (bu_dirty x).
Definition set_bu_objects f (x : bucket) := mkBucket (bu_BucketOption x) (bu_BucketInfo x) (bu_Confirmed x) (bu_objectTree x) (f (bu_objects x)) (bu_heap x) (bu_writable x) (bu_partial x) (bu_dirty x).
Definition set_bu_heap f (x : bucket) := mkBucket (bu_BucketOption x) (bu_BucketInfo x) (bu_Confirmed x) (bu_objectTree x) (bu_objects x) (f (bu_heap x)) (bu_writable x) (bu_partial x) (bu_dirty x).
Definition set_bu_writable f (x : bucket) := mkBucket (bu_BucketOption x) (bu_BucketInfo x) (bu_Confirmed x) (bu_objectTree x) (bu_objects x) (bu_heap x) (f (bu_writable x)) (bu_partial x) (bu_dirty x).
Definition set_bu_partial f (x : bucket) := mkBucket (bu_BucketOption x) (bu_BucketInfo x) (bu_Confirmed x) (bu_objectTree x) (bu_objects x) (bu_heap x) (bu_writable x) (f (bu_partial x)) (bu_dirty x).
Definition set_bu_dirty f (x : bucket) := mkBucket (bu_BucketOption x) (bu_BucketInfo x) (bu_Confirmed x) (bu_objectTree x) (bu_objects x) (bu_heap x) (bu_writable x) (bu_partial x) (f (bu_dirty x)).
Record superBlock := mkSuperBlock {
  sb_SuperBlockInfo : SuperBlockInfo; sb_dirty : bool; sb_write : bool; sb_bucketVerify : Z; sb_bucketNameToID : gmap string Z; sb_buckets : list bucket; sb_etagCache : gmap string (Z * Z) }.
Definition set_sb_SuperBlockInfo f (x : superBlock) := mkSuperBlock (f (sb_SuperBlockInfo x)) (sb_dirty x) (sb_write x) (sb_bucketVerify x) (sb_bucketNameToID x) (sb_buckets x) (sb_etagCache x).
Definition set_sb_dirty f (x : superBlock) := mkSuperBlock (sb_SuperBlockInfo x) (f (sb_dirty x)) (sb_write x) (sb_bucketVerify x) (sb_bucketNameToID x) (sb_buckets x) (sb_etagCache x).
Definition set_sb_write f (x : superBlock) := mkSuperBlock (sb_SuperBlockInfo x) (sb_dirty x) (f (sb_write x)) (sb_bucketVerify x) (sb_bucketNameToID x) (sb_buckets x) (sb_etagCache x).
Definition set_sb_bucketVerify f (x : superBlock) := mkSuperBlock (sb_SuperBlockInfo x) (sb_dirty x) (sb_write x) (f (sb_bucketVerify x)) (sb_bucketNameToID x) (sb_buckets x) (sb_etagCache x).
Definition set_sb_bucketNameToID f (x : superBlock) := mkSuperBlock (sb_SuperBlockInfo x) (sb_dirty x) (sb_write x) (sb_bucketVerify x) (f (sb_bucketNameToID x)) (sb_buckets x) (sb_etagCache x).
Definition set_sb_buckets f (x : superBlock) := mkSuperBlock (sb_SuperBlockInfo x) (sb_dirty x) (sb_write x) (sb_bucketVerify x) (sb_bucketNameToID x) (f (sb_buckets x)) (sb_etagCache x).
Definition set_sb_etagCache f (x : superBlock) := mkSuperBlock (sb_SuperBlockInfo x) (sb_dirty x) (sb_write x) (sb_bucketVerify x) (sb_bucketNameToID x) (sb_buckets x) (f (sb_etagCache x)).

(** The service: store, super block, chunks of the local store (written by an upload, deleted
    when a provider has taken them over, see [LfsChunks.replaceSegWithLoc]), jobs sent to
    the order manager, messages for the chain, payments, the semaphore, and the number
    of readings of the clock so far. *)
Record lfsSt := mkLfsSt {
  l_ds : gmap bytes bytes; l_sb : superBlock; l_segs : gmap bytes bytes; l_jobs : list SegJob; l_msgs : list Message; l_needPay : Z; l_bal : Z; l_sw : Z; l_now : nat; l_dps : gmap Z (dataProcess DV) }.
Definition set_l_ds f (x : lfsSt) := mkLfsSt (f (l_ds x)) (l_sb x) (l_segs x) (l_jobs x) (l_msgs x) (l_needPay x) (l_bal x) (l_sw x) (l_now x) (l_dps x).
Definition set_l_sb f (x : lfsSt) := mkLfsSt (l_ds x) (f (l_sb x)) (l_segs x) (l_jobs x) (l_msgs x) (l_needPay x) (l_bal x) (l_sw x) (l_now x) (l_dps x).
Definition set_l_segs f (x : lfsSt) := mkLfsSt (l_ds x) (l_sb x) (f (l_segs x)) (l_jobs x) (l_msgs x) (l_needPay x) (l_bal x) (l_sw x) (l_now x) (l_dps x).
Definition set_l_jobs f (x : lfsSt) := mkLfsSt (l_ds x) (l_sb x) (l_segs x) (f (l_jobs x)) (l_msgs x) (l_needPay x) (l_bal x) (l_sw x) (l_now x) (l_dps x).
Definition set_l_msgs f (x : lfsSt) := mkLfsSt (l_ds x) (l_sb x) (l_segs x) (l_jobs x) (f (l_msgs x)) (l_needPay x) (l_bal x) (l_sw x) (l_now x) (l_dps x).
Definition set_l_needPay f (x : lfsSt) := mkLfsSt (l_ds x) (l_sb x) (l_segs x) (l_jobs x) (l_msgs x) (f (l_needPay x)) (l_bal x) (l_sw x) (l_now x) (l_dps x).
Definition set_l_bal f (x : lfsSt) := mkLfsSt (l_ds x) (l_sb x) (l_segs x) (l_jobs x) (l_msgs x) (l_needPay x) (f (l_bal x)) (l_sw x) (l_now x) (l_dps x).
Definition set_l_sw f (x : lfsSt) := mkLfsSt (l_ds x) (l_sb x) (l_segs x) (l_jobs x) (l_msgs x) (l_needPay x) (l_bal x) (f (l_sw x)) (l_now x) (l_dps x).
Definition set_l_now f (x : lfsSt) := mkLfsSt (l_ds x) (l_sb x) (l_segs x) (l_jobs x) (l_msgs x) (l_needPay x) (l_bal x) (l_sw x) (f (l_now x)) (l_dps x).
Definition set_l_dps f (x : lfsSt) := mkLfsSt (l_ds x) (l_sb x) (l_segs x) (l_jobs x) (l_msgs x) (l_needPay x) (l_bal x) (l_sw x) (l_now x) (f (l_dps x)).
Record busySt := mkBusySt { bs_bu : bucket; bs_l : lfsSt }.
Definition set_bs_bu f (x : busySt) := mkBusySt (f (bs_bu x)) (bs_l x).
Definition set_bs_l f (x : busySt) := mkBusySt (bs_bu x) (f (bs_l x)).

Implicit Types (l : lfsSt) (bu : bucket) (ob : object) (op : OpRecord) (name : string).

(** What the configuration fixes; [meta_upload]: MEFS_META_UPLOAD is set. *)
Record lfsConf := mkLfsConf { lf_userID : Z; lf_fsID : bytes; lf_encryptKey : bytes; lf_meta_upload : bool }.

Section Service.
Context (cf : lfsConf) (clock : nat -> Z).

(** [m] on the bucket with this number, which is locked meanwhile. *)
Definition with_bucket {A} (bid : Z) (m : M busySt A) : M lfsSt A := fun l =>
  match sb_buckets (l_sb l) !! Z.to_nat bid with
  | None => (Panic "index out of range", l)
  | Some bu =>
      let '(r, b) := m (mkBusySt bu l) in
      (r, set_l_sb (set_sb_buckets <[Z.to_nat bid := bs_bu b]>) (bs_l b))
  end.
(** [m] on a bucket that is not in the list yet. *)
Definition on_new_bucket {A} (bu : bucket) (m : M busySt A) : M lfsSt bucket := fun l =>
  let '(r, b) := m (mkBusySt bu l) in
  (match r with Ok _ => Ok (bs_bu b) | Err e => Err e | Panic w => Panic w end, bs_l b).

Definition on_l {A} (m : M lfsSt A) : M busySt A := zoom bs_l (fun l => set_bs_l (fun _ => l)) m.
Definition the_bu : M busySt bucket := gets bs_bu.
Definition on_bu (f : bucket -> bucket) : M busySt unit := modify (set_bs_bu f).
Definition on_info (f : BucketInfo -> BucketInfo) : M busySt unit := on_bu (set_bu_BucketInfo f).
Definition the_obj (p : nat) : M busySt object := let! bu := the_bu in deref (bu_heap bu !! p).
Definition on_obj (p : nat) (f : object -> object) : M busySt unit := on_bu (set_bu_heap (alter f p)).
Definition lfs_Put (key value : bytes) : M lfsSt unit := modify (set_l_ds <[key := value]>).
Definition lfs_push (msg : Message) : M lfsSt unit := modify (set_l_msgs (fun ms => ms ++ [msg])).
Definition time_Now : M lfsSt Z := let! n := gets l_now in do! modify (set_l_now S); ret (clock n).

Definition SuperBlockInfoKey : bytes := NewKey [KMetaType MetaType_LFS_SuperBlockInfoKey; KUint64 (lf_userID cf)].
Definition BucketInfoKey (bid : Z) : bytes := NewKey [KMetaType MetaType_LFS_BucketInfoKey; KUint64 (lf_userID cf); KUint64 bid].
Definition BucketOptionKey (bid : Z) : bytes := NewKey [KMetaType MetaType_LFS_BucketOptionKey; KUint64 (lf_userID cf); KUint64 bid].
Definition ObjectInfoKey (bid oid : Z) : bytes := NewKey [KMetaType MetaType_LFS_ObjectInfoKey; KUint64 (lf_userID cf); KUint64 bid; KUint64 oid].
Definition OpInfoKey (bid opid : Z) : bytes := NewKey [KMetaType MetaType_LFS_OpInfoKey; KUint64 (lf_userID cf); KUint64 bid; KUint64 opid].

(** ** Super block *)

Definition newSuperBlock : superBlock := mkSuperBlock (mkSuperBlockInfo 0 3 0) true false 0 ∅ [] ∅.

(** What is in the place of a bucket that could not be read. *)
Definition no_bucket (bid : Z) : bucket :=
  mkBucket (mkBucketOption 0 0 0 0 0 0) (mkBucketInfo bid 0 0 0 0 0 0 true "" []) false tr_new ∅ [] false false false.

Definition sb_load (ds : gmap bytes bytes) (sb : superBlock) : option superBlock :=
  match ds !! SuperBlockInfoKey with
  | None => None
  | Some data =>
      match decode (A := SuperBlockInfo) data with
      | None => None
      | Some sbi => Some (set_sb_buckets (fun _ => map (fun i => no_bucket (Z.of_nat i)) (seq 0 (Z.to_nat (sbi_NextBucketID sbi))))
                            (set_sb_dirty (fun _ => false) (set_sb_SuperBlockInfo (fun _ => sbi) sb)))
      end
  end.

Definition sb_save : M lfsSt unit :=
  let! sb := gets l_sb in
  if sb_dirty sb then
    let! data := of_option (marshal (sb_SuperBlockInfo sb)) "marshal" in
    do! lfs_Put SuperBlockInfoKey data;
    modify (set_l_sb (set_sb_dirty (fun _ => false)))
  else ret tt.

(** ** Buckets *)

Definition bu_save : M busySt unit :=
  let! bu := the_bu in
  if bu_dirty bu then
    let! data := of_option (marshal (bu_BucketInfo bu)) "marshal" in
    do! on_l (lfs_Put (BucketInfoKey (bki_BucketID (bu_BucketInfo bu))) data);
    on_bu (set_bu_dirty (fun _ => false))
  else ret tt.

Definition saveOptions : M busySt unit :=
  let! bu := the_bu in
  let! data := of_option (marshal (bu_BucketOption bu)) "marshal" in
  on_l (lfs_Put (BucketOptionKey (bki_BucketID (bu_BucketInfo bu))) data).

(** The number of the record. *)
Definition addOpRecord (typ : Z) (payload : bytes) : M busySt Z :=
  let! bu := the_bu in
  let opid := bki_NextOpID (bu_BucketInfo bu) in
  let! data := of_option (marshal (mkOpRecord typ opid 0 payload)) "marshal" in
  do! on_l (lfs_Put (OpInfoKey (bki_BucketID (bu_BucketInfo bu)) opid) data);
  do! on_info (set_bki_NextOpID (fun n => u64 (n + 1)));
  do! on_info (set_bki_Root (fun root => blake3_Sum256 (root ++ data)));
  let! t := on_l time_Now in
  do! on_info (set_bki_MTime (fun _ => t));
  do! on_bu (set_bu_dirty (fun _ => true));
  do! bu_save;
  ret opid.

(** A message from the user to itself. *)
Definition own_msg (method : Z) (params : bytes) : Message :=
  mkMessage 0 (lf_userID cf) (lf_userID cf) 0 None 0 None method params.

Definition push_BucketParams (bucketID : Z) (opts : BucketOption) : M lfsSt unit :=
  let! data := of_option (marshal (mkBucketParams opts bucketID)) "serialize" in
  lfs_push (own_msg CreateBucket data).
Definition push_BucMeta (bucketID : Z) name : M lfsSt unit :=
  if lf_meta_upload cf then
    let! data := of_option (marshal (mkBucMetaParas bucketID name "")) "serialize" in
    lfs_push (own_msg AddBucMeta data)
  else ret tt.

Definition createBucket_ops (opts : BucketOption) : M busySt unit :=
  do! saveOptions;
  let! payload := of_option (marshal opts) "marshal" in
  do! (let! _ := addOpRecord OpRecord_CreateOption payload in ret tt);
  let! bu := the_bu in
  let bi := bu_BucketInfo bu in
  let! payload := of_option (marshal (mkBucketNameInfo (bki_BucketID bi) (bki_CTime bi) (bki_Name bi))) "marshal" in
  let! _ := addOpRecord OpRecord_SetName payload in
  ret tt.

Definition createBucket (bucketID : Z) name (opts : BucketOption) : M lfsSt bucket :=
  let! ct := time_Now in
  let! mt := time_Now in
  let bi := mkBucketInfo bucketID ct mt 0 0 0 0 false name (blake3_Sum256 (put_be 8 bucketID)) in
  let bu := mkBucket opts bi false tr_new ∅ [] false false true in
  do! push_BucketParams bucketID opts;
  do! push_BucMeta bucketID name;
  on_new_bucket bu (createBucket_ops opts).

Definition bu_load (ds : gmap bytes bytes) (bucketID : Z) bu : option bucket :=
  match ds !! BucketOptionKey bucketID with
  | None => None
  | Some data =>
      match decode (A := BucketOption) data with
      | None => None
      | Some bo =>
          match ds !! BucketInfoKey bucketID with
          | None => None
          | Some data =>
              match decode (A := BucketInfo) data with
              | None => None
              | Some pbi => Some (mkBucket bo pbi false tr_new ∅ [] (bu_writable bu) (bu_partial bu) (bu_dirty bu))
              end
          end
      end
  end.

(** ** Objects *)

Definition object_Save (p : nat) : M busySt unit :=
  let! ob := the_obj p in
  if lo_dirty ob then
    let! data := of_option (marshal (mkObjectForm (lo_ops ob))) "marshal" in
    do! on_l (lfs_Put (ObjectInfoKey (oin_BucketID (lo_ObjectInfo ob)) (oin_ObjectID (lo_ObjectInfo ob))) data);
    on_obj p (set_lo_dirty (fun _ => false))
  else ret tt.

Definition addPartInfo (opi : ObjectPartInfo) ob : object :=
  set_lo_Mtime (fun t => if t <? part_Time opi then part_Time opi else t)
    (set_lo_StoredBytes (fun n => u64 (n + part_StoredBytes opi))
      (set_lo_Size (fun n => u64 (n + part_Length opi))
        (set_lo_ETag (fun _ => part_ETag opi) (set_lo_Parts (fun ps => ps ++ [opi]) ob)))).

(** The zero value of the embedded pb.ObjectInfo. *)
Definition no_info : ObjectInfo := mkObjectInfo 0 0 0 0 "" "" ∅.
Definition NewObject : object := mkObject no_info [] 0 0 0 None [] [] false false false.

Definition loadOpRecord (ds : gmap bytes bytes) (bucketID opID : Z) : option OpRecord :=
  data ← ds !! OpInfoKey bucketID opID; decode (A := OpRecord) data.

(** One record of an object; what cannot be read is passed over. *)
Definition load_op ob (or : OpRecord) : object :=
  let typ := opr_Type or in
  if typ =? OpRecord_CreateObject then
    match decode (A := ObjectInfo) (opr_Payload or) with
    | Some oi => set_lo_Mtime (fun _ => oin_Time oi) (set_lo_ObjectInfo (fun _ => oi) ob)
    | None => ob
    end
  else if typ =? OpRecord_AddData then
    match decode (A := ObjectPartInfo) (opr_Payload or) with
    | Some pi => if negb (part_ObjectID pi =? oin_ObjectID (lo_ObjectInfo ob)) then ob else addPartInfo pi ob
    | None => ob
    end
  else if typ =? OpRecord_DeleteObject then
    match decode (A := ObjectDeleteInfo) (opr_Payload or) with
    | Some di => if negb (odi_ObjectID di =? oin_ObjectID (lo_ObjectInfo ob)) then ob else set_lo_deletion (fun _ => true) ob
    | None => ob
    end
  else if typ =? OpRecord_Rename then
    match decode (A := ObjectRenameInfo) (opr_Payload or) with
    | Some cni => set_lo_ObjectInfo (set_oin_Name (fun _ => ori_Name cni)) ob
    | None => ob
    end
  else ob.

Fixpoint load_ops (ds : gmap bytes bytes) (bucketID : Z) (ops : list Z) ob : option object :=
  match ops with
  | [] => Some ob
  | opID :: ops =>
      match loadOpRecord ds bucketID opID with
      | None => None
      | Some or => load_ops ds bucketID ops (load_op ob or)
      end
  end.

Definition object_load (ds : gmap bytes bytes) (bucketID objectID : Z) : option object :=
  match ds !! ObjectInfoKey bucketID objectID with
  | None => None
  | Some data =>
      match decode (A := ObjectForm) data with
      | None => None
      | Some form => set_lo_ops (fun _ => of_OpRecord form) <$> load_ops ds bucketID (of_OpRecord form) NewObject
      end
  end.

(** ** The state of the jobs of an object *)

Definition add4 (a b : Z * Z * Z * Z) : Z * Z * Z * Z :=
  let '(a0, a1, a2, a3) := a in let '(b0, b1, b2, b3) := b in (a0 + b0, a1 + b1, a2 + b2, a3 + b3).
(** [ob.ops[1 : 1+len(ob.Parts)]]; None: out of range. *)
Definition part_ops ob : option (list Z) :=
  if (S (length (lo_Parts ob)) <=? length (lo_ops ob))%nat then Some (take (length (lo_Parts ob)) (drop 1 (lo_ops ob))) else None.
Definition job_state (ds : gmap bytes bytes) (bucketID : Z) (ops : list Z) : Z * Z * Z * Z :=
  foldl (fun acc opID => add4 acc (GetSegJogState_ds (lf_userID cf) ds bucketID opID)) (0, 0, 0, 0) ops.
Definition set_state (st : Z * Z * Z * Z) ob : object :=
  let '(tt_, dist, donet, ct) := st in
  set_lo_State (fun _ => Some st)
    (if (0 <? tt_) && (tt_ =? dist) && (tt_ =? donet) && (tt_ =? ct) then set_lo_pin (fun _ => true) ob else ob).

(** etag.ToString: an md5 in hexadecimal, otherwise a CID. *)
Definition hex_digit (d : Z) : ascii := if d <? 10 then byte_of_Z (48 + d) else byte_of_Z (87 + d).
Definition hex_EncodeToString (b : bytes) : string :=
  string_of_bytes (concat (map (fun c => [hex_digit (Z_of_byte c / 16); hex_digit (Z_of_byte c mod 16)]) b)).
Definition etag_ToString (etag : bytes) : option string :=
  if (length etag =? 16)%nat then Some (hex_EncodeToString etag) else ll_cid etag.

(** ** load *)

Definition cache_etag ob : M busySt unit :=
  match etag_ToString (lo_ETag ob) with
  | Some ename => on_l (modify (set_l_sb (set_sb_etagCache <[ename := (oin_BucketID (lo_ObjectInfo ob), oin_ObjectID (lo_ObjectInfo ob))]>)))
  | None => ret tt
  end.

(** An object without a name is called by its digest. *)
Definition name_object ob : option object :=
  if bool_decide (oin_Name (lo_ObjectInfo ob) = "") then
    match etag_ToString (lo_ETag ob) with
    | Some n => Some (set_lo_ObjectInfo (set_oin_Name (fun _ => n)) ob)
    | None => None
    end
  else Some ob.

(** A new object of the heap, in the map and, unless the name is taken, in the tree. *)
Definition insert_object ob : M busySt unit :=
  on_bu (fun bu =>
    let p := length (bu_heap bu) in
    let bu := set_bu_objects <[oin_ObjectID (lo_ObjectInfo ob) := p]> (set_bu_heap (fun h => h ++ [ob]) bu) in
    match tr_Find (oin_Name (lo_ObjectInfo ob)) (bu_objectTree bu) with
    | None => set_bu_objectTree (tr_Insert (oin_Name (lo_ObjectInfo ob)) p) bu
    | Some _ => bu
    end).

Definition load_object (bid oid : Z) : M busySt unit :=
  let! ds := on_l (gets l_ds) in
  match object_load ds bid oid with
  | None => ret tt
  | Some ob =>
      if lo_deletion ob then ret tt
      else
        match part_ops ob with
        | None => panic "slice bounds out of range"
        | Some ops =>
            match name_object (set_state (job_state ds (oin_BucketID (lo_ObjectInfo ob)) ops) ob) with
            | None => ret tt
            | Some ob => do! cache_etag ob; insert_object ob
            end
        end
  end.

Section Load.
Context `{!ChainView}.

Definition getSBFromState (sb : superBlock) : superBlock :=
  match StateGetBucketAt with
  | None => sb
  | Some n => if n =? 0 then sb
              else set_sb_buckets (fun _ => map (fun i => no_bucket (Z.of_nat i)) (seq 0 (Z.to_nat n)))
                     (set_sb_SuperBlockInfo (set_sbi_NextBucketID (fun _ => n)) sb)
  end.

Definition bucket_n (bid : Z) : string := "bucket-" +:+ pretty bid.
(** Objects are read back from the chain in recovery mode only, which is left out. *)
Definition getBucketOptsFromState : M busySt unit :=
  let! bu := the_bu in
  let bid := bki_BucketID (bu_BucketInfo bu) in
  match StateGetBucOpt bid with
  | None => ret tt
  | Some bo =>
      let name := match StateGetBucMeta bid with Some n => if bool_decide (n = "") then bucket_n bid else n | None => bucket_n bid end in
      do! on_bu (set_bu_BucketOption (fun _ => bo));
      do! on_info (fun bi => set_bki_Name (fun _ => name) (set_bki_Deletion (fun _ => false) bi));
      do! on_bu (set_bu_partial (fun _ => true));
      on_l (modify (set_l_sb (set_sb_bucketNameToID <[name := bid]>)))
  end.

Definition load_bucket (i : Z) : M busySt unit :=
  let! ds := on_l (gets l_ds) in
  let! bu := the_bu in
  match bu_load ds i bu with
  | None => getBucketOptsFromState
  | Some bu =>
      do! on_bu (fun _ => bu);
      let bi := bu_BucketInfo bu in
      if bki_Deletion bi then ret tt
      else
        do! on_l (modify (set_l_sb (set_sb_bucketNameToID <[bki_Name bi := i]>)));
        for_each (seqZ 0 (bki_NextObjectID bi)) (load_object i)
  end.

Definition lfs_load : M lfsSt unit :=
  do! (let! ds := gets l_ds in
       let! sb := gets l_sb in
       modify (set_l_sb (fun _ => match sb_load ds sb with Some sb => sb | None => getSBFromState sb end)));
  let! sb := gets l_sb in
  for_each (seqZ 0 (sbi_NextBucketID (sb_SuperBlockInfo sb))) (fun i => with_bucket i (load_bucket i)).
End Load.

(** ** bucket.go *)

Definition rsMax := 256.
Definition maxBucket := 65536.

Definition Writeable : M lfsSt unit := let! sb := gets l_sb in check (sb_write sb) "lfs service is read only".
Definition acquire (n : Z) : M lfsSt unit := let! sw := gets l_sw in check (n <=? sw) "resource unavailable".

(** The number of the bucket; the test on the length lets the next number pass. *)
Definition getBucketInfo name : M lfsSt Z :=
  do! check (ll_bucket_name name) "bucket name is invalid";
  let! sb := gets l_sb in
  let! bucketID := of_option (sb_bucketNameToID sb !! name) "bucket not exist" in
  do! check (bucketID <=? Z.of_nat (length (sb_buckets sb))) "bucket not exist";
  match sb_buckets sb !! Z.to_nat bucketID with
  | None => panic "index out of range"
  | Some bu => do! check (negb (bki_Deletion (bu_BucketInfo bu))) "bucket is deleted"; ret bucketID
  end.

Definition addBucket name (opts : BucketOption) : M lfsSt (BucketInfo * bool) :=
  let! sb := gets l_sb in
  do! check (negb (bool_decide (is_Some (sb_bucketNameToID sb !! name)))) "bucket already exists";
  let bucketID := sbi_NextBucketID (sb_SuperBlockInfo sb) in
  let! bu := createBucket bucketID name opts in
  do! modify (set_l_sb (set_sb_bucketNameToID <[name := bucketID]>));
  do! modify (set_l_sb (set_sb_buckets (fun bs => bs ++ [bu])));
  do! modify (set_l_sb (set_sb_SuperBlockInfo (set_sbi_NextBucketID (fun n => u64 (n + 1)))));
  do! modify (set_l_sb (set_sb_dirty (fun _ => true)));
  do! sb_save;
  ret (bu_BucketInfo bu, bu_Confirmed bu).

(** The counts are uint32. *)
Definition bucket_counts (opts : BucketOption) : M lfsSt unit :=
  let dc := bo_DataCount opts in
  let pc := bo_ParityCount opts in
  do! check (negb ((dc =? 0) || (pc =? 0))) "data or parity count should not be zero";
  do! check (u32 (dc + pc) <=? rsMax) "please reduce data or parity count";
  check (u32 (u32 (dc + pc) * u32 (2 + (pc - 1) / dc)) <=? rsMax) "please increase data or reduce parity count".

(** The options as they are stored. *)
Definition bucket_policy (opts : BucketOption) : outcome BucketOption :=
  let dc := bo_DataCount opts in
  let pc := bo_ParityCount opts in
  if bo_Policy opts =? MulPolicy then
    Ok (mkBucketOption (bo_Version opts) (bo_Policy opts) 1 (u32 (u32 (dc + pc) - 1)) (bo_TagFlag opts) (bo_SegSize opts))
  else if bo_Policy opts =? RsPolicy then
    Ok (if dc =? 1 then mkBucketOption (bo_Version opts) MulPolicy dc pc (bo_TagFlag opts) (bo_SegSize opts) else opts)
  else Err "policy is not supported".

Definition lfs_CreateBucket name (opts : BucketOption) : M lfsSt (BucketInfo * bool) :=
  do! acquire 1;
  do! Writeable;
  do! check (ll_bucket_name name) "bucket name is invalid";
  do! bucket_counts opts;
  let! sb := gets l_sb in
  do! check (Z.of_nat (length (sb_buckets sb)) <? maxBucket) "buckets are exceed";
  let! opts := of_outcome (bucket_policy opts) in
  addBucket name opts.

(** The name stays taken until the next start. *)
Definition DeleteBucket name : M lfsSt unit :=
  do! acquire 1;
  do! Writeable;
  let! bid := getBucketInfo name in
  let! sb := gets l_sb in
  with_bucket bid (
    let! bu := the_bu in
    do! check (bki_BucketID (bu_BucketInfo bu) <? sb_bucketVerify sb) "bucket is confirming";
    do! on_l (modify (set_l_dps (delete (bki_BucketID (bu_BucketInfo bu)))));
    do! on_info (set_bki_Deletion (fun _ => true));
    do! on_bu (set_bu_dirty (fun _ => true));
    bu_save).

Definition HeadBucket name : M lfsSt (BucketInfo * bool) :=
  do! acquire 1;
  let! bid := getBucketInfo name in
  let! sb := gets l_sb in
  with_bucket bid (
    let! bu := the_bu in
    do! (if bki_BucketID (bu_BucketInfo bu) <? sb_bucketVerify sb then on_bu (set_bu_Confirmed (fun _ => true)) else ret tt);
    let! bu := the_bu in
    ret (bu_BucketInfo bu, bu_Confirmed bu)).

Definition ListBuckets (prefix : string) : M lfsSt (list (BucketInfo * bool)) :=
  do! acquire 1;
  let! sb := gets l_sb in
  ret (map (fun bu => (bu_BucketInfo bu, bu_Confirmed bu))
        (List.filter (fun bu => negb (bki_Deletion (bu_BucketInfo bu)) && String.prefix prefix (bki_Name (bu_BucketInfo bu))) (sb_buckets sb))).

(** ** object.go, object_put.go: one bucket *)

Definition getObjectInfo name : M busySt nat :=
  do! check (ll_object_name name) "object name is invalid";
  let! bu := the_bu in
  of_option (tr_Find name (bu_objectTree bu)) "object not exist".

(** A new object, by its place in the heap. *)
Definition createObject name (userDefined : gmap string string) : M busySt nat :=
  let! bu := the_bu in
  do! check (negb (bool_decide (is_Some (tr_Find name (bu_objectTree bu))))) "object already exist";
  let! t := on_l time_Now in
  let bi := bu_BucketInfo bu in
  let poi := mkObjectInfo (bki_NextObjectID bi) (bki_BucketID bi) t 0 name (default "none" (userDefined !! "encryption")) userDefined in
  let! payload := of_option (marshal poi) "marshal" in
  do! on_info (set_bki_NextObjectID (fun n => u64 (n + 1)));
  let! opid := addOpRecord OpRecord_CreateObject payload in
  let ob := set_lo_dirty (fun _ => true) (set_lo_ops (fun _ => [opid]) (set_lo_ObjectInfo (fun _ => poi) NewObject)) in
  let! bu := the_bu in
  let p := length (bu_heap bu) in
  do! on_bu (set_bu_heap (fun h => h ++ [ob]));
  do! object_Save p;
  do! on_bu (set_bu_objectTree (tr_Insert name p));
  do! on_bu (set_bu_objects <[oin_ObjectID poi := p]>);
  ret p.

(** [object.ops = append(object.ops, op.OpID); object.dirty = true; object.Save()] *)
Definition object_op (p : nat) (opid : Z) (f : object -> object) : M busySt unit :=
  do! on_obj p (fun ob => f (set_lo_dirty (fun _ => true) (set_lo_ops (fun ops => ops ++ [opid]) ob)));
  object_Save p.

(** The name deleted from the tree is the new one: the old name stays. *)
Definition renameObject (p : nat) (newName : string) : M busySt unit :=
  do! check (ll_object_name newName) "object re name is invalid";
  let! ob := the_obj p in
  let! payload := of_option (marshal (mkObjectRenameInfo (oin_ObjectID (lo_ObjectInfo ob)) newName 0)) "marshal" in
  let! opid := addOpRecord OpRecord_Rename payload in
  do! object_op p opid (set_lo_ObjectInfo (set_oin_Name (fun _ => newName)));
  do! on_bu (set_bu_objectTree (tr_Delete newName));
  on_bu (set_bu_objectTree (tr_Insert newName p)).

Definition DeleteObject (bucketName objectName : string) : M lfsSt unit :=
  do! acquire 1;
  do! Writeable;
  let! bid := getBucketInfo bucketName in
  let! sb := gets l_sb in
  with_bucket bid (
    let! bu := the_bu in
    do! check (bki_BucketID (bu_BucketInfo bu) <? sb_bucketVerify sb) "bucket is confirming";
    let! p := getObjectInfo objectName in
    let! ob := the_obj p in
    let! t := on_l time_Now in
    let! payload := of_option (marshal (mkObjectDeleteInfo (oin_ObjectID (lo_ObjectInfo ob)) t)) "marshal" in
    let! opid := addOpRecord OpRecord_DeleteObject payload in
    do! object_op p opid (set_lo_deletion (fun _ => true));
    do! on_bu (set_bu_objectTree (tr_Delete objectName));
    on_bu (set_bu_objects (delete (oin_ObjectID (lo_ObjectInfo ob))))).

(** By name; by digest is [GetObject]'s business. *)
Definition HeadObject (bucketName objectName : string) : M lfsSt object :=
  do! acquire 1;
  let! bid := getBucketInfo bucketName in
  with_bucket bid (
    let! p := getObjectInfo objectName in
    let! ob := the_obj p in
    do! (if lo_pin ob then ret tt
         else
           match part_ops ob with
           | None => panic "slice bounds out of range"
           | Some ops =>
               let! ds := on_l (gets l_ds) in
               on_obj p (set_state (job_state ds (oin_BucketID (lo_ObjectInfo ob)) ops))
           end);
    the_obj p).

(** ** lfs.go *)

Definition lfs_save : M lfsSt unit :=
  do! sb_save;
  let! sb := gets l_sb in
  for_each (seq 0 (length (sb_buckets sb))) (fun i => let! _ := try_err (with_bucket (Z.of_nat i) bu_save) in ret tt).

Definition ShowStorage : M lfsSt Z :=
  do! acquire 1;
  let! sb := gets l_sb in
  ret (foldl (fun n bu => u64 (n + bki_UsedBytes (bu_BucketInfo bu))) 0 (sb_buckets sb)).

(** A bucket that the chain has and the memory has not. *)
Definition missing_bucket : bucket := set_bu_Confirmed (fun _ => true) (no_bucket 0).
Fixpoint confirm_buckets (n : nat) (bs : list bucket) : list bucket :=
  match n with
  | O => bs
  | S n => match bs with
           | [] => missing_bucket :: confirm_buckets n []
           | bu :: bs => set_bu_Confirmed (fun _ => true) bu :: confirm_buckets n bs
           end
  end.

(** Start, from the chain's answer [bun] on: buckets are completed and the messages of
    those the chain does not know are sent again. *)
Definition Start_buckets (has : bool) (bun : Z) : M lfsSt unit :=
  do! modify (set_l_sb (set_sb_bucketVerify (fun _ => bun)));
  let! sb := gets l_sb in
  let len := Z.of_nat (length (sb_buckets sb)) in
  do! modify (set_l_sb (set_sb_buckets (confirm_buckets (Z.to_nat bun))));
  do! modify (set_l_sb (set_sb_SuperBlockInfo (set_sbi_NextBucketID (fun n => u64 (n + Z.max 0 (bun - len))))));
  let! sb := gets l_sb in
  do! for_each (seqZ bun (sbi_NextBucketID (sb_SuperBlockInfo sb) - bun)) (fun bid =>
        match sb_buckets sb !! Z.to_nat bid with
        | None => panic "index out of range"
        | Some bu => do! push_BucketParams bid (bu_BucketOption bu); push_BucMeta bid (bki_Name (bu_BucketInfo bu))
        end);
  if has then modify (set_l_sb (set_sb_write (fun _ => true))) else ret tt.

(** persistMeta: the events of its loop. *)
Inductive metaEvent :=
  | EvReady                       (** the file system is on the chain *)
  | EvBucket (bid : Z)            (** the chain has taken the bucket *)
  | EvBucketReady (bid : Z)       (** the order manager has providers for it *)
  | EvSave.

Definition persistMeta (e : metaEvent) : M lfsSt unit :=
  match e with
  | EvReady => modify (set_l_sb (set_sb_write (fun _ => true)))
  | EvBucket bid =>
      let! sb := gets l_sb in
      if bid <? sbi_NextBucketID (sb_SuperBlockInfo sb) then
        do! modify (set_l_sb (set_sb_bucketVerify (fun v => if v <=? bid then u64 (bid + 1) else v)));
        with_bucket bid (on_bu (set_bu_Confirmed (fun _ => true)))
      else ret tt
  | EvBucketReady bid =>
      with_bucket bid (let! bu := the_bu in if bu_partial bu then ret tt else on_bu (set_bu_writable (fun _ => true)))
  | EvSave => let! sb := gets l_sb in if sb_write sb then let! _ := try_err lfs_save in ret tt else ret tt
  end.
End Service.
End Lfs.
