(* ===== verification/LfsProps.v ===== *)
(** * LfsProps: what the operations of the file system do

    Each operation of a locked bucket as a function of its state: the record that is
    written, the bucket and the object after it. *)

From S2P Require Import Prelude GoMonad Codec Keys Segments SegmentID Types Tx Fr StateTypes Coder UserOrder UserSend UserJobs Aes Lfs.

(** The codecs of the file system read back what they wrote, and always write. *)
Class LfsCodecLaws `{!LfsCodecs} := {
  ll_SuperBlockInfo :: CodecLaws SuperBlockInfo; lt_SuperBlockInfo :: CodecTotal SuperBlockInfo;
  ll_BucketInfo :: CodecLaws BucketInfo; lt_BucketInfo :: CodecTotal BucketInfo;
  ll_ObjectForm :: CodecLaws ObjectForm; lt_ObjectForm :: CodecTotal ObjectForm;
  ll_ObjectInfo :: CodecLaws ObjectInfo; lt_ObjectInfo :: CodecTotal ObjectInfo;
  ll_ObjectDeleteInfo :: CodecLaws ObjectDeleteInfo; lt_ObjectDeleteInfo :: CodecTotal ObjectDeleteInfo;
  ll_ObjectRenameInfo :: CodecLaws ObjectRenameInfo; lt_ObjectRenameInfo :: CodecTotal ObjectRenameInfo;
  ll_ObjectPartInfo :: CodecLaws ObjectPartInfo; lt_ObjectPartInfo :: CodecTotal ObjectPartInfo;
  ll_BucketNameInfo :: CodecLaws BucketNameInfo; lt_BucketNameInfo :: CodecTotal BucketNameInfo;
  ll_OpRecord :: CodecLaws OpRecord; lt_OpRecord :: CodecTotal OpRecord;
}.

(** The tree of names, as far as the program relies on it: a name is inserted when
    it is not there. *)
Class NameTreeLaws `{!NameTree} := {
  tr_Find_new k : tr_Find k tr_new = None;
  tr_Find_Insert k k2 v t : tr_Find k t = None -> tr_Find k2 (tr_Insert k v t) = if bool_decide (k = k2) then Some v else tr_Find k2 t;
  tr_Find_Delete k k2 t : tr_Find k2 (tr_Delete k t) = if bool_decide (k = k2) then None else tr_Find k2 t;
}.

Section LfsProps.
Context `{!StateEnv, !SegBits, !Codec SegJob, !Codec segJobStateStored, !LfsCodecs, !NameTree, !LfsLibs, !AesEnv} {DV : Type}.
Context `{!LfsCodecLaws}.
Notation lfsSt := (lfsSt (DV := DV)).
Notation busySt := (busySt (DV := DV)).
Implicit Types (l : lfsSt) (b : busySt) (bu : bucket) (ob : object) (bi : BucketInfo).
Section Service.
Context (cf : lfsConf) (clock : nat -> Z).

(** ** Records *)

(** The bucket's entry after a record. *)
Definition op_info (t : Z) (data : bytes) bi : BucketInfo :=
  set_bki_MTime (fun _ => t) (set_bki_Root (fun root => blake3_Sum256 (root ++ data)) (set_bki_NextOpID (fun n => u64 (n + 1)) bi)).
Definition op_bucket (t : Z) (data : bytes) bu : bucket := set_bu_dirty (fun _ => false) (set_bu_BucketInfo (op_info t data) bu).
Definition op_store (bid opid : Z) (data datab : bytes) l : lfsSt :=
  set_l_now S (set_l_ds (fun ds => <[BucketInfoKey cf bid := datab]> (<[OpInfoKey cf bid opid := data]> ds)) l).

Lemma bu_save_run bu l data : bu_dirty bu = true -> marshal (bu_BucketInfo bu) = Some data ->
  bu_save cf (mkBusySt bu l) = (Ok tt, mkBusySt (set_bu_dirty (fun _ => false) bu) (set_l_ds <[BucketInfoKey cf (bki_BucketID (bu_BucketInfo bu)) := data]> l)).
Proof. intros Hd Hm. unfold bu_save. erewrite bind_run by reflexivity. cbn [bs_bu]. by rewrite Hd, Hm. Qed.

Lemma addOpRecord_run typ payload bu l :
  exists data datab, marshal (mkOpRecord typ (bki_NextOpID (bu_BucketInfo bu)) 0 payload) = Some data /\
    marshal (op_info (clock (l_now l)) data (bu_BucketInfo bu)) = Some datab /\
    addOpRecord cf clock typ payload (mkBusySt bu l) = (Ok (bki_NextOpID (bu_BucketInfo bu)),
      mkBusySt (op_bucket (clock (l_now l)) data bu) (op_store (bki_BucketID (bu_BucketInfo bu)) (bki_NextOpID (bu_BucketInfo bu)) data datab l)).
Proof.
  destruct (marshal_total (mkOpRecord typ (bki_NextOpID (bu_BucketInfo bu)) 0 payload)) as [data Hd].
  destruct (marshal_total (op_info (clock (l_now l)) data (bu_BucketInfo bu))) as [datab Hb]. exists data, datab. split; [done|]. split; [done|].
  unfold addOpRecord. erewrite bind_run by reflexivity. cbn [bs_bu]. rewrite Hd. do 7 (erewrite bind_run by reflexivity).
  erewrite bind_run; [|apply bu_save_run; [done|exact Hb]]. done.
Qed.

(** ** Objects *)

Lemma alter_lookup {A} (f : A -> A) (p : nat) (h : list A) x : h !! p = Some x -> alter f p h = <[p := f x]> h.
Proof.
  intros Hp. apply list_eq. intros i. destruct (decide (p = i)) as [<-|Hne].
  - rewrite list_lookup_alter_eq, Hp, list_lookup_insert_eq by (by eapply lookup_lt_Some). done.
  - by rewrite list_lookup_alter_ne, list_lookup_insert_ne.
Qed.
Lemma the_obj_run p bu l ob : bu_heap bu !! p = Some ob -> the_obj p (mkBusySt bu l) = (Ok ob, mkBusySt bu l).
Proof. intros Hp. unfold the_obj. erewrite bind_run by reflexivity. cbn [bs_bu]. by rewrite Hp. Qed.
Lemma on_obj_run p f bu l ob : bu_heap bu !! p = Some ob -> on_obj p f (mkBusySt bu l) = (Ok tt, mkBusySt (set_bu_heap <[p := f ob]> bu) l).
Proof. intros Hp. unfold on_obj, on_bu, modify, set_bs_bu. cbn [bs_bu bs_l]. unfold set_bu_heap. by rewrite (alter_lookup f p _ ob Hp). Qed.

Lemma object_Save_run p bu l ob : bu_heap bu !! p = Some ob -> lo_dirty ob = true ->
  exists data, marshal (mkObjectForm (lo_ops ob)) = Some data /\
    object_Save cf p (mkBusySt bu l) = (Ok tt, mkBusySt (set_bu_heap <[p := set_lo_dirty (fun _ => false) ob]> bu)
      (set_l_ds <[ObjectInfoKey cf (oin_BucketID (lo_ObjectInfo ob)) (oin_ObjectID (lo_ObjectInfo ob)) := data]> l)).
Proof.
  intros Hp Hd. destruct (marshal_total (mkObjectForm (lo_ops ob))) as [data Hm]. exists data. split; [done|].
  unfold object_Save. rewrite (bind_run _ _ _ _ _ (the_obj_run p bu l ob Hp)), Hd, Hm. do 2 (erewrite bind_run by reflexivity).
  exact (on_obj_run _ _ _ _ _ Hp).
Qed.

Lemma object_op_run p opid f bu l ob ob2 : bu_heap bu !! p = Some ob ->
  ob2 = f (set_lo_dirty (fun _ => true) (set_lo_ops (fun ops => ops ++ [opid]) ob)) -> lo_dirty ob2 = true ->
  exists data, marshal (mkObjectForm (lo_ops ob2)) = Some data /\
    object_op cf p opid f (mkBusySt bu l) = (Ok tt, mkBusySt (set_bu_heap <[p := set_lo_dirty (fun _ => false) ob2]> bu)
      (set_l_ds <[ObjectInfoKey cf (oin_BucketID (lo_ObjectInfo ob2)) (oin_ObjectID (lo_ObjectInfo ob2)) := data]> l)).
Proof.
  intros Hp E2 Hd. unfold object_op. rewrite (bind_run _ _ _ _ _ (on_obj_run p _ bu l ob Hp)). cbv beta. rewrite <-E2.
  destruct (object_Save_run p (set_bu_heap <[p := ob2]> bu) l ob2) as (data & Hm & E); [|done|].
  { cbn. apply list_lookup_insert_eq. by eapply lookup_lt_Some. }
  exists data. split; [done|]. rewrite E. do 2 f_equal. unfold set_bu_heap. cbn. f_equal. apply list_insert_insert_eq.
Qed.
End Service.
End LfsProps.
