(* ===== verification/LfsData.v ===== *)
(** * LfsData: writing and reading objects

    [upload] and [download] of [service/user/lfs/process.go], [PutObject] and
    [downloadObject].  An upload reads a stripe at a time, encrypts it, cuts it into
    chunks, stores them and, every sixteen stripes, makes a part of the object: a
    job for the order manager, an operation record, and the part's place in the
    bucket.  A download walks over the parts and the stripes of each, gathers
    chunks until there are enough, and decodes.

    The chunks of a stripe are asked for in parallel, as many at a time as are
    needed, a new one for each that fails; the outcome is that of asking one after
    the other, and so they are asked here. *)

From S2P Require Import Prelude GoMonad Codec Keys Segments SegmentID Types Tx Fr StateTypes Coder UserOrder UserSend UserJobs Aes Lfs.

Section LfsData.
Context `{!StateEnv, !SegBits, !Codec SegJob, !Codec segJobStateStored, !LfsCodecs, !NameTree, !LfsLibs, !AesEnv}.
Context {DV : Type} `{!ReedSolomon, !CoderKeys DV}.
Notation lfsSt := (lfsSt (DV := DV)).
Notation busySt := (busySt (DV := DV)).
Implicit Types (l : lfsSt) (bu : bucket) (ob : object) (dp : dataProcess DV) (dv : DV).

Section Service.
Context (cf : lfsConf) (clock : nat -> Z).

(** ** getDataProcess *)

(** A bucket of the user's own. *)
Definition getDataProcess bu : M lfsSt (dataProcess DV) :=
  let bid := bki_BucketID (bu_BucketInfo bu) in
  let! dps := gets l_dps in
  match dps !! bid with
  | Some dp => ret dp
  | None =>
      let bo := bu_BucketOption bu in
      let! coder := of_outcome (NewDataCoder (DV := DV) (bo_Version bo) (bo_Policy bo) (bo_DataCount bo) (bo_ParityCount bo) (bo_TagFlag bo) (bo_SegSize bo)) in
      let dp := mkDataProcess bid (bo_DataCount bo) (bo_ParityCount bo) (bo_SegSize bo * bo_DataCount bo) (lf_fsID cf) coder in
      do! modify (set_l_dps <[bid := dp]>);
      ret dp
  end.

(** ** Encryption of a stripe *)

(** The key of the object's encryption; None: the stripe is not encrypted. *)
Definition stripe_key (bucketID : Z) ob (stripeID : Z) : option bytes :=
  let enc := oin_Encryption (lo_ObjectInfo ob) in
  let objectID := oin_ObjectID (lo_ObjectInfo ob) in
  if bool_decide (enc = "aes") then Some (ContructAesKey [] bucketID objectID stripeID)
  else if bool_decide (enc = "aes1") then Some (ContructAesKey (lf_encryptKey cf) bucketID MaxUint64 MaxUint64)
  else if bool_decide (enc = "aes2") then Some (ContructAesKey (lf_encryptKey cf) bucketID objectID MaxUint64)
  else if bool_decide (enc = "aes3") then Some (ContructAesKey (lf_encryptKey cf) bucketID objectID stripeID)
  else None.

Definition encrypt_stripe (key : option bytes) (buf : bytes) : outcome bytes :=
  match key with
  | None => Ok buf
  | Some key =>
      let buf := if (length buf mod BlockSize =? 0)%nat then buf else PKCS5Padding buf in
      match ContructAesMode key with Some mode => EncryptBlocks mode buf | None => Err "keysize must be 32" end
  end.
Definition decrypt_stripe (key : option bytes) (res : bytes) : outcome bytes :=
  match key with
  | None => Ok res
  | Some key => match ContructAesMode key with Some mode => DecryptBlocks mode res | None => Err "keysize must be 32" end
  end.

(** ** upload *)

(** A reader: what is left, and the error it ends with; None is io.EOF. *)
Definition reader : Type := bytes * option string.

(** io.ReadAtLeast(r, rdata[:n], n): the data, the reader after it, whether it has
    come to its end, or its error. *)
Definition ReadAtLeast (n : nat) (r : reader) : outcome (bytes * reader * bool) :=
  if (n <=? length r.1)%nat then Ok (take n r.1, (drop n r.1, r.2), false)
  else match r.2 with None => Ok (r.1, ([], None), true) | Some e => Err e end.

(** The variables of the loop; [up_written]: what the digest has been fed. *)
Record upSt := mkUpSt {
  up_stripeCount : Z; up_sendCount : Z; up_rawLen : Z; up_opID : Z; up_curStripe : Z; up_written : bytes; up_dv : DV }.

(** A method of the verifier, which is a local variable. *)
Definition dv_run {S A} (m : M DV A) dv : M S (A * DV) := fun s =>
  match m dv with (Ok a, dv) => (Ok (a, dv), s) | (Err e, _) => (Err e, s) | (Panic w, _) => (Panic w, s) end.

(** Chunk [i]: its content and first tag are added to the verifier, and it is put. *)
Definition put_chunk (encoded : list bytes) (stripeID : bytes) dv (i : nat) : M busySt DV :=
  match encoded !! i with
  | None => panic "index out of range"
  | Some chunk =>
      let segID := SetChunkID (Z.of_nat i) stripeID in
      let seg := mkBaseSegment segID chunk in
      let! segData := of_option (BaseSegment_Content seg) "content" in
      let! segTag := of_option (BaseSegment_Tags seg) "tags" in
      match segTag with
      | [] => panic "index out of range"
      | tag :: _ =>
          let! r := dv_run (ck_Add segID segData tag) dv in
          do! on_l (modify (set_l_segs <[segID := chunk]>));
          ret r.2
      end
  end.

Definition put_stripe dp (segID : bytes) (p : nat) (buf : bytes) (up : upSt) : M busySt upSt :=
  let! ob := the_obj p in
  let stripeID := u64 (up_curStripe up + up_stripeCount up) in
  let! enc := of_outcome (encrypt_stripe (stripe_key (dp_bucketID dp) ob stripeID) buf) in
  let segID := SetStripeID stripeID segID in
  let! encoded := of_outcome (Encode (dp_coder dp) segID enc) in
  let! dv := for_fold (seq 0 (Z.to_nat (dp_dataCount dp + dp_parityCount dp))) (up_dv up) (put_chunk encoded segID) in
  ret (mkUpSt (up_stripeCount up + 1) (up_sendCount up + 1) (up_rawLen up + Z.of_nat (length buf)) (up_opID up) (up_curStripe up) (up_written up ++ buf) dv).

(** The job of the part, stored and sent to the order manager. *)
Definition part_job (p : nat) (up : upSt) : M busySt unit :=
  let! ob := the_obj p in
  let! bu := the_bu in
  let cc := u32 (bo_DataCount (bu_BucketOption bu) + bo_ParityCount (bu_BucketOption bu)) in
  let bid := oin_BucketID (lo_ObjectInfo ob) in
  let! data := of_option (marshal (mkSegJob (up_opID up) bid (up_curStripe up) (u64 (up_stripeCount up)) cc)) "serialize" in
  do! on_l (lfs_Put (OpJobsKey (lf_userID cf) bid (up_opID up)) data);
  on_l (modify (set_l_jobs (fun js => js ++
    [mkSegJob (up_opID up) bid (u64 (up_curStripe up + (up_stripeCount up - up_sendCount up))) (u64 (up_sendCount up)) cc]))).

Definition used_bytes dp (stripeCount : Z) : Z :=
  u64 (Z.quot (i64 (dp_stripeSize dp * (dp_dataCount dp + dp_parityCount dp) * stripeCount)) (dp_dataCount dp)).

(** A part of the object, from the stripes since the last one. *)
Definition add_part dp (userDefined : gmap string string) (p : nat) (up : upSt) : M busySt upSt :=
  match ck_Result (up_dv up) with
  | Ok true =>
      do! part_job p up;
      let! ob := the_obj p in
      let etagb := ll_digest userDefined (up_written up) in
      let usedBytes := used_bytes dp (up_stripeCount up) in
      let! t := on_l (time_Now clock) in
      let opi := mkObjectPartInfo (oin_ObjectID (lo_ObjectInfo ob)) (u64 (up_rawLen up)) (u64 (dp_stripeSize dp * up_curStripe up)) usedBytes t etagb in
      let! payload := of_option (marshal opi) "marshal" in
      do! on_info (set_bki_Length (fun n => u64 (n + u64 (dp_stripeSize dp * up_stripeCount up))));
      do! on_info (set_bki_UsedBytes (fun n => u64 (n + usedBytes)));
      let! opid := addOpRecord cf clock OpRecord_AddData payload in
      do! object_op cf p opid (addPartInfo opi);
      ret (mkUpSt 0 0 0 (u64 (up_opID up + 1)) (u64 (up_curStripe up + up_stripeCount up)) (up_written up) (ck_Reset (up_dv up)))
  | Panic w => panic w
  | _ => throw "encode data is wrong"
  end.

(** The loop: an empty read leaves it before the stripes that are waiting are made a
    part. *)
Fixpoint upload_loop (fuel : nat) dp userDefined (segID : bytes) (p : nat) (r : reader) (up : upSt) : M busySt unit :=
  match fuel with
  | O => panic "fuel"
  | S fuel =>
      let! read := of_outcome (ReadAtLeast (Z.to_nat (dp_stripeSize dp)) r) in
      let '(buf, r, breakFlag) := read in
      if (length buf =? 0)%nat then ret tt
      else
        let! up := put_stripe dp segID p buf up in
        let! up := (if (16 <=? up_sendCount up) || breakFlag then add_part dp userDefined p up else ret up) in
        if breakFlag then ret tt else upload_loop fuel dp userDefined segID p r up
  end.

(** Every round but the last takes a stripe: one more than the length is enough. *)
Definition upload (p : nat) (userDefined : gmap string string) (r : reader) : M busySt unit :=
  let! bu := the_bu in
  let! dp := on_l (getDataProcess bu) in
  let! dv := of_option ck_NewVerifier "verifier" in
  if dp_stripeSize dp =? 0 then panic "integer divide by zero"
  else
    let curStripe := bki_Length (bu_BucketInfo bu) / dp_stripeSize dp in
    let! segID := of_option (NewSegmentID (dp_fsID dp) (dp_bucketID dp) 0 0) "segment length is wrong" in
    upload_loop (S (length r.1)) dp userDefined segID p r
      (mkUpSt 0 0 0 (bki_NextOpID (bu_BucketInfo bu)) curStripe [] dv).

(** ** PutObject *)

(** The balance test; the message of the refusal is the difference, which is stored
    into the amount itself. *)
Definition check_balance : M lfsSt unit :=
  let! need := gets l_needPay in
  let! bal := gets l_bal in
  if need <=? bal then ret tt
  else do! modify (set_l_needPay (fun n => n - bal)); throw "not have enough balance".

(** The states of the jobs of the parts. *)
Definition refresh_state (p : nat) : M busySt unit :=
  let! ob := the_obj p in
  match part_ops ob with
  | None => panic "slice bounds out of range"
  | Some ops =>
      let! ds := on_l (gets l_ds) in
      on_obj p (set_state (job_state cf ds (oin_BucketID (lo_ObjectInfo ob)) ops))
  end.

(** [metaFree], [dataFree]: the space left; [uuid]: a fresh name for an object without
    one.  The object's meta message (MEFS_META_UPLOAD) is left out. *)
Definition PutObject (metaFree dataFree : Z) (uuid : string) (bucketName objectName : string) (userDefined : gmap string string) (r : reader)
    : M lfsSt object :=
  do! acquire 10;
  do! Writeable;
  do! check_balance;
  do! check (2^30 <=? metaFree) "meta space left is not enough";
  do! check (10 * 2^30 <=? dataFree) "data space left is not enough";
  let replaceName := bool_decide (objectName = "") in
  let objectName := if replaceName then uuid else objectName in
  do! check (ll_object_name objectName) "object name is invalid";
  let! bid := getBucketInfo bucketName in
  let! sb := gets l_sb in
  with_bucket bid (
    let! bu := the_bu in
    do! check (bki_BucketID (bu_BucketInfo bu) <? sb_bucketVerify sb) "bucket is confirming";
    do! check (bu_writable bu) "bucket is read only now";
    let! p := createObject cf clock objectName userDefined in
    do! upload p userDefined r;
    do! (if replaceName then
           let! ob := the_obj p in
           let! newName := of_option (etag_ToString (lo_ETag ob)) "etag" in
           let! _ := try_err (renameObject cf clock p newName) in ret tt
         else ret tt);
    let! ob := the_obj p in
    do! cache_etag ob;
    do! refresh_state p;
    the_obj p).

(** ** download *)

(** [getSegment]: from the local store, or else from a provider; [remote] is what the
    network gives. *)
Definition getSegment (remote : bytes -> option bytes) (segID : bytes) : M lfsSt (option bytes) :=
  let! segs := gets l_segs in
  ret (match segs !! segID with Some d => Some d | None => remote segID end).
Definition DeleteSegment (segID : bytes) : M lfsSt unit := modify (set_l_segs (delete segID)).

(** What the rounds count: successes, failures, the stripe and the verifier. *)
Record gatherSt := mkGatherSt { ga_suc : nat; ga_fail : nat; ga_stripe : list bytes; ga_dv : DV }.

(** Chunks are asked for until [dc] have come or more than [pc] have failed. *)
Fixpoint gather (dc pc : nat) (ask : gatherSt -> nat -> M lfsSt gatherSt) (chunks : list nat) (g : gatherSt) : M lfsSt gatherSt :=
  match chunks with
  | [] => ret g
  | i :: chunks =>
      if (pc <? ga_fail g)%nat then ret g
      else if (dc <=? ga_suc g)%nat then ret g
      else let! g := ask g i in gather dc pc ask chunks g
  end.

Definition ga_failed g : gatherSt := mkGatherSt (ga_suc g) (S (ga_fail g)) (ga_stripe g) (ga_dv g).

(** The first round: the chunk is added to the verifier of the stripe. *)
Definition ask_first (remote : bytes -> option bytes) (stripeID : bytes) (g : gatherSt) (i : nat) : M lfsSt gatherSt :=
  let segID := SetChunkID (Z.of_nat i) stripeID in
  let! d := getSegment remote segID in
  match d with
  | None => ret (ga_failed g)
  | Some d =>
      match BaseSegment_Content (mkBaseSegment segID d), BaseSegment_Tags (mkBaseSegment segID d) with
      | Some da, Some tags =>
          match tags with
          | [] => panic "index out of range"
          | tag :: _ =>
              match ck_Add segID da tag (ga_dv g) with
              | (Ok _, dv) => ret (mkGatherSt (S (ga_suc g)) (ga_fail g) (<[i := d]> (ga_stripe g)) dv)
              | (Err _, dv) => ret (mkGatherSt (ga_suc g) (S (ga_fail g)) (ga_stripe g) dv)
              | (Panic w, _) => panic w
              end
          end
      | _, _ => ret (ga_failed g)
      end
  end.

(** The second round: chunk by chunk, and a bad one is deleted. *)
Definition ask_again dp (remote : bytes -> option bytes) (stripeID : bytes) (g : gatherSt) (i : nat) : M lfsSt gatherSt :=
  let segID := SetChunkID (Z.of_nat i) stripeID in
  let have := nth i (ga_stripe g) [] in
  let good d := match VerifyChunk (dp_coder dp) segID d with Ok true => true | _ => false end in
  let fetch g :=
    let! d := getSegment remote segID in
    match d with
    | None => ret (ga_failed g)
    | Some d =>
        if good d then ret (mkGatherSt (S (ga_suc g)) (ga_fail g) (<[i := d]> (ga_stripe g)) (ga_dv g))
        else do! DeleteSegment segID; ret (ga_failed g)
    end in
  if (length have =? 0)%nat then fetch g
  else if good have then ret (mkGatherSt (S (ga_suc g)) (ga_fail g) (ga_stripe g) (ga_dv g))
  else do! DeleteSegment segID; fetch (mkGatherSt (ga_suc g) (ga_fail g) (<[i := []]> (ga_stripe g)) (ga_dv g)).

(** The chunks of a stripe; [remote2]: the network after the places of the segments
    have been asked for. *)
Definition gather_stripe dp (remote remote2 : bytes -> option bytes) (stripeID : bytes) dv : M lfsSt (list bytes * DV) :=
  let dc := Z.to_nat (dp_dataCount dp) in
  let pc := Z.to_nat (dp_parityCount dp) in
  let chunks := seq 0 (dc + pc) in
  let! g := gather dc pc (ask_first remote stripeID) chunks (mkGatherSt 0 0 (replicate (dc + pc) []) (ck_Reset dv)) in
  let! ok := (if (dc <=? ga_suc g)%nat then match ck_Result (ga_dv g) with Ok b => ret b | Err _ => ret false | Panic w => panic w end
              else ret false) in
  if (ok : bool) then ret (ga_stripe g, ga_dv g)
  else
    let! g := gather dc pc (ask_again dp remote2 stripeID) chunks (mkGatherSt 0 0 (ga_stripe g) (ga_dv g)) in
    do! check (dc <=? ga_suc g)%nat "download not get enough chunks";
    ret (ga_stripe g, ga_dv g).

(** Stripe [stripeID] of the bucket, decoded and decrypted. *)
Definition read_stripe dp (visit : list nat -> list nat) (remote remote2 : bytes -> option bytes) (bid : Z) ob (stripeID : Z) dv : M lfsSt (bytes * DV) :=
  let! segID := of_option (NewSegmentID (dp_fsID dp) bid (u64 stripeID) 0) "segment length is wrong" in
  let! g := gather_stripe dp remote remote2 segID dv in
  let! res := of_outcome (Decode (dp_coder dp) visit None (mkCoderSt g.1 g.2)).1 in
  let! res := of_outcome (decrypt_stripe (stripe_key (dp_bucketID dp) ob (u64 stripeID)) res) in
  ret (res, g.2).

(** The loop; what is written. *)
Fixpoint download_loop (fuel : nat) dp visit remote remote2 (bid : Z) ob (start length_ received : Z) dv : M lfsSt (bytes * DV) :=
  match fuel with
  | O => panic "fuel"
  | S fuel =>
      let! res := read_stripe dp visit remote remote2 bid ob (start / dp_stripeSize dp) dv in
      let off := start mod dp_stripeSize dp in
      let rLen := Z.min (dp_stripeSize dp - off) (length_ - received) in
      if Z.of_nat (length res.1) <? off + rLen then panic "slice bounds out of range"
      else
        let out := slice (Z.to_nat off) (Z.to_nat (off + rLen)) res.1 in
        if length_ <=? received + rLen then ret (out, res.2)
        else
          let! rest := download_loop fuel dp visit remote remote2 bid ob (start + rLen) length_ (received + rLen) res.2 in
          ret (out ++ rest.1, rest.2)
  end.

(** Every round gives a byte. *)
Definition download dp visit remote remote2 (bid : Z) ob (start length_ : Z) dv : M lfsSt (bytes * DV) :=
  if dp_stripeSize dp =? 0 then panic "integer divide by zero"
  else download_loop (S (Z.to_nat length_)) dp visit remote remote2 bid ob start length_ 0 dv.

(** The loop over the parts. *)
Fixpoint read_parts dp visit remote remote2 (bid : Z) ob (readStart readLength : Z) (accLen rLen : Z) dv (parts : list ObjectPartInfo) : M lfsSt bytes :=
  match parts with
  | [] => ret []
  | part :: parts =>
      let len := part_Length part in
      if u64 (accLen + len) <=? u64 readStart then read_parts dp visit remote remote2 bid ob readStart readLength (u64 (accLen + len)) rLen dv parts
      else
        let head := if accLen <? u64 readStart then u64 (u64 readStart - accLen) else 0 in
        let tail_ := if u64 (readStart + readLength) <? u64 (accLen + len) then u64 (accLen + len - u64 (readStart + readLength)) else 0 in
        let partStart := u64 (part_Offset part + head) in
        let partLength := u64 (len - head - tail_) in
        let! out := download dp visit remote remote2 bid ob (i64 partStart) (i64 partLength) dv in
        let rLen := u64 (rLen + partLength) in
        let accLen := u64 (accLen + len) in
        if (u64 readLength <=? rLen) || (u64 (readStart + readLength) <=? accLen) then ret out.1
        else
          let! rest := read_parts dp visit remote remote2 bid ob readStart readLength accLen rLen out.2 parts in
          ret (out.1 ++ rest)
  end.

(** An object of the user's own. *)
Definition downloadObject visit remote remote2 bu ob (start length_ : Z) : M lfsSt bytes :=
  do! check (negb (lo_deletion ob)) "object is deleted";
  do! check (negb (lo_Size ob =? 0)) "object is empty";
  do! check (negb ((i64 (lo_Size ob) <? start) || (i64 (lo_Size ob) <? i64 (start + length_)))) "out of object size";
  let! dp := getDataProcess bu in
  let! dv := of_option ck_NewVerifier "verifier" in
  let readLength := if length_ <? 0 then i64 (u64 (lo_Size ob - u64 start)) else length_ in
  do! check (negb (readLength =? 0)) "read length is zero";
  read_parts dp visit remote remote2 (bki_BucketID (bu_BucketInfo bu)) ob start readLength 0 0 dv (lo_Parts ob).

Definition getObject visit remote remote2 (bucketName objectName : string) (start length_ : Z) : M lfsSt bytes :=
  let! bid := getBucketInfo bucketName in
  let! sb := gets l_sb in
  match sb_buckets sb !! Z.to_nat bid with
  | None => panic "index out of range"
  | Some bu =>
      do! check (ll_object_name objectName) "object name is invalid";
      let! p := of_option (tr_Find objectName (bu_objectTree bu)) "object not exist" in
      match bu_heap bu !! p with
      | None => panic "nil pointer dereference"
      | Some ob => downloadObject visit remote remote2 bu ob start length_
      end
  end.

(** By name. *)
Definition GetObject visit remote remote2 (memory : bool) (bucketName objectName : string) (start length_ : Z) : M lfsSt bytes :=
  do! acquire 2;
  do! check ((length_ <=? 512 * 1024 * 1024) || memory) "size is too large, memory is not enough";
  getObject visit remote remote2 bucketName objectName start length_.
End Service.
End LfsData.
