(* ===== verification/LfsRead.v ===== *)
(** * LfsRead: what is read is what was laid out

    A stripe of which enough chunks can be had is read back; so is any range of an
    object whose parts are laid out in such stripes. *)

From S2P Require Import Prelude GoMonad Codec Keys Segments SegmentID Types Tx Fr StateTypes Coder CoderProps UserOrder UserSend UserJobs Aes Lfs LfsData.

(** The verifier of tags: it accepts what has been tagged. *)
Class VerifierLaws {DV} `{!CoderKeys DV} := {
  dv_clean : DV -> Prop;    (** nothing but good tags, or nothing *)
  dv_proves : DV -> Prop;   (** good tags, at least one *)
  dv_new v : ck_NewVerifier = Some v -> dv_clean v;
  dv_reset v : dv_clean (ck_Reset v);
  dv_add v index data tag : dv_clean v -> ck_GenTag index data = Some tag -> exists v2, ck_Add index data tag v = (Ok tt, v2) /\ dv_proves v2;
  dv_proves_clean v : dv_proves v -> dv_clean v;
  dv_result v : dv_proves v -> ck_Result v = Ok true;
}.

(** ** Segment identifiers *)

Lemma put_at_app (a b c : bytes) n v : length b = n -> put_at (length a) n v (a ++ b ++ c) = a ++ put_be n v ++ c.
Proof.
  intros <-. unfold put_at. rewrite take_app_length. f_equal. f_equal. rewrite drop_app_ge by lia.
  replace (length a + length b - length a)%nat with (length b) by lia. by rewrite drop_app_length.
Qed.
Lemma SetChunkID_Create f b s c i : SetChunkID i (CreateSegmentID f b s c) = CreateSegmentID f b s i.
Proof.
  unfold SetChunkID, CreateSegmentID.
  pose proof (put_at_app ((copy_into FSID_LEN f ++ put_be 8 b) ++ put_be 8 s) (put_be 4 c) [] 4 i) as E. rewrite !app_nil_r in E.
  rewrite !length_app, length_copy_into, !length_put_be in E. rewrite <-!app_assoc in E. exact (E eq_refl).
Qed.
Lemma SetStripeID_Create f b s c i : SetStripeID i (CreateSegmentID f b s c) = CreateSegmentID f b i c.
Proof.
  unfold SetStripeID, CreateSegmentID. pose proof (put_at_app (copy_into FSID_LEN f ++ put_be 8 b) (put_be 8 s) (put_be 4 c) 8 i) as E.
  rewrite !length_app, length_copy_into, !length_put_be in E. rewrite <-!app_assoc in E. exact (E eq_refl).
Qed.

(** ** Chunks up to the one that was enough *)

Definition upto (j : nat) (keep : list bool) : list bool := take j keep ++ replicate (length keep - j) false.
Lemma length_upto j keep : length (upto j keep) = length keep.
Proof. unfold upto. rewrite length_app, length_take, length_replicate. lia. Qed.
Lemma kept_none n : kept (replicate n false) = 0%nat.
Proof. induction n as [|n IH]; [done|]. unfold kept in *. simpl. exact IH. Qed.
Lemma kept_upto j keep : kept (upto j keep) = kept (take j keep).
Proof. unfold upto. rewrite kept_app, kept_none. lia. Qed.
Lemma kept_take_S j keep b : (j < length keep)%nat -> nth j keep false = b -> kept (take (S j) keep) = (kept (take j keep) + if b then 1 else 0)%nat.
Proof.
  intros Hj Hb. rewrite (take_S_r _ _ b); [rewrite kept_app; by destruct b|].
  apply (nth_lookup_Some _ _ false) || (destruct (nth_lookup_or_length keep j false) as [E|E]; [by rewrite E, Hb|lia]).
Qed.
Lemma erase_none (l : list bytes) : erase (replicate (length l) false) l = replicate (length l) [].
Proof. induction l as [|x l IH]; [done|]. unfold erase in *. simpl. by f_equal. Qed.
Lemma erase_upto_S j keep (l : list bytes) : length keep = length l -> (j < length l)%nat ->
  erase (upto (S j) keep) l = if nth j keep false then <[j := nth j l []]> (erase (upto j keep) l) else erase (upto j keep) l.
Proof.
  revert j keep. induction l as [|x l IH]; intros j [|b keep] E Hj; try done; [simpl in Hj; lia|]. injection E as E. destruct j as [|j].
  - unfold upto. simpl. rewrite Nat.sub_0_r. unfold erase. simpl. by destruct b.
  - simpl nth. specialize (IH j keep E ltac:(simpl in Hj; lia)). unfold upto in *. cbn [take length app Nat.sub]. unfold erase in *. cbn [zip_with app].
    rewrite IH. by destruct (nth j keep false).
Qed.

Section LfsRead.
Context `{!StateEnv, !SegBits, !Codec SegJob, !Codec segJobStateStored, !LfsCodecs, !NameTree, !LfsLibs, !AesEnv}.
Context {DV : Type} `{!ReedSolomon, !CoderKeys DV, !RSLaws, !KeyLaws, !VerifierLaws, !AesLaws}.
Notation lfsSt := (lfsSt (DV := DV)).
Implicit Types (l : lfsSt) (bu : bucket) (ob : object) (dp : dataProcess DV) (dv : DV) (buf content : bytes).
Section Service.
Context (cf : lfsConf) (clock : nat -> Z).

Definition stripe_len dp : nat := (dcd_dc (dp_coder dp) * dcd_seg (dp_coder dp))%nat.

Record dp_ok dp : Prop := mkDpOk {
  dpo_coder : coder_ok (dp_coder dp);
  dpo_size : dp_stripeSize dp = Z.of_nat (stripe_len dp);
  dpo_dc : dp_dataCount dp = Z.of_nat (dcd_dc (dp_coder dp));
  dpo_pc : dp_parityCount dp = Z.of_nat (dcd_pc (dp_coder dp));
  dpo_fs : length (dp_fsID dp) = FSID_LEN;
  dpo_blocks : (stripe_len dp mod BlockSize = 0)%nat;
}.

Lemma stripe_len_pos dp : dp_ok dp -> (0 < stripe_len dp)%nat.
Proof. intros Hdp. destruct (coder_ok_sizes _ (dpo_coder _ Hdp)). unfold stripe_len. nia. Qed.

(** ** Encryption *)

Lemma stripe_key_len bid ob s key : stripe_key cf bid ob s = Some key -> length key = 32%nat.
Proof. unfold stripe_key, ContructAesKey. repeat (destruct (bool_decide _); [intros [= <-]; apply blake3_len|]). done. Qed.

Lemma length_cbc_dec n key iv data : length iv = 16%nat -> length data = (n * 16)%nat -> length (cbc_dec n key iv data) = (n * 16)%nat.
Proof.
  revert iv data. induction n as [|n IH]; intros iv data Hiv Hd; [done|]. cbn [cbc_dec].
  assert (Hc : length (take BlockSize data) = 16%nat) by (rewrite length_take; unfold BlockSize; lia).
  rewrite length_app, IH; [|done|rewrite length_drop; unfold BlockSize; lia]. rewrite length_xor by (rewrite aes_block_dec; done). rewrite aes_block_dec by done. lia.
Qed.

(** A padded stripe decrypts to the data and something after it. *)
Lemma decrypt_encrypt bid ob s buf enc n : encrypt_stripe (stripe_key cf bid ob s) buf = Ok enc ->
  (length enc <= n)%nat -> (n mod BlockSize = 0)%nat ->
  exists res, decrypt_stripe (stripe_key cf bid ob s) (copy_into n enc) = Ok res /\ length res = n /\ take (length buf) res = buf.
Proof.
  intros He Hn Hblk. destruct (stripe_key cf bid ob s) as [key|] eqn:Hkey; cbn [encrypt_stripe decrypt_stripe] in *.
  2: { injection He as <-. eexists. split; [reflexivity|]. split; [apply length_copy_into|]. unfold copy_into. rewrite (take_ge buf n) by lia. by rewrite take_app_length. }
  pose proof (stripe_key_len _ _ _ _ Hkey) as Hk. unfold ContructAesMode in *. rewrite Hk in *. cbn [negb Nat.eqb KeySize] in *.
  set (iv := take BlockSize (blake3_Sum256 key)) in *. assert (Hiv : length iv = 16%nat) by (unfold iv; rewrite length_take, blake3_len; done).
  set (pad := if (length buf mod BlockSize =? 0)%nat then buf else PKCS5Padding buf) in *.
  assert (Hpad : take (length buf) pad = buf) by (unfold pad, PKCS5Padding; destruct (_ =? _)%nat; [by rewrite take_ge|by rewrite take_app_length]).
  unfold EncryptBlocks, DecryptBlocks, CryptBlocks in *. destruct (negb (length pad mod BlockSize =? 0)%nat) eqn:Hm; [done|].
  apply negb_false_iff, Nat.eqb_eq in Hm. unfold BlockSize in Hm, Hblk.
  assert (Ee : enc = cbc_enc (length pad / 16) key iv pad) by (by injection He). clear He. subst enc.
  assert (Hpl : length pad = (length pad / 16 * 16)%nat) by (pose proof (Nat.div_mod_eq (length pad) 16); lia).
  assert (Hnl : n = (n / 16 * 16)%nat) by (pose proof (Nat.div_mod_eq n 16); lia).
  change BlockSize with 16%nat in *. pose proof (length_cbc_enc (length pad / 16) key iv pad Hiv Hpl) as Hel.
  rewrite length_copy_into, Hblk. change (negb (0 =? 0)%nat) with false. cbv iota. change ((key, iv).1) with key. change ((key, iv).2) with iv. eexists. split; [reflexivity|]. split; [rewrite length_cbc_dec; rewrite ?length_copy_into; lia|].
  unfold copy_into. rewrite (take_ge (cbc_enc _ _ _ _)) by lia. rewrite Hel in Hn |- *.
  replace (n / 16)%nat with (length pad / 16 + (n / 16 - length pad / 16))%nat by lia.
  assert (Hle : (length buf <= length pad)%nat) by (rewrite <-Hpad, length_take; lia).
  pose proof (cbc_prefix (length pad / 16) (n / 16 - length pad / 16) key iv pad (replicate (n - length pad / 16 * 16) (byte_of_Z 0)) Hiv Hpl) as Hc.
  rewrite <-Hpl in Hc |- *. set (X := cbc_dec _ _ _ _) in *.
  assert (E : take (length buf) X = take (length buf) (take (length pad) X)) by (rewrite take_take; f_equal; lia). by rewrite E, Hc.
Qed.

(** ** Stripes *)

Definition seg_id dp (bid s : Z) (i : nat) : bytes := CreateSegmentID (dp_fsID dp) bid s (Z.of_nat i).
Definition have l (remote : bytes -> option bytes) (id : bytes) : option bytes :=
  match l_segs l !! id with Some d => Some d | None => remote id end.

(** The chunks made of the data of a stripe. *)
Definition stripe_cut dp ob (bid s : Z) buf (chunks : list bytes) : Prop :=
  exists enc, encrypt_stripe (stripe_key cf (dp_bucketID dp) ob s) buf = Ok enc /\ Encode (dp_coder dp) (CreateSegmentID (dp_fsID dp) bid s 0) enc = Ok chunks.

(** Enough of them can be had, and the others not. *)
Definition readable l remote dp ob (bid s : Z) buf : Prop :=
  exists chunks keep, stripe_cut dp ob bid s buf chunks /\ length keep = length chunks /\ (dcd_dc (dp_coder dp) <= kept keep)%nat /\
    forall i, (i < length chunks)%nat -> have l remote (seg_id dp bid s i) = if nth i keep false then Some (nth i chunks []) else None.

Section Stripe.
Context l (remote : bytes -> option bytes) dp (Hdp : dp_ok dp) (bid s : Z) (name enc : bytes) (chunks : list bytes) (keep : list bool).
Hypotheses (Hname : name = CreateSegmentID (dp_fsID dp) bid s 0) (Henc : Encode (dp_coder dp) name enc = Ok chunks)
  (Hkeep : length keep = length chunks) (Henough : (dcd_dc (dp_coder dp) <= kept keep)%nat)
  (Hhave : forall i, (i < length chunks)%nat -> have l remote (seg_id dp bid s i) = if nth i keep false then Some (nth i chunks []) else None).
Notation d := (dp_coder dp).

Lemma chunks_len : length chunks = (dcd_dc d + dcd_pc d)%nat.
Proof. destruct (Encode_tagged _ _ _ _ (dpo_coder _ Hdp) Henc) as [E _]. rewrite E. apply (coder_ok_sizes _ (dpo_coder _ Hdp)). Qed.

Lemma getSegment_have id : getSegment remote id l = (Ok (have l remote id), l).
Proof. done. Qed.

(** One chunk of the first round. *)
Lemma ask_first_run i suc fail dv : (i < length chunks)%nat -> dv_clean dv ->
  exists dv2, ask_first remote name (mkGatherSt suc fail (erase (upto i keep) chunks) dv) i l =
    (Ok (mkGatherSt (suc + if nth i keep false then 1 else 0) (fail + if nth i keep false then 0 else 1) (erase (upto (S i) keep) chunks) dv2), l) /\
    dv_clean dv2 /\ (if nth i keep false then dv_proves dv2 else dv2 = dv).
Proof.
  intros Hi Hdv. unfold ask_first. rewrite Hname, SetChunkID_Create. fold (seg_id dp bid s i). rewrite (bind_run _ _ _ _ _ (getSegment_have _)), (Hhave i Hi).
  rewrite (erase_upto_S i keep chunks Hkeep Hi). destruct (nth i keep false).
  - destruct (Encode_tagged _ _ _ _ (dpo_coder _ Hdp) Henc) as (El & _ & Htag).
    destruct (Htag i (seg_id dp bid s i) ltac:(by rewrite <-El)) as (seg & tag & rest & Hc & Ht & Hg). rewrite Hc, Ht.
    rewrite Hname, SetChunkID_Create in Hg. destruct (dv_add dv _ _ _ Hdv Hg) as (dv2 & Ea & Hp). unfold seg_id. cbn [ga_dv]. rewrite Ea. exists dv2.
    split; [|split; [by apply dv_proves_clean|done]]. cbn [ga_suc ga_fail ga_stripe]. by rewrite Nat.add_1_r, Nat.add_0_r.
  - exists dv. unfold ga_failed. cbn [ga_suc ga_fail ga_stripe ga_dv]. by rewrite Nat.add_1_r, Nat.add_0_r.
Qed.

(** The round from chunk [i] on. *)
Lemma gather_first n i suc fail dv : (i + n = length chunks)%nat -> suc = kept (take i keep) -> (suc + fail = i)%nat -> dv_clean dv ->
  (0 < suc -> dv_proves dv)%nat ->
  exists j suc2 fail2 dv2, (j <= length keep)%nat /\
    gather (dcd_dc d) (dcd_pc d) (ask_first remote name) (seq i n) (mkGatherSt suc fail (erase (upto i keep) chunks) dv) l =
      (Ok (mkGatherSt suc2 fail2 (erase (upto j keep) chunks) dv2), l) /\
    suc2 = kept (take j keep) /\ (dcd_dc d <= suc2)%nat /\ dv_proves dv2.
Proof.
  pose proof chunks_len as Hcl. pose proof (coder_ok_sizes _ (dpo_coder _ Hdp)) as Hz. pose proof (cz_dc _ Hz) as Hdc1.
  revert i suc fail dv. induction n as [|n IH]; intros i suc fail dv Hin Hs Hf Hdv Hp.
  - assert (Hi : take i keep = keep) by (apply take_ge; lia). rewrite Hi in Hs. exists i, suc, fail, dv. cbn [seq gather]. rewrite Hi. split; [lia|]. split; [done|].
    split; [done|]. split; [lia|apply Hp; lia].
  - cbn [seq gather ga_fail ga_suc].
    assert (Hk : (kept keep <= kept (take i keep) + (length keep - i))%nat).
    { rewrite <-(take_drop i keep) at 1. rewrite kept_app. pose proof (kept_le (drop i keep)) as Hd. rewrite length_drop in Hd. lia. }
    replace (dcd_pc d <? fail)%nat with false by (symmetry; apply Nat.ltb_ge; lia).
    destruct (Nat.leb_spec (dcd_dc d) suc) as [Hle|Hlt].
    + exists i, suc, fail, dv. split; [lia|]. split; [done|]. split; [done|]. split; [done|]. apply Hp. lia.
    + destruct (ask_first_run i suc fail dv ltac:(lia) Hdv) as (dv2 & Ea & Hdv2 & Hd2). rewrite (bind_run _ _ _ _ _ Ea).
      apply IH; [lia| |destruct (nth i keep false); lia|done|].
      * rewrite (kept_take_S i keep _ ltac:(lia) eq_refl). by rewrite Hs.
      * destruct (nth i keep false); [done|]. subst dv2. rewrite Nat.add_0_r. exact Hp.
Qed.

Lemma upto_0 : erase (upto 0 keep) chunks = replicate (length chunks) [].
Proof. unfold upto. rewrite Hkeep. cbn [take app]. rewrite Nat.sub_0_r. apply erase_none. Qed.

Lemma gather_stripe_run remote2 dv : exists j dv2, (dcd_dc d <= kept (upto j keep))%nat /\
  gather_stripe dp remote remote2 name dv l = (Ok (erase (upto j keep) chunks, dv2), l) /\ dv_clean dv2.
Proof.
  pose proof chunks_len as Hcl. unfold gather_stripe. rewrite (dpo_dc _ Hdp), (dpo_pc _ Hdp), !Nat2Z.id, <-Hcl, <-upto_0.
  destruct (gather_first (length chunks) 0 0 0 (ck_Reset dv)) as (j & suc2 & fail2 & dv2 & Hj & Er & Hs & Hle & Hp); [done|by rewrite take_0|done|apply dv_reset|lia|].
  rewrite (bind_run _ _ _ _ _ Er). cbn [ga_suc ga_dv ga_stripe]. replace (_ <=? _)%nat with true by (symmetry; by apply Nat.leb_le).
  rewrite (dv_result dv2 Hp). exists j, dv2. rewrite kept_upto, <-Hs. split; [done|]. split; [done|]. by apply dv_proves_clean.
Qed.
End Stripe.

Lemma Encode_fits d name data stripe : Encode d name data = Ok stripe -> (length data <= dcd_dc d * dcd_seg d)%nat.
Proof. unfold Encode. destruct (_ =? 0)%nat; [done|]. destruct (Nat.ltb_spec (dcd_dc d * dcd_seg d) (length data)); done. Qed.

(** The head of what a readable stripe gives is its data. *)
Lemma read_stripe_run l remote remote2 dp visit bid s ob buf dv : dp_ok dp -> is_u64 s -> (forall x, Permutation (visit x) x) ->
  readable l remote dp ob bid s buf ->
  exists res dv2, read_stripe cf dp visit remote remote2 bid ob s dv l = (Ok (res, dv2), l) /\ dv_clean dv2 /\
    length res = stripe_len dp /\ take (length buf) res = buf.
Proof.
  intros Hdp Hs Hvis (chunks & keep & (enc & Henc & Hcut) & Hk & Hle & Hh). unfold read_stripe, NewSegmentID. rewrite (dpo_fs _ Hdp), (u64_id s Hs).
  change (negb (FSID_LEN =? FSID_LEN)%nat) with false. cbv iota.
  set (name := CreateSegmentID (dp_fsID dp) bid s 0) in *. rewrite (bind_run _ _ l name l eq_refl).
  destruct (gather_stripe_run l remote dp Hdp bid s name enc chunks keep eq_refl Hcut Hk Hle Hh remote2 dv) as (j & dv2 & Hj & Eg & Hdv2).
  rewrite (bind_run _ _ _ _ _ Eg). cbn [fst snd].
  pose proof (Decode_enough (dp_coder dp) name enc chunks (upto j keep) visit dv2 (dpo_coder _ Hdp) Hcut ltac:(by rewrite length_upto) Hvis Hj) as Ed.
  rewrite (bind_run _ _ l (stripe_data (dp_coder dp) enc) l) by (unfold of_outcome; by rewrite Ed).
  destruct (decrypt_encrypt (dp_bucketID dp) ob s buf enc (stripe_len dp) Henc) as (res & Er & Hl & Ht); [by eapply Encode_fits|apply Hdp|].
  exists res, dv2. unfold stripe_data. fold (stripe_len dp). rewrite (bind_run _ _ l res l) by (unfold of_outcome; by rewrite Er). done.
Qed.

(** ** Ranges *)

(** Stripe [j] of a content. *)
Definition piece (n j : nat) (content : bytes) : bytes := slice (j * n) ((j + 1) * n) content.

(** The stripes of a content are readable from number [k] on. *)
Definition laid l remote dp ob (bid k : Z) content : Prop :=
  forall j, (j * stripe_len dp < length content)%nat -> readable l remote dp ob bid (k + Z.of_nat j) (piece (stripe_len dp) j content).

Lemma slice_slice (a b c : nat) (x : bytes) : (a <= b)%nat -> (b <= c)%nat -> slice a c x = slice a b x ++ slice b c x.
Proof.
  intros Hab Hbc. unfold slice. replace (c - a)%nat with ((b - a) + (c - b))%nat by lia. rewrite <-take_take_drop. f_equal.
  rewrite drop_drop. f_equal. f_equal. lia.
Qed.
Lemma slice_empty (a : nat) (x : bytes) : slice a a x = [].
Proof. unfold slice. by rewrite Nat.sub_diag. Qed.
Lemma slice_all (x : bytes) : slice 0 (length x) x = x.
Proof. unfold slice. rewrite drop_0, Nat.sub_0_r. by apply take_ge. Qed.
(** A range of a head of [x] is the range of [x]. *)
Lemma slice_head (a b n : nat) (x : bytes) : (b <= n)%nat -> slice a b (take n x) = slice a b x.
Proof. intros Hb. unfold slice. rewrite skipn_firstn_comm, take_take. f_equal. lia. Qed.
Lemma slice_piece (n j a b : nat) (x : bytes) : (a <= b)%nat -> (b <= n)%nat -> slice a b (piece n j x) = slice (j * n + a) (j * n + b) x.
Proof.
  intros Hab Hb. unfold piece, slice at 2. rewrite slice_head by lia. unfold slice. rewrite drop_drop. f_equal. lia.
Qed.
Lemma length_piece (n j : nat) (x : bytes) : length (piece n j x) = Nat.min n (length x - j * n).
Proof. unfold piece, slice. rewrite length_take, length_drop. lia. Qed.

Section Range.
Context l (remote remote2 : bytes -> option bytes) dp (Hdp : dp_ok dp) (visit : list nat -> list nat) (bid : Z) ob.
Hypothesis Hvis : forall x, Permutation (visit x) x.
Notation W := (stripe_len dp).

(** From byte [a] of a content on, [b] bytes. *)
Lemma download_run fuel k content a b received dv : (0 <= k)%Z -> k + Z.of_nat (length content) < 2^63 -> laid l remote dp ob bid k content ->
  (0 < b)%nat -> (a + b <= length content)%nat -> (b < fuel)%nat ->
  exists dv2, download_loop cf fuel dp visit remote remote2 bid ob (Z.of_nat W * k + Z.of_nat a) (received + Z.of_nat b) received dv l
    = (Ok (slice a (a + b) content, dv2), l).
Proof.
  intros Hk Hbig Hlaid. pose proof (stripe_len_pos dp Hdp) as HS. revert a b received dv. induction fuel as [|fuel IH]; intros a b received dv Hb Hab Hf; [lia|].
  cbn [download_loop]. rewrite (dpo_size _ Hdp).
  set (j := (a / W)%nat). set (off := (a mod W)%nat). assert (Ha : a = (j * W + off)%nat) by (unfold j, off; pose proof (Nat.div_mod_eq a W); lia).
  assert (Hoff : (off < W)%nat) by (apply Nat.mod_upper_bound; lia).
  assert (E1 : (Z.of_nat W * k + Z.of_nat a) / Z.of_nat W = k + Z.of_nat j).
  { rewrite Ha. rewrite Nat2Z.inj_add, Nat2Z.inj_mul. replace (Z.of_nat W * k + (Z.of_nat j * Z.of_nat W + Z.of_nat off)) with ((k + Z.of_nat j) * Z.of_nat W + Z.of_nat off) by ring.
    rewrite Z.div_add_l by lia. rewrite Z.div_small by lia. lia. }
  assert (E2 : (Z.of_nat W * k + Z.of_nat a) mod Z.of_nat W = Z.of_nat off).
  { rewrite Ha. rewrite Nat2Z.inj_add, Nat2Z.inj_mul. replace (Z.of_nat W * k + (Z.of_nat j * Z.of_nat W + Z.of_nat off)) with (Z.of_nat off + (k + Z.of_nat j) * Z.of_nat W) by ring.
    rewrite Z.mod_add by lia. apply Z.mod_small. lia. }
  rewrite E1, E2. assert (Hj : (j * W < length content)%nat) by lia.
  destruct (read_stripe_run l remote remote2 dp visit bid (k + Z.of_nat j) ob (piece W j content) dv Hdp) as (res & dv2 & Er & Hd2 & Hl & Ht);
    [split; [lia|]|done|by apply Hlaid|].
  { assert (j <= j * W)%nat by nia. lia. }
  rewrite (bind_run _ _ _ _ _ Er). cbn [fst snd]. set (r := Nat.min (W - off) b).
  replace (Z.min (Z.of_nat W - Z.of_nat off) (received + Z.of_nat b - received)) with (Z.of_nat r) by lia.
  rewrite Hl. replace (_ <? _) with false by (symmetry; apply Z.ltb_ge; lia). rewrite Nat2Z.id, <-Nat2Z.inj_add, Nat2Z.id.
  assert (Hout : slice off (off + r) res = slice a (a + r) content).
  { rewrite <-(slice_head off (off + r) (length (piece W j content)) res) by (rewrite length_piece; lia). rewrite Ht, slice_piece by lia. f_equal; lia. }
  rewrite Hout. destruct (Z.leb_spec (received + Z.of_nat b) (received + Z.of_nat r)) as [Hle|Hlt].
  - exists dv2. assert (r = b) as -> by lia. done.
  - destruct (IH (a + r)%nat (b - r)%nat (received + Z.of_nat r) dv2) as (dv3 & E3); [lia..|].
    replace (a + r + (b - r))%nat with (a + b)%nat in E3 by lia. rewrite Nat2Z.inj_add, Z.add_assoc in E3.
    replace (received + Z.of_nat r + Z.of_nat (b - r)) with (received + Z.of_nat b) in E3 by lia. rewrite (bind_run _ _ _ _ _ E3).
    exists dv3. cbn [fst snd]. by rewrite (slice_slice a (a + r) (a + b)) by lia.
Qed.

(** A part and the content it was made of. *)
Record part_holds (part : ObjectPartInfo) content : Prop := mkPartHolds {
  ph_len : part_Length part = Z.of_nat (length content);
  ph_some : (0 < length content)%nat;
  ph_place : exists k, 0 <= k /\ part_Offset part = Z.of_nat W * k /\ laid l remote dp ob bid k content;
  ph_small : part_Offset part + part_Length part < 2^62;
}.

Lemma download_part part content a b dv : part_holds part content -> (0 < b)%nat -> (a + b <= length content)%nat ->
  exists dv2, download cf dp visit remote remote2 bid ob (i64 (u64 (part_Offset part + Z.of_nat a))) (i64 (Z.of_nat b)) dv l = (Ok (slice a (a + b) content, dv2), l).
Proof.
  intros [Hlen Hsome (k & Hk & Hoff & Hlaid) Hsmall] Hb Hab. pose proof (stripe_len_pos dp Hdp) as HW. unfold download. rewrite (dpo_size _ Hdp).
  replace (Z.of_nat W =? 0) with false by (symmetry; apply Z.eqb_neq; lia).
  assert (k <= Z.of_nat W * k) by nia. rewrite (u64_id (_ + _)) by (unfold is_u64; lia). rewrite !i64_id by lia.
  rewrite Hoff, Nat2Z.id. pose proof (download_run (S b) k content a b 0 dv Hk ltac:(lia) Hlaid Hb Hab ltac:(lia)) as E. by rewrite Z.add_0_l in E.
Qed.

Lemma read_parts_run parts contents A rs rn dv : Forall2 part_holds parts contents -> (0 < rn)%nat -> (A < rs + rn)%nat ->
  (rs + rn <= A + length (concat contents))%nat -> Z.of_nat (A + length (concat contents)) < 2^62 ->
  read_parts cf dp visit remote remote2 bid ob (Z.of_nat rs) (Z.of_nat rn) (Z.of_nat A) (Z.of_nat (A - rs)) dv parts l
    = (Ok (slice (rs - A) (rs + rn - A) (concat contents)), l).
Proof.
  intros HF Hrn. revert A dv. induction HF as [|part c parts contents Hp HF IH]; intros A dv HA Hend Hbig; [simpl in Hend; lia|].
  cbn [concat] in *. rewrite length_app in *. cbn [read_parts]. rewrite (ph_len _ _ Hp).
  rewrite !(u64_id (Z.of_nat rs)), !(u64_id (Z.of_nat rs + Z.of_nat rn)), !(u64_id (Z.of_nat A + _)), (u64_id (Z.of_nat rn)) by (unfold is_u64; lia).
  destruct (Z.leb_spec (Z.of_nat A + Z.of_nat (length c)) (Z.of_nat rs)) as [Hskip|Hin].
  - rewrite <-Nat2Z.inj_add. replace (Z.of_nat (A - rs)) with (Z.of_nat (A + length c - rs)) by lia.
    rewrite IH by lia. rewrite slice_app_skip by lia. do 3 f_equal; lia.
  - set (h := (rs - A)%nat). set (t := (A + length c - (rs + rn))%nat).
    replace (if Z.of_nat A <? Z.of_nat rs then u64 (Z.of_nat rs - Z.of_nat A) else 0) with (Z.of_nat h)
      by (destruct (Z.ltb_spec (Z.of_nat A) (Z.of_nat rs)); [rewrite u64_id by (unfold is_u64; lia)|]; lia).
    replace (if Z.of_nat rs + Z.of_nat rn <? Z.of_nat A + Z.of_nat (length c) then _ else 0) with (Z.of_nat t)
      by (destruct (Z.ltb_spec (Z.of_nat rs + Z.of_nat rn) (Z.of_nat A + Z.of_nat (length c))); [rewrite u64_id by (unfold is_u64; lia)|]; lia).
    set (n := (length c - h - t)%nat). assert (Hn : (0 < n)%nat) by (pose proof (ph_some _ _ Hp); lia).
    rewrite (u64_id (_ - _ - _)) by (unfold is_u64; lia). replace (Z.of_nat (length c) - Z.of_nat h - Z.of_nat t) with (Z.of_nat n) by lia.
    destruct (download_part part c h n dv Hp Hn ltac:(lia)) as (dv2 & E). rewrite (bind_run _ _ _ _ _ E). cbn [fst snd].
    rewrite (u64_id (_ + Z.of_nat n)) by (unfold is_u64; lia).
    destruct (_ || _) eqn:Hdone.
    + assert (Hfin : (rs + rn <= A + length c)%nat) by (apply orb_true_iff in Hdone as [Hd|Hd]; apply Z.leb_le in Hd; lia).
      unfold ret. f_equal. f_equal. unfold slice. rewrite drop_app_le by lia. rewrite take_app_le by (rewrite length_drop; lia). f_equal. lia.
    + apply orb_false_iff in Hdone as [Hd1 Hd2]. apply Z.leb_gt in Hd1, Hd2.
      replace (Z.of_nat (A - rs) + Z.of_nat n) with (Z.of_nat (A + length c - rs)) by lia. rewrite <-Nat2Z.inj_add.
      rewrite (bind_run _ _ _ _ _ (IH (A + length c)%nat dv2 ltac:(lia) ltac:(lia) ltac:(lia))). unfold ret. f_equal. f_equal.
      rewrite (slice_slice (rs - A) (length c) (rs + rn - A)) by lia. f_equal.
      * unfold slice. rewrite drop_app_le by lia. rewrite take_app_le by (rewrite length_drop; lia). f_equal. lia.
      * rewrite slice_app_skip by lia. f_equal; lia.
Qed.
End Range.

(** An object and its content. *)
Definition object_holds l remote dp bid ob content : Prop :=
  exists contents, concat contents = content /\ Forall2 (part_holds l remote dp bid ob) (lo_Parts ob) contents /\
    lo_Size ob = Z.of_nat (length content) /\ lo_deletion ob = false /\ Z.of_nat (length content) < 2^62.

Lemma downloadObject_run l remote remote2 dp visit bu ob content (start length_ : Z) :
  let bid := bki_BucketID (bu_BucketInfo bu) in
  let n := if length_ <? 0 then Z.of_nat (length content) - start else length_ in
  dp_ok dp -> l_dps l !! bid = Some dp -> is_Some (ck_NewVerifier (DV := DV)) -> (forall x, Permutation (visit x) x) ->
  object_holds l remote dp bid ob content -> 0 <= start -> 0 < n -> start + n <= Z.of_nat (length content) -> - 2^62 < length_ ->
  downloadObject cf visit remote remote2 bu ob start length_ l = (Ok (slice (Z.to_nat start) (Z.to_nat (start + n)) content), l).
Proof.
  intros bid n Hdp Hdps [v Hv] Hvis (contents & Hc & HF & Hsize & Hdel & Hbig) Hs Hn Hend Hlen. unfold downloadObject. rewrite Hdel, Hsize.
  rewrite (bind_run _ _ l tt l eq_refl). replace (Z.of_nat (length content) =? 0) with false by (symmetry; apply Z.eqb_neq; lia).
  rewrite (bind_run _ _ l tt l eq_refl). rewrite (i64_id (Z.of_nat _)) by lia.
  assert (Hsl : start + length_ <= Z.of_nat (length content)) by (unfold n in *; destruct (Z.ltb_spec length_ 0); lia).
  rewrite (i64_id (start + length_)) by lia. replace (_ || _) with false by (symmetry; apply orb_false_iff; split; apply Z.ltb_ge; lia).
  rewrite (bind_run _ _ l tt l eq_refl). unfold getDataProcess at 1. rewrite (bind_run _ _ l dp l) by (unfold bind, gets; fold bid; by rewrite Hdps).
  rewrite Hv. rewrite (bind_run _ _ l v l eq_refl).
  replace (if length_ <? 0 then i64 (u64 (Z.of_nat (length content) - u64 start)) else length_) with n.
  2: { unfold n. destruct (Z.ltb_spec length_ 0); [|done]. rewrite (u64_id start), u64_id, i64_id by (unfold is_u64; lia). done. }
  replace (n =? 0) with false by (symmetry; apply Z.eqb_neq; lia). rewrite (bind_run _ _ l tt l eq_refl). fold bid.
  pose proof (read_parts_run l remote remote2 dp Hdp visit bid ob Hvis (lo_Parts ob) contents 0 (Z.to_nat start) (Z.to_nat n) v HF) as E.
  rewrite Hc, !Z2Nat.id in E by lia. rewrite Nat.sub_0_r, !Nat.sub_0_l in E. change (Z.of_nat 0) with 0 in E. rewrite E by lia. do 3 f_equal. lia.
Qed.

(** ** By name *)

Definition bucket_found l (bucketName : string) (bid : Z) bu : Prop :=
  ll_bucket_name bucketName = true /\ sb_bucketNameToID (l_sb l) !! bucketName = Some bid /\ 0 <= bid /\
  sb_buckets (l_sb l) !! Z.to_nat bid = Some bu /\ bki_Deletion (bu_BucketInfo bu) = false.
Definition object_found bu (objectName : string) (p : nat) ob : Prop :=
  tr_Find objectName (bu_objectTree bu) = Some p /\ bu_heap bu !! p = Some ob.

Lemma getBucketInfo_found l bucketName bid bu : bucket_found l bucketName bid bu -> getBucketInfo bucketName l = (Ok bid, l).
Proof.
  intros (Hn & Hid & Hpos & Hbu & Hdel). unfold getBucketInfo. rewrite Hn. do 2 (erewrite bind_run by reflexivity). rewrite Hid. erewrite bind_run by reflexivity.
  pose proof (lookup_lt_Some _ _ _ Hbu). rewrite (bind_run _ _ l tt l) by (unfold check; by replace (bid <=? _) with true by (symmetry; apply Z.leb_le; lia)).
  rewrite Hbu, Hdel. by erewrite bind_run by reflexivity.
Qed.
Lemma getObject_found l visit remote remote2 bucketName objectName bid bu (start length_ : Z) : bucket_found l bucketName bid bu -> ll_object_name objectName = true ->
  getObject cf visit remote remote2 bucketName objectName start length_ l =
    match tr_Find objectName (bu_objectTree bu) with
    | None => (Err "object not exist", l)
    | Some p => match bu_heap bu !! p with
                | None => (Panic "nil pointer dereference", l)
                | Some ob => downloadObject cf visit remote remote2 bu ob start length_ l
                end
    end.
Proof.
  intros Hf Hn. unfold getObject. rewrite (bind_run _ _ _ _ _ (getBucketInfo_found l bucketName bid bu Hf)). erewrite bind_run by reflexivity.
  destruct Hf as (_ & _ & _ & Hbu & _). rewrite Hbu, Hn. erewrite bind_run by reflexivity. destruct (tr_Find objectName (bu_objectTree bu)) as [p|]; [|done].
  erewrite bind_run by reflexivity. by destruct (bu_heap bu !! p).
Qed.

(** C14. Downloads.  From an object whose parts are laid out in stripes of which enough
    chunks can be had, here or from providers, any range inside it is read by its
    name: the bytes of the content from [start] on, [length_] of them, or all when
    [length_] is negative; whatever other chunks are missing, and without a change of the service. *)
Theorem download_reads l remote remote2 dp visit bucketName objectName bid bu p ob content (start length_ : Z) :
  let n := if length_ <? 0 then Z.of_nat (length content) - start else length_ in
  dp_ok dp -> bucket_found l bucketName bid bu -> bki_BucketID (bu_BucketInfo bu) = bid -> ll_object_name objectName = true -> object_found bu objectName p ob ->
  l_dps l !! bid = Some dp -> is_Some (ck_NewVerifier (DV := DV)) -> (forall x, Permutation (visit x) x) ->
  object_holds l remote dp bid ob content -> 0 <= start -> 0 < n -> start + n <= Z.of_nat (length content) -> - 2^62 < length_ ->
  getObject cf visit remote remote2 bucketName objectName start length_ l = (Ok (slice (Z.to_nat start) (Z.to_nat (start + n)) content), l).
Proof.
  intros n Hdp Hf <- Hn [Hp Hob] Hdps Hv Hvis Hholds. rewrite (getObject_found _ _ _ _ _ _ _ bu _ _ Hf Hn), Hp, Hob. by apply (downloadObject_run l remote remote2 dp).
Qed.
End Service.
End LfsRead.
