(* ===== verification/LfsWrite.v ===== *)
(** * LfsWrite: what is uploaded is laid out

    An upload stores all chunks of every stripe and makes the stripes the parts of
    its object, but for the last ones when the data ends with a full stripe: those
    that wait to be sixteen when the reader comes to its end are in no part.  What
    the object holds is then what a download gives. *)

From S2P Require Import Prelude GoMonad Codec Keys Segments SegmentID Types Tx Fr StateTypes Coder CoderProps UserOrder UserSend UserJobs Aes Lfs LfsProps LfsData LfsRead.

(** ** What an upload keeps of the data *)

(** Sixteen stripes are sent at a time. *)
Definition batch : nat := 16.
Definition kept_data (W : nat) (data : bytes) : bytes :=
  if (length data mod W =? 0)%nat then take (batch * W * (length data / (batch * W))) data else data.

Lemma kept_batch W a b : (0 < W)%nat -> length a = (batch * W)%nat -> kept_data W (a ++ b) = a ++ kept_data W b.
Proof.
  intros HW Ha. assert (Hn : (batch * W <> 0)%nat) by (unfold batch; lia). unfold kept_data. rewrite length_app, Ha.
  replace (batch * W + length b)%nat with (length b + batch * W)%nat by lia. rewrite Nat.Div0.mod_add. destruct (_ =? 0)%nat; [|done].
  replace (length b + batch * W)%nat with (1 * (batch * W) + length b)%nat by lia. rewrite Nat.div_add_l by done.
  rewrite Nat.mul_add_distr_l, Nat.mul_1_r. rewrite <-Ha at 1. apply take_app_add.
Qed.
Lemma kept_short W a k : (0 < W)%nat -> length a = (k * W)%nat -> (k < batch)%nat -> kept_data W a = [].
Proof.
  intros HW Ha Hk. unfold kept_data. rewrite Ha, Nat.Div0.mod_mul. cbn [Nat.eqb]. rewrite Nat.div_small by nia. by rewrite Nat.mul_0_r.
Qed.
Lemma kept_rest W a b k : (0 < W)%nat -> length a = (k * W)%nat -> (0 < length b < W)%nat -> kept_data W (a ++ b) = a ++ b.
Proof.
  intros HW Ha Hb. unfold kept_data. rewrite length_app, Ha. replace (k * W + length b)%nat with (length b + k * W)%nat by lia.
  rewrite Nat.Div0.mod_add, Nat.mod_small by lia. replace (length b =? 0)%nat with false by (symmetry; apply Nat.eqb_neq; lia). done.
Qed.

Section LfsWrite.
Context `{!StateEnv, !SegBits, !Codec SegJob, !Codec segJobStateStored, !LfsCodecs, !NameTree, !LfsLibs, !AesEnv}.
Context `{!CodecTotal SegJob, !LfsCodecLaws}.
Context {DV : Type} `{!ReedSolomon, !CoderKeys DV, !RSLaws, !KeyLaws, !VerifierLaws, !AesLaws}.
Notation lfsSt := (lfsSt (DV := DV)).
Notation busySt := (busySt (DV := DV)).
Implicit Types (l : lfsSt) (bu : bucket) (ob : object) (dp : dataProcess DV) (dv : DV) (buf content : bytes).
Section Service.
(** [moved]: the chunks that providers have taken over. *)
Context (cf : lfsConf) (clock : nat -> Z) (moved : bytes -> option bytes).

Lemma seg_id_inj dp bid s s2 i i2 : length (dp_fsID dp) = FSID_LEN -> is_u64 s -> is_u64 s2 -> Z.of_nat i < 2^32 -> Z.of_nat i2 < 2^32 ->
  seg_id dp bid s i = seg_id dp bid s2 i2 -> s = s2 /\ i = i2.
Proof.
  intros Hf Hs Hs2 Hi Hi2 E. unfold seg_id in E. pose proof (f_equal GetStripeID E) as E1. pose proof (f_equal GetChunkID E) as E2.
  rewrite !Create_GetStripeID in E1 by done. rewrite !Create_GetChunkID in E2 by (unfold is_u32; lia). lia.
Qed.

(** ** A stripe is put *)

(** A chunk is in the local store, or else with a provider. *)
Definition reach l (id : bytes) : option bytes := match l_segs l !! id with Some d => Some d | None => moved id end.
(** So are all chunks of a stripe. *)
Definition stored l dp ob (bid s : Z) buf : Prop :=
  exists chunks, stripe_cut cf dp ob bid s buf chunks /\ forall i, (i < length chunks)%nat -> reach l (seg_id dp bid s i) = Some (nth i chunks []).

(** The providers give what they have taken over, but for at most [ParityCount] chunks
    of a stripe, which they do not give at all. *)
Definition returns l (remote : bytes -> option bytes) dp (bid : Z) : Prop := forall s, exists lost : list nat,
  (length lost <= dcd_pc (dp_coder dp))%nat /\
  forall i d, (i < dcd_chunkCount (dp_coder dp))%nat -> l_segs l !! seg_id dp bid s i = None -> moved (seg_id dp bid s i) = Some d ->
    remote (seg_id dp bid s i) = if decide (i ∈ lost) then None else Some d.

(** What is left of a stripe. *)
Lemma kept_but (lost : list nat) n : (n - length lost <= kept ((fun i => bool_decide (i ∉ lost)) <$> seq 0 n))%nat.
Proof.
  assert (E : forall l : list nat, (kept ((fun i => bool_decide (i ∉ lost)) <$> l) + length (filter (fun i => i ∈ lost) l))%nat = length l).
  { induction l as [|i l IH]; [done|]. rewrite filter_cons, fmap_cons. unfold kept in *. destruct (decide (i ∈ lost)); simpl; rewrite ?bool_decide_eq_false_2, ?bool_decide_eq_true_2 by naive_solver; simpl; lia. }
  specialize (E (seq 0 n)). rewrite length_seq in E.
  assert (length (filter (fun i => i ∈ lost) (seq 0 n)) <= length lost)%nat; [|lia].
  apply submseteq_length, NoDup_submseteq; [apply NoDup_filter, NoDup_seq|]. by intros i [Hi _]%list_elem_of_filter.
Qed.

Lemma stored_readable l remote dp ob bid s buf : dp_ok dp -> returns l remote dp bid -> stored l dp ob bid s buf -> readable cf l remote dp ob bid s buf.
Proof.
  intros Hdp Hret (chunks & Hcut & Hall). destruct (Hret s) as (lost & Hlost & Hgive).
  set (gone := filter (fun i => l_segs l !! seg_id dp bid s i = None) lost).
  assert (Hgone : (length gone <= length lost)%nat) by apply length_filter.
  exists chunks, ((fun i => bool_decide (i ∉ gone)) <$> seq 0 (length chunks)). split; [done|]. split; [by rewrite length_fmap, length_seq|]. split.
  - destruct Hcut as (enc & _ & He). destruct (Encode_tagged _ _ _ _ (dpo_coder _ Hdp) He) as [El _].
    pose proof (coder_ok_sizes _ (dpo_coder _ Hdp)) as Hz. rewrite (cz_cc _ Hz) in El. pose proof (kept_but gone (length chunks)). lia.
  - intros i Hi. assert (Hic : (i < dcd_chunkCount (dp_coder dp))%nat).
    { destruct Hcut as (enc & _ & He). destruct (Encode_tagged _ _ _ _ (dpo_coder _ Hdp) He) as [El _]. lia. }
    rewrite (nth_lookup_Some _ _ _ (bool_decide (i ∉ gone))) by (rewrite list_lookup_fmap, lookup_seq_lt by done; done).
    specialize (Hall i Hi). unfold have, reach in *. destruct (l_segs l !! _) as [d|] eqn:El.
    + rewrite bool_decide_eq_true_2; [done|]. intros [Hn _]%list_elem_of_filter. congruence.
    + rewrite (Hgive i _ Hic El Hall). destruct (decide (i ∈ lost)) as [Hin|Hnin].
      * rewrite bool_decide_eq_false_2; [done|]. intros Hg. by apply Hg, list_elem_of_filter.
      * rewrite bool_decide_eq_true_2; [done|]. by intros [_ Hg]%list_elem_of_filter.
Qed.

(** The store after the chunks with these numbers. *)
Definition segs_put dp (bid s : Z) (encoded : list bytes) (ks : list nat) (segs : gmap bytes bytes) : gmap bytes bytes :=
  foldl (fun m k => <[seg_id dp bid s k := nth k encoded []]> m) segs ks.

Lemma segs_put_ne dp bid s encoded ks segs id : (forall k, k ∈ ks -> seg_id dp bid s k <> id) -> segs_put dp bid s encoded ks segs !! id = segs !! id.
Proof.
  revert segs. induction ks as [|k ks IH]; intros segs Hne; [done|]. cbn [segs_put foldl]. change (foldl _ _ ks) with (segs_put dp bid s encoded ks (<[seg_id dp bid s k := nth k encoded []]> segs)).
  rewrite IH by (intros j Hj; apply Hne; by right). apply lookup_insert_ne, Hne. by left.
Qed.
Lemma segs_put_at dp bid s encoded ks segs i : length (dp_fsID dp) = FSID_LEN -> is_u64 s -> (forall k, k ∈ ks -> Z.of_nat k < 2^32) -> i ∈ ks ->
  segs_put dp bid s encoded ks segs !! seg_id dp bid s i = Some (nth i encoded []).
Proof.
  intros Hf Hs. revert segs. induction ks as [|k ks IH]; intros segs Hk Hi; [by apply not_elem_of_nil in Hi|].
  cbn [segs_put foldl]. change (foldl _ _ ks) with (segs_put dp bid s encoded ks (<[seg_id dp bid s k := nth k encoded []]> segs)).
  destruct (decide (i ∈ ks)) as [Hin|Hnin]; [apply IH; [intros j Hj; apply Hk; by right|done]|].
  apply elem_of_cons in Hi as [->|Hi]; [|done]. rewrite segs_put_ne; [apply lookup_insert_eq|].
  intros j Hj E. apply (seg_id_inj dp bid s s j k Hf Hs Hs) in E as [_ ->]; [done|apply Hk; by right|apply Hk; by left].
Qed.

Section Put.
Context dp (Hdp : dp_ok dp) (s : Z) (Hs : is_u64 s) (enc : bytes) (encoded : list bytes).
Notation bid := (dp_bucketID dp).
Hypothesis Henc : Encode (dp_coder dp) (CreateSegmentID (dp_fsID dp) bid s 0) enc = Ok encoded.

Lemma put_chunk_run i dv bu l : (i < length encoded)%nat -> dv_clean dv -> exists dv2,
  put_chunk encoded (CreateSegmentID (dp_fsID dp) bid s 0) dv i (mkBusySt bu l) =
    (Ok dv2, mkBusySt bu (set_l_segs <[seg_id dp bid s i := nth i encoded []]> l)) /\ dv_proves dv2.
Proof.
  intros Hi Hdv. unfold put_chunk. destruct (nth_lookup_or_length encoded i []) as [->|]; [|lia]. rewrite SetChunkID_Create. fold (seg_id dp bid s i).
  destruct (Encode_tagged _ _ _ _ (dpo_coder _ Hdp) Henc) as (El & _ & Htag).
  destruct (Htag i (seg_id dp bid s i) ltac:(by rewrite <-El)) as (seg & tag & rest & Hc & Ht & Hg). rewrite Hc, Ht. do 2 (erewrite bind_run by reflexivity).
  rewrite SetChunkID_Create in Hg. fold (seg_id dp bid s i) in Hg. destruct (dv_add dv _ _ _ Hdv Hg) as (dv2 & Ea & Hp). exists dv2. split; [|done].
  erewrite bind_run; [|unfold dv_run; rewrite Ea; reflexivity]. done.
Qed.

Lemma put_chunks_run ks dv bu l : (forall k, k ∈ ks -> (k < length encoded)%nat) -> dv_clean dv -> exists dv2,
  for_fold ks dv (put_chunk encoded (CreateSegmentID (dp_fsID dp) bid s 0)) (mkBusySt bu l) =
    (Ok dv2, mkBusySt bu (set_l_segs (segs_put dp bid s encoded ks) l)) /\ dv_clean dv2 /\ (ks <> [] \/ dv_proves dv -> dv_proves dv2).
Proof.
  revert dv l. induction ks as [|k ks IH]; intros dv l Hk Hdv; [exists dv; split; [by destruct l|split; [done|by intros [?|?]]]|].
  destruct (put_chunk_run k dv bu l ltac:(apply Hk; by left) Hdv) as (dv1 & E1 & P1). cbn [for_fold]. rewrite (bind_run _ _ _ _ _ E1).
  destruct (IH dv1 (set_l_segs <[seg_id dp bid s k := nth k encoded []]> l) ltac:(intros j Hj; apply Hk; by right) (dv_proves_clean _ P1)) as (dv2 & E2 & P2 & P3).
  exists dv2. rewrite E2. split; [done|]. split; [done|]. intros _. apply P3. by right.
Qed.
End Put.

(** Encryption keeps a stripe a stripe. *)
Lemma encrypt_fits dp b ob s buf : dp_ok dp -> (0 < length buf <= stripe_len dp)%nat ->
  exists enc, encrypt_stripe (stripe_key cf b ob s) buf = Ok enc /\ (0 < length enc <= stripe_len dp)%nat.
Proof.
  intros Hdp Hb. destruct (stripe_key cf b ob s) as [key|] eqn:Hkey; cbn [encrypt_stripe]; [|by exists buf].
  pose proof (stripe_key_len cf _ _ _ _ Hkey) as Hk. pose proof (dpo_blocks _ Hdp) as Hblk. unfold ContructAesMode. rewrite Hk. cbn [negb Nat.eqb KeySize].
  set (iv := take BlockSize (blake3_Sum256 key)). assert (Hiv : length iv = 16%nat) by (unfold iv; rewrite length_take, blake3_len; done).
  set (pad := if (length buf mod BlockSize =? 0)%nat then buf else PKCS5Padding buf). change BlockSize with 16%nat in *.
  assert (Hpad : (0 < length pad <= stripe_len dp)%nat /\ (length pad mod 16 = 0)%nat).
  { unfold pad, PKCS5Padding. change BlockSize with 16%nat. pose proof (Nat.mod_upper_bound (length buf) 16 ltac:(lia)).
    pose proof (Nat.div_mod_eq (length buf) 16). pose proof (Nat.div_mod_eq (stripe_len dp) 16).
    destruct (Nat.eqb_spec (length buf mod 16) 0) as [E|E]; [lia|]. rewrite length_app, length_replicate. split; [lia|].
    replace (length buf + (16 - length buf mod 16))%nat with ((length buf / 16 + 1) * 16)%nat by lia. apply Nat.Div0.mod_mul. }
  destruct Hpad as [Hpl Hpm]. unfold EncryptBlocks, CryptBlocks. change BlockSize with 16%nat. rewrite Hpm. change (negb (0 =? 0)%nat) with false. cbv iota.
  eexists. split; [reflexivity|]. change ((key, iv).1) with key. change ((key, iv).2) with iv. pose proof (Nat.div_mod_eq (length pad) 16).
  rewrite length_cbc_enc; lia.
Qed.

Section Upload.
Context dp (Hdp : dp_ok dp).
Notation bid := (dp_bucketID dp).
Notation W := (stripe_len dp).
Notation start_id := (CreateSegmentID (dp_fsID dp) bid 0 0).
Hypothesis Hfew : Z.of_nat (dcd_chunkCount (dp_coder dp)) <= 2^32.
Hypothesis Hencode : forall s enc, is_u64 s -> (0 < length enc <= W)%nat ->
  exists encoded, Encode (dp_coder dp) (CreateSegmentID (dp_fsID dp) bid s 0) enc = Ok encoded.
Implicit Types (up : upSt (DV := DV)).

(** Segments of other stripes are where they were. *)
Definition other_stripes (s : Z) (segs segs2 : gmap bytes bytes) : Prop :=
  forall s2 i, is_u64 s2 -> s2 <> s -> Z.of_nat i < 2^32 -> segs2 !! seg_id dp bid s2 i = segs !! seg_id dp bid s2 i.

Lemma put_stripe_run p buf up bu l ob : bu_heap bu !! p = Some ob -> (0 < length buf <= W)%nat -> is_u64 (up_curStripe up + up_stripeCount up) ->
  dv_clean (up_dv up) -> exists dv2 segs2,
  put_stripe cf dp start_id p buf up (mkBusySt bu l) =
    (Ok (mkUpSt (up_stripeCount up + 1) (up_sendCount up + 1) (up_rawLen up + Z.of_nat (length buf)) (up_opID up) (up_curStripe up) (up_written up ++ buf) dv2),
     mkBusySt bu (set_l_segs (fun _ => segs2) l)) /\ dv_proves dv2 /\
  stored (set_l_segs (fun _ => segs2) l) dp ob bid (up_curStripe up + up_stripeCount up) buf /\
  other_stripes (up_curStripe up + up_stripeCount up) (l_segs l) segs2.
Proof.
  intros Hp Hb Hs Hdv. set (s := up_curStripe up + up_stripeCount up) in *. unfold put_stripe. rewrite (bind_run _ _ _ _ _ (the_obj_run p bu l ob Hp)).
  fold s. rewrite (u64_id s Hs). destruct (encrypt_fits dp bid ob s buf Hdp Hb) as (enc & Eenc & Hle). destruct (Hencode s enc Hs Hle) as [encoded Henc].
  rewrite Eenc. erewrite bind_run by reflexivity. rewrite SetStripeID_Create, Henc. erewrite bind_run by reflexivity.
  destruct (Encode_tagged _ _ _ _ (dpo_coder _ Hdp) Henc) as [El _]. pose proof (coder_ok_sizes _ (dpo_coder _ Hdp)) as Hz. pose proof (cz_cc _ Hz) as Hcc.
  rewrite (dpo_dc _ Hdp), (dpo_pc _ Hdp), <-Nat2Z.inj_add, Nat2Z.id, <-Hcc, <-El.
  assert (Hin : forall k, k ∈ seq 0 (length encoded) -> (k < length encoded)%nat) by (intros k [_ Hk]%elem_of_seq; exact Hk).
  destruct (put_chunks_run dp Hdp s enc encoded Henc (seq 0 (length encoded)) (up_dv up) bu l Hin Hdv) as (dv2 & E & _ & Hp2).
  rewrite (bind_run _ _ _ _ _ E). exists dv2, (segs_put dp bid s encoded (seq 0 (length encoded)) (l_segs l)). split; [reflexivity|].
  split; [apply Hp2; left; pose proof (cz_dc _ Hz); destruct (length encoded) eqn:E0; [lia|done]|]. split.
  - exists encoded. split; [by exists enc|]. intros i Hi. unfold reach. cbn [l_segs set_l_segs]. rewrite (segs_put_at dp bid s encoded _ _ i); [done|..]; [apply Hdp|done|intros k Hk; specialize (Hin k Hk); lia|].
    apply elem_of_seq. lia.
  - intros s2 i Hs2 Hne Hi. apply segs_put_ne. intros k Hk E2. specialize (Hin k Hk). apply seg_id_inj in E2 as [E2 _]; [by symmetry in E2|apply Hdp|done|done|lia|done].
Qed.

(** ** Parts that are stored *)

Definition piece_stored l ob (k : Z) content : Prop :=
  forall j, (j * W < length content)%nat -> stored l dp ob bid (k + Z.of_nat j) (piece W j content).

(** A part made of stripes before [cur]. *)
Record part_stored l ob (cur : Z) (part : ObjectPartInfo) content : Prop := mkPartStored {
  ps_len : part_Length part = Z.of_nat (length content);
  ps_some : (0 < length content)%nat;
  ps_place : exists k, 0 <= k /\ part_Offset part = Z.of_nat W * k /\ Z.of_nat W * k + Z.of_nat (length content) <= Z.of_nat W * cur /\ piece_stored l ob k content;
}.

Lemma stripe_key_info b ob ob2 s : lo_ObjectInfo ob = lo_ObjectInfo ob2 -> stripe_key cf b ob s = stripe_key cf b ob2 s.
Proof. unfold stripe_key. by intros ->. Qed.

Lemma stored_frame l l2 ob ob2 s buf : lo_ObjectInfo ob = lo_ObjectInfo ob2 ->
  (forall i, Z.of_nat i < 2^32 -> reach l2 (seg_id dp bid s i) = reach l (seg_id dp bid s i)) -> stored l dp ob bid s buf -> stored l2 dp ob2 bid s buf.
Proof.
  intros Eo Hsame (chunks & (enc & Ee & Henc) & Hall). exists chunks. split.
  - exists enc. split; [|done]. by rewrite <-(stripe_key_info bid ob ob2 s Eo).
  - intros i Hi. rewrite Hsame; [by apply Hall|]. destruct (Encode_tagged _ _ _ _ (dpo_coder _ Hdp) Henc) as [El _]. lia.
Qed.

(** Nothing before [cur] is touched. *)
Definition same_before (cur : Z) (segs segs2 : gmap bytes bytes) : Prop :=
  forall s i, 0 <= s < cur -> Z.of_nat i < 2^32 -> segs2 !! seg_id dp bid s i = segs !! seg_id dp bid s i.

Lemma piece_stored_frame l l2 ob ob2 k content cur : lo_ObjectInfo ob = lo_ObjectInfo ob2 -> 0 <= k ->
  Z.of_nat W * k + Z.of_nat (length content) <= Z.of_nat W * cur -> same_before cur (l_segs l) (l_segs l2) ->
  piece_stored l ob k content -> piece_stored l2 ob2 k content.
Proof.
  intros Eo Hk Hle Hsame Hp j Hj. eapply stored_frame; [exact Eo| |by apply Hp]. intros i Hi. unfold reach. rewrite Hsame; [done| |done]. pose proof (stripe_len_pos dp Hdp). nia.
Qed.
Lemma part_stored_frame l l2 ob ob2 cur cur2 part content : lo_ObjectInfo ob = lo_ObjectInfo ob2 -> cur <= cur2 ->
  same_before cur (l_segs l) (l_segs l2) -> part_stored l ob cur part content -> part_stored l2 ob2 cur2 part content.
Proof.
  intros Eo Hcur Hsame [Hl Hn (k & Hk & Ho & Hle & Hp)]. constructor; [done..|]. exists k. split_and!; [done|done|nia|].
  by eapply piece_stored_frame.
Qed.

Lemma part_stored_holds l remote ob cur part content : returns l remote dp bid -> Z.of_nat W * cur < 2^62 -> part_stored l ob cur part content ->
  part_holds cf l remote dp bid ob part content.
Proof.
  intros Hret Hcur [Hl Hn (k & Hk & Ho & Hle & Hp)]. constructor; [done..| |lia]. exists k. split_and!; [done|done|].
  intros j Hj. by apply stored_readable, Hp.
Qed.

Lemma piece_app_l j a b : ((j + 1) * W <= length a)%nat -> piece W j (a ++ b) = piece W j a.
Proof. intros Hj. unfold piece, slice. rewrite drop_app_le by lia. apply take_app_le. rewrite length_drop. lia. Qed.
Lemma piece_app_r k a b : length a = (k * W)%nat -> (length b <= W)%nat -> piece W k (a ++ b) = b.
Proof. intros Ha Hb. unfold piece, slice. rewrite <-Ha, drop_app_length. apply take_ge. lia. Qed.

(** ** The rounds of the loop *)

(** What an upload into the object at [p] leaves alone. *)
Record up_frame (p : nat) (b b2 : busySt) : Prop := mkUpFrame {
  uf_conf : (l_sw (bs_l b2), l_needPay (bs_l b2), l_bal (bs_l b2)) = (l_sw (bs_l b), l_needPay (bs_l b), l_bal (bs_l b));
  uf_writable : bu_writable (bs_bu b2) = bu_writable (bs_bu b);
  uf_sb : l_sb (bs_l b2) = l_sb (bs_l b); uf_dps : l_dps (bs_l b2) = l_dps (bs_l b);
  uf_tree : bu_objectTree (bs_bu b2) = bu_objectTree (bs_bu b); uf_objects : bu_objects (bs_bu b2) = bu_objects (bs_bu b);
  uf_id : bki_BucketID (bu_BucketInfo (bs_bu b2)) = bki_BucketID (bu_BucketInfo (bs_bu b));
  uf_del : bki_Deletion (bu_BucketInfo (bs_bu b2)) = bki_Deletion (bu_BucketInfo (bs_bu b));
  uf_heap : forall q, q <> p -> bu_heap (bs_bu b2) !! q = bu_heap (bs_bu b) !! q;
}.
#[local] Instance up_frame_preorder p : PreOrder (up_frame p).
Proof.
  split; [by intros b; constructor|]. intros a b c [F8 F9 F1 F2 F3 F4 F5 F6 F7] [G8 G9 G1 G2 G3 G4 G5 G6 G7]. constructor; try congruence. intros q Hq. by rewrite G7, F7.
Qed.

(** Between rounds: [base] is in the parts of the object, and [pend], of [k] stripes,
    is put and waits. *)
Record up_inv (oi : ObjectInfo) (p : nat) (base pend : bytes) (k : nat) (b : busySt) up ob : Prop := mkUpInv {
  ui_obj : bu_heap (bs_bu b) !! p = Some ob;
  ui_info : lo_ObjectInfo ob = oi;
  ui_parts : exists contents, concat contents = base /\ Forall2 (part_stored (bs_l b) ob (up_curStripe up)) (lo_Parts ob) contents;
  ui_size : lo_Size ob = Z.of_nat (length base);
  ui_del : lo_deletion ob = false;
  ui_ops : length (lo_ops ob) = S (length (lo_Parts ob));
  ui_pend : piece_stored (bs_l b) ob (up_curStripe up) pend;
  ui_full : (length pend <= k * W)%nat /\ (k = 0 \/ 0 < length pend)%nat;
  ui_counts : up_stripeCount up = Z.of_nat k /\ up_sendCount up = Z.of_nat k /\ up_rawLen up = Z.of_nat (length pend);
  ui_len : bki_Length (bu_BucketInfo (bs_bu b)) = Z.of_nat W * up_curStripe up;
  ui_cur : 0 <= up_curStripe up;
  ui_base : Z.of_nat (length base) <= Z.of_nat W * up_curStripe up;
  ui_dv : dv_clean (up_dv up) /\ (k = 0%nat \/ dv_proves (up_dv up));
}.

Lemma round_put oi p base pend k b up ob buf : up_inv oi p base pend k b up ob -> length pend = (k * W)%nat -> (0 < length buf <= W)%nat ->
  Z.of_nat W * (up_curStripe up + Z.of_nat k + 1) < 2^62 ->
  exists b2 up2, put_stripe cf dp start_id p buf up b = (Ok up2, b2) /\ up_inv oi p base (pend ++ buf) (S k) b2 up2 ob /\
    up_curStripe up2 = up_curStripe up /\ up_frame p b b2 /\ same_before (up_curStripe up) (l_segs (bs_l b)) (l_segs (bs_l b2)).
Proof.
  intros [Hp Hi (contents & Hc & HF) Hsz Hd Ho Hpe [Hf1 Hf2] (Hc1 & Hc2 & Hc3) Hl Hcur Hb0 [Hdv _]] Hk Hbuf Hbig. destruct b as [bu l]. cbn [bs_bu bs_l] in *.
  pose proof (stripe_len_pos dp Hdp) as HW. assert (Hs : is_u64 (up_curStripe up + up_stripeCount up)) by (unfold is_u64; nia).
  destruct (put_stripe_run p buf up bu l ob Hp Hbuf Hs Hdv) as (dv2 & segs2 & E & Hp2 & Hst & Hoth).
  eexists _, _. split; [exact E|]. rewrite Hc1 in *.
  assert (Hsame : same_before (up_curStripe up + Z.of_nat k) (l_segs l) segs2).
  { intros s i Hs2 Hi2. apply Hoth; [unfold is_u64 in *; lia|lia|done]. }
  assert (Hsame0 : same_before (up_curStripe up) (l_segs l) segs2) by (intros s i Hs2 Hi2; apply Hsame; [lia|done]).
  split; [|split_and!; [done|by constructor|done]].
  constructor; cbn [bs_bu bs_l up_curStripe up_stripeCount up_sendCount up_rawLen up_dv]; try done.
  - exists contents. split; [done|]. eapply Forall2_impl; [exact HF|]. intros part c. apply part_stored_frame; [done|lia|exact Hsame0].
  - intros j Hj. rewrite length_app, Hk in Hj. destruct (decide (j = k)) as [->|Hne]; [by rewrite piece_app_r by (done || lia)|].
    rewrite piece_app_l by nia. eapply stored_frame; [reflexivity| |apply Hpe; nia]. intros i Hi2. unfold reach. cbn [l_segs set_l_segs]. rewrite Hsame; [done|nia|done].
  - rewrite length_app. lia.
  - rewrite length_app. lia.
  - split; [by apply dv_proves_clean|by right].
Qed.

Lemma part_job_run p up bu l ob : bu_heap bu !! p = Some ob -> exists ds jobs,
  part_job cf p up (mkBusySt bu l) = (Ok tt, mkBusySt bu (set_l_jobs (fun _ => jobs) (set_l_ds (fun _ => ds) l))).
Proof.
  intros Hp. unfold part_job. rewrite (bind_run _ _ _ _ _ (the_obj_run p bu l ob Hp)). erewrite bind_run by reflexivity. cbv zeta.
  match goal with |- context [marshal ?x] => destruct (marshal_total x) as [data Hm] end. rewrite Hm. do 2 (erewrite bind_run by reflexivity). by eexists _, _.
Qed.

Lemma round_part oi p ud base pend k b up ob : up_inv oi p base pend k b up ob -> (0 < k)%nat ->
  Z.of_nat W * (up_curStripe up + Z.of_nat k) < 2^62 ->
  exists b2 up2 ob2, add_part cf clock dp ud p up b = (Ok up2, b2) /\ up_inv oi p (base ++ pend) [] 0 b2 up2 ob2 /\
    up_curStripe up2 = up_curStripe up + Z.of_nat k /\ up_frame p b b2 /\ l_segs (bs_l b2) = l_segs (bs_l b).
Proof.
  intros [Hp Hi (contents & Hc & HF) Hsz Hd Ho Hpe [Hf1 Hf2] (Hc1 & Hc2 & Hc3) Hl Hcur Hb0 [Hdv Hpr]] Hk Hbig. destruct b as [bu l]. cbn [bs_bu bs_l] in *.
  pose proof (stripe_len_pos dp Hdp) as HW. assert (Hpend : (0 < length pend)%nat) by lia. unfold add_part. rewrite (dv_result _ ltac:(destruct Hpr; [lia|done])).
  destruct (part_job_run p up bu l ob Hp) as (ds & jobs & Ej). rewrite (bind_run _ _ _ _ _ Ej).
  rewrite (bind_run _ _ _ _ _ (the_obj_run p bu _ ob Hp)). cbv zeta. erewrite bind_run by reflexivity.
  match goal with |- context [mkObjectPartInfo ?a ?b ?c ?d ?e ?f] => set (opi := mkObjectPartInfo a b c d e f) end.
  destruct (marshal_total opi) as [payload Hm]. rewrite Hm. do 3 (erewrite bind_run by reflexivity).
  match goal with |- context [bind (addOpRecord _ _ _ _) _ (set_bs_bu (set_bu_BucketInfo ?f2) (set_bs_bu (set_bu_BucketInfo ?f1) (set_bs_l (fun _ => ?l2) ?b)))] =>
    set (bu2 := set_bu_BucketInfo f2 (set_bu_BucketInfo f1 bu)); change (set_bs_bu _ (set_bs_bu _ _)) with (mkBusySt bu2 l2); set (l3 := l2) end.
  destruct (addOpRecord_run cf clock OpRecord_AddData payload bu2 l3) as (data & datab & _ & _ & Ea). rewrite (bind_run _ _ _ _ _ Ea).
  match goal with |- context [mkBusySt (op_bucket ?t ?d bu2) (op_store cf ?x ?y ?z ?w l3)] => set (bu3 := op_bucket t d bu2); set (l4 := op_store cf x y z w l3); set (opid := y) in * end.
  assert (Hp3 : bu_heap bu3 !! p = Some ob) by exact Hp.
  destruct (object_op_run cf p opid (addPartInfo opi) bu3 l4 ob _ Hp3 eq_refl eq_refl) as (form & _ & Eo).
  set (ob2 := set_lo_dirty (fun _ => false) _) in Eo. rewrite (bind_run _ _ _ _ _ Eo). eexists _, _, ob2. split; [reflexivity|].
  assert (Hlen : part_Length opi = Z.of_nat (length pend)) by (unfold opi; cbn [part_Length]; rewrite Hc3; apply u64_id; unfold is_u64; nia).
  assert (Hoff : part_Offset opi = Z.of_nat W * up_curStripe up) by (unfold opi; cbn [part_Offset]; rewrite (dpo_size _ Hdp); apply u64_id; unfold is_u64; nia).
  assert (Hcur2 : u64 (up_curStripe up + up_stripeCount up) = up_curStripe up + Z.of_nat k) by (rewrite Hc1; apply u64_id; unfold is_u64; nia).
  split; [|split_and!; [exact Hcur2| |done]].
  - constructor; cbn [bs_bu bs_l up_curStripe up_stripeCount up_sendCount up_rawLen up_dv]; rewrite ?Hcur2.
    + apply list_lookup_insert_eq. by eapply lookup_lt_Some.
    + exact Hi.
    + exists (contents ++ [pend]). split; [by rewrite concat_app, Hc; cbn; rewrite app_nil_r|]. apply Forall2_app.
      * eapply Forall2_impl; [exact HF|]. intros part c. apply part_stored_frame; [done|lia|by intros ? ? _ _].
      * constructor; [|constructor]. constructor; [done..|]. exists (up_curStripe up). split_and!; [done|done|nia|].
        apply (piece_stored_frame l _ ob _ _ pend (up_curStripe up + Z.of_nat k)); [done|done|nia|by intros ? ? _ _|done].
    + cbn. change (u64 (lo_Size ob + part_Length opi) = Z.of_nat (length (base ++ pend))). rewrite Hsz, Hlen, length_app, u64_id by (unfold is_u64; nia). lia.
    + exact Hd.
    + cbn. rewrite !length_app, Ho. cbn. lia.
    + intros j Hj. cbn in Hj. lia.
    + cbn. lia.
    + done.
    + change (u64 (bki_Length (bu_BucketInfo bu) + u64 (dp_stripeSize dp * up_stripeCount up)) = Z.of_nat W * (up_curStripe up + Z.of_nat k)).
      rewrite Hl, (dpo_size _ Hdp), Hc1, (u64_id (_ * Z.of_nat k)), u64_id by (unfold is_u64; nia). ring.
    + lia.
    + rewrite length_app. nia.
    + split; [apply dv_reset|by left].
  - constructor; cbn [bs_bu bs_l]; try done. intros q Hq. change (<[p := ob2]> (bu_heap bu) !! q = bu_heap bu !! q). by apply list_lookup_insert_ne.
Qed.

Lemma upload_loop_run fuel oi p ud base pend k b up ob data :
  up_inv oi p base pend k b up ob -> length pend = (k * W)%nat -> (k < batch)%nat -> (length data < fuel)%nat ->
  Z.of_nat W * (up_curStripe up + Z.of_nat k + 1) + Z.of_nat (length data) < 2^62 ->
  exists b2 up2 ob2 pend2 k2, upload_loop cf clock fuel dp ud start_id p (data, None) up b = (Ok tt, b2) /\
    up_inv oi p (base ++ kept_data W (pend ++ data)) pend2 k2 b2 up2 ob2 /\ up_curStripe up <= up_curStripe up2 /\
    Z.of_nat W * up_curStripe up2 <= Z.of_nat W * (up_curStripe up + Z.of_nat k + 1) + Z.of_nat (length data) /\
    up_frame p b b2 /\ same_before (up_curStripe up) (l_segs (bs_l b)) (l_segs (bs_l b2)).
Proof.
  pose proof (stripe_len_pos dp Hdp) as HW. revert base pend k b up ob data. induction fuel as [|fuel IH]; intros base pend k b up ob data Hinv Hpe Hk Hfuel Hbig; [lia|].
  cbn [upload_loop]. rewrite (dpo_size _ Hdp), Nat2Z.id. unfold ReadAtLeast. cbn [fst snd]. destruct (Nat.leb_spec W (length data)) as [Hfull|Hlast].
  - erewrite bind_run by reflexivity. cbv beta iota. rewrite length_take, Nat.min_l by done. replace (W =? 0)%nat with false by (symmetry; apply Nat.eqb_neq; lia).
    destruct (round_put oi p base pend k b up ob (take W data) Hinv Hpe ltac:(rewrite length_take; lia) ltac:(nia)) as (b1 & up1 & E1 & Hinv1 & Ecur1 & Hfr1 & Hsame1).
    rewrite (bind_run _ _ _ _ _ E1). destruct (ui_counts _ _ _ _ _ _ _ _ Hinv1) as (_ & Hsend & _). rewrite Hsend, orb_false_r.
    assert (Hlen1 : length (pend ++ take W data) = (S k * W)%nat) by (rewrite length_app, length_take; lia).
    assert (Hrest : length (drop W data) = (length data - W)%nat) by apply length_drop.
    destruct (Z.leb_spec 16 (Z.of_nat (S k))) as [Hsixteen|Hless].
    + destruct (round_part oi p ud base (pend ++ take W data) (S k) b1 up1 ob Hinv1 ltac:(lia) ltac:(nia)) as (b2 & up2 & ob2 & E2 & Hinv2 & Ecur2 & Hfr2 & Hsame2).
      rewrite (bind_run _ _ _ _ _ E2).
      destruct (IH _ _ _ _ _ _ (drop W data) Hinv2 ltac:(done) ltac:(unfold batch; lia) ltac:(lia) ltac:(nia)) as (b3 & up3 & ob3 & pend3 & k3 & E3 & Hinv3 & Hle3 & Hb3 & Hfr3 & Hsame3).
      exists b3, up3, ob3, pend3, k3. split; [exact E3|]. rewrite <-app_assoc in Hinv3. cbn [app] in Hinv3.
      assert (Hk15 : (S k = batch)%nat) by (unfold batch in *; lia). rewrite Hk15 in Hlen1.
      rewrite <-(kept_batch W (pend ++ take W data) _ HW Hlen1), <-app_assoc, take_drop in Hinv3. split; [exact Hinv3|]. split; [lia|]. split; [nia|].
      split; [by rewrite Hfr1, Hfr2|]. intros s i Hs Hi. rewrite Hsame3, Hsame2, Hsame1 by (done || lia). done.
    + rewrite bind_ret_l.
      destruct (IH _ _ _ _ _ _ (drop W data) Hinv1 Hlen1 ltac:(unfold batch; lia) ltac:(lia) ltac:(nia)) as (b3 & up3 & ob3 & pend3 & k3 & E3 & Hinv3 & Hle3 & Hb3 & Hfr3 & Hsame3).
      exists b3, up3, ob3, pend3, k3. split; [exact E3|]. rewrite <-app_assoc, take_drop in Hinv3. split; [exact Hinv3|]. split; [lia|]. split; [nia|].
      split; [by rewrite Hfr1|]. intros s i Hs Hi. rewrite Hsame3, Hsame1 by (done || lia). done.
  - erewrite bind_run by reflexivity. cbv beta iota. destruct (Nat.eqb_spec (length data) 0) as [E0|E0].
    + apply nil_length_inv in E0. subst data. exists b, up, ob, pend, k. split; [done|].
      rewrite app_nil_r, (kept_short W pend k), app_nil_r by done. split; [exact Hinv|]. split; [lia|]. split; [cbn; nia|]. split; [done|by intros ? ? _ _].
    + destruct (round_put oi p base pend k b up ob data Hinv Hpe ltac:(lia) ltac:(nia)) as (b1 & up1 & E1 & Hinv1 & Ecur1 & Hfr1 & Hsame1).
      rewrite (bind_run _ _ _ _ _ E1), orb_true_r.
      destruct (round_part oi p ud base (pend ++ data) (S k) b1 up1 ob Hinv1 ltac:(lia) ltac:(nia)) as (b2 & up2 & ob2 & E2 & Hinv2 & Ecur2 & Hfr2 & Hsame2).
      rewrite (bind_run _ _ _ _ _ E2). exists b2, up2, ob2, [], 0%nat. split; [done|]. rewrite (kept_rest W pend data k) by (done || lia). split; [exact Hinv2|]. split; [lia|].
      split; [nia|]. split; [by rewrite Hfr1|]. intros s i Hs Hi. rewrite Hsame2, Hsame1 by (done || lia). done.
Qed.

(** ** An upload *)

(** The object's parts are stripes before [cur], all of them stored. *)
Record object_stored l (cur : Z) ob content : Prop := mkObjectStored {
  os_parts : exists contents, concat contents = content /\ Forall2 (part_stored l ob cur) (lo_Parts ob) contents;
  os_size : lo_Size ob = Z.of_nat (length content);
  os_del : lo_deletion ob = false;
  os_ops : length (lo_ops ob) = S (length (lo_Parts ob));
  os_base : Z.of_nat (length content) <= Z.of_nat W * cur;
}.

Lemma object_stored_holds l remote cur ob content : returns l remote dp bid -> Z.of_nat W * cur < 2^62 -> object_stored l cur ob content -> object_holds cf l remote dp bid ob content.
Proof.
  intros Hret Hcur [(contents & Hc & HF) Hs Hd Ho Hb]. exists contents. split_and!; [done| |done|done|lia].
  eapply Forall2_impl; [exact HF|]. intros part c. by apply part_stored_holds.
Qed.
Lemma object_stored_frame l l2 ob ob2 cur cur2 content : cur <= cur2 -> same_before cur (l_segs l) (l_segs l2) ->
  lo_ObjectInfo ob2 = lo_ObjectInfo ob -> lo_Parts ob2 = lo_Parts ob -> lo_Size ob2 = lo_Size ob -> lo_deletion ob2 = lo_deletion ob -> lo_ops ob2 = lo_ops ob ->
  object_stored l cur ob content -> object_stored l2 cur2 ob2 content.
Proof.
  intros Hcur Hsame E1 E2 E3 E4 E5 [(contents & Hc & HF) Hs Hd Ho Hb]. constructor; rewrite ?E2, ?E3, ?E4, ?E5; [|done..|nia].
  exists contents. split; [done|]. eapply Forall2_impl; [exact HF|]. intros part c. by apply part_stored_frame.
Qed.

(** What is uploaded follows what the object held. *)
Lemma upload_run p ud data bu l ob base cur : bu_heap bu !! p = Some ob -> object_stored l cur ob base -> 0 <= cur ->
  bki_BucketID (bu_BucketInfo bu) = bid -> bki_Length (bu_BucketInfo bu) = Z.of_nat W * cur -> l_dps l !! bid = Some dp ->
  is_Some (ck_NewVerifier (DV := DV)) -> Z.of_nat W * (cur + 1) + Z.of_nat (length data) < 2^62 ->
  exists bu2 l2 ob2 cur2, upload cf clock p ud (data, None) (mkBusySt bu l) = (Ok tt, mkBusySt bu2 l2) /\
    bu_heap bu2 !! p = Some ob2 /\ lo_ObjectInfo ob2 = lo_ObjectInfo ob /\ object_stored l2 cur2 ob2 (base ++ kept_data W data) /\
    bki_Length (bu_BucketInfo bu2) = Z.of_nat W * cur2 /\ cur <= cur2 /\ Z.of_nat W * cur2 <= Z.of_nat W * (cur + 1) + Z.of_nat (length data) /\
    up_frame p (mkBusySt bu l) (mkBusySt bu2 l2) /\ same_before cur (l_segs l) (l_segs l2).
Proof.
  intros Hp [(contents & Hc & HF) Hs Hd Ho Hb] Hcur Hid Hlen Hdps [v Hv] Hbig. pose proof (stripe_len_pos dp Hdp) as HW. unfold upload.
  erewrite bind_run by reflexivity. cbn [bs_bu]. erewrite bind_run; [|unfold on_l, zoom, getDataProcess, bind, gets; cbn [bs_l bs_bu]; rewrite Hid, Hdps; reflexivity].
  rewrite Hv. erewrite bind_run by reflexivity. rewrite (dpo_size _ Hdp). replace (Z.of_nat W =? 0) with false by (symmetry; apply Z.eqb_neq; lia). cbv zeta.
  unfold NewSegmentID. rewrite (dpo_fs _ Hdp). change (negb (FSID_LEN =? FSID_LEN)%nat) with false. cbv iota. erewrite bind_run by reflexivity. cbn [fst].
  assert (Ecur : bki_Length (bu_BucketInfo bu) / Z.of_nat W = cur) by (rewrite Hlen, Z.mul_comm; apply Z.div_mul; lia). rewrite Ecur.
  set (up := mkUpSt 0 0 0 (bki_NextOpID (bu_BucketInfo bu)) cur [] v). change (set_bs_l (fun _ => l) (mkBusySt bu l)) with (mkBusySt bu l).
  assert (Hinv : up_inv (lo_ObjectInfo ob) p base [] 0 (mkBusySt bu l) up ob).
  { constructor; cbn [bs_bu bs_l up up_curStripe up_stripeCount up_sendCount up_rawLen up_dv]; try done.
    - by exists contents.
    - intros j Hj. cbn in Hj. lia.
    - cbn. lia.
    - split; [by apply dv_new|by left]. }
  destruct (upload_loop_run (S (length data)) _ p ud base [] 0 _ up ob data Hinv) as ([bu2 l2] & up2 & ob2 & pend2 & k2 & E & Hinv2 & Hle & Hb2 & Hfr & Hsame);
    [done|unfold batch; lia|lia|cbn [up up_curStripe]; lia|].
  exists bu2, l2, ob2, (up_curStripe up2). split; [exact E|]. destruct Hinv2 as [I1 I2 I3 I4 I5 I6 I7 I8 I9 I10 I11 I12 I13]. cbn [bs_bu bs_l up up_curStripe] in *. rewrite Z.add_0_r in Hb2. split_and!; done.
Qed.
End Upload.

End Service.

(** Taking chunks over changes nothing that is stored. *)
Lemma object_stored_reach cf moved moved2 dp l l2 cur ob content : (forall id, reach moved2 l2 id = reach moved l id) ->
  object_stored cf moved dp l cur ob content -> object_stored cf moved2 dp l2 cur ob content.
Proof.
  intros Hsame [(contents & Hc & HF) Hs Hd Ho Hb]. constructor; [|done..]. exists contents. split; [done|]. eapply Forall2_impl; [exact HF|].
  intros part c [Hl Hn (k & Hk & Hoff & Hle & Hp)]. constructor; [done..|]. exists k. split_and!; [done..|]. intros j Hj.
  destruct (Hp j Hj) as (chunks & Hcut & Hall). exists chunks. split; [done|]. intros i Hi. rewrite Hsame. by apply Hall.
Qed.
End LfsWrite.
