(* ===== verification/LfsChunks.v ===== *)
(** * LfsChunks: where the chunks of a user are

    A chunk of a user's data is in the local store until the data chain has confirmed
    the sequence it was sent in; then the order manager notes which provider has it
    and deletes it here ([replaceSegWithLoc] of [service/user/order/inst.go]).  A
    download asks the provider that was noted ([service/data/service.go],
    [service/user/lfs/ghost.go]).  Taking chunks over loses none of them, as long as
    the providers give back what they took, but for as many chunks of a stripe as
    there is parity. *)

From S2P Require Import Prelude GoMonad Codec Keys Segments SegmentID Types Tx TxStore Fr StateTypes Coder CoderProps UserOrder UserSend UserJobs Aes Lfs LfsProps LfsData LfsRead LfsWrite.

Definition MetaType_SegLocationKey := 70.
Definition MetaType_OrderSegLocKey := 76.

Section LfsChunks.
Context `{!StateEnv, !SegBits, !Codec SegJob, !Codec segJobStateStored, !LfsCodecs, !NameTree, !LfsLibs, !AesEnv, !Base58, !Codec (list AggSegs)}.
Context {DV : Type} `{!ReedSolomon, !CoderKeys DV}.
Notation lfsSt := (lfsSt (DV := DV)).

(** ** The places of segments *)

(** The file system and the places the data service has noted; nothing else of a user
    uses their keys. *)
Record userSt := mkUserSt { us_lfs : lfsSt; us_locs : gmap bytes bytes }.
Definition set_us_lfs f (u : userSt) := mkUserSt (f (us_lfs u)) (us_locs u).
Definition set_us_locs f (u : userSt) := mkUserSt (us_lfs u) (f (us_locs u)).
Implicit Types (us : userSt) (id : bytes) (pid : Z).

Definition SegLocationKey id : bytes := NewKey [KMetaType MetaType_SegLocationKey; KString (base58_Encode id)].
Definition GetSegmentLocation id : M userSt Z :=
  let! locs := gets us_locs in
  let! val := of_option (locs !! SegLocationKey id) "not found" in
  do! check (negb (length val <? 8)%nat) "location is wrong";
  ret (get_be (take 8 val)).
Definition PutSegmentLocation id pid : M userSt unit := modify (set_us_locs <[SegLocationKey id := put_be 8 pid]>).
Definition DeleteSegmentLocation id : M userSt unit := modify (set_us_locs (delete (SegLocationKey id))).
Definition OrderSegLocKey (userID pid : Z) : bytes := NewKey [KMetaType MetaType_OrderSegLocKey; KUint64 userID; KUint64 pid].

(** The first provider whose stored list of segments has this one. *)
Fixpoint location_in (ds : gmap bytes bytes) (userID : Z) id (pros : list Z) : option Z :=
  match pros with
  | [] => None
  | pid :: pros =>
      let found := match ds !! OrderSegLocKey userID pid with
                   | Some val => match decode (A := list AggSegs) val with
                                 | Some asq => AggSegsQueue_Has asq (GetBucketID id) (GetStripeID id) (GetChunkID id)
                                 | None => false
                                 end
                   | None => false
                   end in
      if found then Some pid else location_in ds userID id pros
  end.

Section Service.
Context (cf : lfsConf).

(** [pros]: what the chain says of the providers of the user. *)
Definition getSegmentLocation (pros : option (list Z)) (userID : Z) id : M userSt Z :=
  let! own := (if lf_userID cf =? userID then try_err (GetSegmentLocation id) else ret None) in
  match own with
  | Some pid => ret pid
  | None =>
      let! pros := of_option pros "providers" in
      let! ds := gets (fun us => l_ds (us_lfs us)) in
      of_option (location_in ds userID id pros) "no location in meta"
  end.

(** The provider that is asked for a segment; [from]: what a provider gives. *)
Definition remote_of (from : Z -> bytes -> option bytes) (pros : option (list Z)) (userID : Z) us id : option bytes :=
  match (getSegmentLocation pros userID id us).1 with Ok pid => from pid id | _ => None end.

(** ** replaceSegWithLoc *)

(** The bucket and chunk numbers are set once for an entry, the stripe for each of its
    stripes. *)
Definition entry_id (sid : bytes) (seg : AggSegs) (j : Z) : bytes := SetStripeID j (SetChunkID (as_ChunkID seg) (SetBucketID (as_BucketID seg) sid)).
Definition entry_stripes (seg : AggSegs) : list Z := seqZ (as_Start seg) (u64 (as_Start seg + as_Length seg) - as_Start seg).
Definition user_DeleteSegment id : M userSt unit := zoom us_lfs (fun l => set_us_lfs (fun _ => l)) (DeleteSegment id).
Definition replaceSegWithLoc (fsID : bytes) (seq : OrderSeq) : M userSt unit :=
  match NewSegmentID fsID 0 0 0 with
  | None => ret tt
  | Some sid =>
      for_each (os_Segments seq) (fun seg =>
        for_each (entry_stripes seg) (fun j =>
          do! PutSegmentLocation (entry_id sid seg j) (os_ProID seq);
          user_DeleteSegment (entry_id sid seg j)))
  end.

(** ** What providers have taken over *)

Context `{!Base58Laws}.

(** Of each segment that was here when its sequence was confirmed: the provider that was
    noted last, and the chunk. *)
Implicit Types (g : gmap bytes (Z * bytes)).
Definition moved g id : option bytes := snd <$> g !! id.
Definition take_over pid id us : userSt := set_us_lfs (set_l_segs (delete id)) (set_us_locs <[SegLocationKey id := put_be 8 pid]> us).
Definition hand_over pid id us g : gmap bytes (Z * bytes) :=
  match reach (moved g) (us_lfs us) id with Some d => <[id := (pid, d)]> g | None => g end.

(** The identifiers of a sequence, in order. *)
Definition seq_ids (fsID : bytes) (seq : OrderSeq) : list bytes :=
  match NewSegmentID fsID 0 0 0 with
  | None => []
  | Some sid => concat ((fun seg => entry_id sid seg <$> entry_stripes seg) <$> os_Segments seq)
  end.

Lemma for_each_map {A B} (h : A -> B) (l : list A) (f : B -> M userSt unit) us : for_each (h <$> l) f us = for_each l (fun x => f (h x)) us.
Proof. revert us. induction l as [|x l IH]; intros us; [done|]. simpl. unfold bind. destruct (f (h x) us) as [[[]|e|w] us2]; [apply IH|done..]. Qed.
Lemma for_each_app {A} (l1 l2 : list A) (f : A -> M userSt unit) us : for_each (l1 ++ l2) f us = bind (for_each l1 f) (fun _ => for_each l2 f) us.
Proof.
  revert us. induction l1 as [|x l IH]; intros us; [done|]. simpl. rewrite bind_assoc. unfold bind at 1 2. destruct (f x us) as [[[]|e|w] us2]; [apply IH|done..].
Qed.
Lemma bind_cong {A B} (m1 m2 : M userSt A) (f1 f2 : A -> M userSt B) us : m1 us = m2 us -> (forall a us2, f1 a us2 = f2 a us2) -> bind m1 f1 us = bind m2 f2 us.
Proof. intros E Ef. unfold bind. rewrite E. by destruct (m2 us) as [[a|e|w] us2]. Qed.
Lemma replaceSegWithLoc_run fsID seq us :
  replaceSegWithLoc fsID seq us = (Ok tt, foldl (fun us id => take_over (os_ProID seq) id us) us (seq_ids fsID seq)).
Proof.
  set (one := fun id => do! PutSegmentLocation id (os_ProID seq); user_DeleteSegment id).
  assert (E : forall ids us, for_each ids one us = (Ok tt, foldl (fun us id => take_over (os_ProID seq) id us) us ids)).
  { intros ids. induction ids as [|id ids IH]; intros us0; [done|]. cbn [for_each foldl]. erewrite bind_run by reflexivity. apply IH. }
  unfold replaceSegWithLoc, seq_ids. destruct (NewSegmentID fsID 0 0 0) as [sid|]; [|done]. rewrite <-E. generalize (os_Segments seq). intros segs. revert us.
  induction segs as [|seg segs IH]; intros us; [done|]. rewrite fmap_cons. cbn [for_each concat]. rewrite for_each_app. apply bind_cong; [symmetry; apply for_each_map|]. intros _ us2. apply IH.
Qed.

(** The provider noted for a segment that is not here is the one that has it. *)
Definition noted us g : Prop := forall id pid d, g !! id = Some (pid, d) -> (GetSegmentLocation id us).1 = Ok pid.

Lemma GetSegmentLocation_at id us pid : is_u64 pid -> us_locs us !! SegLocationKey id = Some (put_be 8 pid) -> GetSegmentLocation id us = (Ok pid, us).
Proof.
  intros Hp E. unfold GetSegmentLocation. erewrite bind_run by reflexivity. rewrite E. erewrite bind_run by reflexivity. rewrite length_put_be.
  erewrite bind_run by reflexivity. rewrite take_ge by (by rewrite length_put_be). by rewrite get_put_be8.
Qed.
Lemma GetSegmentLocation_same id us us2 : us_locs us2 !! SegLocationKey id = us_locs us !! SegLocationKey id ->
  (GetSegmentLocation id us2).1 = (GetSegmentLocation id us).1.
Proof. intros E. unfold GetSegmentLocation, bind, gets. rewrite E. destruct (us_locs us !! _) as [val|]; [|done]. unfold of_option, check, ret. by destruct (length val <? 8)%nat. Qed.
Lemma SegLocationKey_inj id id2 : SegLocationKey id = SegLocationKey id2 -> id = id2.
Proof. intros E%NewKey_string_inj. by apply (inj base58_Encode) in E. Qed.

Lemma noted_take_over pid id us g : is_u64 pid -> noted us g -> noted (take_over pid id us) (hand_over pid id us g).
Proof.
  intros Hp Hn id2 pid2 d2 Hg. destruct (decide (id = id2)) as [<-|Hne].
  - rewrite (GetSegmentLocation_at _ _ pid Hp) by apply lookup_insert_eq. cbn [fst]. unfold hand_over in Hg. destruct (reach _ _ id) as [d|] eqn:Er.
    + rewrite lookup_insert_eq in Hg. congruence.
    + unfold reach, moved in Er. rewrite Hg in Er. by destruct (l_segs _ !! id).
  - assert (Hg2 : g !! id2 = Some (pid2, d2)) by (unfold hand_over in Hg; destruct (reach _ _ id); [by rewrite lookup_insert_ne in Hg|done]).
    rewrite <-(Hn id2 pid2 d2 Hg2). apply GetSegmentLocation_same. apply lookup_insert_ne. intros E. by apply Hne, SegLocationKey_inj.
Qed.
Lemma reach_take_over pid id us g id2 :
  reach (moved (hand_over pid id us g)) (us_lfs (take_over pid id us)) id2 = reach (moved g) (us_lfs us) id2.
Proof.
  unfold hand_over. unfold reach at 1. cbn [us_lfs take_over set_us_lfs l_segs set_l_segs set_us_locs]. destruct (decide (id = id2)) as [<-|Hne].
  - rewrite lookup_delete_eq. destruct (reach _ _ id) as [d|] eqn:Er; unfold moved; [by rewrite lookup_insert_eq|].
    unfold reach, moved in Er. by destruct (l_segs _ !! id).
  - rewrite lookup_delete_ne by done. unfold reach. destruct (l_segs (us_lfs us) !! id2); [done|].
    destruct (match l_segs (us_lfs us) !! id with Some _ => _ | None => _ end) as [d|]; [|done]. unfold moved. by rewrite lookup_insert_ne.
Qed.

(** ** A whole sequence *)

Definition hand_seq (fsID : bytes) (seq : OrderSeq) us g : userSt * gmap bytes (Z * bytes) :=
  foldl (fun '(us, g) id => (take_over (os_ProID seq) id us, hand_over (os_ProID seq) id us g)) (us, g) (seq_ids fsID seq).

(** What the transfer leaves alone. *)
Definition same_service us us2 : Prop := exists segs, us_lfs us2 = set_l_segs (fun _ => segs) (us_lfs us).
#[local] Instance same_service_pre : PreOrder same_service.
Proof.
  split; [intros us; exists (l_segs (us_lfs us)); by destruct (us_lfs us)|]. intros a b c [s1 E1] [s2 E2]. exists s2. rewrite E2, E1. by destruct (us_lfs a).
Qed.

Lemma hand_seq_spec fsID seq us g : is_u64 (os_ProID seq) -> noted us g ->
  let '(us2, g2) := hand_seq fsID seq us g in
  replaceSegWithLoc fsID seq us = (Ok tt, us2) /\ noted us2 g2 /\ same_service us us2 /\
  forall id, reach (moved g2) (us_lfs us2) id = reach (moved g) (us_lfs us) id.
Proof.
  intros Hp. rewrite replaceSegWithLoc_run. unfold hand_seq. generalize (seq_ids fsID seq). intros ids. revert us g.
  induction ids as [|id ids IH]; intros us g Hn; [done|]. cbn [foldl].
  specialize (IH _ _ (noted_take_over (os_ProID seq) id us g Hp Hn)). destruct (foldl _ (take_over _ id us, _) ids) as [us2 g2].
  destruct IH as (E & Hn2 & Hsame & Hr). split; [exact E|]. split; [done|]. split.
  - trans (take_over (os_ProID seq) id us); [|done]. by exists (delete id (l_segs (us_lfs us))).
  - intros id2. rewrite Hr. apply reach_take_over.
Qed.

(** The providers that have taken chunks over give them back, but for at most
    [ParityCount] of each stripe, of which they give nothing. *)
Definition served (from : Z -> bytes -> option bytes) (dp : dataProcess DV) us g : Prop := forall s, exists lost : list nat,
  (length lost <= dcd_pc (dp_coder dp))%nat /\
  forall i pid d, let id := seg_id dp (dp_bucketID dp) s i in (i < dcd_chunkCount (dp_coder dp))%nat -> l_segs (us_lfs us) !! id = None -> g !! id = Some (pid, d) ->
    from pid id = if decide (i ∈ lost) then None else Some d.

Lemma served_none from dp us : served from dp us ∅.
Proof. intros s. exists []. split; [apply Nat.le_0_l|]. intros i pid d id _ _ Hg. by rewrite lookup_empty in Hg. Qed.
Lemma served_returns from pros dp us g : noted us g -> served from dp us g ->
  returns (moved g) (us_lfs us) (remote_of from pros (lf_userID cf) us) dp (dp_bucketID dp).
Proof.
  intros Hn Hs s. destruct (Hs s) as (lost & Hl & Hgive). exists lost. split; [done|]. intros i d Hi Hnone Hm. unfold moved in Hm.
  destruct (g !! _) as [[pid d2]|] eqn:Eg; [|done]. injection Hm as ->. rewrite <-(Hgive i pid d Hi Hnone Eg). pose proof (Hn _ _ _ Eg) as Hloc.
  unfold remote_of, getSegmentLocation. rewrite Z.eqb_refl. unfold bind, try_err. destruct (GetSegmentLocation _ us) as [o us2]. cbn [fst] in Hloc. by subst o.
Qed.
End Service.
End LfsChunks.
