(* ===== verification/LfsRefine.v ===== *)
(** * LfsRefine: a bucket is a map from names to contents

    [PutObject], [GetObject] and [DeleteObject] against a finite map: what a
    sequence of calls answers is what the map answers, while the chain confirms
    sequences and their chunks move to the providers ([LfsChunks]) and some are lost
    there, and each object reads back what an upload keeps of its data. *)

From S2P Require Import Prelude GoMonad Codec Keys Segments SegmentID Types Tx TxStore Fr StateTypes Coder CoderProps UserOrder UserSend UserJobs Aes Lfs LfsProps LfsData LfsRead LfsWrite LfsChunks.

(** ** The map *)

Inductive call :=
  | Put (name : string) (userDefined : gmap string string) (data : bytes)
  | Get (name : string) (start length_ : Z)
  | Delete (name : string)
  | Confirm (seq : OrderSeq).   (** the data chain has applied this sequence *)

(** [length_] negative: all from [start] on. *)
Definition spec_read (content : bytes) (start length_ : Z) : outcome bytes :=
  let size := Z.of_nat (length content) in
  let n := if length_ <? 0 then size - start else length_ in
  if size =? 0 then Err "object is empty"
  else if (size <? start) || (size <? start + length_) then Err "out of object size"
  else if n =? 0 then Err "read length is zero"
  else Ok (slice (Z.to_nat start) (Z.to_nat (start + n)) content).

(** The answer, and the map afterwards; [W]: the size of a stripe. *)
Definition spec_call (W : nat) (c : call) (m : gmap string bytes) : outcome bytes * gmap string bytes :=
  match c with
  | Put name _ data =>
      match m !! name with
      | Some _ => (Err "object already exist", m)
      | None => (Ok [], <[name := kept_data W data]> m)
      end
  | Get name start length_ =>
      match m !! name with
      | Some content => (spec_read content start length_, m)
      | None => (Err "object not exist", m)
      end
  | Delete name =>
      match m !! name with
      | Some _ => (Ok [], delete name m)
      | None => (Err "object not exist", m)
      end
  | Confirm _ => (Ok [], m)
  end.

(** The order in which a map of tags is visited, what each provider gives, what the chain
    says of the user's providers, and what comes when the places of the segments have
    been asked for again. *)
Record network := mkNetwork {
  nw_visit : list nat -> list nat; nw_from : Z -> bytes -> option bytes; nw_pros : option (list Z); nw_again : bytes -> option bytes }.

Fixpoint spec_calls (W : nat) (cs : list (network * call)) (m : gmap string bytes) : list (outcome bytes) * gmap string bytes :=
  match cs with
  | [] => ([], m)
  | (_, c) :: cs => let '(r, m) := spec_call W c m in let '(rs, m) := spec_calls W cs m in (r :: rs, m)
  end.

(** Room a call needs in the numbers of a bucket. *)
Definition call_room (W : nat) (c : call) : Z := match c with Put _ _ data => Z.of_nat W + Z.of_nat (length data) | _ => 0 end.
Definition calls_room (W : nat) (cs : list (network * call)) : Z := foldr (fun c n => call_room W c.2 + n) 0 cs.

Section LfsRefine.
Context `{!StateEnv, !SegBits, !Codec SegJob, !Codec segJobStateStored, !LfsCodecs, !NameTree, !LfsLibs, !AesEnv, !Base58, !Codec (list AggSegs)}.
Context `{!Base58Laws, !CodecTotal SegJob, !LfsCodecLaws, !NameTreeLaws}.
Context {DV : Type} `{!ReedSolomon, !CoderKeys DV, !RSLaws, !KeyLaws, !VerifierLaws, !AesLaws}.
Notation lfsSt := (lfsSt (DV := DV)).
Notation busySt := (busySt (DV := DV)).
Notation userSt := (userSt (DV := DV)).
Implicit Types (us : userSt) (g : gmap bytes (Z * bytes)) (mv : bytes -> option bytes) (l : lfsSt) (bu : bucket) (ob : object) (m : gmap string bytes).
Section Service.
Context (cf : lfsConf) (clock : nat -> Z).

(** ** A new object *)

Lemma createObject_run name ud bu l : tr_Find name (bu_objectTree bu) = None -> exists bu2 l2 ob,
  createObject cf clock name ud (mkBusySt bu l) = (Ok (length (bu_heap bu)), mkBusySt bu2 l2) /\
  bu_heap bu2 = bu_heap bu ++ [ob] /\ bu_objectTree bu2 = tr_Insert name (length (bu_heap bu)) (bu_objectTree bu) /\
  (lo_Parts ob = [] /\ lo_Size ob = 0 /\ lo_deletion ob = false /\ length (lo_ops ob) = 1%nat) /\
  bki_BucketID (bu_BucketInfo bu2) = bki_BucketID (bu_BucketInfo bu) /\ bki_Deletion (bu_BucketInfo bu2) = bki_Deletion (bu_BucketInfo bu) /\
  bki_Length (bu_BucketInfo bu2) = bki_Length (bu_BucketInfo bu) /\ bu_writable bu2 = bu_writable bu /\
  l_sb l2 = l_sb l /\ l_dps l2 = l_dps l /\ l_segs l2 = l_segs l /\ (l_sw l2, l_needPay l2, l_bal l2) = (l_sw l, l_needPay l, l_bal l).
Proof.
  intros Hn. unfold createObject. erewrite bind_run by reflexivity. cbn [bs_bu]. rewrite Hn. do 2 (erewrite bind_run by reflexivity). cbv zeta.
  match goal with |- context [marshal ?x] => set (poi := x) end. destruct (marshal_total poi) as [payload Hm]. rewrite Hm. do 2 (erewrite bind_run by reflexivity).
  match goal with |- context [bind (addOpRecord _ _ _ _) _ (set_bs_bu (set_bu_BucketInfo ?f1) (set_bs_l (fun _ => ?l2) ?b))] =>
    set (bu1 := set_bu_BucketInfo f1 bu); change (set_bs_bu _ _) with (mkBusySt bu1 l2); set (l1 := l2) end.
  destruct (addOpRecord_run cf clock OpRecord_CreateObject payload bu1 l1) as (data & datab & _ & _ & Ea). rewrite (bind_run _ _ _ _ _ Ea).
  match goal with |- context [mkBusySt (op_bucket ?t ?d bu1) (op_store cf ?x ?y ?z ?w l1)] => set (bu2 := op_bucket t d bu1); set (l2 := op_store cf x y z w l1); set (opid := y) in * end.
  erewrite bind_run by reflexivity. cbn [bs_bu]. change (bu_heap bu2) with (bu_heap bu). erewrite bind_run by reflexivity.
  set (ob := set_lo_dirty _ _). match goal with |- context [bind (object_Save _ _) _ (set_bs_bu ?f _)] => set (bu3 := f bu2); change (set_bs_bu _ _) with (mkBusySt bu3 l2) end.
  destruct (object_Save_run cf (length (bu_heap bu)) bu3 l2 ob) as (form & _ & Es); [|done|].
  { change (bu_heap bu3) with (bu_heap bu ++ [ob]). by rewrite lookup_app_r, Nat.sub_diag by lia. }
  rewrite (bind_run _ _ _ _ _ Es). do 2 (erewrite bind_run by reflexivity). eexists _, _, (set_lo_dirty (fun _ => false) ob). split; [reflexivity|].
  split_and!; try done. change (<[length (bu_heap bu) := set_lo_dirty (fun _ => false) ob]> (bu_heap bu ++ [ob]) = bu_heap bu ++ [set_lo_dirty (fun _ => false) ob]).
  rewrite <-(Nat.add_0_r (length (bu_heap bu))), insert_app_r. done.
Qed.

(** ** Steps of PutObject *)

Lemma with_bucket_run {A} bid (x : M busySt A) l bu r bu2 l2 : sb_buckets (l_sb l) !! Z.to_nat bid = Some bu -> x (mkBusySt bu l) = (r, mkBusySt bu2 l2) ->
  with_bucket bid x l = (r, set_l_sb (set_sb_buckets <[Z.to_nat bid := bu2]>) l2).
Proof. intros Hb E. unfold with_bucket. by rewrite Hb, E. Qed.
Lemma with_bucket_same {A} bid (x : M busySt A) l bu r : sb_buckets (l_sb l) !! Z.to_nat bid = Some bu -> x (mkBusySt bu l) = (r, mkBusySt bu l) ->
  with_bucket bid x l = (r, l).
Proof.
  intros Hb E. rewrite (with_bucket_run _ _ _ _ _ _ _ Hb E). f_equal. destruct l as [ds sb segs jobs msgs np bal sw now dps], sb as [i d w v n bs c].
  unfold set_l_sb, set_sb_buckets. cbn in *. by rewrite list_insert_id.
Qed.

Lemma cache_etag_run ob bu l : exists f, cache_etag ob (mkBusySt bu l) = (Ok tt, mkBusySt bu (set_l_sb (set_sb_etagCache f) l)).
Proof.
  unfold cache_etag. destruct (etag_ToString _); [by eexists|]. exists (fun c => c). by destruct l as [ds sb segs jobs msgs np bal sw now dps], sb.
Qed.

(** What the states of the jobs change of an object. *)
Definition same_object ob ob2 : Prop :=
  lo_ObjectInfo ob2 = lo_ObjectInfo ob /\ lo_Parts ob2 = lo_Parts ob /\ lo_Size ob2 = lo_Size ob /\ lo_deletion ob2 = lo_deletion ob /\ lo_ops ob2 = lo_ops ob.
Lemma set_state_same st ob : same_object ob (set_state st ob).
Proof. destruct st as [[[a b] c] d]. unfold set_state. by destruct (_ && _). Qed.
Lemma refresh_state_run p bu l ob : bu_heap bu !! p = Some ob -> length (lo_ops ob) = S (length (lo_Parts ob)) -> exists ob2,
  refresh_state cf p (mkBusySt bu l) = (Ok tt, mkBusySt (set_bu_heap <[p := ob2]> bu) l) /\ same_object ob ob2.
Proof.
  intros Hp Ho. unfold refresh_state. rewrite (bind_run _ _ _ _ _ (the_obj_run p bu l ob Hp)). unfold part_ops. rewrite Ho, Nat.leb_refl.
  erewrite bind_run by reflexivity. change (set_bs_l _ _) with (mkBusySt bu l). rewrite (on_obj_run _ _ _ _ _ Hp). eexists. split; [reflexivity|]. apply set_state_same.
Qed.

(** DeleteObject, once the object is found. *)
Definition delete_at name (p : nat) : M busySt unit :=
  let! ob := the_obj p in
  let! t := on_l (time_Now clock) in
  let! payload := of_option (marshal (mkObjectDeleteInfo (oin_ObjectID (lo_ObjectInfo ob)) t)) "marshal" in
  let! opid := addOpRecord cf clock OpRecord_DeleteObject payload in
  do! object_op cf p opid (set_lo_deletion (fun _ => true));
  do! on_bu (set_bu_objectTree (tr_Delete name));
  on_bu (set_bu_objects (delete (oin_ObjectID (lo_ObjectInfo ob)))).
Lemma delete_at_run name p bu l ob : bu_heap bu !! p = Some ob -> exists bu2 l2 ob2,
  delete_at name p (mkBusySt bu l) = (Ok tt, mkBusySt bu2 l2) /\ bu_heap bu2 = <[p := ob2]> (bu_heap bu) /\ bu_objectTree bu2 = tr_Delete name (bu_objectTree bu) /\
  bki_BucketID (bu_BucketInfo bu2) = bki_BucketID (bu_BucketInfo bu) /\ bki_Deletion (bu_BucketInfo bu2) = bki_Deletion (bu_BucketInfo bu) /\
  bki_Length (bu_BucketInfo bu2) = bki_Length (bu_BucketInfo bu) /\ bu_writable bu2 = bu_writable bu /\
  l_sb l2 = l_sb l /\ l_dps l2 = l_dps l /\ l_segs l2 = l_segs l /\ (l_sw l2, l_needPay l2, l_bal l2) = (l_sw l, l_needPay l, l_bal l).
Proof.
  intros Hp. unfold delete_at. rewrite (bind_run _ _ _ _ _ (the_obj_run p bu l ob Hp)). erewrite bind_run by reflexivity.
  match goal with |- context [marshal ?x] => destruct (marshal_total x) as [payload Hm] end. rewrite Hm. erewrite bind_run by reflexivity.
  match goal with |- context [bind (addOpRecord _ _ _ _) _ (set_bs_l (fun _ => ?x) _)] => set (l1 := x); change (set_bs_l _ _) with (mkBusySt bu l1) end.
  destruct (addOpRecord_run cf clock OpRecord_DeleteObject payload bu l1) as (data & datab & _ & _ & Ea). rewrite (bind_run _ _ _ _ _ Ea).
  match goal with |- context [mkBusySt (op_bucket ?t ?d bu) ?x] => set (bu2 := op_bucket t d bu); set (l2 := x) end.
  destruct (object_op_run cf p (bki_NextOpID (bu_BucketInfo bu)) (set_lo_deletion (fun _ => true)) bu2 l2 ob _ Hp eq_refl eq_refl) as (form & _ & Eo).
  rewrite (bind_run _ _ _ _ _ Eo). erewrite bind_run by reflexivity. eexists _, _, _. split; [reflexivity|]. done.
Qed.

(** ** The bucket against the map *)

Section Bucket.
Context (dp : dataProcess DV) (Hdp : dp_ok dp).
Notation bid := (dp_bucketID dp).
Notation W := (stripe_len dp).
Hypothesis Hfew : Z.of_nat (dcd_chunkCount (dp_coder dp)) <= 2^32.
Hypothesis Hencode : forall s enc, is_u64 s -> (0 < length enc <= W)%nat ->
  exists encoded, Encode (dp_coder dp) (CreateSegmentID (dp_fsID dp) bid s 0) enc = Ok encoded.
Hypothesis Hverifier : is_Some (ck_NewVerifier (DV := DV)).
Context (bucketName : string) (metaFree dataFree : Z) (uuid : string).
Hypothesis Hfree : 2^30 <= metaFree /\ 10 * 2^30 <= dataFree.

Record bucket_ok mv l bu (cur : Z) m : Prop := mkBucketOk {
  bo_id : bki_BucketID (bu_BucketInfo bu) = bid;
  bo_write : bu_writable bu = true;
  bo_len : bki_Length (bu_BucketInfo bu) = Z.of_nat W * cur;
  bo_cur : 0 <= cur;
  bo_dps : l_dps l !! bid = Some dp;
  bo_names name : match m !! name with
                  | Some content => exists p ob, object_found bu name p ob /\ object_stored cf mv dp l cur ob content
                  | None => tr_Find name (bu_objectTree bu) = None
                  end;
  bo_inj n1 n2 p : tr_Find n1 (bu_objectTree bu) = Some p -> tr_Find n2 (bu_objectTree bu) = Some p -> n1 = n2;
}.

(** A bucket that is open for writing, and what its objects hold. *)
Record lfs_refines mv l (cur : Z) m : Prop := mkRefines {
  rf_sw : 10 <= l_sw l;
  rf_write : sb_write (l_sb l) = true;
  rf_pay : l_needPay l <= l_bal l;
  rf_verify : bid < sb_bucketVerify (l_sb l);
  rf_bucket : exists bu, bucket_found l bucketName bid bu /\ bucket_ok mv l bu cur m;
}.

Lemma bo_bound mv l bu cur m name p : bucket_ok mv l bu cur m -> tr_Find name (bu_objectTree bu) = Some p -> (p < length (bu_heap bu))%nat.
Proof.
  intros Hb Hf. pose proof (bo_names _ _ _ _ _ Hb name) as Hn. destruct (m !! name) as [content|]; [|congruence].
  destruct Hn as (q & ob & [Hq Hob] & _). assert (q = p) as -> by congruence. by eapply lookup_lt_Some.
Qed.

Lemma put_body mv name ud data bu l cur m : bucket_ok mv l bu cur m -> m !! name = None -> Z.of_nat W * (cur + 1) + Z.of_nat (length data) < 2^62 ->
  exists p bu2 l2 ob cur2 f,
    (let! p := createObject cf clock name ud in
     do! upload cf clock p ud (data, None);
     do! ret tt;
     let! ob := the_obj p in
     do! cache_etag ob;
     do! refresh_state cf p;
     the_obj p) (mkBusySt bu l) = (Ok ob, mkBusySt bu2 (set_l_sb (set_sb_etagCache f) l2)) /\
    bucket_ok mv l2 bu2 cur2 (<[name := kept_data W data]> m) /\ object_found bu2 name p ob /\ object_stored cf mv dp l2 cur2 ob (kept_data W data) /\
    Z.of_nat W * cur2 <= Z.of_nat W * (cur + 1) + Z.of_nat (length data) /\
    l_sb l2 = l_sb l /\ (l_sw l2, l_needPay l2, l_bal l2) = (l_sw l, l_needPay l, l_bal l) /\ bki_Deletion (bu_BucketInfo bu2) = bki_Deletion (bu_BucketInfo bu).
Proof.
  intros Hb Hm Hbig. pose proof (bo_names _ _ _ _ _ Hb name) as Hname. rewrite Hm in Hname.
  destruct (createObject_run name ud bu l Hname) as (bu1 & l1 & ob1 & E1 & Hheap1 & Htree1 & (Hparts & Hsize & Hdel & Hops) & Hid1 & Hdel1 & Hlen1 & Hw1 & Hsb1 & Hdps1 & Hsegs1 & Hconf1).
  rewrite (bind_run _ _ _ _ _ E1). set (p := length (bu_heap bu)) in *.
  assert (Hp1 : bu_heap bu1 !! p = Some ob1) by (rewrite Hheap1; unfold p; by rewrite lookup_app_r, Nat.sub_diag by lia).
  assert (Hst1 : object_stored cf mv dp l1 cur ob1 []).
  { constructor; [|done|done|by rewrite Hops, Hparts|cbn; pose proof (bo_cur _ _ _ _ _ Hb); nia]. exists []. split; [done|]. rewrite Hparts. constructor. }
  destruct (upload_run cf clock mv dp Hdp Hfew Hencode p ud data bu1 l1 ob1 [] cur Hp1 Hst1 (bo_cur _ _ _ _ _ Hb)) as
    (bu2 & l2 & ob2 & cur2 & E2 & Hp2 & Hinfo2 & Hst2 & Hlen2 & Hcur2 & Hbig2 & Hfr & Hsame).
  { rewrite Hid1. apply Hb. } { rewrite Hlen1. apply Hb. } { rewrite Hdps1. apply Hb. } { exact Hverifier. } { exact Hbig. }
  rewrite (bind_run _ _ _ _ _ E2), bind_ret_l, (bind_run _ _ _ _ _ (the_obj_run p bu2 l2 ob2 Hp2)).
  destruct (cache_etag_run ob2 bu2 l2) as [f E3]. rewrite (bind_run _ _ _ _ _ E3).
  destruct (refresh_state_run p bu2 (set_l_sb (set_sb_etagCache f) l2) ob2 Hp2 (os_ops _ _ _ _ _ _ _ Hst2)) as (ob3 & E4 & (S1 & S2 & S3 & S4 & S5)).
  rewrite (bind_run _ _ _ _ _ E4). assert (Hlt : (p < length (bu_heap bu2))%nat) by (by eapply lookup_lt_Some).
  erewrite the_obj_run by (apply list_lookup_insert_eq; exact Hlt).
  exists p, (set_bu_heap <[p := ob3]> bu2), l2, ob3, cur2, f. split; [done|]. destruct Hfr as [F8 F9 F1 F2 F3 F4 F5 F6 F7]. cbn [bs_bu bs_l] in *.
  assert (Hst3 : object_stored cf mv dp l2 cur2 ob3 (kept_data W data)) by (eapply (object_stored_frame cf mv dp Hdp Hfew l2 l2 ob2 ob3 cur2); [lia|by intros ? ? _ _|done..]).
  assert (Htree : bu_objectTree (set_bu_heap <[p := ob3]> bu2) = tr_Insert name p (bu_objectTree bu)) by (cbn; congruence).
  assert (Hobj : object_found (set_bu_heap <[p := ob3]> bu2) name p ob3).
  { split; [|by apply list_lookup_insert_eq]. rewrite Htree, tr_Find_Insert, bool_decide_eq_true_2 by done. done. }
  split_and!; [|done|done|done|congruence|congruence|cbn; congruence]. constructor; cbn [bu_BucketInfo set_bu_heap bu_writable].
  - rewrite F5, Hid1. apply Hb.
  - rewrite F9, Hw1. apply Hb.
  - exact Hlen2.
  - pose proof (bo_cur _ _ _ _ _ Hb). lia.
  - rewrite F2, Hdps1. apply Hb.
  - intros n. destruct (decide (name = n)) as [<-|Hne]; [rewrite lookup_insert_eq; by exists p, ob3|]. rewrite lookup_insert_ne by done.
    pose proof (bo_names _ _ _ _ _ Hb n) as Hn. rewrite Htree, tr_Find_Insert, bool_decide_eq_false_2 by done. destruct (m !! n) as [content|]; [|done].
    destruct Hn as (q & ob & [Hq Hob] & Hsto). pose proof (lookup_lt_Some _ _ _ Hob) as Hql. exists q, ob. split.
    + split; [by rewrite Htree, tr_Find_Insert, bool_decide_eq_false_2 by done|]. cbn. rewrite list_lookup_insert_ne by (unfold p; lia).
      rewrite F7 by (unfold p; lia). rewrite Hheap1. by apply lookup_app_l_Some.
    + eapply (object_stored_frame cf mv dp Hdp Hfew l l2 ob ob cur); [done|by rewrite <-Hsegs1|done..].
  - intros n1 n2 q. rewrite !Htree, !tr_Find_Insert by done. pose proof (bo_bound _ _ _ _ _ n1 p Hb) as B1. pose proof (bo_bound _ _ _ _ _ n2 p Hb) as B2.
    destruct (bool_decide_reflect (name = n1)), (bool_decide_reflect (name = n2)); intros Q1 Q2; try congruence.
    + injection Q1 as <-. specialize (B2 Q2). unfold p in B2. lia.
    + injection Q2 as <-. specialize (B1 Q1). unfold p in B1. lia.
    + by eapply (bo_inj _ _ _ _ _ Hb).
Qed.

(** ** Calls *)

(** A call on the file system; [remote]: what the provider noted for a segment gives. *)
Definition lfs_op (nw : network) (remote : bytes -> option bytes) (c : call) : M lfsSt bytes :=
  match c with
  | Put name ud data => let! _ := PutObject cf clock metaFree dataFree uuid bucketName name ud (data, None) in ret []
  | Get name start length_ => GetObject cf (nw_visit nw) remote (nw_again nw) true bucketName name start length_
  | Delete name => do! DeleteObject cf clock bucketName name; ret []
  | Confirm _ => ret []
  end.

(** Names are valid, ranges begin inside the numbers of a file. *)
Definition call_ok (nc : network * call) : Prop :=
  (forall x, Permutation (nw_visit nc.1 x) x) /\
  match nc.2 with
  | Put name _ _ => name <> "" /\ ll_object_name name = true
  | Get name start length_ => ll_object_name name = true /\ 0 <= start < 2^62 /\ - 2^62 < length_ < 2^62
  | Delete name => ll_object_name name = true
  | Confirm seq => is_u64 (os_ProID seq)
  end.

Lemma refines_writeable mv l cur m n : lfs_refines mv l cur m -> n <= 10 -> acquire n l = (Ok tt, l) /\ Writeable l = (Ok tt, l).
Proof.
  intros [Hsw Hw _ _ _] Hn. unfold acquire, Writeable, bind, gets, check. rewrite Hw. split; [|done]. by replace (n <=? l_sw l) with true by (symmetry; apply Z.leb_le; lia).
Qed.

(** The state a call on the bucket leaves. *)
Lemma refines_back mv l l2 bu2 cur cur2 m m2 f : lfs_refines mv l cur m -> bucket_ok mv l2 bu2 cur2 m2 -> bki_Deletion (bu_BucketInfo bu2) = false ->
  l_sb l2 = l_sb l -> (l_sw l2, l_needPay l2, l_bal l2) = (l_sw l, l_needPay l, l_bal l) ->
  lfs_refines mv (set_l_sb (set_sb_buckets <[Z.to_nat bid := bu2]>) (set_l_sb (set_sb_etagCache f) l2)) cur2 m2.
Proof.
  intros [Hsw Hw Hp Hv (bu & (F1 & F2 & F3 & F4 & F5) & _)] Hb Hdel Hsb Hconf. constructor; cbn; rewrite ?Hsb; [congruence || (injection Hconf as -> _ _; done)|done| |done|].
  - injection Hconf as _ -> ->. done.
  - exists bu2. split; [split_and!; cbn; rewrite ?Hsb; try done; apply list_lookup_insert_eq; by eapply lookup_lt_Some|].
    destruct Hb as [B1 B2 B3 B4 B5 B6 B7]. constructor; try done. intros name. specialize (B6 name). destruct (m2 !! name) as [content|]; [|done].
    destruct B6 as (p & ob & Hob & Hst). exists p, ob. split; [done|]. eapply (object_stored_frame cf mv dp Hdp Hfew l2 _ ob ob cur2); [lia|by intros ? ? _ _|done..].
Qed.

(** The tests pass before the bucket is changed. *)
Lemma PutObject_open mv name ud data l cur m bu : lfs_refines mv l cur m -> bucket_found l bucketName bid bu -> bucket_ok mv l bu cur m ->
  name <> "" -> ll_object_name name = true ->
  PutObject cf clock metaFree dataFree uuid bucketName name ud (data, None) l = with_bucket bid
    (let! p := createObject cf clock name ud in
     do! upload cf clock p ud (data, None);
     do! ret tt;
     let! ob := the_obj p in
     do! cache_etag ob;
     do! refresh_state cf p;
     the_obj p) l.
Proof.
  intros Hr Hf Hb Hne Hname. destruct (refines_writeable mv l cur m 10 Hr ltac:(lia)) as [Eacq Ew]. destruct Hfree as [Hm Hd]. unfold PutObject.
  rewrite (bind_run _ _ _ _ _ Eacq), (bind_run _ _ _ _ _ Ew).
  assert (Epay : check_balance l = (Ok tt, l)).
  { unfold check_balance. do 2 (erewrite bind_run by reflexivity). by replace (_ <=? _) with true by (symmetry; apply Z.leb_le, Hr). }
  rewrite (bind_run _ _ _ _ _ Epay).
  rewrite (bind_run _ _ l tt l) by (unfold check; by replace (_ <=? _) with true by (symmetry; by apply Z.leb_le)).
  rewrite (bind_run _ _ l tt l) by (unfold check; by replace (_ <=? _) with true by (symmetry; by apply Z.leb_le)). cbv zeta.
  rewrite (bool_decide_eq_false_2 (name = "")) by done. rewrite Hname. erewrite bind_run by reflexivity.
  rewrite (bind_run _ _ _ _ _ (getBucketInfo_found l bucketName bid bu Hf)). erewrite bind_run by reflexivity.
  unfold with_bucket. destruct Hf as (_ & _ & _ & -> & _). erewrite bind_run by reflexivity. cbn [bs_bu]. rewrite (bo_id _ _ _ _ _ Hb), (bo_write _ _ _ _ _ Hb).
  replace (bid <? sb_bucketVerify (l_sb l)) with true by (symmetry; apply Z.ltb_lt, Hr). do 2 (erewrite bind_run by reflexivity). done.
Qed.

Lemma Put_run nw remote mv name ud data l cur m : lfs_refines mv l cur m -> call_ok (nw, Put name ud data) -> Z.of_nat W * cur + call_room W (Put name ud data) < 2^62 ->
  exists l2 cur2, lfs_op nw remote (Put name ud data) l = ((spec_call W (Put name ud data) m).1, l2) /\ lfs_refines mv l2 cur2 (spec_call W (Put name ud data) m).2 /\
    Z.of_nat W * cur2 <= Z.of_nat W * cur + call_room W (Put name ud data).
Proof.
  intros Hr [_ [Hne Hname]] Hroom. cbn [call_room] in *. destruct (rf_bucket _ _ _ _ Hr) as (bu & Hf & Hb). cbn [lfs_op spec_call].
  pose proof (PutObject_open mv name ud data l cur m bu Hr Hf Hb Hne Hname) as Ep. pose proof Hf as (_ & _ & _ & Hbu & Hdel).
  destruct (m !! name) as [content|] eqn:Hm; cbn [fst snd].
  - exists l, cur. split; [|split; [done|lia]]. pose proof (bo_names _ _ _ _ _ Hb name) as Hn. rewrite Hm in Hn. destruct Hn as (p & ob & [Hp _] & _).
    rewrite (with_bucket_same _ _ l bu (Err "object already exist") Hbu) in Ep; [unfold bind; by rewrite Ep|]. unfold createObject, bind, the_bu, gets. cbn [bs_bu]. by rewrite Hp.
  - destruct (put_body mv name ud data bu l cur m Hb Hm ltac:(lia)) as (p & bu2 & l2 & ob & cur2 & f & Eb & Hb2 & _ & _ & Hle & Hsb & Hconf & Hdel2).
    rewrite (with_bucket_run _ _ l bu _ _ _ Hbu Eb) in Ep. rewrite (bind_run _ _ _ _ _ Ep). eexists _, cur2. split; [reflexivity|]. split; [|lia].
    eapply refines_back; [exact Hr|exact Hb2|congruence|done|done].
Qed.

Lemma spec_read_run l bu ob content (start length_ : Z) visit remote remote2 : l_dps l !! bki_BucketID (bu_BucketInfo bu) = Some dp ->
  bki_BucketID (bu_BucketInfo bu) = bid -> object_holds cf l remote dp bid ob content -> (forall x, Permutation (visit x) x) -> 0 <= start < 2^62 -> - 2^62 < length_ < 2^62 ->
  downloadObject cf visit remote remote2 bu ob start length_ l = (spec_read content start length_, l).
Proof.
  intros Hdps Hid Hh Hvis Hs Hl. pose proof Hh as (contents & _ & _ & Hsize & Hdel & Hbig). unfold spec_read.
  set (n := if length_ <? 0 then Z.of_nat (length content) - start else length_).
  destruct (Z.eqb_spec (Z.of_nat (length content)) 0) as [E0|E0].
  { unfold downloadObject. rewrite Hdel, Hsize, E0. by erewrite bind_run by reflexivity. }
  destruct (_ || _) eqn:Hout.
  { unfold downloadObject. rewrite Hdel, Hsize. erewrite bind_run by reflexivity. replace (_ =? 0) with false by (symmetry; by apply Z.eqb_neq). erewrite bind_run by reflexivity.
    rewrite !i64_id by lia. by rewrite Hout. }
  apply orb_false_iff in Hout as [Hs1%Z.ltb_ge Hs2%Z.ltb_ge]. destruct (Z.eqb_spec n 0) as [En|En].
  - destruct Hverifier as [v Hv]. unfold downloadObject. rewrite Hdel, Hsize. erewrite bind_run by reflexivity.
    replace (Z.of_nat (length content) =? 0) with false by (symmetry; by apply Z.eqb_neq). erewrite bind_run by reflexivity. rewrite !(i64_id (Z.of_nat _)), (i64_id (start + length_)) by lia.
    replace (_ || _) with false by (symmetry; apply orb_false_iff; split; by apply Z.ltb_ge). erewrite bind_run by reflexivity.
    rewrite (bind_run _ _ l dp l) by (unfold getDataProcess, bind, gets; by rewrite Hdps). rewrite Hv. erewrite bind_run by reflexivity. cbv zeta.
    replace (if length_ <? 0 then i64 (u64 (Z.of_nat (length content) - u64 start)) else length_) with 0; [done|].
    unfold n in En. destruct (Z.ltb_spec length_ 0); [|done]. rewrite (u64_id start), u64_id, i64_id by (unfold is_u64; lia). done.
  - assert (Hn : 0 <= n) by (unfold n; destruct (Z.ltb_spec length_ 0); lia).
    assert (Hend : start + n <= Z.of_nat (length content)) by (unfold n; destruct (Z.ltb_spec length_ 0); lia).
    rewrite <-Hid in Hh. by apply (downloadObject_run cf l remote remote2 dp visit bu ob content start length_ Hdp Hdps Hverifier Hvis Hh ltac:(lia) ltac:(fold n; lia) Hend ltac:(lia)).
Qed.

(** An object without content is read without the providers. *)
Lemma stored_holds mv l remote cur ob content : (content <> [] -> returns mv l remote dp bid) -> Z.of_nat W * cur < 2^62 ->
  object_stored cf mv dp l cur ob content -> object_holds cf l remote dp bid ob content.
Proof.
  intros Hret Hcur Hst. destruct content as [|c rest]; [|apply (object_stored_holds cf mv dp Hdp l remote cur ob _ (Hret ltac:(done)) Hcur Hst)].
  destruct Hst as [(contents & Hc & HF) Hs Hd _ Hb]. exists []. cbn [length] in *. split_and!; [done| |done|done|done].
  destruct HF as [|part content parts contents Hp _]; [constructor|]. cbn in Hc. apply app_eq_nil in Hc as [-> _]. destruct Hp as [_ Hn _]. cbn in Hn. lia.
Qed.

Lemma Get_run nw remote mv name (start length_ : Z) l cur m : lfs_refines mv l cur m -> call_ok (nw, Get name start length_) -> Z.of_nat W * cur < 2^62 ->
  (forall content, m !! name = Some content -> content <> [] -> returns mv l remote dp bid) ->
  lfs_op nw remote (Get name start length_) l = ((spec_call W (Get name start length_) m).1, l).
Proof.
  intros Hr (Hvis & Hname & Hs & Hl) Hcur Hret. destruct (rf_bucket _ _ _ _ Hr) as (bu & Hf & Hb). cbn [lfs_op spec_call fst snd] in *. unfold GetObject.
  rewrite (bind_run _ _ _ _ _ (proj1 (refines_writeable mv l cur m 2 Hr ltac:(lia)))), orb_true_r. erewrite bind_run by reflexivity.
  rewrite (getObject_found cf l _ _ _ bucketName name bid bu start length_ Hf Hname). pose proof (bo_names _ _ _ _ _ Hb name) as Hn.
  destruct (m !! name) as [content|]; [|by rewrite Hn]. destruct Hn as (p & ob & [-> ->] & Hst). cbn [fst].
  apply spec_read_run; [|apply Hb| |done..]; [rewrite (bo_id _ _ _ _ _ Hb); apply Hb|]. apply (stored_holds mv l _ cur); [by apply Hret|done..].
Qed.

(** The place of a deleted name is no other name's. *)
Lemma Delete_run nw remote mv name l cur m : lfs_refines mv l cur m -> call_ok (nw, Delete name) ->
  exists l2, lfs_op nw remote (Delete name) l = ((spec_call W (Delete name) m).1, l2) /\ lfs_refines mv l2 cur (spec_call W (Delete name) m).2.
Proof.
  intros Hr [_ Hname]. destruct (rf_bucket _ _ _ _ Hr) as (bu & Hf & Hb). cbn [lfs_op spec_call fst snd] in *. unfold DeleteObject.
  pose proof Hf as (_ & _ & _ & Hbu & Hdel). pose proof (bo_names _ _ _ _ _ Hb name) as Hn. destruct (refines_writeable mv l cur m 1 Hr ltac:(lia)) as [Eacq Ew].
  rewrite bind_assoc, (bind_run _ _ _ _ _ Eacq), bind_assoc, (bind_run _ _ _ _ _ Ew), bind_assoc, (bind_run _ _ _ _ _ (getBucketInfo_found l bucketName bid bu Hf)), bind_assoc.
  erewrite bind_run by reflexivity.
  match goal with |- context [bind (with_bucket bid ?x) _ l] => set (body := x) end.
  assert (Ebody : body (mkBusySt bu l) = match tr_Find name (bu_objectTree bu) with None => (Err "object not exist", mkBusySt bu l) | Some p => delete_at name p (mkBusySt bu l) end).
  { unfold body. erewrite bind_run by reflexivity. cbn [bs_bu]. rewrite (bo_id _ _ _ _ _ Hb). replace (bid <? sb_bucketVerify (l_sb l)) with true by (symmetry; apply Z.ltb_lt, Hr).
    erewrite bind_run by reflexivity. unfold getObjectInfo. rewrite Hname, bind_assoc. erewrite bind_run by reflexivity. rewrite bind_assoc. erewrite bind_run by reflexivity. cbn [bs_bu].
    by destruct (tr_Find name (bu_objectTree bu)). }
  destruct (m !! name) as [content|] eqn:Hm; cbn [fst snd].
  - destruct Hn as (p & ob & [Hp Hob] & _). rewrite Hp in Ebody. destruct (delete_at_run name p bu l ob Hob) as (bu2 & l2 & ob2 & Ed & Hheap2 & Htree2 & Hid2 & Hdel2 & Hlen2 & Hw2 & Hsb2 & Hdps2 & Hsegs2 & Hconf2).
    rewrite Ed in Ebody. rewrite (bind_run _ _ _ _ _ (with_bucket_run _ _ l bu _ _ _ Hbu Ebody)). eexists. split; [reflexivity|].
    assert (Hb2 : bucket_ok mv l2 bu2 cur (delete name m)).
    { constructor; [rewrite Hid2; apply Hb|rewrite Hw2; apply Hb|rewrite Hlen2; apply Hb|apply Hb|rewrite Hdps2; apply Hb| |].
      - intros n. rewrite Htree2, tr_Find_Delete. destruct (decide (name = n)) as [<-|Hne]; [by rewrite lookup_delete_eq, bool_decide_eq_true_2|].
        rewrite lookup_delete_ne, bool_decide_eq_false_2 by done. pose proof (bo_names _ _ _ _ _ Hb n) as Hn2. destruct (m !! n) as [content2|]; [|done].
        destruct Hn2 as (q & ob3 & [Hq Hob3] & Hst). exists q, ob3. split; [split|].
        + by rewrite Htree2, tr_Find_Delete, bool_decide_eq_false_2.
        + rewrite Hheap2, list_lookup_insert_ne; [done|]. intros <-. apply Hne. by eapply (bo_inj _ _ _ _ _ Hb).
        + eapply (object_stored_frame cf mv dp Hdp Hfew l l2 ob3 ob3 cur); [lia|by intros ? ? _ _; rewrite Hsegs2|done..].
      - intros n1 n2 q. rewrite Htree2, !tr_Find_Delete. destruct (bool_decide _), (bool_decide _); try done. by eapply (bo_inj _ _ _ _ _ Hb). }
    pose proof (refines_back mv l l2 bu2 cur cur m _ (fun c => c) Hr Hb2 ltac:(congruence) Hsb2 Hconf2) as Hback.
    destruct l2 as [ds sb segs jobs msgs np bal sw now dps], sb. exact Hback.
  - rewrite Hn in Ebody. exists l. split; [|done]. unfold bind. by rewrite (with_bucket_same _ _ l bu _ Hbu Ebody).
Qed.

(** ** A user *)

Definition lfs_call (nw : network) (c : call) : M userSt bytes := fun us =>
  match c with
  | Confirm seq => (do! replaceSegWithLoc (lf_fsID cf) seq; ret []) us
  | _ => zoom us_lfs (fun l => set_us_lfs (fun _ => l)) (lfs_op nw (remote_of cf (nw_from nw) (nw_pros nw) (lf_userID cf) us) c) us
  end.
Fixpoint lfs_calls (cs : list (network * call)) us : list (outcome bytes) * userSt :=
  match cs with
  | [] => ([], us)
  | (nw, c) :: cs => let '(r, us) := lfs_call nw c us in let '(rs, us) := lfs_calls cs us in (r :: rs, us)
  end.

(** [g]: which providers have taken over which chunks. *)
Record refines us g (cur : Z) m : Prop := mkUserRefines {
  ur_lfs : lfs_refines (moved g) (us_lfs us) cur m;
  ur_noted : noted us g;
}.
Definition handed us g (c : call) : gmap bytes (Z * bytes) := match c with Confirm seq => (hand_seq (lf_fsID cf) seq us g).2 | _ => g end.

(** When something is read, the providers give what they have taken over, but for as many
    chunks of a stripe as there is parity. *)
Definition call_served (nw : network) (c : call) us g : Prop := match c with Get _ _ _ => served (nw_from nw) dp us g | _ => True end.
Fixpoint calls_ok (cs : list (network * call)) us g : Prop :=
  match cs with
  | [] => True
  | (nw, c) :: cs => call_ok (nw, c) /\ call_served nw c us g /\ calls_ok cs (lfs_call nw c us).2 (handed us g c)
  end.

Lemma lfs_refines_reach mv mv2 l segs cur m : lfs_refines mv l cur m -> (forall id, reach mv2 (set_l_segs (fun _ => segs) l) id = reach mv l id) ->
  lfs_refines mv2 (set_l_segs (fun _ => segs) l) cur m.
Proof.
  intros [Hsw Hw Hp Hv (bu & Hf & Hb)] Hsame. constructor; [done..|]. exists bu. split; [exact Hf|]. destruct Hb as [B1 B2 B3 B4 B5 B6 B7]. constructor; [done..| |done].
  intros name. specialize (B6 name). destruct (m !! name) as [content|]; [|done]. destruct B6 as (p & ob & Hob & Hst). exists p, ob. split; [done|].
  by apply (object_stored_reach cf mv mv2 dp l).
Qed.
Lemma Confirm_run nw seq us g cur m : refines us g cur m -> is_u64 (os_ProID seq) ->
  exists us2, lfs_call nw (Confirm seq) us = (Ok [], us2) /\ refines us2 (handed us g (Confirm seq)) cur m.
Proof.
  intros [Hr Hn] Hp. pose proof (hand_seq_spec (lf_fsID cf) seq us g Hp Hn) as Hs. cbn [lfs_call handed].
  destruct (hand_seq (lf_fsID cf) seq us g) as [us2 g2]. destruct Hs as (E & Hn2 & [segs El] & Hreach). exists us2. split; [by rewrite (bind_run _ _ _ _ _ E)|].
  split; [|done]. cbn [snd]. rewrite El. apply (lfs_refines_reach (moved g)); [done|]. intros id. rewrite <-El. apply Hreach.
Qed.

Lemma noted_lfs us g f : noted us g -> noted (set_us_lfs f us) g.
Proof. intros Hn id pid d Hg. rewrite <-(Hn id pid d Hg). by apply GetSegmentLocation_same. Qed.
Lemma zoomed nw c us o l2 : (forall seq, c <> Confirm seq) ->
  lfs_op nw (remote_of cf (nw_from nw) (nw_pros nw) (lf_userID cf) us) c (us_lfs us) = (o, l2) -> lfs_call nw c us = (o, set_us_lfs (fun _ => l2) us).
Proof. intros Hc E. destruct c as [| | |seq]; [..|by destruct (Hc seq)]; cbn [lfs_call]; unfold zoom; by rewrite E. Qed.

(** Reading changes nothing. *)
Lemma Get_us nw name (start length_ : Z) us g cur m : refines us g cur m -> call_ok (nw, Get name start length_) -> Z.of_nat W * cur < 2^62 ->
  (forall content, m !! name = Some content -> content <> [] -> served (nw_from nw) dp us g) ->
  lfs_call nw (Get name start length_) us = ((spec_call W (Get name start length_) m).1, us).
Proof.
  intros [Hl Hn] Hc Hcur Hserved. rewrite (zoomed nw _ us (spec_call W (Get name start length_) m).1 (us_lfs us)); [by destruct us|done|].
  apply (Get_run nw _ (moved g) name start length_ _ cur m Hl Hc Hcur). intros content Hm Hne. by apply (served_returns cf _ _ dp us g Hn), (Hserved content).
Qed.

Lemma call_run nw c us g cur m : refines us g cur m -> call_ok (nw, c) -> call_served nw c us g -> Z.of_nat W * cur + call_room W c < 2^62 ->
  exists us2 cur2, lfs_call nw c us = ((spec_call W c m).1, us2) /\ refines us2 (handed us g c) cur2 (spec_call W c m).2 /\
    Z.of_nat W * cur2 <= Z.of_nat W * cur + call_room W c.
Proof.
  intros Hr Hc Hserved Hroom. pose proof (ur_lfs _ _ _ _ Hr) as Hl. pose proof (ur_noted _ _ _ _ Hr) as Hn.
  set (remote := remote_of cf (nw_from nw) (nw_pros nw) (lf_userID cf) us). destruct c as [name ud data|name start length_|name|seq]; cbn [handed].
  - destruct (Put_run nw remote (moved g) name ud data _ cur m Hl Hc Hroom) as (l2 & cur2 & E & Hr2 & Hle).
    eexists _, cur2. split; [apply zoomed; [done|exact E]|]. split; [split; [exact Hr2|by apply noted_lfs]|done].
  - cbn [call_room] in *. exists us, cur. split; [by apply (Get_us nw name start length_ us g cur m Hr Hc ltac:(lia))|]. split; [|lia]. cbn. by destruct (m !! name).
  - cbn [call_room] in *. destruct (Delete_run nw remote (moved g) name _ cur m Hl Hc) as (l2 & E & Hr2).
    eexists _, cur. split; [apply zoomed; [done|exact E]|]. split; [split; [exact Hr2|by apply noted_lfs]|lia].
  - cbn [call_room] in *. destruct Hc as [_ Hp]. destruct (Confirm_run nw seq us g cur m Hr Hp) as (us2 & E & Hr2). exists us2, cur. split; [done|]. split; [done|lia].
Qed.

Lemma call_room_pos c : 0 <= call_room W c.
Proof. destruct c; cbn; lia. Qed.
Lemma calls_room_pos cs : 0 <= calls_room W cs.
Proof. induction cs as [|c cs IH]; [done|]. cbn. pose proof (call_room_pos c.2). unfold calls_room in IH. lia. Qed.

(** C12. The file system.  Whatever objects are put into a bucket that is open for
    writing, read and deleted, and whatever sequences are confirmed meanwhile, whose
    chunks then move to their providers: the answers are those of a map from names to
    contents.  The map keeps of the data of an object what an upload keeps of it
    ([kept_data]): all of it, unless the data ends with a full stripe, then what is
    in groups of sixteen stripes.  The hypotheses: the coder encodes what is put, the
    numbers of the bucket have room, and whenever something is read, the providers give
    the chunks they have taken over, but for as many of a stripe as there is
    parity. *)
Theorem bucket_refines_map cs us g cur m :
  refines us g cur m -> calls_ok cs us g -> Z.of_nat W * cur + calls_room W cs < 2^62 ->
  (lfs_calls cs us).1 = (spec_calls W cs m).1 /\ exists g2 cur2, refines (lfs_calls cs us).2 g2 cur2 (spec_calls W cs m).2.
Proof.
  revert us g cur m. induction cs as [|[nw c] cs IH]; intros us g cur m Hr Hok Hroom; [split; [done|by exists g, cur]|].
  destruct Hok as (Hc & Hserved & Hcs). change (calls_room W ((nw, c) :: cs)) with (call_room W c + calls_room W cs) in Hroom.
  pose proof (calls_room_pos cs). pose proof (call_room_pos c).
  destruct (call_run nw c us g cur m Hr Hc Hserved ltac:(lia)) as (us2 & cur2 & E & Hr2 & Hle). cbn [lfs_calls spec_calls]. rewrite E in Hcs |- *.
  destruct (spec_call W c m) as [r m2]. cbn [fst snd] in *. destruct (IH us2 _ cur2 m2 Hr2 Hcs ltac:(lia)) as (E3 & g3 & cur3 & Hr3).
  destruct (lfs_calls cs us2) as [rs us3], (spec_calls W cs m2) as [rs2 m3]. cbn [fst snd] in *. subst rs2. split; [done|by exists g3, cur3].
Qed.


(** C38. A lost tail.  Data of some full stripes and nothing more, fewer than sixteen, is
    stored and the put reports success; but the reader comes to its end before the
    stripes are made a part, and the object is empty for every reader. *)
Theorem put_loses_tail nw name ud data k us g cur m :
  refines us g cur m -> call_ok (nw, Put name ud data) -> m !! name = None -> Z.of_nat W * cur + Z.of_nat W + Z.of_nat (length data) < 2^62 ->
  length data = (k * W)%nat -> (0 < k < batch)%nat ->
  exists us2, lfs_call nw (Put name ud data) us = (Ok [], us2) /\
    forall nw2 start length_, call_ok (nw2, Get name start length_) -> lfs_call nw2 (Get name start length_) us2 = (Err "object is empty", us2).
Proof.
  intros Hr Hp Hm Hroom Hlen Hk. destruct (call_run nw (Put name ud data) us g cur m Hr Hp I ltac:(cbn; lia)) as (us2 & cur2 & E & Hr2 & Hle).
  cbn [spec_call call_room handed] in *. rewrite Hm in *. cbn [fst snd] in *. exists us2. split; [done|]. intros nw2 start length_ Hg.
  assert (Ek : kept_data W data = []) by (apply (kept_short W data k (stripe_len_pos dp Hdp) Hlen); lia).
  rewrite (Get_us nw2 name start length_ us2 g cur2 _ Hr2 Hg ltac:(lia)); cbn [spec_call]; rewrite lookup_insert_eq, Ek; [done|].
  by intros content [= <-].
Qed.
End Bucket.
End Service.
End LfsRefine.
