(* ===== verification/LfsRuns.v ===== *)
(** * LfsRuns: a bucket in use

    The file system on small parts: a code that copies one shard of sixteen bytes,
    blocks that are encrypted by reversing them, names in a finite map.  The runs are
    the witnesses of the theorems about the file system. *)

From S2P Require Import Prelude GoMonad Codec Keys Segments SegmentID Types Tx TxStore Fr StateTypes Concrete Coder CoderProps CoderRuns.
From S2P Require Import UserOrder UserSend UserRuns UserJobs UserJobsRuns Aes Lfs LfsProps LfsData LfsRead LfsWrite LfsChunks LfsRefine.

(** ** The libraries *)

#[export] Instance wire_smap : Wire (gmap string string).
Proof.
  refine (wire_iso (A := gmap string string) (B := list (string * string)) map_to_list list_to_map _). intros m. apply list_to_map_to_list.
Defined.
#[export] Instance wire_SuperBlockInfo : Wire SuperBlockInfo.
Proof. refine (wire_iso (fun x => (sbi_Version x, sbi_ReplicaNum x, sbi_NextBucketID x)) (fun '(a, b, c) => mkSuperBlockInfo a b c) _). by intros []. Defined.
#[export] Instance wire_BucketInfo : Wire BucketInfo.
Proof.
  refine (wire_iso (fun x => (bki_BucketID x, bki_CTime x, bki_MTime x, bki_Length x, bki_UsedBytes x, bki_NextObjectID x, bki_NextOpID x, bki_Deletion x, bki_Name x, bki_Root x))
    (fun '(a, b, c, d, e, f, g, h, i, j) => mkBucketInfo a b c d e f g h i j) _). by intros [].
Defined.
#[export] Instance wire_ObjectForm : Wire ObjectForm.
Proof. refine (wire_iso of_OpRecord mkObjectForm _). by intros []. Defined.
#[export] Instance wire_ObjectInfo : Wire ObjectInfo.
Proof.
  refine (wire_iso (fun x => (oin_ObjectID x, oin_BucketID x, oin_Time x, oin_Expire x, oin_Name x, oin_Encryption x, oin_UserDefined x))
    (fun '(a, b, c, d, e, f, g) => mkObjectInfo a b c d e f g) _). by intros [].
Defined.
#[export] Instance wire_ObjectDeleteInfo : Wire ObjectDeleteInfo.
Proof. refine (wire_iso (fun x => (odi_ObjectID x, odi_Time x)) (fun '(a, b) => mkObjectDeleteInfo a b) _). by intros []. Defined.
#[export] Instance wire_ObjectRenameInfo : Wire ObjectRenameInfo.
Proof. refine (wire_iso (fun x => (ori_ObjectID x, ori_Name x, ori_Time x)) (fun '(a, b, c) => mkObjectRenameInfo a b c) _). by intros []. Defined.
#[export] Instance wire_ObjectPartInfo : Wire ObjectPartInfo.
Proof.
  refine (wire_iso (fun x => (part_ObjectID x, part_Length x, part_Offset x, part_StoredBytes x, part_Time x, part_ETag x))
    (fun '(a, b, c, d, e, f) => mkObjectPartInfo a b c d e f) _). by intros [].
Defined.
#[export] Instance wire_BucketNameInfo : Wire BucketNameInfo.
Proof. refine (wire_iso (fun x => (bni_BucketID x, bni_Time x, bni_Name x)) (fun '(a, b, c) => mkBucketNameInfo a b c) _). by intros []. Defined.
#[export] Instance wire_OpRecord : Wire OpRecord.
Proof. refine (wire_iso (fun x => (opr_Type x, opr_OpID x, opr_Time x, opr_Payload x)) (fun '(a, b, c, d) => mkOpRecord a b c d) _). by intros []. Defined.

#[export] Instance small_codecs : LfsCodecs := {}.
#[export] Instance small_codec_laws : LfsCodecLaws.
Proof. constructor; typeclasses eauto. Qed.

#[export] Instance small_tree : NameTree := {
  tree := gmap string nat; tr_new := ∅; tr_Find k t := t !! k; tr_Insert k v t := <[k := v]> t; tr_Delete k t := delete k t }.
#[export] Instance small_tree_laws : NameTreeLaws.
Proof.
  constructor; cbn.
  - apply lookup_empty.
  - intros k k2 v t _. destruct (bool_decide_reflect (k = k2)) as [<-|Hne]; [apply lookup_insert_eq|by apply lookup_insert_ne].
  - intros k k2 t. destruct (bool_decide_reflect (k = k2)) as [<-|Hne]; [apply lookup_delete_eq|by apply lookup_delete_ne].
Qed.

#[export] Instance small_libs : LfsLibs := {
  ll_bucket_name _ := true; ll_object_name _ := true; ll_cid b := Some (string_of_bytes b); ll_digest _ b := copy_into 16 b }.
#[export] Instance small_base58 : Base58 := { base58_Encode := String.string_of_list_ascii }.
#[export] Instance small_base58_laws : Base58Laws.
Proof. constructor. intros x y E. change (String.string_of_list_ascii x = String.string_of_list_ascii y) in E. by rewrite <-(String.list_ascii_of_string_of_list_ascii x), E, String.list_ascii_of_string_of_list_ascii. Qed.
#[export] Instance small_aes : AesEnv := { aes_Encrypt _ b := reverse b; aes_Decrypt _ b := reverse b; blake3_Sum256 b := copy_into 32 b }.
#[export] Instance small_aes_laws : AesLaws.
Proof.
  constructor.
  - intros key b Hb. split; [|apply reverse_involutive]. rewrite <-Hb. apply length_reverse.
  - intros key b Hb. rewrite <-Hb. apply length_reverse.
  - intros b. apply length_copy_into.
Qed.

#[export] Instance small_verifier : VerifierLaws (DV := list (bytes * bytes)).
Proof.
  exists (Forall (fun p => p.1 = p.2)) (Forall (fun p => p.1 = p.2)).
  - by intros v [= <-].
  - done.
  - intros v index data tag Hv [= <-]. eexists. split; [reflexivity|]. apply Forall_app. by split; [|repeat constructor].
  - done.
  - intros v Hv. cbn. f_equal. apply forallb_forall. intros p Hp%list_elem_of_In. rewrite Forall_forall in Hv. apply bool_decide_eq_true, Hv, Hp.
Qed.

(** ** A bucket *)

Definition block_prefix : Prefix := mkPrefix 1 MulPolicy 1 1 PDPV2 16.
Definition block_coder : DataCoder (list (bytes * bytes)) := mkDataCoder block_prefix 2 24 2 48 136.
Definition user_conf : lfsConf := mkLfsConf 9 (replicate FSID_LEN (byte_of_Z 5)) [byte_of_Z 1] false.
Definition block_dp : dataProcess (list (bytes * bytes)) := mkDataProcess 0 1 1 16 (lf_fsID user_conf) block_coder.
Definition the_clock : nat -> Z := fun n => 1000 + Z.of_nat n.

Lemma block_coder_ok : coder_ok block_coder.
Proof. split; [reflexivity|cbv -[Z.lt Z.le Z.pow]; lia|reflexivity..|]. left. split; reflexivity. Qed.
Lemma block_dp_ok : dp_ok block_dp.
Proof. constructor; [apply block_coder_ok|reflexivity..]. Qed.
Lemma block_few : Z.of_nat (dcd_chunkCount (dp_coder block_dp)) <= 2^32.
Proof. cbn. lia. Qed.
Lemma block_encodes s enc : is_u64 s -> (0 < length enc <= stripe_len block_dp)%nat ->
  exists encoded, Encode (dp_coder block_dp) (CreateSegmentID (dp_fsID block_dp) (dp_bucketID block_dp) s 0) enc = Ok encoded.
Proof.
  intros _ Hl. unfold Encode. change (stripe_len block_dp) with 16%nat in Hl. change (dcd_dc (dp_coder block_dp) * dcd_seg (dp_coder block_dp))%nat with 16%nat.
  replace (length enc =? 0)%nat with false by (symmetry; apply Nat.eqb_neq; lia). replace (16 <? length enc)%nat with false by (symmetry; apply Nat.ltb_ge; lia).
  change (negb _) with false. cbv iota. by eexists.
Qed.

Definition open_bucket : bucket :=
  mkBucket (mkBucketOption 1 MulPolicy 1 1 PDPV2 16) (mkBucketInfo 0 1 1 0 0 0 2 false "photos" []) true tr_new ∅ [] true false false.
Definition lfs0 : lfsSt (DV := list (bytes * bytes)) :=
  mkLfsSt ∅ (mkSuperBlock (mkSuperBlockInfo 0 3 1) false true 1 {["photos" := 0]} [open_bucket] ∅) ∅ [] [] 0 0 10 0 {[0 := block_dp]}.

Definition user0 : userSt (DV := list (bytes * bytes)) := mkUserSt lfs0 ∅.

Lemma user0_refines : refines user_conf block_dp "photos" user0 ∅ 0 ∅.
Proof.
  split; [|intros id pid d Hg; by rewrite lookup_empty in Hg]. constructor; [done..|]. exists open_bucket. split; [split_and!; done|]. by constructor.
Qed.

(** Providers that have nothing. *)
Definition no_network : network := mkNetwork id (fun _ _ => None) None (fun _ => None).
Definition call_user := lfs_call user_conf the_clock "photos" (2^30) (10 * 2^30) "".

(** All four chunks of the object move to provider 5, which loses the first one of each of
    the two stripes. *)
Definition put_cat : call := Put "cat" {["encryption" := "aes3"]} (bytes_of_string "a cat on a mat, asleep").
Definition cat_chunks : gmap bytes bytes := Eval vm_compute in l_segs (us_lfs (call_user no_network put_cat user0).2).
Definition careless (pid : Z) (id : bytes) : option bytes := if (pid =? 5) && negb (GetChunkID id =? 0) then cat_chunks !! id else None.
Definition careless_network : network := mkNetwork id careless None (fun _ => None).
Definition cat_seq : OrderSeq := mkOrderSeq 9 5 0 0 0 None [mkAggSegs 0 0 2 0; mkAggSegs 0 0 2 1].
Definition user_calls : list (network * call) := map (pair careless_network)
  [put_cat; Confirm cat_seq; Get "cat" 11 (-1); Put "cat" ∅ []; Delete "cat"; Get "cat" 0 1].

Lemma careless_serves us g : map_Forall (fun id x => x.1 = 5 /\ cat_chunks !! id = Some x.2) g -> served careless block_dp us g.
Proof.
  intros Hg s. exists [0%nat]. split; [done|]. intros i pid d id Hi _ E. destruct (Hg _ _ E) as [Hp Hd]. cbn [fst snd] in *. subst pid. unfold careless.
  change (5 =? 5) with true. assert (Hc : GetChunkID id = Z.of_nat i) by (apply Create_GetChunkID; unfold is_u32; change (dcd_chunkCount (dp_coder block_dp)) with 2%nat in Hi; lia).
  rewrite Hc. destruct i as [|i]; [by rewrite decide_True by (by left)|]. rewrite decide_False; [by rewrite (proj2 (Z.eqb_neq _ _)) by lia|].
  by intros [?|?%not_elem_of_nil]%elem_of_cons.
Qed.
Lemma user_calls_ok : calls_ok user_conf the_clock block_dp "photos" (2^30) (10 * 2^30) "" user_calls user0 ∅.
Proof.
  assert (Hg : map_Forall (fun id x => x.1 = 5 /\ cat_chunks !! id = Some x.2)
    (handed user_conf (call_user careless_network put_cat user0).2 ∅ (Confirm cat_seq))) by (refine (bool_decide_unpack _ _); vm_compute; exact I).
  cbn [calls_ok user_calls map call_served handed]. split_and!; try exact I; try (split; [done|cbn; unfold is_u64; repeat split; (done || lia)]).
  - by apply careless_serves.
  - by apply careless_serves.
Qed.

Lemma bucket_refines_map_witness :
  (lfs_calls user_conf the_clock "photos" (2^30) (10 * 2^30) "" user_calls user0).1 =
    [Ok []; Ok []; Ok (bytes_of_string "mat, asleep"); Err "object already exist"; Ok []; Err "object not exist"].
Proof.
  destruct (bucket_refines_map user_conf the_clock block_dp block_dp_ok block_few block_encodes ltac:(by eexists) "photos" (2^30) (10 * 2^30) "" ltac:(lia)
    user_calls user0 ∅ 0 ∅ user0_refines user_calls_ok) as [E _]; [vm_compute; reflexivity|]. rewrite E. vm_compute. reflexivity.
Defined.


(** Sixteen bytes are a stripe. *)
Lemma put_loses_tail_witness : exists us2,
  call_user no_network (Put "cat" ∅ (bytes_of_string "a cat on the mat")) user0 = (Ok [], us2) /\
  forall nw2 start length_, call_ok (nw2, Get "cat" start length_) -> call_user nw2 (Get "cat" start length_) us2 = (Err "object is empty", us2).
Proof.
  apply (put_loses_tail user_conf the_clock block_dp block_dp_ok block_few block_encodes ltac:(by eexists) "photos" (2^30) (10 * 2^30) "" ltac:(lia)
    no_network "cat" ∅ (bytes_of_string "a cat on the mat") 1 user0 ∅ 0 ∅ user0_refines); [done|done|done|reflexivity|unfold batch; lia].
Defined.

(** ** Chunks missing *)

Definition cat_data : bytes := bytes_of_string "a cat on a mat, asleep".
Definition cat_object : object :=
  mkObject (mkObjectInfo 0 0 1 0 "cat" "aes3" ∅) [mkObjectPartInfo 0 22 0 64 1 []] 22 64 1 None [] [2; 3] false false false.
Definition cat_stripe (s : Z) (j : nat) : list bytes :=
  match encrypt_stripe (stripe_key user_conf 0 cat_object s) (piece 16 j cat_data) with
  | Ok enc => match Encode block_coder (CreateSegmentID (lf_fsID user_conf) 0 s 0) enc with Ok chunks => chunks | _ => [] end
  | _ => []
  end.
(** The second chunk of the first stripe is here, the first of the second with a provider. *)
Definition chunk_here : bytes := Eval vm_compute in nth 1 (cat_stripe 0 0) [].
Definition chunk_there : bytes := Eval vm_compute in nth 0 (cat_stripe 1 1) [].
Definition cat_remote (id : bytes) : option bytes := if bool_decide (id = seg_id block_dp 0 1 0) then Some chunk_there else None.
Definition cat_bucket : bucket := set_bu_heap (fun _ => [cat_object]) (set_bu_objectTree (fun _ => {["cat" := 0%nat]} : tree) open_bucket).
Definition user_lost : lfsSt (DV := list (bytes * bytes)) :=
  set_l_segs (fun _ => {[seg_id block_dp 0 0 1 := chunk_here]}) (set_l_sb (set_sb_buckets (fun _ => [cat_bucket])) lfs0).

Lemma cat_readable s j keep : (s, j, keep) ∈ [(0, 0%nat, [false; true]); (1, 1%nat, [true; false])] ->
  readable user_conf user_lost cat_remote block_dp cat_object 0 s (piece 16 j cat_data).
Proof.
  intros Hin. exists (cat_stripe s j), keep. unfold stripe_cut.
  repeat (apply elem_of_cons in Hin as [E|Hin]; [injection E as -> -> ->|]); [| |by apply not_elem_of_nil in Hin].
  - split; [eexists; split; [vm_compute; reflexivity|vm_compute; reflexivity]|]. split; [reflexivity|]. split; [apply Nat.leb_le; reflexivity|].
    intros [|[|i]] Hi; [vm_compute; reflexivity..|]. vm_compute in Hi. lia.
  - split; [eexists; split; [vm_compute; reflexivity|vm_compute; reflexivity]|]. split; [reflexivity|]. split; [apply Nat.leb_le; reflexivity|].
    intros [|[|i]] Hi; [vm_compute; reflexivity..|]. vm_compute in Hi. lia.
Qed.

Lemma cat_holds : object_holds user_conf user_lost cat_remote block_dp 0 cat_object cat_data.
Proof.
  exists [cat_data]. split_and!; [by rewrite concat_cons, app_nil_r| |reflexivity|reflexivity|cbn; lia]. constructor; [|constructor]. constructor; [reflexivity|cbn; lia| |cbn; lia].
  exists 0. split; [lia|]. split; [reflexivity|]. intros [|[|j]] Hj; [apply (cat_readable 0 0 [false; true]); by left|apply (cat_readable 1 1 [true; false]); right; by left|].
  change (stripe_len block_dp) with 16%nat in Hj. cbn [length cat_data] in Hj. cbn in Hj. lia.
Qed.

Lemma download_reads_witness :
  getObject user_conf id cat_remote (fun _ => None) "photos" "cat" 11 3 user_lost = (Ok (bytes_of_string "mat"), user_lost).
Proof.
  apply (download_reads user_conf user_lost cat_remote (fun _ => None) block_dp id "photos" "cat" 0 cat_bucket 0 cat_object cat_data 11 3 block_dp_ok);
    [split_and!; done|done|done|done|done|by eexists|done|exact cat_holds|done..].
Defined.
